(* ===== verification/_CoqProject ===== *)
-Q . S2P
Prelude.v
BTreeMap.v
Crates.v
Reference.v
Mio.v
Messages.v
Protobuf.v
ProtobufRef.v
Serialization.v
SerializationFacts.v
Descriptor.v
Reflection.v
Clock.v
Codec.v
RangeBounds.v
State.v
Connections.v
ConnectionFacts.v
ConnectionRuns.v
AckedLog.v
Server.v
Transport.v
ReflectionFacts.v
ServerFacts.v
Outbox.v
Invariant.v
Election.v
KV.v
Replication.v
Commitment.v
ClientApi.v
Node.v
NodeFacts.v
NodeService.v
TokenReuse.v
Cluster.v
Scenario.v
NodeRuns.v
Client.v
ClientFacts.v
ClientRuns.v
Address.v
Programs.v
Logging.v
Voting.v
Lease.v
Deviations.v
Witnesses.v
