(* ===== verification/Prelude.v ===== *)
(** * Rasputin: a Rocq model of a replicated key-value store

    Rasputin (src/) is a small replicated key-value store in Rust.  Every node
    runs one [Server] (src/src/server/server.rs): a leader is elected under a
    twelve-second lease by a quorum of votes, clients send it mutations, it appends
    them to its log, replicates them to the nodes that voted for it, and applies to
    its RocksDB store what a quorum has acknowledged; followers accept appends that
    link to their log and apply what the leader has learned.  Nodes and clients
    exchange protobuf messages (src/src/serialization.rs) framed by a four-byte
    length (src/src/codec.rs) through an event loop (src/src/server/traffic_cop.rs,
    connset.rs, server_conn.rs); three threads (peer requests, client requests,
    cron) take turns on the server under one mutex.  A client library
    (src/src/client/mod.rs) asks one server after the other; two programs
    (src/src/bin/) start a server and a client.

    ** The files

    - [Prelude]: panics as values ([Outcome]), fixed-width integers, automation.
    - [BTreeMap]: [std::collections::BTreeMap] as a sorted association list, so
      that iteration order is the code's, with its lookup laws.
    - [Crates]: the external crates (time, bytes, rocksdb, protobuf) as classes of
      operations, and classes of the laws the code relies on.
    - [Reference]: one executable implementation of each, with its laws.
    - [Mio]: the event loop library (mio) as a class with its laws, and an
      implementation over lists.
    - [Messages]: the generated messages of serialization.rs: per message a record
      of optional fields and every accessor, [is_initialized], [clear], [eq].
    - [Protobuf], [ProtobufRef]: the streams of the protobuf crate as a class with
      its laws and an implementation; what the generated wire methods share.
    - [Serialization]: the wire methods of every generated message.
    - [SerializationFacts]: the encoding of every message, and that the wire methods
      write and read it.
    - [Descriptor]: serialization.proto and the descriptor embedded in serialization.rs,
      byte by byte, and the encoding of declarations as such bytes; [Reflection]: the reflection table
      ([descriptor_static]) of every message; [ReflectionFacts]: what they agree on.
    - [Clock]: clock.rs; the real clock as an arbitrary sequence of readings, the
      simulator's clock with its [u32]/[i32] arithmetic.
    - [Codec]: codec.rs; the incremental decoder against the division of a byte
      stream into frames.
    - [RangeBounds]: range_bounds.rs.
    - [State]: server/mod.rs; constants, envelopes, the [State] enum.
    - [Connections]: server/server_conn.rs, connset.rs, traffic_cop.rs; reads and writes
      of a connection, sets of connections, the handler of the event loop.
    - [ConnectionFacts], [ConnectionRuns]: what they promise; instances.
    - [AckedLog]: server/acked_log.rs; the trait as a class with laws, the
      in-memory log with its chain invariant, and the proof that it meets the laws.
    - [Server]: server/server.rs; the struct, a state-and-panic monad [M], and one
      definition per method, with every read of the clock and every [unwrap].
    - [Transport]: the contract of a message type as a class, an instance for every
      message, and the path of messages through serialisation and framing.
    - [ServerFacts]: inversion and execution of runs of [M]; [Outbox]: what was sent
      stays sent.
    - [Invariant]: the server invariant, kept by every event.
    - [Election]: leases, votes, leadership, cron.
    - [KV]: the abstract key-value store, with the faults of a store that reports errors,
      and the proof that [learn] implements it.
    - [Replication]: followers' appends, leaders' proposals and commitment, and
      that a leader's log only grows; all against the [AckedLog] laws.
    - [Commitment]: what the in-memory log makes of acks and of several entries that are
      committed at once.
    - [ClientApi]: the answers to clients, and the end-to-end refinement of the
      abstract store by a cluster of one node.
    - [Node]: [Server::run]; the server, the connections and the channels between them,
      with the four threads as steps in any order, panics that poison the mutex, and the
      end of the process.  [NodeFacts]: the invariant of the whole, and its end;
      [NodeService]: what the clients of a lone node see; [TokenReuse]: what the next
      client with the same token sees; [NodeRuns]: instances.
    - [Cluster]: any number of servers on a network that delays, repeats and loses
      messages; [Voting]: the effect of each vote message there; [Lease]: that leases
      exclude each other as long as they are not extended.
    - [Client]: client/mod.rs; [ClientFacts], [ClientRuns]: what it promises; instances.
    - [Address]: addresses as text; [Programs]: bin/rasputind.rs, bin/rasputinc.rs,
      server/rocksdb.rs and the start of [TrafficCop] and [Server::run].
    - [Logging]: logging/mod.rs.
    - [Scenario]: concrete servers that run.
    - [Deviations], [Witnesses]: runs that deviate from the documented intent;
      instances of the theorems.

    ** How the code is modelled

    A method of [Server] is a function of the server that returns a result and the
    new server, or panics; [rpc_tx] is the sequence of envelopes handed to the event
    loop, from where [notify] takes them; a method of a connection takes the event loop
    and the channels and returns them.  [usize] and [u64] are [Z] with checked
    arithmetic (the README builds the debug profile, in which overflow panics), casts
    reduce modulo the width.  The clock is read where the source reads it, each reading possibly different.
    Messages are parsed and written by the generated code over the crate's streams;
    a theorem that a handler does not panic asks that its answer can be written
    (its required fields are set and it is below four gigabytes).
    [Event] and [run_events] are the turns the threads take on the mutex, in any
    order; [node_step] adds the event loop, the queues and the ways in which a thread
    ends.  What a handler had sent before it panicked is not kept.  The connections'
    sockets, the disk and the network of a client are parameters.  Log statements are left out except where their arguments can panic.

    ** Fuel

    Six loops need fuel.  [ack_loop] and [commit_loop] remove one pending entry per
    turn and are run with one turn more than there are entries; [decode_loop] reads
    at least one byte per turn but the last, and [merge_loop] at least a tag, and they
    are run with one turn more than the input has bytes.  The theorems show that they
    return, so the fuel is enough; where a loop's result can itself be an error
    ([merge_loop]), running out of turns is a value of its own ([OutOfTurns]).  The client's [send_to] and [recv_into] need not
    return; the theorems say from how many turns on they do (C22), or that no number of
    turns is enough (C36).

    ** What is shown

    - Safety of a node: the invariant of C1; leases that cannot be pre-empted (C2);
      votes, quorums and lease extension (C13, C14, C15); elections are started
      (C16); a leader's log only grows (C5).
    - Safety of a cluster of up to 509 nodes that holds elections on a common clock: at
      most one valid leader, without lease extension and while no highest term goes back
      (C9); C31 and C32 show that both conditions are needed.
    - The log: C3, C24, C25.
    - Replication and commitment, functionally and against the abstract store: C6,
      C7, C8, C12; the single-node cluster end to end: C4, and over the connections of
      its clients, in a run in which none of them fails: C10.  RocksDB may report an error
      on any read or write: the abstract store then has the same fault, a failed write is
      applied as a whole or not at all ([db_put_err], [db_delete_err] in [Crates]), and
      the client is told.
    - The threads of a node together: C11; a panic of one ends the others: C23.
    - Clients: C26, C27, C30 on the server's side, C22 on their own.
    - The wire: messages over a link of two connections (C20), from message to bytes
      and back (C18, C19), framing (C21), both together (C28); the descriptor is the one
      of the protocol file and the generated code does what it says (C17).
    - Start-up: C29.  The simulator's clock: C40.
    - Runs and behaviours that contradict the documented intent: C31 to C39.

    ** What is not modelled, and what is planned

    Not modelled: docopt's decoding of the command line, the usage texts and the banner;
    [log::set_logger]; the crates the code calls, which are classes with laws; the tests
    and their simulated cluster (src/test/), of which [Cluster] is a more permissive
    version; the load test in Go.  Addresses are IPv4 ones,
    the only kind the servers bind and dial.  Planned, in this order: what a client that retries can see of a cluster whose
    nodes fail; that followers' stores are those of their leader when appends carry one
    mutation each; the connections between the nodes of a cluster in place of its
    idealised network. *)

From stdpp Require Import base tactics option list numbers strings.
From Stdlib Require Import ZArith Lia.

Open Scope Z_scope.

(** ** Panics

    Rust code that runs to completion, or panics with a message: an [unwrap]
    of [None]/[Err], a failed [assert!], an explicit [panic!] and, in the
    build the README describes ([cargo build], the debug profile), an integer
    overflow.  A panic carries the message for the reader of a trace; no
    theorem depends on its text. *)

Inductive Outcome (A : Type) : Type :=
| Done (a : A)
| Panic (msg : string).
Arguments Done {A} a.
Arguments Panic {A} msg.

#[export] Instance Outcome_ret : MRet Outcome := fun A a => Done a.
#[export] Instance Outcome_bind : MBind Outcome := fun A B f m =>
  match m with
  | Done a => f a
  | Panic e => Panic e
  end.
#[export] Instance Outcome_fmap : FMap Outcome := fun A B f m =>
  match m with
  | Done a => Done (f a)
  | Panic e => Panic e
  end.

Definition is_done {A} (o : Outcome A) : Prop := exists a, o = Done a.
Definition is_panic {A} (o : Outcome A) : Prop := exists e, o = Panic e.

(** [Option::unwrap] *)
Definition unwrap {A} (o : option A) : Outcome A :=
  match o with
  | Some a => Done a
  | None => Panic "called `Option::unwrap()` on a `None` value"
  end.

(** [assert!] *)
Definition assert_true (b : bool) : Outcome () :=
  if b then Done tt else Panic "assertion failed".

Lemma Done_inj {A} (a b : A) : Done a = Done b -> a = b.
Proof. congruence. Qed.

Lemma bind_Done {A B} (f : A -> Outcome B) (m : Outcome A) (b : B) :
  mbind f m = Done b <-> exists a, m = Done a /\ f a = Done b.
Proof. destruct m; cbn; naive_solver. Qed.

Lemma bind_ret {A B} (f : A -> Outcome B) (a : A) : mbind f (Done a) = f a.
Proof. done. Qed.

(** ** Fixed-width integers

    A [u8], [u32], [u64] or [usize] (64-bit targets) is a [Z] with its range;
    [as] casts reduce modulo the width, checked arithmetic panics outside the
    range. *)

Definition u8_max : Z := 2 ^ 8 - 1.
Definition u32_max : Z := 2 ^ 32 - 1.
Definition u64_max : Z := 2 ^ 64 - 1.
Definition usize_max : Z := u64_max.

Definition in_u8 (z : Z) : Prop := 0 <= z <= u8_max.
Definition in_u32 (z : Z) : Prop := 0 <= z <= u32_max.
Definition in_u64 (z : Z) : Prop := 0 <= z <= u64_max.

Definition as_u8 (z : Z) : Z := z mod 2 ^ 8.
Definition as_u32 (z : Z) : Z := z mod 2 ^ 32.
Definition as_i32 (z : Z) : Z := (z + 2 ^ 31) mod 2 ^ 32 - 2 ^ 31.

Definition overflow {A} : Outcome A := Panic "arithmetic operation overflowed".

Definition checked (lo hi z : Z) : Outcome Z :=
  if (lo <=? z) && (z <=? hi) then Done z else overflow.

Definition u64_add (a b : Z) : Outcome Z := checked 0 u64_max (a + b).
Definition u64_sub (a b : Z) : Outcome Z := checked 0 u64_max (a - b).
Definition u32_add (a b : Z) : Outcome Z := checked 0 u32_max (a + b).
Definition u32_mul (a b : Z) : Outcome Z := checked 0 u32_max (a * b).
Definition i32_add (a b : Z) : Outcome Z := checked (- 2 ^ 31) (2 ^ 31 - 1) (a + b).
Definition i64_add (a b : Z) : Outcome Z := checked (- 2 ^ 63) (2 ^ 63 - 1) (a + b).

Lemma checked_Done lo hi z r :
  checked lo hi z = Done r <-> r = z /\ lo <= z <= hi.
Proof.
  unfold checked, overflow.
  destruct (Z.leb_spec lo z), (Z.leb_spec z hi); cbn; split;
    intros H1; simplify_eq; (done || lia || (destruct H1; congruence || lia)).
Qed.

Lemma checked_ok lo hi z : lo <= z <= hi -> checked lo hi z = Done z.
Proof. intros H. by apply checked_Done. Qed.

Lemma checked_overflow lo hi z : (z < lo \/ hi < z) -> is_panic (checked lo hi z).
Proof.
  intros H. unfold checked, is_panic, overflow.
  destruct (Z.leb_spec lo z), (Z.leb_spec z hi); cbn; eauto; lia.
Qed.

Lemma as_u8_small z : in_u8 z -> as_u8 z = z.
Proof. unfold in_u8, as_u8, u8_max. intros. apply Z.mod_small. lia. Qed.

Lemma as_u8_range z : in_u8 (as_u8 z).
Proof. unfold in_u8, as_u8, u8_max. pose proof (Z.mod_pos_bound z (2 ^ 8)). lia. Qed.

Lemma as_i32_small z : - 2 ^ 31 <= z < 2 ^ 31 -> as_i32 z = z.
Proof. intros. unfold as_i32. rewrite Z.mod_small; lia. Qed.

(** ** Lists *)

Lemma NoDup_snoc {A} (l : list A) (x : A) : NoDup l -> x ∉ l -> NoDup (l ++ [x]).
Proof.
  intros Hl Hx. apply NoDup_app. split_and!; [done| |apply NoDup_singleton].
  by intros y Hy ->%list_elem_of_singleton.
Qed.

(** A sequence of [u8]. *)
Definition is_bytes (l : list Z) : Prop := Forall in_u8 l.

Lemma is_bytes_app a b : is_bytes (a ++ b) <-> is_bytes a /\ is_bytes b.
Proof. apply Forall_app. Qed.

(** ** Automation *)

Create HintDb rasputin.
#[export] Hint Resolve checked_ok as_u8_range : rasputin.

(** Splits the boolean tests of a model into their propositions. *)
Ltac bool_split :=
  repeat match goal with
  | H : _ && _ = true |- _ => apply andb_true_iff in H as [? ?]
  | H : _ || _ = false |- _ => apply orb_false_iff in H as [? ?]
  | H : negb _ = true |- _ => apply negb_true_iff in H
  | H : negb _ = false |- _ => apply negb_false_iff in H
  | H : bool_decide _ = true |- _ => apply bool_decide_eq_true in H
  | H : bool_decide _ = false |- _ => apply bool_decide_eq_false in H
  | H : (_ <? _) = true |- _ => apply Z.ltb_lt in H
  | H : (_ <? _) = false |- _ => apply Z.ltb_ge in H
  | H : (_ <=? _) = true |- _ => apply Z.leb_le in H
  | H : (_ <=? _) = false |- _ => apply Z.leb_gt in H
  | H : (_ =? _) = true |- _ => apply Z.eqb_eq in H
  | H : (_ =? _) = false |- _ => apply Z.eqb_neq in H
  end.

(** Inverts a computation that ended without a panic. *)
Ltac invert_done :=
  repeat match goal with
  | H : mbind _ _ = Done _ |- _ =>
      apply bind_Done in H; destruct H as (? & ? & ?)
  | H : Done _ = Done _ |- _ => apply Done_inj in H
  | H : Panic _ = Done _ |- _ => discriminate H
  | H : (_, _) = (_, _) |- _ => injection H as ? ?
  | H : checked _ _ _ = Done _ |- _ => apply checked_Done in H as [? ?]
  | H : mret _ = Done _ |- _ => apply Done_inj in H
  end.
