(* ===== verification/BTreeMap.v ===== *)
(** * Ordered maps

    [std::collections::BTreeMap] as the source uses it: [insert], [get],
    [remove], [len], [keys] and iteration in ascending key order.  A map is its
    sequence of bindings in that order; [bt_wf] is the representation
    invariant, and every operation keeps it.  Also the byte-lexicographic
    comparison of [Vec<u8>] and [String], which the source's ordered keys
    use. *)

From stdpp Require Import base tactics option list numbers strings sorting.
From Stdlib Require Import ZArith Lia Ascii.
From S2P Require Import Prelude.

(** ** Ordered keys: the [Ord] trait *)

Class OrdKey (K : Type) : Type := {
  key_cmp : K -> K -> comparison;
  key_cmp_eq : forall a b, key_cmp a b = Eq <-> a = b;
  key_cmp_antisym : forall a b, key_cmp b a = CompOpp (key_cmp a b);
  key_cmp_trans : forall a b c, key_cmp a b = Lt -> key_cmp b c = Lt -> key_cmp a c = Lt;
}.

Section OrdKeyFacts.
Context {K : Type} `{OrdKey K}.

Lemma key_cmp_refl (a : K) : key_cmp a a = Eq.
Proof. by apply key_cmp_eq. Qed.

Lemma key_cmp_gt_lt (a b : K) : key_cmp a b = Gt <-> key_cmp b a = Lt.
Proof. rewrite (key_cmp_antisym a b). destruct (key_cmp a b); cbn; naive_solver. Qed.

End OrdKeyFacts.

#[export] Instance Z_OrdKey : OrdKey Z.
Proof.
  refine {| key_cmp := Z.compare |}.
  - intros a b. apply Z.compare_eq_iff.
  - intros a b. apply Z.compare_antisym.
  - intros a b c. rewrite !Z.compare_lt_iff. lia.
Defined.

(** Byte-lexicographic comparison, [<[u8] as Ord>::cmp]. *)
Fixpoint lex_cmp (a b : list Z) : comparison :=
  match a, b with
  | [], [] => Eq
  | [], _ :: _ => Lt
  | _ :: _, [] => Gt
  | x :: a', y :: b' =>
      match Z.compare x y with
      | Eq => lex_cmp a' b'
      | c => c
      end
  end.

Lemma lex_cmp_eq a b : lex_cmp a b = Eq <-> a = b.
Proof.
  revert b. induction a as [|x a IH]; intros [|y b]; cbn; [done..|].
  destruct (Z.compare_spec x y); subst.
  - rewrite IH. naive_solver.
  - split; [done|]. intros ?; simplify_eq; lia.
  - split; [done|]. intros ?; simplify_eq; lia.
Qed.

Lemma lex_cmp_antisym a b : lex_cmp b a = CompOpp (lex_cmp a b).
Proof.
  revert b. induction a as [|x a IH]; intros [|y b]; cbn; [done..|].
  rewrite (Z.compare_antisym x y). destruct (x ?= y); cbn; auto.
Qed.

Lemma lex_cmp_trans a b c : lex_cmp a b = Lt -> lex_cmp b c = Lt -> lex_cmp a c = Lt.
Proof.
  revert b c. induction a as [|x a IH]; intros [|y b] [|z c]; cbn; try done.
  destruct (Z.compare_spec x y), (Z.compare_spec y z), (Z.compare_spec x z);
    subst; try done; try lia. apply IH.
Qed.

#[export] Instance bytes_OrdKey : OrdKey (list Z) :=
  {| key_cmp := lex_cmp; key_cmp_eq := lex_cmp_eq;
     key_cmp_antisym := lex_cmp_antisym; key_cmp_trans := lex_cmp_trans |}.

(** A Rust [String] compares as its bytes. *)
Fixpoint string_bytes (s : string) : list Z :=
  match s with
  | EmptyString => []
  | String c s' => Z.of_N (N_of_ascii c) :: string_bytes s'
  end.

#[export] Instance string_bytes_inj : Inj (=) (=) string_bytes.
Proof.
  intros s. induction s as [|c s IH]; intros [|d t]; cbn; try done.
  intros [= Hc Hs]. apply N2Z.inj in Hc.
  rewrite <-(ascii_N_embedding c), <-(ascii_N_embedding d), Hc.
  f_equal. by apply IH.
Qed.

#[export] Instance string_OrdKey : OrdKey string.
Proof.
  refine {| key_cmp a b := lex_cmp (string_bytes a) (string_bytes b) |}.
  - intros a b. rewrite lex_cmp_eq. split; [apply (inj string_bytes)|by intros ->].
  - intros a b. apply lex_cmp_antisym.
  - intros a b c. apply lex_cmp_trans.
Defined.

(** ** The map *)

Abbreviation BTreeMap K V := (list (K * V)%type) (only parsing).

Section BTreeMap.
Context {K V : Type} `{OrdKey K}.
Implicit Types (m : BTreeMap K V) (k : K) (v : V).

Fixpoint bt_get m k : option V :=
  match m with
  | [] => None
  | (k', v) :: m' =>
      match key_cmp k k' with
      | Lt => None
      | Eq => Some v
      | Gt => bt_get m' k
      end
  end.

Fixpoint bt_insert k v m : BTreeMap K V :=
  match m with
  | [] => [(k, v)]
  | (k', v') :: m' =>
      match key_cmp k k' with
      | Lt => (k, v) :: m
      | Eq => (k, v) :: m'
      | Gt => (k', v') :: bt_insert k v m'
      end
  end.

Fixpoint bt_remove k m : BTreeMap K V :=
  match m with
  | [] => []
  | (k', v') :: m' =>
      match key_cmp k k' with
      | Lt => m
      | Eq => m'
      | Gt => (k', v') :: bt_remove k m'
      end
  end.

Definition bt_keys m : list K := map fst m.
Definition bt_len m : nat := length m.
Definition bt_first_key m : option K := head (bt_keys m).

Definition key_lt (a b : K) : Prop := key_cmp a b = Lt.
Definition bind_lt (a b : K * V) : Prop := key_lt a.1 b.1.
Definition bt_wf m : Prop := StronglySorted bind_lt m.

Lemma bt_wf_nil : bt_wf [].
Proof. constructor. Qed.

Lemma bt_wf_cons_inv k v m :
  bt_wf ((k, v) :: m) -> bt_wf m /\ Forall (fun p => key_lt k p.1) m.
Proof. intros Hw. apply StronglySorted_inv in Hw. done. Qed.

Lemma key_lt_below k k' m :
  key_cmp k k' = Lt -> Forall (fun p : K * V => key_lt k' p.1) m ->
  Forall (fun p => key_lt k p.1) m.
Proof.
  intros Hlt Hm. eapply Forall_impl; [done|]. intros p Hp. by eapply key_cmp_trans.
Qed.

Lemma bt_get_below m k :
  Forall (fun p : K * V => key_lt k p.1) m -> bt_get m k = None.
Proof.
  destruct m as [|[k' v'] m]; [done|].
  intros [Hk _]%Forall_cons. cbn in *. by rewrite Hk.
Qed.

(** Every binding of the map is found, and only those. *)
Lemma bt_get_elem m k v : bt_wf m -> bt_get m k = Some v <-> (k, v) ∈ m.
Proof.
  induction m as [|[k' v'] m IH]; intros Hw; cbn.
  { split; [done|]. by intros ?%not_elem_of_nil. }
  apply bt_wf_cons_inv in Hw as [Hw Hlt]. rewrite elem_of_cons.
  assert (Hnot : key_cmp k k' = Eq \/ key_cmp k k' = Lt -> (k, v) ∉ m).
  { intros Hc Hin. rewrite Forall_forall in Hlt. apply Hlt in Hin. unfold key_lt in Hin; cbn in Hin.
    destruct Hc as [->%key_cmp_eq|Hc]; [by rewrite key_cmp_refl in Hin|].
    pose proof (key_cmp_trans _ _ _ Hc Hin) as Hx. by rewrite key_cmp_refl in Hx. }
  destruct (key_cmp k k') eqn:E.
  - apply key_cmp_eq in E as ->. naive_solver.
  - split; [done|]. intros [?|?]; [|naive_solver]. simplify_eq. by rewrite key_cmp_refl in E.
  - rewrite IH by done. split; [auto|].
    intros [?|?]; [|done]. simplify_eq. by rewrite key_cmp_refl in E.
Qed.

Lemma bt_insert_lb k v m (P : K * V -> Prop) :
  P (k, v) -> Forall P m -> Forall P (bt_insert k v m).
Proof.
  intros Hp. induction m as [|[k' v'] m IH]; intros Hm; cbn; [by constructor|].
  apply Forall_cons in Hm as [Hk Hm]. destruct (key_cmp k k'); auto.
Qed.

Lemma bt_remove_lb k m (P : K * V -> Prop) : Forall P m -> Forall P (bt_remove k m).
Proof.
  induction m as [|[k' v'] m IH]; intros Hm; cbn; [done|].
  apply Forall_cons in Hm as [Hk Hm]. destruct (key_cmp k k'); auto.
Qed.

Lemma bt_insert_wf k v m : bt_wf m -> bt_wf (bt_insert k v m).
Proof.
  induction m as [|[k' v'] m IH]; intros Hw; cbn; [repeat constructor|].
  pose proof Hw as [Hw' Hlt]%bt_wf_cons_inv.
  destruct (key_cmp k k') eqn:E.
  - apply key_cmp_eq in E as ->. by constructor.
  - constructor; [done|]. constructor; [done|]. by eapply key_lt_below.
  - constructor; [by apply IH|]. apply bt_insert_lb; [|done]. by apply key_cmp_gt_lt.
Qed.

Lemma bt_remove_wf k m : bt_wf m -> bt_wf (bt_remove k m).
Proof.
  induction m as [|[k' v'] m IH]; intros Hw; cbn; [done|].
  pose proof Hw as [Hw' Hlt]%bt_wf_cons_inv.
  destruct (key_cmp k k'); [done..|]. constructor; [by apply IH|by apply bt_remove_lb].
Qed.

Lemma bt_get_insert k v m : bt_get (bt_insert k v m) k = Some v.
Proof.
  induction m as [|[k' v'] m IH]; cbn; [by rewrite key_cmp_refl|].
  destruct (key_cmp k k') eqn:E; cbn; rewrite ?key_cmp_refl; [done..|]. by rewrite E.
Qed.

Lemma bt_get_insert_ne k k' v m : k <> k' -> bt_get (bt_insert k v m) k' = bt_get m k'.
Proof.
  intros Hne. induction m as [|[k1 v1] m IH]; cbn.
  - destruct (key_cmp k' k) eqn:E; [apply key_cmp_eq in E; congruence|done..].
  - destruct (key_cmp k k1) eqn:E; cbn.
    + apply key_cmp_eq in E as ->.
      destruct (key_cmp k' k1) eqn:E'; [apply key_cmp_eq in E'; congruence|done..].
    + destruct (key_cmp k' k) eqn:E'; [apply key_cmp_eq in E'; congruence| |done].
      by rewrite (key_cmp_trans _ _ _ E' E).
    + by destruct (key_cmp k' k1).
Qed.

Lemma bt_get_remove k m : bt_wf m -> bt_get (bt_remove k m) k = None.
Proof.
  induction m as [|[k' v'] m IH]; intros Hw; cbn; [done|].
  apply bt_wf_cons_inv in Hw as [Hw Hlt]. destruct (key_cmp k k') eqn:E; cbn.
  - apply key_cmp_eq in E as ->. by apply bt_get_below.
  - by rewrite E.
  - rewrite E. by apply IH.
Qed.

Lemma bt_get_remove_ne k k' m :
  bt_wf m -> k <> k' -> bt_get (bt_remove k m) k' = bt_get m k'.
Proof.
  intros Hw Hne. induction m as [|[k1 v1] m IH]; cbn; [done|].
  apply bt_wf_cons_inv in Hw as [Hw Hlt]. destruct (key_cmp k k1) eqn:E; cbn.
  - apply key_cmp_eq in E as ->.
    destruct (key_cmp k' k1) eqn:E'; [apply key_cmp_eq in E'; congruence| |done].
    apply bt_get_below. by eapply key_lt_below.
  - done.
  - destruct (key_cmp k' k1); auto.
Qed.

(** [keys().next()] and the removal of that first binding. *)
Lemma bt_remove_first k v m : bt_remove k ((k, v) :: m) = m.
Proof. cbn. by rewrite key_cmp_refl. Qed.

Lemma bt_get_first k v m : bt_get ((k, v) :: m) k = Some v.
Proof. cbn. by rewrite key_cmp_refl. Qed.

(** The invariant only looks at the keys. *)
Lemma bt_wf_keys (W : Type) (m : BTreeMap K V) (m' : BTreeMap K W) :
  map fst m = map fst m' -> bt_wf m -> StronglySorted (fun a b : K * W => key_lt a.1 b.1) m'.
Proof.
  revert m'. induction m as [|[k v] m IH]; intros [|[k' w] m'] E Hw; cbn in E; try done; [constructor|].
  injection E as -> E. apply bt_wf_cons_inv in Hw as [Hw Hlt]. constructor; [by apply IH|].
  apply (proj1 (Forall_map fst (fun x => key_lt k' x) m')). rewrite <-E. by apply Forall_map.
Qed.

Lemma bt_insert_above k v m :
  Forall (fun p : K * V => key_lt p.1 k) m -> bt_insert k v m = m ++ [(k, v)].
Proof.
  induction m as [|[k' v'] m IH]; intros Hm; cbn; [done|].
  apply Forall_cons in Hm as [Hk Hm].
  replace (key_cmp k k') with Gt by (symmetry; by apply key_cmp_gt_lt).
  by rewrite IH.
Qed.
End BTreeMap.

#[export] Hint Resolve bt_wf_nil bt_insert_wf bt_remove_wf : rasputin.
