(* ===== verification/Crates.v ===== *)
(** * Interfaces of the external crates

    The crates the source calls are not part of the repository, so each is a
    class of operations, and a second class states the documented behaviour
    the source relies on.  The definitions of the model take the operations,
    the theorems that need it take the laws.  [Reference.v] has a concrete
    implementation of every interface.

    - [time]: [Timespec] with its ordering and [Timespec + Duration];
    - [bytes] (and [mio]'s [TryRead] on buffers): [ByteBuf], [MutByteBuf];
    - [rocksdb]: [put], [get], [delete];
    - [protobuf]: the unknown fields every generated message carries. *)

From stdpp Require Import base tactics option list numbers strings gmap pretty.
From Stdlib Require Import ZArith Lia.
From S2P Require Import Prelude.

(** ** [time] *)

Record Timespec : Type := mkTimespec { sec : Z; nsec : Z }.

Class TimeCrate : Type := {
  Duration : Type;
  Duration_seconds : Z -> Duration;
  (** [Timespec + Duration]; panics when the seconds overflow an [i64] *)
  Timespec_add : Timespec -> Duration -> Outcome Timespec;
  (** the derived [Ord] *)
  Timespec_cmp : Timespec -> Timespec -> comparison;
}.

Section TimeOps.
Context `{TimeCrate}.
Definition Timespec_lt (a b : Timespec) : bool :=
  match Timespec_cmp a b with Lt => true | _ => false end.
Definition Timespec_ge (a b : Timespec) : bool := negb (Timespec_lt a b).
End TimeOps.

(** A normalised time, far enough from the end of [i64] for a lease. *)
Definition ts_ok (t : Timespec) : Prop :=
  0 <= sec t <= 2 ^ 62 /\ 0 <= nsec t < 10 ^ 9.

Definition ts_shift (t : Timespec) (n : Z) : Timespec :=
  {| sec := sec t + n; nsec := nsec t |}.

Definition ts_lt (a b : Timespec) : Prop :=
  sec a < sec b \/ (sec a = sec b /\ nsec a < nsec b).
Definition ts_le (a b : Timespec) : Prop := ~ ts_lt b a.

Class TimeLaws `{TimeCrate} : Prop := {
  Timespec_cmp_spec : forall a b,
    Timespec_cmp a b = match sec a ?= sec b with Eq => nsec a ?= nsec b | c => c end;
  Timespec_add_seconds : forall t n, ts_ok t -> 0 <= n <= 2 ^ 31 ->
    Timespec_add t (Duration_seconds n) = Done (ts_shift t n);
}.

Section TimeFacts.
Context `{TimeLaws}.

Lemma Timespec_lt_spec a b : Timespec_lt a b = true <-> ts_lt a b.
Proof.
  unfold Timespec_lt, ts_lt. rewrite Timespec_cmp_spec.
  destruct (Z.compare_spec (sec a) (sec b)), (Z.compare_spec (nsec a) (nsec b));
    split; intros ?; try done; lia.
Qed.

Lemma Timespec_lt_false a b : Timespec_lt a b = false <-> ts_le b a.
Proof. unfold ts_le. rewrite <-Timespec_lt_spec. by destruct (Timespec_lt a b). Qed.

Lemma Timespec_ge_spec a b : Timespec_ge a b = true <-> ts_le b a.
Proof. unfold Timespec_ge. rewrite negb_true_iff. apply Timespec_lt_false. Qed.
End TimeFacts.

Lemma ts_le_refl a : ts_le a a.
Proof. unfold ts_le, ts_lt. lia. Qed.
Lemma ts_le_trans a b c : ts_le a b -> ts_le b c -> ts_le a c.
Proof. unfold ts_le, ts_lt. lia. Qed.
Lemma ts_lt_le_trans a b c : ts_lt a b -> ts_le b c -> ts_lt a c.
Proof. unfold ts_le, ts_lt. lia. Qed.
Lemma ts_le_lt_trans a b c : ts_le a b -> ts_lt b c -> ts_lt a c.
Proof. unfold ts_le, ts_lt. lia. Qed.
Lemma ts_lt_shift t n : 0 < n -> ts_lt t (ts_shift t n).
Proof. unfold ts_lt, ts_shift. cbn. lia. Qed.
Lemma ts_shift_mono a b n : ts_le a b -> ts_le (ts_shift a n) (ts_shift b n).
Proof. unfold ts_le, ts_lt, ts_shift. cbn. lia. Qed.
#[export] Hint Resolve ts_le_refl ts_lt_shift ts_shift_mono : rasputin.

(** ** [bytes] and [mio::TryRead] *)

(** [usize::next_power_of_two] *)
Definition next_power_of_two (n : Z) : Z := 2 ^ Z.log2_up n.

Class BytesCrate : Type := {
  ByteBuf : Type;
  MutByteBuf : Type;
  ByteBuf_from_slice : list Z -> ByteBuf;
  (** [ByteBuf::from_mem_ref(alloc::heap(h), cap, pos, lim)] *)
  ByteBuf_from_mem_ref : Z -> Z -> Z -> Z -> ByteBuf;
  ByteBuf_bytes : ByteBuf -> list Z;
  (** [Buf::remaining] *)
  ByteBuf_remaining : ByteBuf -> Z;
  ByteBuf_flip : ByteBuf -> MutByteBuf;
  mut_with_capacity : Z -> MutByteBuf;
  MutByteBuf_bytes : MutByteBuf -> list Z;
  MutByteBuf_remaining : MutByteBuf -> Z;
  MutByteBuf_clear : MutByteBuf -> MutByteBuf;
  MutByteBuf_flip : MutByteBuf -> ByteBuf;
  (** returns how many bytes were written *)
  write_slice : MutByteBuf -> list Z -> Z * MutByteBuf;
  (** [src.try_read_buf(&mut dst)]: [None] for an [Err], [Some None] when the
      read would block, [Some (Some n)] after [n] bytes *)
  try_read_buf : ByteBuf -> MutByteBuf -> option (option Z) * ByteBuf * MutByteBuf;
}.

(** A buffer of [bytes] is the bytes already written and the room left. *)
Definition mut_view `{BytesCrate} (m : MutByteBuf) (written : list Z) (room : Z) : Prop :=
  MutByteBuf_bytes m = written /\ MutByteBuf_remaining m = room.

Class BytesLaws `{BytesCrate} : Prop := {
  (** an empty slice is not covered: codec.rs notes that it segfaults *)
  from_slice_bytes : forall l, l <> [] -> ByteBuf_bytes (ByteBuf_from_slice l) = l;
  from_mem_ref_flip : forall h n, 0 <= n <= h ->
    mut_view (ByteBuf_flip (ByteBuf_from_mem_ref h n 0 n)) [] n;
  mut_with_capacity_view : forall n, 0 < n -> mut_view (mut_with_capacity n) [] (next_power_of_two n);
  clear_view : forall m w r, mut_view m w r ->
    mut_view (MutByteBuf_clear m) [] (r + Z.of_nat (length w));
  remaining_bytes : forall b, ByteBuf_remaining b = Z.of_nat (length (ByteBuf_bytes b));
  flip_bytes : forall m, ByteBuf_bytes (MutByteBuf_flip m) = MutByteBuf_bytes m;
  write_slice_view : forall m w r l, mut_view m w r -> Z.of_nat (length l) <= r ->
    (write_slice m l).1 = Z.of_nat (length l) /\
    mut_view (write_slice m l).2 (w ++ l) (r - Z.of_nat (length l));
  try_read_buf_view : forall b m w r, mut_view m w r -> 0 <= r ->
    let n := Nat.min (length (ByteBuf_bytes b)) (Z.to_nat r) in
    (try_read_buf b m).1.1 = Some (Some (Z.of_nat n)) /\
    ByteBuf_bytes (try_read_buf b m).1.2 = drop n (ByteBuf_bytes b) /\
    mut_view (try_read_buf b m).2 (w ++ take n (ByteBuf_bytes b)) (r - Z.of_nat n);
}.

(** ** [rocksdb] *)

Inductive DBResult (A : Type) : Type :=
| DBSome (a : A)
| DBNone
| DBError (e : string).
Arguments DBSome {A} a.
Arguments DBNone {A}.
Arguments DBError {A} e.

Class RocksDB : Type := {
  DB : Type;
  (** [Result<(), String>] *)
  db_put : DB -> list Z -> list Z -> (unit + string) * DB;
  db_get : DB -> list Z -> DBResult (list Z);
  db_delete : DB -> list Z -> (unit + string) * DB;
}.

(** What an [Ok] says of the contents, and that a write is atomic: one that reports an
    error was applied, or was not. *)
Class RocksDBLaws `{RocksDB} : Type := {
  db_contents : DB -> gmap (list Z) (list Z);
  db_put_ok : forall d k v d', db_put d k v = (inl tt, d') -> db_contents d' = <[k := v]> (db_contents d);
  db_delete_ok : forall d k d', db_delete d k = (inl tt, d') -> db_contents d' = delete k (db_contents d);
  db_put_err : forall d k v e d', db_put d k v = (inr e, d') ->
    db_contents d' = db_contents d \/ db_contents d' = <[k := v]> (db_contents d);
  db_delete_err : forall d k e d', db_delete d k = (inr e, d') ->
    db_contents d' = db_contents d \/ db_contents d' = delete k (db_contents d);
  db_get_some : forall d k v, db_get d k = DBSome v -> db_contents d !! k = Some v;
  db_get_none : forall d k, db_get d k = DBNone -> db_contents d !! k = None;
}.

(** ** [protobuf] *)

Class ProtobufRuntime : Type := {
  UnknownFields : Type;
  UnknownFields_new : UnknownFields;
  UnknownFields_clear : UnknownFields -> UnknownFields;
  UnknownFields_eq : UnknownFields -> UnknownFields -> bool;
}.

(** ** [std::net] and [mio] data *)

(** Listeners bind to [0.0.0.0] and peers are dialled through
    [TcpSocket::v4()], so every address is an IPv4 one. *)
Record SocketAddr : Type := mkAddr { octets : Z * Z * Z * Z; port : Z }.

(** [format!("{:?}", addr)] *)
Definition SocketAddr_debug (a : SocketAddr) : string :=
  let '(o1, o2, o3, o4) := octets a in
  pretty o1 +:+ "." +:+ pretty o2 +:+ "." +:+ pretty o3 +:+ "." +:+
  pretty o4 +:+ ":" +:+ pretty (port a).

(** [mio::Token], a newtype of [usize] *)
Abbreviation Token := Z (only parsing).
