(* ===== verification/Reference.v ===== *)
(** * Reference implementations of the external interfaces

    One concrete, executable implementation of every class of [Crates.v], with
    its laws proved.  They show that the laws can be met together, and the
    witnesses evaluate the model on them. *)

From stdpp Require Import base tactics option list numbers strings gmap.
From Stdlib Require Import ZArith Lia.
From S2P Require Import Prelude Crates.

(** ** Time *)

Definition ref_TimeCrate : TimeCrate := {|
  Duration := Z;
  Duration_seconds n := n;
  Timespec_add t d :=
    s ← i64_add (sec t) d; mret {| sec := s; nsec := nsec t |};
  Timespec_cmp a b :=
    match sec a ?= sec b with Eq => nsec a ?= nsec b | c => c end;
|}.

Lemma ref_TimeLaws : @TimeLaws ref_TimeCrate.
Proof.
  split; [done|]. intros t n [Hs Hn] Hr. cbn. unfold i64_add.
  rewrite checked_ok by lia. done.
Qed.

(** ** Buffers: written bytes and room *)

Record ref_mut : Type := RefMut { rm_written : list Z; rm_room : nat }.

Definition ref_read (b : list Z) (m : ref_mut) : option (option Z) * list Z * ref_mut :=
  let n := Nat.min (length b) (rm_room m) in
  (Some (Some (Z.of_nat n)), drop n b,
   RefMut (rm_written m ++ take n b) (rm_room m - n)).

Definition ref_BytesCrate : BytesCrate := {|
  ByteBuf := list Z;
  MutByteBuf := ref_mut;
  ByteBuf_from_slice l := l;
  ByteBuf_from_mem_ref h cap pos lim := replicate (Z.to_nat (lim - pos)) 0;
  ByteBuf_bytes b := b;
  ByteBuf_remaining b := Z.of_nat (length b);
  ByteBuf_flip b := RefMut [] (length b);
  mut_with_capacity n := RefMut [] (Z.to_nat (next_power_of_two n));
  MutByteBuf_bytes := rm_written;
  MutByteBuf_remaining m := Z.of_nat (rm_room m);
  MutByteBuf_clear m := RefMut [] (rm_room m + length (rm_written m));
  MutByteBuf_flip := rm_written;
  write_slice m l :=
    let n := Nat.min (length l) (rm_room m) in
    (Z.of_nat n, RefMut (rm_written m ++ take n l) (rm_room m - n));
  try_read_buf := ref_read;
|}.

(** A reference buffer of the given bytes. *)
Definition ref_buf (l : list Z) : @ByteBuf ref_BytesCrate := l.

Lemma ref_BytesLaws : @BytesLaws ref_BytesCrate.
Proof.
  split; unfold mut_view; cbn.
  - done.
  - intros h n Hn. rewrite length_replicate. split; [done|lia].
  - intros n Hn. unfold next_power_of_two. split; [done|].
    assert (0 < 2 ^ Z.log2_up n); [|lia]. apply Z.pow_pos_nonneg; [lia|apply Z.log2_up_nonneg].
  - intros m w r [<- <-]. split; [done|lia].
  - done.
  - done.
  - intros m w r l [<- <-] Hl. rewrite Nat.min_l by lia. rewrite firstn_all. repeat split; lia.
  - intros b m w r [<- <-] Hr. rewrite Nat2Z.id. repeat split; lia.
Qed.

(** ** A store that fails on long keys *)

Definition ref_max_key : nat := 64.

Definition ref_RocksDB : RocksDB := {|
  DB := gmap (list Z) (list Z);
  db_put d k v := if (length k <=? ref_max_key)%nat then (inl tt, <[k := v]> d) else (inr "key too long", d);
  db_get d k :=
    if (length k <=? ref_max_key)%nat then match d !! k with Some v => DBSome v | None => DBNone end
    else DBError "key too long";
  db_delete d k := if (length k <=? ref_max_key)%nat then (inl tt, delete k d) else (inr "key too long", d);
|}.

Definition ref_RocksDBLaws : @RocksDBLaws ref_RocksDB.
Proof.
  refine (@Build_RocksDBLaws ref_RocksDB (fun d => d) _ _ _ _ _ _); cbn -[Nat.leb].
  - intros d k v d'. by destruct (_ <=? _)%nat; intros [= <-].
  - intros d k d'. by destruct (_ <=? _)%nat; intros [= <-].
  - intros d k v e d'. destruct (_ <=? _)%nat; intros [= <-]; by left.
  - intros d k e d'. destruct (_ <=? _)%nat; intros [= <-]; by left.
  - intros d k v. destruct (_ <=? _)%nat; [|done]. by destruct (d !! k) eqn:E; intros [= <-].
  - intros d k. destruct (_ <=? _)%nat; [|done]. by destruct (d !! k) eqn:E.
Defined.

(** ** No unknown fields *)

Definition ref_ProtobufRuntime : ProtobufRuntime := {|
  UnknownFields := unit;
  UnknownFields_new := tt;
  UnknownFields_clear _ := tt;
  UnknownFields_eq _ _ := true;
|}.
