(* ===== verification/Mio.v ===== *)
(** * The event loop library

    mio, which the connection code calls, as a class: sockets, sets of events, the
    slab that keeps connections under tokens, and the event loop.  [MioLaws] states
    what mio documents of them and the code relies on.  [ref_Mio] is an implementation
    over lists, in which the network is a script. *)

From stdpp Require Import base tactics option list numbers strings gmap.
From Stdlib Require Import ZArith Lia.
From S2P Require Import Prelude Crates Reference.

(** [std::io::Error]: an error of the system, or [Error::new] with a message. *)
Inductive IoError : Type :=
| OsError (code : Z)
| OtherError (msg : string).

Class MioCrate `{BC : BytesCrate} : Type := {
  (** [EventSet] *)
  EventSet : Type;
  es_readable : EventSet;
  es_writable : EventSet;
  es_hup : EventSet;
  is_readable : EventSet -> bool;
  is_writable : EventSet -> bool;
  is_hup : EventSet -> bool;
  is_error : EventSet -> bool;
  es_insert : EventSet -> EventSet -> EventSet;
  es_remove : EventSet -> EventSet -> EventSet;
  (** sockets; [inr] is an [Err], [inl None] a call that would block *)
  TcpStream : Type;
  TcpListener : Type;
  sock_try_read_buf : TcpStream -> MutByteBuf -> (option Z + IoError) * TcpStream * MutByteBuf;
  sock_try_write_buf : TcpStream -> ByteBuf -> (option Z + IoError) * TcpStream * ByteBuf;
  peer_addr : TcpStream -> SocketAddr + IoError;
  listener_accept : TcpListener -> (option TcpStream + IoError) * TcpListener;
  (** what a socket has given to [try_read_buf] and taken from [try_write_buf] *)
  sock_in : TcpStream -> list Z;
  sock_out : TcpStream -> list Z;
  (** the event loop, with the rest of the environment its handlers act on *)
  EventLoop : Type;
  reregister : TcpStream -> Token -> EventSet -> EventLoop -> (unit + IoError) * EventLoop;
  register_opt : TcpStream -> Token -> EventSet -> EventLoop -> (unit + IoError) * EventLoop;
  reregister_listener : TcpListener -> Token -> EventSet -> EventLoop -> (unit + IoError) * EventLoop;
  (** [TcpSocket::v4()] and then [connect] *)
  tcp_connect : SocketAddr -> EventLoop -> (TcpStream + IoError) * EventLoop;
  gen_range : Z -> Z -> EventLoop -> Z * EventLoop;
  timeout_ms : Z -> EventLoop -> (unit + IoError) * EventLoop;
  (** [mio::util::Slab]; [slab_set] is an assignment through [get_mut] or an index *)
  Slab : Type -> Type;
  slab_new_starting_at : forall {A}, Token -> Z -> Slab A;
  slab_insert : forall {A}, Slab A -> A -> (Token + A) * Slab A;
  slab_get : forall {A}, Slab A -> Token -> option A;
  slab_set : forall {A}, Slab A -> Token -> A -> Slab A;
  slab_remove : forall {A}, Slab A -> Token -> Slab A;
  (** the first token of a slab, and how many it has *)
  slab_start : forall {A}, Slab A -> Token;
  slab_capacity : forall {A}, Slab A -> Z;
}.

Definition slab_contains `{MioCrate} {A} (s : Slab A) (t : Token) : bool :=
  match slab_get s t with Some _ => true | None => false end.

(** Two slabs hold the same values. *)
Definition slab_same `{MioCrate} {A} (s s' : Slab A) : Prop :=
  (forall t, slab_get s' t = slab_get s t) /\ slab_start s' = slab_start s /\ slab_capacity s' = slab_capacity s.

Class MioLaws `{MC : MioCrate} : Prop := {
  readable_readable : is_readable es_readable = true;
  readable_writable : is_writable es_readable = false;
  writable_readable : is_readable es_writable = false;
  writable_writable : is_writable es_writable = true;
  hup_readable : is_readable es_hup = false;
  hup_writable : is_writable es_hup = false;
  insert_readable : forall s e, is_readable (es_insert s e) = is_readable s || is_readable e;
  insert_writable : forall s e, is_writable (es_insert s e) = is_writable s || is_writable e;
  remove_readable : forall s e, is_readable (es_remove s e) = is_readable s && negb (is_readable e);
  remove_writable : forall s e, is_writable (es_remove s e) = is_writable s && negb (is_writable e);
  (** a read puts what it takes from the socket into the buffer *)
  sock_read_view : forall k m w r res k' m', mut_view m w r ->
    sock_try_read_buf k m = (res, k', m') ->
    exists b r', mut_view m' (w ++ b) r' /\ sock_in k' = sock_in k ++ b /\ sock_out k' = sock_out k /\ is_bytes b;
  (** a write takes a prefix of the buffer, as long as it says *)
  sock_write_some : forall k b n k' b', sock_try_write_buf k b = (inl (Some n), k', b') ->
    exists w, ByteBuf_bytes b = w ++ ByteBuf_bytes b' /\ n = Z.of_nat (length w) /\
      sock_out k' = sock_out k ++ w /\ sock_in k' = sock_in k;
  sock_write_block : forall k b k' b', sock_try_write_buf k b = (inl None, k', b') ->
    ByteBuf_bytes b' = ByteBuf_bytes b /\ sock_out k' = sock_out k /\ sock_in k' = sock_in k;
  sock_write_err : forall k b e k' b', sock_try_write_buf k b = (inr e, k', b') -> sock_in k' = sock_in k;
  (** nothing went through a new connection *)
  accept_fresh : forall l k l', listener_accept l = (inl (Some k), l') -> sock_in k = [] /\ sock_out k = [];
  connect_fresh : forall a el k el', tcp_connect a el = (inl k, el') -> sock_in k = [] /\ sock_out k = [];
  slab_new_get : forall A t n tok, slab_get (A := A) (slab_new_starting_at t n) tok = None;
  slab_new_start : forall A t n, slab_start (A := A) (slab_new_starting_at t n) = t;
  slab_new_capacity : forall A t n, slab_capacity (A := A) (slab_new_starting_at t n) = n;
  slab_insert_ok : forall A (s : Slab A) a t s', slab_insert s a = (inl t, s') ->
    slab_get s t = None /\ slab_start s <= t < slab_start s + slab_capacity s /\
    slab_get s' t = Some a /\ (forall t', t' <> t -> slab_get s' t' = slab_get s t') /\
    slab_start s' = slab_start s /\ slab_capacity s' = slab_capacity s;
  slab_insert_full : forall A (s : Slab A) a a' s', slab_insert s a = (inr a', s') -> slab_same s s';
  slab_set_get : forall A (s : Slab A) t a, is_Some (slab_get s t) ->
    slab_get (slab_set s t a) t = Some a /\ (forall t', t' <> t -> slab_get (slab_set s t a) t' = slab_get s t');
  slab_set_start : forall A (s : Slab A) t a, slab_start (slab_set s t a) = slab_start s;
  slab_set_capacity : forall A (s : Slab A) t a, slab_capacity (slab_set s t a) = slab_capacity s;
  slab_remove_get : forall A (s : Slab A) t,
    slab_get (slab_remove s t) t = None /\ (forall t', t' <> t -> slab_get (slab_remove s t) t' = slab_get s t');
  slab_remove_start : forall A (s : Slab A) t, slab_start (slab_remove s t) = slab_start s;
  slab_remove_capacity : forall A (s : Slab A) t, slab_capacity (slab_remove s t) = slab_capacity s;
}.

(** ** A reference implementation *)

(** A socket: the chunks its reads will return, how much its writes will take, and
    what went through it. *)
Record ref_sock : Type := RefSock {
  rk_reads : list (list Z);
  rk_writes : list nat;
  rk_in : list Z;
  rk_out : list Z;
}.

Definition ref_sock_read (k : ref_sock) (m : ref_mut) : (option Z + IoError) * ref_sock * ref_mut :=
  match rk_reads k with
  | [] => (inl None, k, m)
  | c :: cs =>
      let n := Nat.min (length c) (rm_room m) in
      let b := map as_u8 (take n c) in
      (inl (Some (Z.of_nat n)),
       RefSock (if bool_decide (drop n c = []) then cs else drop n c :: cs) (rk_writes k) (rk_in k ++ b) (rk_out k),
       RefMut (rm_written m ++ b) (rm_room m - n))
  end.

Definition ref_sock_write (k : ref_sock) (b : list Z) : (option Z + IoError) * ref_sock * list Z :=
  match rk_writes k with
  | [] => (inl None, k, b)
  | n :: ns =>
      let w := take n b in
      (inl (Some (Z.of_nat (length w))), RefSock (rk_reads k) ns (rk_in k) (rk_out k ++ w), drop n b)
  end.

(** A slab, with the token to try first: the one after the last, or the one that was
    freed last. *)
Record ref_slab (A : Type) : Type :=
  RefSlab { rs_start : Z; rs_capacity : Z; rs_next : Z; rs_map : gmap Z A }.
Arguments RefSlab {A}.
Arguments rs_start {A}.
Arguments rs_capacity {A}.
Arguments rs_next {A}.
Arguments rs_map {A}.

Definition rs_free {A} (s : ref_slab A) (t : Z) : bool :=
  (rs_start s <=? t) && (t <? rs_start s + rs_capacity s) &&
  match rs_map s !! t with None => true | Some _ => false end.

Definition ref_slab_insert {A} (s : ref_slab A) (a : A) : (Z + A) * ref_slab A :=
  let r := if rs_free s (rs_next s) then Some (rs_next s)
           else List.find (rs_free s) (seqZ (rs_start s) (rs_capacity s)) in
  match r with
  | None => (inr a, s)
  | Some t => (inl t, RefSlab (rs_start s) (rs_capacity s) (t + 1) (<[t := a]> (rs_map s)))
  end.

#[local] Existing Instance ref_BytesCrate.

(** The event loop keeps what was registered, the latest first. *)
Definition ref_Mio : @MioCrate ref_BytesCrate := {|
  EventSet := bool * bool * bool * bool;
  es_readable := (true, false, false, false);
  es_writable := (false, true, false, false);
  es_hup := (false, false, true, false);
  is_readable e := e.1.1.1;
  is_writable e := e.1.1.2;
  is_hup e := e.1.2;
  is_error e := e.2;
  es_insert s e := (s.1.1.1 || e.1.1.1, s.1.1.2 || e.1.1.2, s.1.2 || e.1.2, s.2 || e.2);
  es_remove s e := (s.1.1.1 && negb e.1.1.1, s.1.1.2 && negb e.1.1.2, s.1.2 && negb e.1.2, s.2 && negb e.2);
  TcpStream := ref_sock;
  TcpListener := list ref_sock;
  sock_try_read_buf := ref_sock_read;
  sock_try_write_buf := ref_sock_write;
  peer_addr _ := inl (mkAddr (127, 0, 0, 1) 9);
  listener_accept l := 
    match l with [] => (inl None, []) | k :: l => (inl (Some (RefSock (rk_reads k) (rk_writes k) [] [])), l) end;
  sock_in := rk_in;
  sock_out := rk_out;
  EventLoop := list (Token * (bool * bool * bool * bool));
  reregister _ t e el := (inl tt, (t, e) :: el);
  register_opt _ t e el := (inl tt, (t, e) :: el);
  reregister_listener _ t e el := (inl tt, (t, e) :: el);
  tcp_connect _ el := (inl (RefSock [] [] [] []), el);
  gen_range lo _ el := (lo, el);
  timeout_ms _ el := (inl tt, el);
  Slab := ref_slab;
  slab_new_starting_at A t n := RefSlab t n t ∅;
  slab_insert A := ref_slab_insert;
  slab_get A s t := rs_map s !! t;
  slab_set A s t a := RefSlab (rs_start s) (rs_capacity s) (rs_next s) (<[t := a]> (rs_map s));
  slab_remove A s t := RefSlab (rs_start s) (rs_capacity s) t (delete t (rs_map s));
  slab_start A := rs_start;
  slab_capacity A := rs_capacity;
|}.

#[local] Existing Instance ref_Mio.

Lemma ref_slab_insert_ok {A} (s : ref_slab A) a t s' : ref_slab_insert s a = (inl t, s') ->
  rs_map s !! t = None /\ rs_start s <= t < rs_start s + rs_capacity s /\
  s' = RefSlab (rs_start s) (rs_capacity s) (t + 1) (<[t := a]> (rs_map s)).
Proof.
  unfold ref_slab_insert.
  set (r := if rs_free s (rs_next s) then Some (rs_next s) else List.find (rs_free s) _). intros E.
  assert (r = Some t) as Hr by (destruct r; naive_solver). rewrite Hr in E. injection E as <-.
  assert (rs_free s t = true) as Hf.
  { unfold r in Hr. destruct (rs_free s (rs_next s)) eqn:Hn; [by injection Hr as <-|].
    by apply List.find_some in Hr as [_ ?]. }
  unfold rs_free in Hf. bool_split. by destruct (rs_map s !! t).
Qed.

Lemma ref_MioLaws : @MioLaws _ ref_Mio.
Proof.
  split; try done.
  - intros k m w r res k' m' [<- <-]. cbn. unfold ref_sock_read. destruct (rk_reads k) as [|c cs].
    + intros [= <- <- <-]. exists [], (Z.of_nat (rm_room m)). rewrite !app_nil_r. split_and!; [done..|constructor].
    + intros [= <- <- <-]. eexists _, _. split_and!; [done..|]. apply Forall_forall.
      intros x (y & -> & _)%list_elem_of_fmap. apply as_u8_range.
  - intros k b n k' b'. cbn. unfold ref_sock_write. destruct (rk_writes k) as [|j js]; [done|].
    intros [= <- <- <-]. exists (take j b). by rewrite take_drop.
  - intros k b k' b'. cbn. unfold ref_sock_write. destruct (rk_writes k) as [|j js]; [|done].
    intros [= <- <-]. done.
  - intros k b e k' b'. cbn. unfold ref_sock_write. by destruct (rk_writes k).
  - intros [|k l] k' l'; cbn; [done|]. by intros [= <- <-].
  - intros a el k el'. cbn. by intros [= <- <-].
  - intros A s a t s' (Hn & Hr & ->)%ref_slab_insert_ok. cbn. split_and!; try done; [lia..| |].
    + by rewrite lookup_insert_eq.
    + intros t' Ht. by rewrite lookup_insert_ne.
  - intros A s a a' s'. cbn. unfold ref_slab_insert. destruct (if rs_free s (rs_next s) then _ else _); [done|]. by intros [= _ <-].
  - intros A s t a _. cbn. split; [by rewrite lookup_insert_eq|]. intros t' Ht. by rewrite lookup_insert_ne.
  - intros A s t. cbn. split; [by rewrite lookup_delete_eq|]. intros t' Ht. by rewrite lookup_delete_ne.
Qed.
