(* ===== verification/Messages.v ===== *)
(** * Protocol messages

    The generated message types of serialization.rs and their accessors.  Every
    message keeps its optional fields as options ([SingularField],
    [SingularPtrField] and [Option] alike), its repeated fields as lists, the
    unknown fields of the protobuf runtime and the cached size of the last
    [compute_size].  Per field the operations are the source's: [clear_], [has_],
    [set_], [mut_] (the message after a default has been filled in and the value
    the reference points to), [take_] (the message left behind and the value
    taken) and [get_] (the value or the type's default).  [X_with_f] is the record
    update they share.  Per message: [new], [is_initialized] (only the required
    fields of the message itself, not of its submessages), [clear] and [eq]
    ([PartialEq], which ignores the cached size). *)

From stdpp Require Import base tactics option list numbers strings.
From Stdlib Require Import ZArith.
From S2P Require Import Prelude Crates.

(** [Option::is_some] *)
Definition is_some {A} (o : option A) : bool :=
  match o with Some _ => true | None => false end.

Definition opt_eqb {A} (eqb : A -> A -> bool) (a b : option A) : bool :=
  match a, b with
  | Some x, Some y => eqb x y
  | None, None => true
  | _, _ => false
  end.

Fixpoint list_eqb {A} (eqb : A -> A -> bool) (a b : list A) : bool :=
  match a, b with
  | x :: a', y :: b' => eqb x y && list_eqb eqb a' b'
  | [], [] => true
  | _, _ => false
  end.

Inductive MutationType : Type := KVSET | KVCAS | KVDEL.

#[export] Instance MutationType_eq_dec : EqDecision MutationType.
Proof. solve_decision. Defined.

Definition MutationType_value (t : MutationType) : Z :=
  match t with KVSET => 1 | KVCAS => 2 | KVDEL => 3 end.

Definition MutationType_from_i32 (value : Z) : option MutationType :=
  if value =? 1 then Some KVSET
  else if value =? 2 then Some KVCAS
  else if value =? 3 then Some KVDEL
  else None.

Section Messages.
Context `{PB : ProtobufRuntime}.

(** ** [SetReq] *)

Record SetReq : Type := mkSetReq {
  SetReq_key : option (list Z);
  SetReq_value : option (list Z);
  SetReq_unknown_fields : UnknownFields;
  SetReq_cached_size : Z;
}.

Definition SetReq_new : SetReq := mkSetReq None None UnknownFields_new 0.

Definition SetReq_with_key (m : SetReq) (o : option (list Z)) : SetReq :=
  mkSetReq o (SetReq_value m) (SetReq_unknown_fields m) (SetReq_cached_size m).
Definition SetReq_clear_key (m : SetReq) : SetReq := SetReq_with_key m None.
Definition SetReq_has_key (m : SetReq) : bool := is_some (SetReq_key m).
Definition SetReq_set_key (m : SetReq) (v : list Z) : SetReq := SetReq_with_key m (Some v).
Definition SetReq_mut_key (m : SetReq) : SetReq * list Z :=
  let m' := if is_some (SetReq_key m) then m else SetReq_with_key m (Some []) in
  (m', default [] (SetReq_key m')).
Definition SetReq_take_key (m : SetReq) : SetReq * list Z :=
  (SetReq_with_key m None, default [] (SetReq_key m)).
Definition SetReq_get_key (m : SetReq) : list Z := default [] (SetReq_key m).

Definition SetReq_with_value (m : SetReq) (o : option (list Z)) : SetReq :=
  mkSetReq (SetReq_key m) o (SetReq_unknown_fields m) (SetReq_cached_size m).
Definition SetReq_clear_value (m : SetReq) : SetReq := SetReq_with_value m None.
Definition SetReq_has_value (m : SetReq) : bool := is_some (SetReq_value m).
Definition SetReq_set_value (m : SetReq) (v : list Z) : SetReq := SetReq_with_value m (Some v).
Definition SetReq_mut_value (m : SetReq) : SetReq * list Z :=
  let m' := if is_some (SetReq_value m) then m else SetReq_with_value m (Some []) in
  (m', default [] (SetReq_value m')).
Definition SetReq_take_value (m : SetReq) : SetReq * list Z :=
  (SetReq_with_value m None, default [] (SetReq_value m)).
Definition SetReq_get_value (m : SetReq) : list Z := default [] (SetReq_value m).

Definition SetReq_is_initialized (m : SetReq) : bool :=
  if negb (is_some (SetReq_key m)) then false else
  if negb (is_some (SetReq_value m)) then false else
  true.

Definition SetReq_clear (m : SetReq) : SetReq :=
  let m := SetReq_clear_key m in
  let m := SetReq_clear_value m in
  mkSetReq (SetReq_key m) (SetReq_value m)
    (UnknownFields_clear (SetReq_unknown_fields m)) (SetReq_cached_size m).

Definition SetReq_eq (m o : SetReq) : bool :=
  bool_decide (SetReq_key m = SetReq_key o) &&
  bool_decide (SetReq_value m = SetReq_value o) &&
  UnknownFields_eq (SetReq_unknown_fields m) (SetReq_unknown_fields o).


(** ** [SetRes] *)

Record SetRes : Type := mkSetRes {
  SetRes_success : option bool;
  SetRes_txid : option Z;
  SetRes_err : option string;
  SetRes_unknown_fields : UnknownFields;
  SetRes_cached_size : Z;
}.

Definition SetRes_new : SetRes := mkSetRes None None None UnknownFields_new 0.

Definition SetRes_with_success (m : SetRes) (o : option bool) : SetRes :=
  mkSetRes o (SetRes_txid m) (SetRes_err m) (SetRes_unknown_fields m) (SetRes_cached_size m).
Definition SetRes_clear_success (m : SetRes) : SetRes := SetRes_with_success m None.
Definition SetRes_has_success (m : SetRes) : bool := is_some (SetRes_success m).
Definition SetRes_set_success (m : SetRes) (v : bool) : SetRes := SetRes_with_success m (Some v).
Definition SetRes_get_success (m : SetRes) : bool := default false (SetRes_success m).

Definition SetRes_with_txid (m : SetRes) (o : option Z) : SetRes :=
  mkSetRes (SetRes_success m) o (SetRes_err m) (SetRes_unknown_fields m) (SetRes_cached_size m).
Definition SetRes_clear_txid (m : SetRes) : SetRes := SetRes_with_txid m None.
Definition SetRes_has_txid (m : SetRes) : bool := is_some (SetRes_txid m).
Definition SetRes_set_txid (m : SetRes) (v : Z) : SetRes := SetRes_with_txid m (Some v).
Definition SetRes_get_txid (m : SetRes) : Z := default 0 (SetRes_txid m).

Definition SetRes_with_err (m : SetRes) (o : option string) : SetRes :=
  mkSetRes (SetRes_success m) (SetRes_txid m) o (SetRes_unknown_fields m) (SetRes_cached_size m).
Definition SetRes_clear_err (m : SetRes) : SetRes := SetRes_with_err m None.
Definition SetRes_has_err (m : SetRes) : bool := is_some (SetRes_err m).
Definition SetRes_set_err (m : SetRes) (v : string) : SetRes := SetRes_with_err m (Some v).
Definition SetRes_mut_err (m : SetRes) : SetRes * string :=
  let m' := if is_some (SetRes_err m) then m else SetRes_with_err m (Some EmptyString) in
  (m', default EmptyString (SetRes_err m')).
Definition SetRes_take_err (m : SetRes) : SetRes * string :=
  (SetRes_with_err m None, default EmptyString (SetRes_err m)).
Definition SetRes_get_err (m : SetRes) : string := default EmptyString (SetRes_err m).

Definition SetRes_is_initialized (m : SetRes) : bool :=
  if negb (is_some (SetRes_success m)) then false else
  if negb (is_some (SetRes_txid m)) then false else
  true.

Definition SetRes_clear (m : SetRes) : SetRes :=
  let m := SetRes_clear_success m in
  let m := SetRes_clear_txid m in
  let m := SetRes_clear_err m in
  mkSetRes (SetRes_success m) (SetRes_txid m) (SetRes_err m)
    (UnknownFields_clear (SetRes_unknown_fields m)) (SetRes_cached_size m).

Definition SetRes_eq (m o : SetRes) : bool :=
  bool_decide (SetRes_success m = SetRes_success o) &&
  bool_decide (SetRes_txid m = SetRes_txid o) &&
  bool_decide (SetRes_err m = SetRes_err o) &&
  UnknownFields_eq (SetRes_unknown_fields m) (SetRes_unknown_fields o).


(** ** [GetReq] *)

Record GetReq : Type := mkGetReq {
  GetReq_key : option (list Z);
  GetReq_unknown_fields : UnknownFields;
  GetReq_cached_size : Z;
}.

Definition GetReq_new : GetReq := mkGetReq None UnknownFields_new 0.

Definition GetReq_with_key (m : GetReq) (o : option (list Z)) : GetReq :=
  mkGetReq o (GetReq_unknown_fields m) (GetReq_cached_size m).
Definition GetReq_clear_key (m : GetReq) : GetReq := GetReq_with_key m None.
Definition GetReq_has_key (m : GetReq) : bool := is_some (GetReq_key m).
Definition GetReq_set_key (m : GetReq) (v : list Z) : GetReq := GetReq_with_key m (Some v).
Definition GetReq_mut_key (m : GetReq) : GetReq * list Z :=
  let m' := if is_some (GetReq_key m) then m else GetReq_with_key m (Some []) in
  (m', default [] (GetReq_key m')).
Definition GetReq_take_key (m : GetReq) : GetReq * list Z :=
  (GetReq_with_key m None, default [] (GetReq_key m)).
Definition GetReq_get_key (m : GetReq) : list Z := default [] (GetReq_key m).

Definition GetReq_is_initialized (m : GetReq) : bool :=
  if negb (is_some (GetReq_key m)) then false else
  true.

Definition GetReq_clear (m : GetReq) : GetReq :=
  let m := GetReq_clear_key m in
  mkGetReq (GetReq_key m)
    (UnknownFields_clear (GetReq_unknown_fields m)) (GetReq_cached_size m).

Definition GetReq_eq (m o : GetReq) : bool :=
  bool_decide (GetReq_key m = GetReq_key o) &&
  UnknownFields_eq (GetReq_unknown_fields m) (GetReq_unknown_fields o).


(** ** [GetRes] *)

Record GetRes : Type := mkGetRes {
  GetRes_success : option bool;
  GetRes_txid : option Z;
  GetRes_value : option (list Z);
  GetRes_err : option string;
  GetRes_unknown_fields : UnknownFields;
  GetRes_cached_size : Z;
}.

Definition GetRes_new : GetRes := mkGetRes None None None None UnknownFields_new 0.

Definition GetRes_with_success (m : GetRes) (o : option bool) : GetRes :=
  mkGetRes o (GetRes_txid m) (GetRes_value m) (GetRes_err m) (GetRes_unknown_fields m) (GetRes_cached_size m).
Definition GetRes_clear_success (m : GetRes) : GetRes := GetRes_with_success m None.
Definition GetRes_has_success (m : GetRes) : bool := is_some (GetRes_success m).
Definition GetRes_set_success (m : GetRes) (v : bool) : GetRes := GetRes_with_success m (Some v).
Definition GetRes_get_success (m : GetRes) : bool := default false (GetRes_success m).

Definition GetRes_with_txid (m : GetRes) (o : option Z) : GetRes :=
  mkGetRes (GetRes_success m) o (GetRes_value m) (GetRes_err m) (GetRes_unknown_fields m) (GetRes_cached_size m).
Definition GetRes_clear_txid (m : GetRes) : GetRes := GetRes_with_txid m None.
Definition GetRes_has_txid (m : GetRes) : bool := is_some (GetRes_txid m).
Definition GetRes_set_txid (m : GetRes) (v : Z) : GetRes := GetRes_with_txid m (Some v).
Definition GetRes_get_txid (m : GetRes) : Z := default 0 (GetRes_txid m).

Definition GetRes_with_value (m : GetRes) (o : option (list Z)) : GetRes :=
  mkGetRes (GetRes_success m) (GetRes_txid m) o (GetRes_err m) (GetRes_unknown_fields m) (GetRes_cached_size m).
Definition GetRes_clear_value (m : GetRes) : GetRes := GetRes_with_value m None.
Definition GetRes_has_value (m : GetRes) : bool := is_some (GetRes_value m).
Definition GetRes_set_value (m : GetRes) (v : list Z) : GetRes := GetRes_with_value m (Some v).
Definition GetRes_mut_value (m : GetRes) : GetRes * list Z :=
  let m' := if is_some (GetRes_value m) then m else GetRes_with_value m (Some []) in
  (m', default [] (GetRes_value m')).
Definition GetRes_take_value (m : GetRes) : GetRes * list Z :=
  (GetRes_with_value m None, default [] (GetRes_value m)).
Definition GetRes_get_value (m : GetRes) : list Z := default [] (GetRes_value m).

Definition GetRes_with_err (m : GetRes) (o : option string) : GetRes :=
  mkGetRes (GetRes_success m) (GetRes_txid m) (GetRes_value m) o (GetRes_unknown_fields m) (GetRes_cached_size m).
Definition GetRes_clear_err (m : GetRes) : GetRes := GetRes_with_err m None.
Definition GetRes_has_err (m : GetRes) : bool := is_some (GetRes_err m).
Definition GetRes_set_err (m : GetRes) (v : string) : GetRes := GetRes_with_err m (Some v).
Definition GetRes_mut_err (m : GetRes) : GetRes * string :=
  let m' := if is_some (GetRes_err m) then m else GetRes_with_err m (Some EmptyString) in
  (m', default EmptyString (GetRes_err m')).
Definition GetRes_take_err (m : GetRes) : GetRes * string :=
  (GetRes_with_err m None, default EmptyString (GetRes_err m)).
Definition GetRes_get_err (m : GetRes) : string := default EmptyString (GetRes_err m).

Definition GetRes_is_initialized (m : GetRes) : bool :=
  if negb (is_some (GetRes_success m)) then false else
  if negb (is_some (GetRes_txid m)) then false else
  true.

Definition GetRes_clear (m : GetRes) : GetRes :=
  let m := GetRes_clear_success m in
  let m := GetRes_clear_txid m in
  let m := GetRes_clear_value m in
  let m := GetRes_clear_err m in
  mkGetRes (GetRes_success m) (GetRes_txid m) (GetRes_value m) (GetRes_err m)
    (UnknownFields_clear (GetRes_unknown_fields m)) (GetRes_cached_size m).

Definition GetRes_eq (m o : GetRes) : bool :=
  bool_decide (GetRes_success m = GetRes_success o) &&
  bool_decide (GetRes_txid m = GetRes_txid o) &&
  bool_decide (GetRes_value m = GetRes_value o) &&
  bool_decide (GetRes_err m = GetRes_err o) &&
  UnknownFields_eq (GetRes_unknown_fields m) (GetRes_unknown_fields o).


(** ** [CASReq] *)

Record CASReq : Type := mkCASReq {
  CASReq_key : option (list Z);
  CASReq_new_value : option (list Z);
  CASReq_old_value : option (list Z);
  CASReq_unknown_fields : UnknownFields;
  CASReq_cached_size : Z;
}.

Definition CASReq_new : CASReq := mkCASReq None None None UnknownFields_new 0.

Definition CASReq_with_key (m : CASReq) (o : option (list Z)) : CASReq :=
  mkCASReq o (CASReq_new_value m) (CASReq_old_value m) (CASReq_unknown_fields m) (CASReq_cached_size m).
Definition CASReq_clear_key (m : CASReq) : CASReq := CASReq_with_key m None.
Definition CASReq_has_key (m : CASReq) : bool := is_some (CASReq_key m).
Definition CASReq_set_key (m : CASReq) (v : list Z) : CASReq := CASReq_with_key m (Some v).
Definition CASReq_mut_key (m : CASReq) : CASReq * list Z :=
  let m' := if is_some (CASReq_key m) then m else CASReq_with_key m (Some []) in
  (m', default [] (CASReq_key m')).
Definition CASReq_take_key (m : CASReq) : CASReq * list Z :=
  (CASReq_with_key m None, default [] (CASReq_key m)).
Definition CASReq_get_key (m : CASReq) : list Z := default [] (CASReq_key m).

Definition CASReq_with_new_value (m : CASReq) (o : option (list Z)) : CASReq :=
  mkCASReq (CASReq_key m) o (CASReq_old_value m) (CASReq_unknown_fields m) (CASReq_cached_size m).
Definition CASReq_clear_new_value (m : CASReq) : CASReq := CASReq_with_new_value m None.
Definition CASReq_has_new_value (m : CASReq) : bool := is_some (CASReq_new_value m).
Definition CASReq_set_new_value (m : CASReq) (v : list Z) : CASReq := CASReq_with_new_value m (Some v).
Definition CASReq_mut_new_value (m : CASReq) : CASReq * list Z :=
  let m' := if is_some (CASReq_new_value m) then m else CASReq_with_new_value m (Some []) in
  (m', default [] (CASReq_new_value m')).
Definition CASReq_take_new_value (m : CASReq) : CASReq * list Z :=
  (CASReq_with_new_value m None, default [] (CASReq_new_value m)).
Definition CASReq_get_new_value (m : CASReq) : list Z := default [] (CASReq_new_value m).

Definition CASReq_with_old_value (m : CASReq) (o : option (list Z)) : CASReq :=
  mkCASReq (CASReq_key m) (CASReq_new_value m) o (CASReq_unknown_fields m) (CASReq_cached_size m).
Definition CASReq_clear_old_value (m : CASReq) : CASReq := CASReq_with_old_value m None.
Definition CASReq_has_old_value (m : CASReq) : bool := is_some (CASReq_old_value m).
Definition CASReq_set_old_value (m : CASReq) (v : list Z) : CASReq := CASReq_with_old_value m (Some v).
Definition CASReq_mut_old_value (m : CASReq) : CASReq * list Z :=
  let m' := if is_some (CASReq_old_value m) then m else CASReq_with_old_value m (Some []) in
  (m', default [] (CASReq_old_value m')).
Definition CASReq_take_old_value (m : CASReq) : CASReq * list Z :=
  (CASReq_with_old_value m None, default [] (CASReq_old_value m)).
Definition CASReq_get_old_value (m : CASReq) : list Z := default [] (CASReq_old_value m).

Definition CASReq_is_initialized (m : CASReq) : bool :=
  if negb (is_some (CASReq_key m)) then false else
  true.

Definition CASReq_clear (m : CASReq) : CASReq :=
  let m := CASReq_clear_key m in
  let m := CASReq_clear_new_value m in
  let m := CASReq_clear_old_value m in
  mkCASReq (CASReq_key m) (CASReq_new_value m) (CASReq_old_value m)
    (UnknownFields_clear (CASReq_unknown_fields m)) (CASReq_cached_size m).

Definition CASReq_eq (m o : CASReq) : bool :=
  bool_decide (CASReq_key m = CASReq_key o) &&
  bool_decide (CASReq_new_value m = CASReq_new_value o) &&
  bool_decide (CASReq_old_value m = CASReq_old_value o) &&
  UnknownFields_eq (CASReq_unknown_fields m) (CASReq_unknown_fields o).


(** ** [CASRes] *)

Record CASRes : Type := mkCASRes {
  CASRes_success : option bool;
  CASRes_txid : option Z;
  CASRes_value : option (list Z);
  CASRes_err : option string;
  CASRes_unknown_fields : UnknownFields;
  CASRes_cached_size : Z;
}.

Definition CASRes_new : CASRes := mkCASRes None None None None UnknownFields_new 0.

Definition CASRes_with_success (m : CASRes) (o : option bool) : CASRes :=
  mkCASRes o (CASRes_txid m) (CASRes_value m) (CASRes_err m) (CASRes_unknown_fields m) (CASRes_cached_size m).
Definition CASRes_clear_success (m : CASRes) : CASRes := CASRes_with_success m None.
Definition CASRes_has_success (m : CASRes) : bool := is_some (CASRes_success m).
Definition CASRes_set_success (m : CASRes) (v : bool) : CASRes := CASRes_with_success m (Some v).
Definition CASRes_get_success (m : CASRes) : bool := default false (CASRes_success m).

Definition CASRes_with_txid (m : CASRes) (o : option Z) : CASRes :=
  mkCASRes (CASRes_success m) o (CASRes_value m) (CASRes_err m) (CASRes_unknown_fields m) (CASRes_cached_size m).
Definition CASRes_clear_txid (m : CASRes) : CASRes := CASRes_with_txid m None.
Definition CASRes_has_txid (m : CASRes) : bool := is_some (CASRes_txid m).
Definition CASRes_set_txid (m : CASRes) (v : Z) : CASRes := CASRes_with_txid m (Some v).
Definition CASRes_get_txid (m : CASRes) : Z := default 0 (CASRes_txid m).

Definition CASRes_with_value (m : CASRes) (o : option (list Z)) : CASRes :=
  mkCASRes (CASRes_success m) (CASRes_txid m) o (CASRes_err m) (CASRes_unknown_fields m) (CASRes_cached_size m).
Definition CASRes_clear_value (m : CASRes) : CASRes := CASRes_with_value m None.
Definition CASRes_has_value (m : CASRes) : bool := is_some (CASRes_value m).
Definition CASRes_set_value (m : CASRes) (v : list Z) : CASRes := CASRes_with_value m (Some v).
Definition CASRes_mut_value (m : CASRes) : CASRes * list Z :=
  let m' := if is_some (CASRes_value m) then m else CASRes_with_value m (Some []) in
  (m', default [] (CASRes_value m')).
Definition CASRes_take_value (m : CASRes) : CASRes * list Z :=
  (CASRes_with_value m None, default [] (CASRes_value m)).
Definition CASRes_get_value (m : CASRes) : list Z := default [] (CASRes_value m).

Definition CASRes_with_err (m : CASRes) (o : option string) : CASRes :=
  mkCASRes (CASRes_success m) (CASRes_txid m) (CASRes_value m) o (CASRes_unknown_fields m) (CASRes_cached_size m).
Definition CASRes_clear_err (m : CASRes) : CASRes := CASRes_with_err m None.
Definition CASRes_has_err (m : CASRes) : bool := is_some (CASRes_err m).
Definition CASRes_set_err (m : CASRes) (v : string) : CASRes := CASRes_with_err m (Some v).
Definition CASRes_mut_err (m : CASRes) : CASRes * string :=
  let m' := if is_some (CASRes_err m) then m else CASRes_with_err m (Some EmptyString) in
  (m', default EmptyString (CASRes_err m')).
Definition CASRes_take_err (m : CASRes) : CASRes * string :=
  (CASRes_with_err m None, default EmptyString (CASRes_err m)).
Definition CASRes_get_err (m : CASRes) : string := default EmptyString (CASRes_err m).

Definition CASRes_is_initialized (m : CASRes) : bool :=
  if negb (is_some (CASRes_success m)) then false else
  if negb (is_some (CASRes_txid m)) then false else
  true.

Definition CASRes_clear (m : CASRes) : CASRes :=
  let m := CASRes_clear_success m in
  let m := CASRes_clear_txid m in
  let m := CASRes_clear_value m in
  let m := CASRes_clear_err m in
  mkCASRes (CASRes_success m) (CASRes_txid m) (CASRes_value m) (CASRes_err m)
    (UnknownFields_clear (CASRes_unknown_fields m)) (CASRes_cached_size m).

Definition CASRes_eq (m o : CASRes) : bool :=
  bool_decide (CASRes_success m = CASRes_success o) &&
  bool_decide (CASRes_txid m = CASRes_txid o) &&
  bool_decide (CASRes_value m = CASRes_value o) &&
  bool_decide (CASRes_err m = CASRes_err o) &&
  UnknownFields_eq (CASRes_unknown_fields m) (CASRes_unknown_fields o).


(** ** [DelReq] *)

Record DelReq : Type := mkDelReq {
  DelReq_key : option (list Z);
  DelReq_unknown_fields : UnknownFields;
  DelReq_cached_size : Z;
}.

Definition DelReq_new : DelReq := mkDelReq None UnknownFields_new 0.

Definition DelReq_with_key (m : DelReq) (o : option (list Z)) : DelReq :=
  mkDelReq o (DelReq_unknown_fields m) (DelReq_cached_size m).
Definition DelReq_clear_key (m : DelReq) : DelReq := DelReq_with_key m None.
Definition DelReq_has_key (m : DelReq) : bool := is_some (DelReq_key m).
Definition DelReq_set_key (m : DelReq) (v : list Z) : DelReq := DelReq_with_key m (Some v).
Definition DelReq_mut_key (m : DelReq) : DelReq * list Z :=
  let m' := if is_some (DelReq_key m) then m else DelReq_with_key m (Some []) in
  (m', default [] (DelReq_key m')).
Definition DelReq_take_key (m : DelReq) : DelReq * list Z :=
  (DelReq_with_key m None, default [] (DelReq_key m)).
Definition DelReq_get_key (m : DelReq) : list Z := default [] (DelReq_key m).

Definition DelReq_is_initialized (m : DelReq) : bool :=
  if negb (is_some (DelReq_key m)) then false else
  true.

Definition DelReq_clear (m : DelReq) : DelReq :=
  let m := DelReq_clear_key m in
  mkDelReq (DelReq_key m)
    (UnknownFields_clear (DelReq_unknown_fields m)) (DelReq_cached_size m).

Definition DelReq_eq (m o : DelReq) : bool :=
  bool_decide (DelReq_key m = DelReq_key o) &&
  UnknownFields_eq (DelReq_unknown_fields m) (DelReq_unknown_fields o).


(** ** [DelRes] *)

Record DelRes : Type := mkDelRes {
  DelRes_success : option bool;
  DelRes_txid : option Z;
  DelRes_value : option (list Z);
  DelRes_err : option string;
  DelRes_unknown_fields : UnknownFields;
  DelRes_cached_size : Z;
}.

Definition DelRes_new : DelRes := mkDelRes None None None None UnknownFields_new 0.

Definition DelRes_with_success (m : DelRes) (o : option bool) : DelRes :=
  mkDelRes o (DelRes_txid m) (DelRes_value m) (DelRes_err m) (DelRes_unknown_fields m) (DelRes_cached_size m).
Definition DelRes_clear_success (m : DelRes) : DelRes := DelRes_with_success m None.
Definition DelRes_has_success (m : DelRes) : bool := is_some (DelRes_success m).
Definition DelRes_set_success (m : DelRes) (v : bool) : DelRes := DelRes_with_success m (Some v).
Definition DelRes_get_success (m : DelRes) : bool := default false (DelRes_success m).

Definition DelRes_with_txid (m : DelRes) (o : option Z) : DelRes :=
  mkDelRes (DelRes_success m) o (DelRes_value m) (DelRes_err m) (DelRes_unknown_fields m) (DelRes_cached_size m).
Definition DelRes_clear_txid (m : DelRes) : DelRes := DelRes_with_txid m None.
Definition DelRes_has_txid (m : DelRes) : bool := is_some (DelRes_txid m).
Definition DelRes_set_txid (m : DelRes) (v : Z) : DelRes := DelRes_with_txid m (Some v).
Definition DelRes_get_txid (m : DelRes) : Z := default 0 (DelRes_txid m).

Definition DelRes_with_value (m : DelRes) (o : option (list Z)) : DelRes :=
  mkDelRes (DelRes_success m) (DelRes_txid m) o (DelRes_err m) (DelRes_unknown_fields m) (DelRes_cached_size m).
Definition DelRes_clear_value (m : DelRes) : DelRes := DelRes_with_value m None.
Definition DelRes_has_value (m : DelRes) : bool := is_some (DelRes_value m).
Definition DelRes_set_value (m : DelRes) (v : list Z) : DelRes := DelRes_with_value m (Some v).
Definition DelRes_mut_value (m : DelRes) : DelRes * list Z :=
  let m' := if is_some (DelRes_value m) then m else DelRes_with_value m (Some []) in
  (m', default [] (DelRes_value m')).
Definition DelRes_take_value (m : DelRes) : DelRes * list Z :=
  (DelRes_with_value m None, default [] (DelRes_value m)).
Definition DelRes_get_value (m : DelRes) : list Z := default [] (DelRes_value m).

Definition DelRes_with_err (m : DelRes) (o : option string) : DelRes :=
  mkDelRes (DelRes_success m) (DelRes_txid m) (DelRes_value m) o (DelRes_unknown_fields m) (DelRes_cached_size m).
Definition DelRes_clear_err (m : DelRes) : DelRes := DelRes_with_err m None.
Definition DelRes_has_err (m : DelRes) : bool := is_some (DelRes_err m).
Definition DelRes_set_err (m : DelRes) (v : string) : DelRes := DelRes_with_err m (Some v).
Definition DelRes_mut_err (m : DelRes) : DelRes * string :=
  let m' := if is_some (DelRes_err m) then m else DelRes_with_err m (Some EmptyString) in
  (m', default EmptyString (DelRes_err m')).
Definition DelRes_take_err (m : DelRes) : DelRes * string :=
  (DelRes_with_err m None, default EmptyString (DelRes_err m)).
Definition DelRes_get_err (m : DelRes) : string := default EmptyString (DelRes_err m).

Definition DelRes_is_initialized (m : DelRes) : bool :=
  if negb (is_some (DelRes_success m)) then false else
  if negb (is_some (DelRes_txid m)) then false else
  if negb (is_some (DelRes_value m)) then false else
  true.

Definition DelRes_clear (m : DelRes) : DelRes :=
  let m := DelRes_clear_success m in
  let m := DelRes_clear_txid m in
  let m := DelRes_clear_value m in
  let m := DelRes_clear_err m in
  mkDelRes (DelRes_success m) (DelRes_txid m) (DelRes_value m) (DelRes_err m)
    (UnknownFields_clear (DelRes_unknown_fields m)) (DelRes_cached_size m).

Definition DelRes_eq (m o : DelRes) : bool :=
  bool_decide (DelRes_success m = DelRes_success o) &&
  bool_decide (DelRes_txid m = DelRes_txid o) &&
  bool_decide (DelRes_value m = DelRes_value o) &&
  bool_decide (DelRes_err m = DelRes_err o) &&
  UnknownFields_eq (DelRes_unknown_fields m) (DelRes_unknown_fields o).


(** ** [WatchReq] *)

Record WatchReq : Type := mkWatchReq {
  WatchReq_key : option (list Z);
  WatchReq_last_txid : option Z;
  WatchReq_recursive : option bool;
  WatchReq_historical : option bool;
  WatchReq_unknown_fields : UnknownFields;
  WatchReq_cached_size : Z;
}.

Definition WatchReq_new : WatchReq := mkWatchReq None None None None UnknownFields_new 0.

Definition WatchReq_with_key (m : WatchReq) (o : option (list Z)) : WatchReq :=
  mkWatchReq o (WatchReq_last_txid m) (WatchReq_recursive m) (WatchReq_historical m) (WatchReq_unknown_fields m) (WatchReq_cached_size m).
Definition WatchReq_clear_key (m : WatchReq) : WatchReq := WatchReq_with_key m None.
Definition WatchReq_has_key (m : WatchReq) : bool := is_some (WatchReq_key m).
Definition WatchReq_set_key (m : WatchReq) (v : list Z) : WatchReq := WatchReq_with_key m (Some v).
Definition WatchReq_mut_key (m : WatchReq) : WatchReq * list Z :=
  let m' := if is_some (WatchReq_key m) then m else WatchReq_with_key m (Some []) in
  (m', default [] (WatchReq_key m')).
Definition WatchReq_take_key (m : WatchReq) : WatchReq * list Z :=
  (WatchReq_with_key m None, default [] (WatchReq_key m)).
Definition WatchReq_get_key (m : WatchReq) : list Z := default [] (WatchReq_key m).

Definition WatchReq_with_last_txid (m : WatchReq) (o : option Z) : WatchReq :=
  mkWatchReq (WatchReq_key m) o (WatchReq_recursive m) (WatchReq_historical m) (WatchReq_unknown_fields m) (WatchReq_cached_size m).
Definition WatchReq_clear_last_txid (m : WatchReq) : WatchReq := WatchReq_with_last_txid m None.
Definition WatchReq_has_last_txid (m : WatchReq) : bool := is_some (WatchReq_last_txid m).
Definition WatchReq_set_last_txid (m : WatchReq) (v : Z) : WatchReq := WatchReq_with_last_txid m (Some v).
Definition WatchReq_get_last_txid (m : WatchReq) : Z := default 0 (WatchReq_last_txid m).

Definition WatchReq_with_recursive (m : WatchReq) (o : option bool) : WatchReq :=
  mkWatchReq (WatchReq_key m) (WatchReq_last_txid m) o (WatchReq_historical m) (WatchReq_unknown_fields m) (WatchReq_cached_size m).
Definition WatchReq_clear_recursive (m : WatchReq) : WatchReq := WatchReq_with_recursive m None.
Definition WatchReq_has_recursive (m : WatchReq) : bool := is_some (WatchReq_recursive m).
Definition WatchReq_set_recursive (m : WatchReq) (v : bool) : WatchReq := WatchReq_with_recursive m (Some v).
Definition WatchReq_get_recursive (m : WatchReq) : bool := default false (WatchReq_recursive m).

Definition WatchReq_with_historical (m : WatchReq) (o : option bool) : WatchReq :=
  mkWatchReq (WatchReq_key m) (WatchReq_last_txid m) (WatchReq_recursive m) o (WatchReq_unknown_fields m) (WatchReq_cached_size m).
Definition WatchReq_clear_historical (m : WatchReq) : WatchReq := WatchReq_with_historical m None.
Definition WatchReq_has_historical (m : WatchReq) : bool := is_some (WatchReq_historical m).
Definition WatchReq_set_historical (m : WatchReq) (v : bool) : WatchReq := WatchReq_with_historical m (Some v).
Definition WatchReq_get_historical (m : WatchReq) : bool := default false (WatchReq_historical m).

Definition WatchReq_is_initialized (m : WatchReq) : bool :=
  if negb (is_some (WatchReq_key m)) then false else
  if negb (is_some (WatchReq_last_txid m)) then false else
  if negb (is_some (WatchReq_recursive m)) then false else
  if negb (is_some (WatchReq_historical m)) then false else
  true.

Definition WatchReq_clear (m : WatchReq) : WatchReq :=
  let m := WatchReq_clear_key m in
  let m := WatchReq_clear_last_txid m in
  let m := WatchReq_clear_recursive m in
  let m := WatchReq_clear_historical m in
  mkWatchReq (WatchReq_key m) (WatchReq_last_txid m) (WatchReq_recursive m) (WatchReq_historical m)
    (UnknownFields_clear (WatchReq_unknown_fields m)) (WatchReq_cached_size m).

Definition WatchReq_eq (m o : WatchReq) : bool :=
  bool_decide (WatchReq_key m = WatchReq_key o) &&
  bool_decide (WatchReq_last_txid m = WatchReq_last_txid o) &&
  bool_decide (WatchReq_recursive m = WatchReq_recursive o) &&
  bool_decide (WatchReq_historical m = WatchReq_historical o) &&
  UnknownFields_eq (WatchReq_unknown_fields m) (WatchReq_unknown_fields o).


(** ** [Version] *)

Record Version : Type := mkVersion {
  Version_txid : option Z;
  Version_term : option Z;
  Version_unknown_fields : UnknownFields;
  Version_cached_size : Z;
}.

Definition Version_new : Version := mkVersion None None UnknownFields_new 0.

Definition Version_with_txid (m : Version) (o : option Z) : Version :=
  mkVersion o (Version_term m) (Version_unknown_fields m) (Version_cached_size m).
Definition Version_clear_txid (m : Version) : Version := Version_with_txid m None.
Definition Version_has_txid (m : Version) : bool := is_some (Version_txid m).
Definition Version_set_txid (m : Version) (v : Z) : Version := Version_with_txid m (Some v).
Definition Version_get_txid (m : Version) : Z := default 0 (Version_txid m).

Definition Version_with_term (m : Version) (o : option Z) : Version :=
  mkVersion (Version_txid m) o (Version_unknown_fields m) (Version_cached_size m).
Definition Version_clear_term (m : Version) : Version := Version_with_term m None.
Definition Version_has_term (m : Version) : bool := is_some (Version_term m).
Definition Version_set_term (m : Version) (v : Z) : Version := Version_with_term m (Some v).
Definition Version_get_term (m : Version) : Z := default 0 (Version_term m).

Definition Version_is_initialized (m : Version) : bool :=
  if negb (is_some (Version_txid m)) then false else
  if negb (is_some (Version_term m)) then false else
  true.

Definition Version_clear (m : Version) : Version :=
  let m := Version_clear_txid m in
  let m := Version_clear_term m in
  mkVersion (Version_txid m) (Version_term m)
    (UnknownFields_clear (Version_unknown_fields m)) (Version_cached_size m).

Definition Version_eq (m o : Version) : bool :=
  bool_decide (Version_txid m = Version_txid o) &&
  bool_decide (Version_term m = Version_term o) &&
  UnknownFields_eq (Version_unknown_fields m) (Version_unknown_fields o).


(** ** [Mutation] *)

Record Mutation : Type := mkMutation {
  Mutation_field_type : option MutationType;
  Mutation_version : option Version;
  Mutation_key : option (list Z);
  Mutation_value : option (list Z);
  Mutation_old_value : option (list Z);
  Mutation_unknown_fields : UnknownFields;
  Mutation_cached_size : Z;
}.

Definition Mutation_new : Mutation := mkMutation None None None None None UnknownFields_new 0.

Definition Mutation_with_field_type (m : Mutation) (o : option MutationType) : Mutation :=
  mkMutation o (Mutation_version m) (Mutation_key m) (Mutation_value m) (Mutation_old_value m) (Mutation_unknown_fields m) (Mutation_cached_size m).
Definition Mutation_clear_field_type (m : Mutation) : Mutation := Mutation_with_field_type m None.
Definition Mutation_has_field_type (m : Mutation) : bool := is_some (Mutation_field_type m).
Definition Mutation_set_field_type (m : Mutation) (v : MutationType) : Mutation := Mutation_with_field_type m (Some v).
Definition Mutation_get_field_type (m : Mutation) : MutationType := default KVSET (Mutation_field_type m).

Definition Mutation_with_version (m : Mutation) (o : option Version) : Mutation :=
  mkMutation (Mutation_field_type m) o (Mutation_key m) (Mutation_value m) (Mutation_old_value m) (Mutation_unknown_fields m) (Mutation_cached_size m).
Definition Mutation_clear_version (m : Mutation) : Mutation := Mutation_with_version m None.
Definition Mutation_has_version (m : Mutation) : bool := is_some (Mutation_version m).
Definition Mutation_set_version (m : Mutation) (v : Version) : Mutation := Mutation_with_version m (Some v).
Definition Mutation_mut_version (m : Mutation) : Mutation * Version :=
  let m' := if is_some (Mutation_version m) then m else Mutation_with_version m (Some Version_new) in
  (m', default Version_new (Mutation_version m')).
Definition Mutation_take_version (m : Mutation) : Mutation * Version :=
  (Mutation_with_version m None, default Version_new (Mutation_version m)).
Definition Mutation_get_version (m : Mutation) : Version := default Version_new (Mutation_version m).

Definition Mutation_with_key (m : Mutation) (o : option (list Z)) : Mutation :=
  mkMutation (Mutation_field_type m) (Mutation_version m) o (Mutation_value m) (Mutation_old_value m) (Mutation_unknown_fields m) (Mutation_cached_size m).
Definition Mutation_clear_key (m : Mutation) : Mutation := Mutation_with_key m None.
Definition Mutation_has_key (m : Mutation) : bool := is_some (Mutation_key m).
Definition Mutation_set_key (m : Mutation) (v : list Z) : Mutation := Mutation_with_key m (Some v).
Definition Mutation_mut_key (m : Mutation) : Mutation * list Z :=
  let m' := if is_some (Mutation_key m) then m else Mutation_with_key m (Some []) in
  (m', default [] (Mutation_key m')).
Definition Mutation_take_key (m : Mutation) : Mutation * list Z :=
  (Mutation_with_key m None, default [] (Mutation_key m)).
Definition Mutation_get_key (m : Mutation) : list Z := default [] (Mutation_key m).

Definition Mutation_with_value (m : Mutation) (o : option (list Z)) : Mutation :=
  mkMutation (Mutation_field_type m) (Mutation_version m) (Mutation_key m) o (Mutation_old_value m) (Mutation_unknown_fields m) (Mutation_cached_size m).
Definition Mutation_clear_value (m : Mutation) : Mutation := Mutation_with_value m None.
Definition Mutation_has_value (m : Mutation) : bool := is_some (Mutation_value m).
Definition Mutation_set_value (m : Mutation) (v : list Z) : Mutation := Mutation_with_value m (Some v).
Definition Mutation_mut_value (m : Mutation) : Mutation * list Z :=
  let m' := if is_some (Mutation_value m) then m else Mutation_with_value m (Some []) in
  (m', default [] (Mutation_value m')).
Definition Mutation_take_value (m : Mutation) : Mutation * list Z :=
  (Mutation_with_value m None, default [] (Mutation_value m)).
Definition Mutation_get_value (m : Mutation) : list Z := default [] (Mutation_value m).

Definition Mutation_with_old_value (m : Mutation) (o : option (list Z)) : Mutation :=
  mkMutation (Mutation_field_type m) (Mutation_version m) (Mutation_key m) (Mutation_value m) o (Mutation_unknown_fields m) (Mutation_cached_size m).
Definition Mutation_clear_old_value (m : Mutation) : Mutation := Mutation_with_old_value m None.
Definition Mutation_has_old_value (m : Mutation) : bool := is_some (Mutation_old_value m).
Definition Mutation_set_old_value (m : Mutation) (v : list Z) : Mutation := Mutation_with_old_value m (Some v).
Definition Mutation_mut_old_value (m : Mutation) : Mutation * list Z :=
  let m' := if is_some (Mutation_old_value m) then m else Mutation_with_old_value m (Some []) in
  (m', default [] (Mutation_old_value m')).
Definition Mutation_take_old_value (m : Mutation) : Mutation * list Z :=
  (Mutation_with_old_value m None, default [] (Mutation_old_value m)).
Definition Mutation_get_old_value (m : Mutation) : list Z := default [] (Mutation_old_value m).

Definition Mutation_is_initialized (m : Mutation) : bool :=
  if negb (is_some (Mutation_field_type m)) then false else
  if negb (is_some (Mutation_version m)) then false else
  if negb (is_some (Mutation_key m)) then false else
  true.

Definition Mutation_clear (m : Mutation) : Mutation :=
  let m := Mutation_clear_field_type m in
  let m := Mutation_clear_version m in
  let m := Mutation_clear_key m in
  let m := Mutation_clear_value m in
  let m := Mutation_clear_old_value m in
  mkMutation (Mutation_field_type m) (Mutation_version m) (Mutation_key m) (Mutation_value m) (Mutation_old_value m)
    (UnknownFields_clear (Mutation_unknown_fields m)) (Mutation_cached_size m).

Definition Mutation_eq (m o : Mutation) : bool :=
  bool_decide (Mutation_field_type m = Mutation_field_type o) &&
  opt_eqb Version_eq (Mutation_version m) (Mutation_version o) &&
  bool_decide (Mutation_key m = Mutation_key o) &&
  bool_decide (Mutation_value m = Mutation_value o) &&
  bool_decide (Mutation_old_value m = Mutation_old_value o) &&
  UnknownFields_eq (Mutation_unknown_fields m) (Mutation_unknown_fields o).


(** ** [WatchRes] *)

Record WatchRes : Type := mkWatchRes {
  WatchRes_success : option bool;
  WatchRes_history : list Mutation;
  WatchRes_err : option string;
  WatchRes_unknown_fields : UnknownFields;
  WatchRes_cached_size : Z;
}.

Definition WatchRes_new : WatchRes := mkWatchRes None [] None UnknownFields_new 0.

Definition WatchRes_with_success (m : WatchRes) (o : option bool) : WatchRes :=
  mkWatchRes o (WatchRes_history m) (WatchRes_err m) (WatchRes_unknown_fields m) (WatchRes_cached_size m).
Definition WatchRes_clear_success (m : WatchRes) : WatchRes := WatchRes_with_success m None.
Definition WatchRes_has_success (m : WatchRes) : bool := is_some (WatchRes_success m).
Definition WatchRes_set_success (m : WatchRes) (v : bool) : WatchRes := WatchRes_with_success m (Some v).
Definition WatchRes_get_success (m : WatchRes) : bool := default false (WatchRes_success m).

Definition WatchRes_set_history (m : WatchRes) (v : list Mutation) : WatchRes :=
  mkWatchRes (WatchRes_success m) v (WatchRes_err m) (WatchRes_unknown_fields m) (WatchRes_cached_size m).
Definition WatchRes_clear_history (m : WatchRes) : WatchRes := WatchRes_set_history m [].
Definition WatchRes_mut_history (m : WatchRes) : WatchRes * list Mutation := (m, WatchRes_history m).
Definition WatchRes_take_history (m : WatchRes) : WatchRes * list Mutation := (WatchRes_set_history m [], WatchRes_history m).
Definition WatchRes_get_history (m : WatchRes) : list Mutation := WatchRes_history m.

Definition WatchRes_with_err (m : WatchRes) (o : option string) : WatchRes :=
  mkWatchRes (WatchRes_success m) (WatchRes_history m) o (WatchRes_unknown_fields m) (WatchRes_cached_size m).
Definition WatchRes_clear_err (m : WatchRes) : WatchRes := WatchRes_with_err m None.
Definition WatchRes_has_err (m : WatchRes) : bool := is_some (WatchRes_err m).
Definition WatchRes_set_err (m : WatchRes) (v : string) : WatchRes := WatchRes_with_err m (Some v).
Definition WatchRes_mut_err (m : WatchRes) : WatchRes * string :=
  let m' := if is_some (WatchRes_err m) then m else WatchRes_with_err m (Some EmptyString) in
  (m', default EmptyString (WatchRes_err m')).
Definition WatchRes_take_err (m : WatchRes) : WatchRes * string :=
  (WatchRes_with_err m None, default EmptyString (WatchRes_err m)).
Definition WatchRes_get_err (m : WatchRes) : string := default EmptyString (WatchRes_err m).

Definition WatchRes_is_initialized (m : WatchRes) : bool :=
  if negb (is_some (WatchRes_success m)) then false else
  true.

Definition WatchRes_clear (m : WatchRes) : WatchRes :=
  let m := WatchRes_clear_success m in
  let m := WatchRes_clear_history m in
  let m := WatchRes_clear_err m in
  mkWatchRes (WatchRes_success m) (WatchRes_history m) (WatchRes_err m)
    (UnknownFields_clear (WatchRes_unknown_fields m)) (WatchRes_cached_size m).

Definition WatchRes_eq (m o : WatchRes) : bool :=
  bool_decide (WatchRes_success m = WatchRes_success o) &&
  list_eqb Mutation_eq (WatchRes_history m) (WatchRes_history o) &&
  bool_decide (WatchRes_err m = WatchRes_err o) &&
  UnknownFields_eq (WatchRes_unknown_fields m) (WatchRes_unknown_fields o).


(** ** [RedirectRes] *)

Record RedirectRes : Type := mkRedirectRes {
  RedirectRes_success : option bool;
  RedirectRes_address : option string;
  RedirectRes_err : option string;
  RedirectRes_unknown_fields : UnknownFields;
  RedirectRes_cached_size : Z;
}.

Definition RedirectRes_new : RedirectRes := mkRedirectRes None None None UnknownFields_new 0.

Definition RedirectRes_with_success (m : RedirectRes) (o : option bool) : RedirectRes :=
  mkRedirectRes o (RedirectRes_address m) (RedirectRes_err m) (RedirectRes_unknown_fields m) (RedirectRes_cached_size m).
Definition RedirectRes_clear_success (m : RedirectRes) : RedirectRes := RedirectRes_with_success m None.
Definition RedirectRes_has_success (m : RedirectRes) : bool := is_some (RedirectRes_success m).
Definition RedirectRes_set_success (m : RedirectRes) (v : bool) : RedirectRes := RedirectRes_with_success m (Some v).
Definition RedirectRes_get_success (m : RedirectRes) : bool := default false (RedirectRes_success m).

Definition RedirectRes_with_address (m : RedirectRes) (o : option string) : RedirectRes :=
  mkRedirectRes (RedirectRes_success m) o (RedirectRes_err m) (RedirectRes_unknown_fields m) (RedirectRes_cached_size m).
Definition RedirectRes_clear_address (m : RedirectRes) : RedirectRes := RedirectRes_with_address m None.
Definition RedirectRes_has_address (m : RedirectRes) : bool := is_some (RedirectRes_address m).
Definition RedirectRes_set_address (m : RedirectRes) (v : string) : RedirectRes := RedirectRes_with_address m (Some v).
Definition RedirectRes_mut_address (m : RedirectRes) : RedirectRes * string :=
  let m' := if is_some (RedirectRes_address m) then m else RedirectRes_with_address m (Some EmptyString) in
  (m', default EmptyString (RedirectRes_address m')).
Definition RedirectRes_take_address (m : RedirectRes) : RedirectRes * string :=
  (RedirectRes_with_address m None, default EmptyString (RedirectRes_address m)).
Definition RedirectRes_get_address (m : RedirectRes) : string := default EmptyString (RedirectRes_address m).

Definition RedirectRes_with_err (m : RedirectRes) (o : option string) : RedirectRes :=
  mkRedirectRes (RedirectRes_success m) (RedirectRes_address m) o (RedirectRes_unknown_fields m) (RedirectRes_cached_size m).
Definition RedirectRes_clear_err (m : RedirectRes) : RedirectRes := RedirectRes_with_err m None.
Definition RedirectRes_has_err (m : RedirectRes) : bool := is_some (RedirectRes_err m).
Definition RedirectRes_set_err (m : RedirectRes) (v : string) : RedirectRes := RedirectRes_with_err m (Some v).
Definition RedirectRes_mut_err (m : RedirectRes) : RedirectRes * string :=
  let m' := if is_some (RedirectRes_err m) then m else RedirectRes_with_err m (Some EmptyString) in
  (m', default EmptyString (RedirectRes_err m')).
Definition RedirectRes_take_err (m : RedirectRes) : RedirectRes * string :=
  (RedirectRes_with_err m None, default EmptyString (RedirectRes_err m)).
Definition RedirectRes_get_err (m : RedirectRes) : string := default EmptyString (RedirectRes_err m).

Definition RedirectRes_is_initialized (m : RedirectRes) : bool :=
  if negb (is_some (RedirectRes_success m)) then false else
  true.

Definition RedirectRes_clear (m : RedirectRes) : RedirectRes :=
  let m := RedirectRes_clear_success m in
  let m := RedirectRes_clear_address m in
  let m := RedirectRes_clear_err m in
  mkRedirectRes (RedirectRes_success m) (RedirectRes_address m) (RedirectRes_err m)
    (UnknownFields_clear (RedirectRes_unknown_fields m)) (RedirectRes_cached_size m).

Definition RedirectRes_eq (m o : RedirectRes) : bool :=
  bool_decide (RedirectRes_success m = RedirectRes_success o) &&
  bool_decide (RedirectRes_address m = RedirectRes_address o) &&
  bool_decide (RedirectRes_err m = RedirectRes_err o) &&
  UnknownFields_eq (RedirectRes_unknown_fields m) (RedirectRes_unknown_fields o).


(** ** [CliReq] *)

Record CliReq : Type := mkCliReq {
  CliReq_req_id : option Z;
  CliReq_get : option GetReq;
  CliReq_set : option SetReq;
  CliReq_cas : option CASReq;
  CliReq_del : option DelReq;
  CliReq_watch : option WatchReq;
  CliReq_unknown_fields : UnknownFields;
  CliReq_cached_size : Z;
}.

Definition CliReq_new : CliReq := mkCliReq None None None None None None UnknownFields_new 0.

Definition CliReq_with_req_id (m : CliReq) (o : option Z) : CliReq :=
  mkCliReq o (CliReq_get m) (CliReq_set m) (CliReq_cas m) (CliReq_del m) (CliReq_watch m) (CliReq_unknown_fields m) (CliReq_cached_size m).
Definition CliReq_clear_req_id (m : CliReq) : CliReq := CliReq_with_req_id m None.
Definition CliReq_has_req_id (m : CliReq) : bool := is_some (CliReq_req_id m).
Definition CliReq_set_req_id (m : CliReq) (v : Z) : CliReq := CliReq_with_req_id m (Some v).
Definition CliReq_get_req_id (m : CliReq) : Z := default 0 (CliReq_req_id m).

Definition CliReq_with_get (m : CliReq) (o : option GetReq) : CliReq :=
  mkCliReq (CliReq_req_id m) o (CliReq_set m) (CliReq_cas m) (CliReq_del m) (CliReq_watch m) (CliReq_unknown_fields m) (CliReq_cached_size m).
Definition CliReq_clear_get (m : CliReq) : CliReq := CliReq_with_get m None.
Definition CliReq_has_get (m : CliReq) : bool := is_some (CliReq_get m).
Definition CliReq_set_get (m : CliReq) (v : GetReq) : CliReq := CliReq_with_get m (Some v).
Definition CliReq_mut_get (m : CliReq) : CliReq * GetReq :=
  let m' := if is_some (CliReq_get m) then m else CliReq_with_get m (Some GetReq_new) in
  (m', default GetReq_new (CliReq_get m')).
Definition CliReq_take_get (m : CliReq) : CliReq * GetReq :=
  (CliReq_with_get m None, default GetReq_new (CliReq_get m)).
Definition CliReq_get_get (m : CliReq) : GetReq := default GetReq_new (CliReq_get m).

Definition CliReq_with_set (m : CliReq) (o : option SetReq) : CliReq :=
  mkCliReq (CliReq_req_id m) (CliReq_get m) o (CliReq_cas m) (CliReq_del m) (CliReq_watch m) (CliReq_unknown_fields m) (CliReq_cached_size m).
Definition CliReq_clear_set (m : CliReq) : CliReq := CliReq_with_set m None.
Definition CliReq_has_set (m : CliReq) : bool := is_some (CliReq_set m).
Definition CliReq_set_set (m : CliReq) (v : SetReq) : CliReq := CliReq_with_set m (Some v).
Definition CliReq_mut_set (m : CliReq) : CliReq * SetReq :=
  let m' := if is_some (CliReq_set m) then m else CliReq_with_set m (Some SetReq_new) in
  (m', default SetReq_new (CliReq_set m')).
Definition CliReq_take_set (m : CliReq) : CliReq * SetReq :=
  (CliReq_with_set m None, default SetReq_new (CliReq_set m)).
Definition CliReq_get_set (m : CliReq) : SetReq := default SetReq_new (CliReq_set m).

Definition CliReq_with_cas (m : CliReq) (o : option CASReq) : CliReq :=
  mkCliReq (CliReq_req_id m) (CliReq_get m) (CliReq_set m) o (CliReq_del m) (CliReq_watch m) (CliReq_unknown_fields m) (CliReq_cached_size m).
Definition CliReq_clear_cas (m : CliReq) : CliReq := CliReq_with_cas m None.
Definition CliReq_has_cas (m : CliReq) : bool := is_some (CliReq_cas m).
Definition CliReq_set_cas (m : CliReq) (v : CASReq) : CliReq := CliReq_with_cas m (Some v).
Definition CliReq_mut_cas (m : CliReq) : CliReq * CASReq :=
  let m' := if is_some (CliReq_cas m) then m else CliReq_with_cas m (Some CASReq_new) in
  (m', default CASReq_new (CliReq_cas m')).
Definition CliReq_take_cas (m : CliReq) : CliReq * CASReq :=
  (CliReq_with_cas m None, default CASReq_new (CliReq_cas m)).
Definition CliReq_get_cas (m : CliReq) : CASReq := default CASReq_new (CliReq_cas m).

Definition CliReq_with_del (m : CliReq) (o : option DelReq) : CliReq :=
  mkCliReq (CliReq_req_id m) (CliReq_get m) (CliReq_set m) (CliReq_cas m) o (CliReq_watch m) (CliReq_unknown_fields m) (CliReq_cached_size m).
Definition CliReq_clear_del (m : CliReq) : CliReq := CliReq_with_del m None.
Definition CliReq_has_del (m : CliReq) : bool := is_some (CliReq_del m).
Definition CliReq_set_del (m : CliReq) (v : DelReq) : CliReq := CliReq_with_del m (Some v).
Definition CliReq_mut_del (m : CliReq) : CliReq * DelReq :=
  let m' := if is_some (CliReq_del m) then m else CliReq_with_del m (Some DelReq_new) in
  (m', default DelReq_new (CliReq_del m')).
Definition CliReq_take_del (m : CliReq) : CliReq * DelReq :=
  (CliReq_with_del m None, default DelReq_new (CliReq_del m)).
Definition CliReq_get_del (m : CliReq) : DelReq := default DelReq_new (CliReq_del m).

Definition CliReq_with_watch (m : CliReq) (o : option WatchReq) : CliReq :=
  mkCliReq (CliReq_req_id m) (CliReq_get m) (CliReq_set m) (CliReq_cas m) (CliReq_del m) o (CliReq_unknown_fields m) (CliReq_cached_size m).
Definition CliReq_clear_watch (m : CliReq) : CliReq := CliReq_with_watch m None.
Definition CliReq_has_watch (m : CliReq) : bool := is_some (CliReq_watch m).
Definition CliReq_set_watch (m : CliReq) (v : WatchReq) : CliReq := CliReq_with_watch m (Some v).
Definition CliReq_mut_watch (m : CliReq) : CliReq * WatchReq :=
  let m' := if is_some (CliReq_watch m) then m else CliReq_with_watch m (Some WatchReq_new) in
  (m', default WatchReq_new (CliReq_watch m')).
Definition CliReq_take_watch (m : CliReq) : CliReq * WatchReq :=
  (CliReq_with_watch m None, default WatchReq_new (CliReq_watch m)).
Definition CliReq_get_watch (m : CliReq) : WatchReq := default WatchReq_new (CliReq_watch m).

Definition CliReq_is_initialized (m : CliReq) : bool :=
  if negb (is_some (CliReq_req_id m)) then false else
  true.

Definition CliReq_clear (m : CliReq) : CliReq :=
  let m := CliReq_clear_req_id m in
  let m := CliReq_clear_get m in
  let m := CliReq_clear_set m in
  let m := CliReq_clear_cas m in
  let m := CliReq_clear_del m in
  let m := CliReq_clear_watch m in
  mkCliReq (CliReq_req_id m) (CliReq_get m) (CliReq_set m) (CliReq_cas m) (CliReq_del m) (CliReq_watch m)
    (UnknownFields_clear (CliReq_unknown_fields m)) (CliReq_cached_size m).

Definition CliReq_eq (m o : CliReq) : bool :=
  bool_decide (CliReq_req_id m = CliReq_req_id o) &&
  opt_eqb GetReq_eq (CliReq_get m) (CliReq_get o) &&
  opt_eqb SetReq_eq (CliReq_set m) (CliReq_set o) &&
  opt_eqb CASReq_eq (CliReq_cas m) (CliReq_cas o) &&
  opt_eqb DelReq_eq (CliReq_del m) (CliReq_del o) &&
  opt_eqb WatchReq_eq (CliReq_watch m) (CliReq_watch o) &&
  UnknownFields_eq (CliReq_unknown_fields m) (CliReq_unknown_fields o).


(** ** [CliRes] *)

Record CliRes : Type := mkCliRes {
  CliRes_req_id : option Z;
  CliRes_get : option GetRes;
  CliRes_set : option SetRes;
  CliRes_cas : option CASRes;
  CliRes_del : option DelRes;
  CliRes_watch : option WatchRes;
  CliRes_redirect : option RedirectRes;
  CliRes_unknown_fields : UnknownFields;
  CliRes_cached_size : Z;
}.

Definition CliRes_new : CliRes := mkCliRes None None None None None None None UnknownFields_new 0.

Definition CliRes_with_req_id (m : CliRes) (o : option Z) : CliRes :=
  mkCliRes o (CliRes_get m) (CliRes_set m) (CliRes_cas m) (CliRes_del m) (CliRes_watch m) (CliRes_redirect m) (CliRes_unknown_fields m) (CliRes_cached_size m).
Definition CliRes_clear_req_id (m : CliRes) : CliRes := CliRes_with_req_id m None.
Definition CliRes_has_req_id (m : CliRes) : bool := is_some (CliRes_req_id m).
Definition CliRes_set_req_id (m : CliRes) (v : Z) : CliRes := CliRes_with_req_id m (Some v).
Definition CliRes_get_req_id (m : CliRes) : Z := default 0 (CliRes_req_id m).

Definition CliRes_with_get (m : CliRes) (o : option GetRes) : CliRes :=
  mkCliRes (CliRes_req_id m) o (CliRes_set m) (CliRes_cas m) (CliRes_del m) (CliRes_watch m) (CliRes_redirect m) (CliRes_unknown_fields m) (CliRes_cached_size m).
Definition CliRes_clear_get (m : CliRes) : CliRes := CliRes_with_get m None.
Definition CliRes_has_get (m : CliRes) : bool := is_some (CliRes_get m).
Definition CliRes_set_get (m : CliRes) (v : GetRes) : CliRes := CliRes_with_get m (Some v).
Definition CliRes_mut_get (m : CliRes) : CliRes * GetRes :=
  let m' := if is_some (CliRes_get m) then m else CliRes_with_get m (Some GetRes_new) in
  (m', default GetRes_new (CliRes_get m')).
Definition CliRes_take_get (m : CliRes) : CliRes * GetRes :=
  (CliRes_with_get m None, default GetRes_new (CliRes_get m)).
Definition CliRes_get_get (m : CliRes) : GetRes := default GetRes_new (CliRes_get m).

Definition CliRes_with_set (m : CliRes) (o : option SetRes) : CliRes :=
  mkCliRes (CliRes_req_id m) (CliRes_get m) o (CliRes_cas m) (CliRes_del m) (CliRes_watch m) (CliRes_redirect m) (CliRes_unknown_fields m) (CliRes_cached_size m).
Definition CliRes_clear_set (m : CliRes) : CliRes := CliRes_with_set m None.
Definition CliRes_has_set (m : CliRes) : bool := is_some (CliRes_set m).
Definition CliRes_set_set (m : CliRes) (v : SetRes) : CliRes := CliRes_with_set m (Some v).
Definition CliRes_mut_set (m : CliRes) : CliRes * SetRes :=
  let m' := if is_some (CliRes_set m) then m else CliRes_with_set m (Some SetRes_new) in
  (m', default SetRes_new (CliRes_set m')).
Definition CliRes_take_set (m : CliRes) : CliRes * SetRes :=
  (CliRes_with_set m None, default SetRes_new (CliRes_set m)).
Definition CliRes_get_set (m : CliRes) : SetRes := default SetRes_new (CliRes_set m).

Definition CliRes_with_cas (m : CliRes) (o : option CASRes) : CliRes :=
  mkCliRes (CliRes_req_id m) (CliRes_get m) (CliRes_set m) o (CliRes_del m) (CliRes_watch m) (CliRes_redirect m) (CliRes_unknown_fields m) (CliRes_cached_size m).
Definition CliRes_clear_cas (m : CliRes) : CliRes := CliRes_with_cas m None.
Definition CliRes_has_cas (m : CliRes) : bool := is_some (CliRes_cas m).
Definition CliRes_set_cas (m : CliRes) (v : CASRes) : CliRes := CliRes_with_cas m (Some v).
Definition CliRes_mut_cas (m : CliRes) : CliRes * CASRes :=
  let m' := if is_some (CliRes_cas m) then m else CliRes_with_cas m (Some CASRes_new) in
  (m', default CASRes_new (CliRes_cas m')).
Definition CliRes_take_cas (m : CliRes) : CliRes * CASRes :=
  (CliRes_with_cas m None, default CASRes_new (CliRes_cas m)).
Definition CliRes_get_cas (m : CliRes) : CASRes := default CASRes_new (CliRes_cas m).

Definition CliRes_with_del (m : CliRes) (o : option DelRes) : CliRes :=
  mkCliRes (CliRes_req_id m) (CliRes_get m) (CliRes_set m) (CliRes_cas m) o (CliRes_watch m) (CliRes_redirect m) (CliRes_unknown_fields m) (CliRes_cached_size m).
Definition CliRes_clear_del (m : CliRes) : CliRes := CliRes_with_del m None.
Definition CliRes_has_del (m : CliRes) : bool := is_some (CliRes_del m).
Definition CliRes_set_del (m : CliRes) (v : DelRes) : CliRes := CliRes_with_del m (Some v).
Definition CliRes_mut_del (m : CliRes) : CliRes * DelRes :=
  let m' := if is_some (CliRes_del m) then m else CliRes_with_del m (Some DelRes_new) in
  (m', default DelRes_new (CliRes_del m')).
Definition CliRes_take_del (m : CliRes) : CliRes * DelRes :=
  (CliRes_with_del m None, default DelRes_new (CliRes_del m)).
Definition CliRes_get_del (m : CliRes) : DelRes := default DelRes_new (CliRes_del m).

Definition CliRes_with_watch (m : CliRes) (o : option WatchRes) : CliRes :=
  mkCliRes (CliRes_req_id m) (CliRes_get m) (CliRes_set m) (CliRes_cas m) (CliRes_del m) o (CliRes_redirect m) (CliRes_unknown_fields m) (CliRes_cached_size m).
Definition CliRes_clear_watch (m : CliRes) : CliRes := CliRes_with_watch m None.
Definition CliRes_has_watch (m : CliRes) : bool := is_some (CliRes_watch m).
Definition CliRes_set_watch (m : CliRes) (v : WatchRes) : CliRes := CliRes_with_watch m (Some v).
Definition CliRes_mut_watch (m : CliRes) : CliRes * WatchRes :=
  let m' := if is_some (CliRes_watch m) then m else CliRes_with_watch m (Some WatchRes_new) in
  (m', default WatchRes_new (CliRes_watch m')).
Definition CliRes_take_watch (m : CliRes) : CliRes * WatchRes :=
  (CliRes_with_watch m None, default WatchRes_new (CliRes_watch m)).
Definition CliRes_get_watch (m : CliRes) : WatchRes := default WatchRes_new (CliRes_watch m).

Definition CliRes_with_redirect (m : CliRes) (o : option RedirectRes) : CliRes :=
  mkCliRes (CliRes_req_id m) (CliRes_get m) (CliRes_set m) (CliRes_cas m) (CliRes_del m) (CliRes_watch m) o (CliRes_unknown_fields m) (CliRes_cached_size m).
Definition CliRes_clear_redirect (m : CliRes) : CliRes := CliRes_with_redirect m None.
Definition CliRes_has_redirect (m : CliRes) : bool := is_some (CliRes_redirect m).
Definition CliRes_set_redirect (m : CliRes) (v : RedirectRes) : CliRes := CliRes_with_redirect m (Some v).
Definition CliRes_mut_redirect (m : CliRes) : CliRes * RedirectRes :=
  let m' := if is_some (CliRes_redirect m) then m else CliRes_with_redirect m (Some RedirectRes_new) in
  (m', default RedirectRes_new (CliRes_redirect m')).
Definition CliRes_take_redirect (m : CliRes) : CliRes * RedirectRes :=
  (CliRes_with_redirect m None, default RedirectRes_new (CliRes_redirect m)).
Definition CliRes_get_redirect (m : CliRes) : RedirectRes := default RedirectRes_new (CliRes_redirect m).

Definition CliRes_is_initialized (m : CliRes) : bool :=
  if negb (is_some (CliRes_req_id m)) then false else
  true.

Definition CliRes_clear (m : CliRes) : CliRes :=
  let m := CliRes_clear_req_id m in
  let m := CliRes_clear_get m in
  let m := CliRes_clear_set m in
  let m := CliRes_clear_cas m in
  let m := CliRes_clear_del m in
  let m := CliRes_clear_watch m in
  let m := CliRes_clear_redirect m in
  mkCliRes (CliRes_req_id m) (CliRes_get m) (CliRes_set m) (CliRes_cas m) (CliRes_del m) (CliRes_watch m) (CliRes_redirect m)
    (UnknownFields_clear (CliRes_unknown_fields m)) (CliRes_cached_size m).

Definition CliRes_eq (m o : CliRes) : bool :=
  bool_decide (CliRes_req_id m = CliRes_req_id o) &&
  opt_eqb GetRes_eq (CliRes_get m) (CliRes_get o) &&
  opt_eqb SetRes_eq (CliRes_set m) (CliRes_set o) &&
  opt_eqb CASRes_eq (CliRes_cas m) (CliRes_cas o) &&
  opt_eqb DelRes_eq (CliRes_del m) (CliRes_del o) &&
  opt_eqb WatchRes_eq (CliRes_watch m) (CliRes_watch o) &&
  opt_eqb RedirectRes_eq (CliRes_redirect m) (CliRes_redirect o) &&
  UnknownFields_eq (CliRes_unknown_fields m) (CliRes_unknown_fields o).


(** ** [VoteReq] *)

Record VoteReq : Type := mkVoteReq {
  VoteReq_term : option Z;
  VoteReq_last_learned_term : option Z;
  VoteReq_last_learned_txid : option Z;
  VoteReq_last_accepted_term : option Z;
  VoteReq_last_accepted_txid : option Z;
  VoteReq_unknown_fields : UnknownFields;
  VoteReq_cached_size : Z;
}.

Definition VoteReq_new : VoteReq := mkVoteReq None None None None None UnknownFields_new 0.

Definition VoteReq_with_term (m : VoteReq) (o : option Z) : VoteReq :=
  mkVoteReq o (VoteReq_last_learned_term m) (VoteReq_last_learned_txid m) (VoteReq_last_accepted_term m) (VoteReq_last_accepted_txid m) (VoteReq_unknown_fields m) (VoteReq_cached_size m).
Definition VoteReq_clear_term (m : VoteReq) : VoteReq := VoteReq_with_term m None.
Definition VoteReq_has_term (m : VoteReq) : bool := is_some (VoteReq_term m).
Definition VoteReq_set_term (m : VoteReq) (v : Z) : VoteReq := VoteReq_with_term m (Some v).
Definition VoteReq_get_term (m : VoteReq) : Z := default 0 (VoteReq_term m).

Definition VoteReq_with_last_learned_term (m : VoteReq) (o : option Z) : VoteReq :=
  mkVoteReq (VoteReq_term m) o (VoteReq_last_learned_txid m) (VoteReq_last_accepted_term m) (VoteReq_last_accepted_txid m) (VoteReq_unknown_fields m) (VoteReq_cached_size m).
Definition VoteReq_clear_last_learned_term (m : VoteReq) : VoteReq := VoteReq_with_last_learned_term m None.
Definition VoteReq_has_last_learned_term (m : VoteReq) : bool := is_some (VoteReq_last_learned_term m).
Definition VoteReq_set_last_learned_term (m : VoteReq) (v : Z) : VoteReq := VoteReq_with_last_learned_term m (Some v).
Definition VoteReq_get_last_learned_term (m : VoteReq) : Z := default 0 (VoteReq_last_learned_term m).

Definition VoteReq_with_last_learned_txid (m : VoteReq) (o : option Z) : VoteReq :=
  mkVoteReq (VoteReq_term m) (VoteReq_last_learned_term m) o (VoteReq_last_accepted_term m) (VoteReq_last_accepted_txid m) (VoteReq_unknown_fields m) (VoteReq_cached_size m).
Definition VoteReq_clear_last_learned_txid (m : VoteReq) : VoteReq := VoteReq_with_last_learned_txid m None.
Definition VoteReq_has_last_learned_txid (m : VoteReq) : bool := is_some (VoteReq_last_learned_txid m).
Definition VoteReq_set_last_learned_txid (m : VoteReq) (v : Z) : VoteReq := VoteReq_with_last_learned_txid m (Some v).
Definition VoteReq_get_last_learned_txid (m : VoteReq) : Z := default 0 (VoteReq_last_learned_txid m).

Definition VoteReq_with_last_accepted_term (m : VoteReq) (o : option Z) : VoteReq :=
  mkVoteReq (VoteReq_term m) (VoteReq_last_learned_term m) (VoteReq_last_learned_txid m) o (VoteReq_last_accepted_txid m) (VoteReq_unknown_fields m) (VoteReq_cached_size m).
Definition VoteReq_clear_last_accepted_term (m : VoteReq) : VoteReq := VoteReq_with_last_accepted_term m None.
Definition VoteReq_has_last_accepted_term (m : VoteReq) : bool := is_some (VoteReq_last_accepted_term m).
Definition VoteReq_set_last_accepted_term (m : VoteReq) (v : Z) : VoteReq := VoteReq_with_last_accepted_term m (Some v).
Definition VoteReq_get_last_accepted_term (m : VoteReq) : Z := default 0 (VoteReq_last_accepted_term m).

Definition VoteReq_with_last_accepted_txid (m : VoteReq) (o : option Z) : VoteReq :=
  mkVoteReq (VoteReq_term m) (VoteReq_last_learned_term m) (VoteReq_last_learned_txid m) (VoteReq_last_accepted_term m) o (VoteReq_unknown_fields m) (VoteReq_cached_size m).
Definition VoteReq_clear_last_accepted_txid (m : VoteReq) : VoteReq := VoteReq_with_last_accepted_txid m None.
Definition VoteReq_has_last_accepted_txid (m : VoteReq) : bool := is_some (VoteReq_last_accepted_txid m).
Definition VoteReq_set_last_accepted_txid (m : VoteReq) (v : Z) : VoteReq := VoteReq_with_last_accepted_txid m (Some v).
Definition VoteReq_get_last_accepted_txid (m : VoteReq) : Z := default 0 (VoteReq_last_accepted_txid m).

Definition VoteReq_is_initialized (m : VoteReq) : bool :=
  if negb (is_some (VoteReq_term m)) then false else
  if negb (is_some (VoteReq_last_learned_term m)) then false else
  if negb (is_some (VoteReq_last_learned_txid m)) then false else
  if negb (is_some (VoteReq_last_accepted_term m)) then false else
  if negb (is_some (VoteReq_last_accepted_txid m)) then false else
  true.

Definition VoteReq_clear (m : VoteReq) : VoteReq :=
  let m := VoteReq_clear_term m in
  let m := VoteReq_clear_last_learned_term m in
  let m := VoteReq_clear_last_learned_txid m in
  let m := VoteReq_clear_last_accepted_term m in
  let m := VoteReq_clear_last_accepted_txid m in
  mkVoteReq (VoteReq_term m) (VoteReq_last_learned_term m) (VoteReq_last_learned_txid m) (VoteReq_last_accepted_term m) (VoteReq_last_accepted_txid m)
    (UnknownFields_clear (VoteReq_unknown_fields m)) (VoteReq_cached_size m).

Definition VoteReq_eq (m o : VoteReq) : bool :=
  bool_decide (VoteReq_term m = VoteReq_term o) &&
  bool_decide (VoteReq_last_learned_term m = VoteReq_last_learned_term o) &&
  bool_decide (VoteReq_last_learned_txid m = VoteReq_last_learned_txid o) &&
  bool_decide (VoteReq_last_accepted_term m = VoteReq_last_accepted_term o) &&
  bool_decide (VoteReq_last_accepted_txid m = VoteReq_last_accepted_txid o) &&
  UnknownFields_eq (VoteReq_unknown_fields m) (VoteReq_unknown_fields o).


(** ** [VoteRes] *)

Record VoteRes : Type := mkVoteRes {
  VoteRes_success : option bool;
  VoteRes_term : option Z;
  VoteRes_unknown_fields : UnknownFields;
  VoteRes_cached_size : Z;
}.

Definition VoteRes_new : VoteRes := mkVoteRes None None UnknownFields_new 0.

Definition VoteRes_with_success (m : VoteRes) (o : option bool) : VoteRes :=
  mkVoteRes o (VoteRes_term m) (VoteRes_unknown_fields m) (VoteRes_cached_size m).
Definition VoteRes_clear_success (m : VoteRes) : VoteRes := VoteRes_with_success m None.
Definition VoteRes_has_success (m : VoteRes) : bool := is_some (VoteRes_success m).
Definition VoteRes_set_success (m : VoteRes) (v : bool) : VoteRes := VoteRes_with_success m (Some v).
Definition VoteRes_get_success (m : VoteRes) : bool := default false (VoteRes_success m).

Definition VoteRes_with_term (m : VoteRes) (o : option Z) : VoteRes :=
  mkVoteRes (VoteRes_success m) o (VoteRes_unknown_fields m) (VoteRes_cached_size m).
Definition VoteRes_clear_term (m : VoteRes) : VoteRes := VoteRes_with_term m None.
Definition VoteRes_has_term (m : VoteRes) : bool := is_some (VoteRes_term m).
Definition VoteRes_set_term (m : VoteRes) (v : Z) : VoteRes := VoteRes_with_term m (Some v).
Definition VoteRes_get_term (m : VoteRes) : Z := default 0 (VoteRes_term m).

Definition VoteRes_is_initialized (m : VoteRes) : bool :=
  if negb (is_some (VoteRes_success m)) then false else
  if negb (is_some (VoteRes_term m)) then false else
  true.

Definition VoteRes_clear (m : VoteRes) : VoteRes :=
  let m := VoteRes_clear_success m in
  let m := VoteRes_clear_term m in
  mkVoteRes (VoteRes_success m) (VoteRes_term m)
    (UnknownFields_clear (VoteRes_unknown_fields m)) (VoteRes_cached_size m).

Definition VoteRes_eq (m o : VoteRes) : bool :=
  bool_decide (VoteRes_success m = VoteRes_success o) &&
  bool_decide (VoteRes_term m = VoteRes_term o) &&
  UnknownFields_eq (VoteRes_unknown_fields m) (VoteRes_unknown_fields o).


(** ** [Append] *)

Record Append : Type := mkAppend {
  Append_from_txid : option Z;
  Append_from_term : option Z;
  Append_batch : list Mutation;
  Append_last_learned_txid : option Z;
  Append_unknown_fields : UnknownFields;
  Append_cached_size : Z;
}.

Definition Append_new : Append := mkAppend None None [] None UnknownFields_new 0.

Definition Append_with_from_txid (m : Append) (o : option Z) : Append :=
  mkAppend o (Append_from_term m) (Append_batch m) (Append_last_learned_txid m) (Append_unknown_fields m) (Append_cached_size m).
Definition Append_clear_from_txid (m : Append) : Append := Append_with_from_txid m None.
Definition Append_has_from_txid (m : Append) : bool := is_some (Append_from_txid m).
Definition Append_set_from_txid (m : Append) (v : Z) : Append := Append_with_from_txid m (Some v).
Definition Append_get_from_txid (m : Append) : Z := default 0 (Append_from_txid m).

Definition Append_with_from_term (m : Append) (o : option Z) : Append :=
  mkAppend (Append_from_txid m) o (Append_batch m) (Append_last_learned_txid m) (Append_unknown_fields m) (Append_cached_size m).
Definition Append_clear_from_term (m : Append) : Append := Append_with_from_term m None.
Definition Append_has_from_term (m : Append) : bool := is_some (Append_from_term m).
Definition Append_set_from_term (m : Append) (v : Z) : Append := Append_with_from_term m (Some v).
Definition Append_get_from_term (m : Append) : Z := default 0 (Append_from_term m).

Definition Append_set_batch (m : Append) (v : list Mutation) : Append :=
  mkAppend (Append_from_txid m) (Append_from_term m) v (Append_last_learned_txid m) (Append_unknown_fields m) (Append_cached_size m).
Definition Append_clear_batch (m : Append) : Append := Append_set_batch m [].
Definition Append_mut_batch (m : Append) : Append * list Mutation := (m, Append_batch m).
Definition Append_take_batch (m : Append) : Append * list Mutation := (Append_set_batch m [], Append_batch m).
Definition Append_get_batch (m : Append) : list Mutation := Append_batch m.

Definition Append_with_last_learned_txid (m : Append) (o : option Z) : Append :=
  mkAppend (Append_from_txid m) (Append_from_term m) (Append_batch m) o (Append_unknown_fields m) (Append_cached_size m).
Definition Append_clear_last_learned_txid (m : Append) : Append := Append_with_last_learned_txid m None.
Definition Append_has_last_learned_txid (m : Append) : bool := is_some (Append_last_learned_txid m).
Definition Append_set_last_learned_txid (m : Append) (v : Z) : Append := Append_with_last_learned_txid m (Some v).
Definition Append_get_last_learned_txid (m : Append) : Z := default 0 (Append_last_learned_txid m).

Definition Append_is_initialized (m : Append) : bool :=
  if negb (is_some (Append_from_txid m)) then false else
  if negb (is_some (Append_from_term m)) then false else
  if negb (is_some (Append_last_learned_txid m)) then false else
  true.

Definition Append_clear (m : Append) : Append :=
  let m := Append_clear_from_txid m in
  let m := Append_clear_from_term m in
  let m := Append_clear_batch m in
  let m := Append_clear_last_learned_txid m in
  mkAppend (Append_from_txid m) (Append_from_term m) (Append_batch m) (Append_last_learned_txid m)
    (UnknownFields_clear (Append_unknown_fields m)) (Append_cached_size m).

Definition Append_eq (m o : Append) : bool :=
  bool_decide (Append_from_txid m = Append_from_txid o) &&
  bool_decide (Append_from_term m = Append_from_term o) &&
  list_eqb Mutation_eq (Append_batch m) (Append_batch o) &&
  bool_decide (Append_last_learned_txid m = Append_last_learned_txid o) &&
  UnknownFields_eq (Append_unknown_fields m) (Append_unknown_fields o).


(** ** [AppendRes] *)

Record AppendRes : Type := mkAppendRes {
  AppendRes_accepted : option bool;
  AppendRes_last_accepted_txid : option Z;
  AppendRes_last_accepted_term : option Z;
  AppendRes_unknown_fields : UnknownFields;
  AppendRes_cached_size : Z;
}.

Definition AppendRes_new : AppendRes := mkAppendRes None None None UnknownFields_new 0.

Definition AppendRes_with_accepted (m : AppendRes) (o : option bool) : AppendRes :=
  mkAppendRes o (AppendRes_last_accepted_txid m) (AppendRes_last_accepted_term m) (AppendRes_unknown_fields m) (AppendRes_cached_size m).
Definition AppendRes_clear_accepted (m : AppendRes) : AppendRes := AppendRes_with_accepted m None.
Definition AppendRes_has_accepted (m : AppendRes) : bool := is_some (AppendRes_accepted m).
Definition AppendRes_set_accepted (m : AppendRes) (v : bool) : AppendRes := AppendRes_with_accepted m (Some v).
Definition AppendRes_get_accepted (m : AppendRes) : bool := default false (AppendRes_accepted m).

Definition AppendRes_with_last_accepted_txid (m : AppendRes) (o : option Z) : AppendRes :=
  mkAppendRes (AppendRes_accepted m) o (AppendRes_last_accepted_term m) (AppendRes_unknown_fields m) (AppendRes_cached_size m).
Definition AppendRes_clear_last_accepted_txid (m : AppendRes) : AppendRes := AppendRes_with_last_accepted_txid m None.
Definition AppendRes_has_last_accepted_txid (m : AppendRes) : bool := is_some (AppendRes_last_accepted_txid m).
Definition AppendRes_set_last_accepted_txid (m : AppendRes) (v : Z) : AppendRes := AppendRes_with_last_accepted_txid m (Some v).
Definition AppendRes_get_last_accepted_txid (m : AppendRes) : Z := default 0 (AppendRes_last_accepted_txid m).

Definition AppendRes_with_last_accepted_term (m : AppendRes) (o : option Z) : AppendRes :=
  mkAppendRes (AppendRes_accepted m) (AppendRes_last_accepted_txid m) o (AppendRes_unknown_fields m) (AppendRes_cached_size m).
Definition AppendRes_clear_last_accepted_term (m : AppendRes) : AppendRes := AppendRes_with_last_accepted_term m None.
Definition AppendRes_has_last_accepted_term (m : AppendRes) : bool := is_some (AppendRes_last_accepted_term m).
Definition AppendRes_set_last_accepted_term (m : AppendRes) (v : Z) : AppendRes := AppendRes_with_last_accepted_term m (Some v).
Definition AppendRes_get_last_accepted_term (m : AppendRes) : Z := default 0 (AppendRes_last_accepted_term m).

Definition AppendRes_is_initialized (m : AppendRes) : bool :=
  if negb (is_some (AppendRes_accepted m)) then false else
  true.

Definition AppendRes_clear (m : AppendRes) : AppendRes :=
  let m := AppendRes_clear_accepted m in
  let m := AppendRes_clear_last_accepted_txid m in
  let m := AppendRes_clear_last_accepted_term m in
  mkAppendRes (AppendRes_accepted m) (AppendRes_last_accepted_txid m) (AppendRes_last_accepted_term m)
    (UnknownFields_clear (AppendRes_unknown_fields m)) (AppendRes_cached_size m).

Definition AppendRes_eq (m o : AppendRes) : bool :=
  bool_decide (AppendRes_accepted m = AppendRes_accepted o) &&
  bool_decide (AppendRes_last_accepted_txid m = AppendRes_last_accepted_txid o) &&
  bool_decide (AppendRes_last_accepted_term m = AppendRes_last_accepted_term o) &&
  UnknownFields_eq (AppendRes_unknown_fields m) (AppendRes_unknown_fields o).


(** ** [PeerMsg] *)

Record PeerMsg : Type := mkPeerMsg {
  PeerMsg_srvid : option string;
  PeerMsg_vote_req : option VoteReq;
  PeerMsg_vote_res : option VoteRes;
  PeerMsg_append : option Append;
  PeerMsg_append_res : option AppendRes;
  PeerMsg_unknown_fields : UnknownFields;
  PeerMsg_cached_size : Z;
}.

Definition PeerMsg_new : PeerMsg := mkPeerMsg None None None None None UnknownFields_new 0.

Definition PeerMsg_with_srvid (m : PeerMsg) (o : option string) : PeerMsg :=
  mkPeerMsg o (PeerMsg_vote_req m) (PeerMsg_vote_res m) (PeerMsg_append m) (PeerMsg_append_res m) (PeerMsg_unknown_fields m) (PeerMsg_cached_size m).
Definition PeerMsg_clear_srvid (m : PeerMsg) : PeerMsg := PeerMsg_with_srvid m None.
Definition PeerMsg_has_srvid (m : PeerMsg) : bool := is_some (PeerMsg_srvid m).
Definition PeerMsg_set_srvid (m : PeerMsg) (v : string) : PeerMsg := PeerMsg_with_srvid m (Some v).
Definition PeerMsg_mut_srvid (m : PeerMsg) : PeerMsg * string :=
  let m' := if is_some (PeerMsg_srvid m) then m else PeerMsg_with_srvid m (Some EmptyString) in
  (m', default EmptyString (PeerMsg_srvid m')).
Definition PeerMsg_take_srvid (m : PeerMsg) : PeerMsg * string :=
  (PeerMsg_with_srvid m None, default EmptyString (PeerMsg_srvid m)).
Definition PeerMsg_get_srvid (m : PeerMsg) : string := default EmptyString (PeerMsg_srvid m).

Definition PeerMsg_with_vote_req (m : PeerMsg) (o : option VoteReq) : PeerMsg :=
  mkPeerMsg (PeerMsg_srvid m) o (PeerMsg_vote_res m) (PeerMsg_append m) (PeerMsg_append_res m) (PeerMsg_unknown_fields m) (PeerMsg_cached_size m).
Definition PeerMsg_clear_vote_req (m : PeerMsg) : PeerMsg := PeerMsg_with_vote_req m None.
Definition PeerMsg_has_vote_req (m : PeerMsg) : bool := is_some (PeerMsg_vote_req m).
Definition PeerMsg_set_vote_req (m : PeerMsg) (v : VoteReq) : PeerMsg := PeerMsg_with_vote_req m (Some v).
Definition PeerMsg_mut_vote_req (m : PeerMsg) : PeerMsg * VoteReq :=
  let m' := if is_some (PeerMsg_vote_req m) then m else PeerMsg_with_vote_req m (Some VoteReq_new) in
  (m', default VoteReq_new (PeerMsg_vote_req m')).
Definition PeerMsg_take_vote_req (m : PeerMsg) : PeerMsg * VoteReq :=
  (PeerMsg_with_vote_req m None, default VoteReq_new (PeerMsg_vote_req m)).
Definition PeerMsg_get_vote_req (m : PeerMsg) : VoteReq := default VoteReq_new (PeerMsg_vote_req m).

Definition PeerMsg_with_vote_res (m : PeerMsg) (o : option VoteRes) : PeerMsg :=
  mkPeerMsg (PeerMsg_srvid m) (PeerMsg_vote_req m) o (PeerMsg_append m) (PeerMsg_append_res m) (PeerMsg_unknown_fields m) (PeerMsg_cached_size m).
Definition PeerMsg_clear_vote_res (m : PeerMsg) : PeerMsg := PeerMsg_with_vote_res m None.
Definition PeerMsg_has_vote_res (m : PeerMsg) : bool := is_some (PeerMsg_vote_res m).
Definition PeerMsg_set_vote_res (m : PeerMsg) (v : VoteRes) : PeerMsg := PeerMsg_with_vote_res m (Some v).
Definition PeerMsg_mut_vote_res (m : PeerMsg) : PeerMsg * VoteRes :=
  let m' := if is_some (PeerMsg_vote_res m) then m else PeerMsg_with_vote_res m (Some VoteRes_new) in
  (m', default VoteRes_new (PeerMsg_vote_res m')).
Definition PeerMsg_take_vote_res (m : PeerMsg) : PeerMsg * VoteRes :=
  (PeerMsg_with_vote_res m None, default VoteRes_new (PeerMsg_vote_res m)).
Definition PeerMsg_get_vote_res (m : PeerMsg) : VoteRes := default VoteRes_new (PeerMsg_vote_res m).

Definition PeerMsg_with_append (m : PeerMsg) (o : option Append) : PeerMsg :=
  mkPeerMsg (PeerMsg_srvid m) (PeerMsg_vote_req m) (PeerMsg_vote_res m) o (PeerMsg_append_res m) (PeerMsg_unknown_fields m) (PeerMsg_cached_size m).
Definition PeerMsg_clear_append (m : PeerMsg) : PeerMsg := PeerMsg_with_append m None.
Definition PeerMsg_has_append (m : PeerMsg) : bool := is_some (PeerMsg_append m).
Definition PeerMsg_set_append (m : PeerMsg) (v : Append) : PeerMsg := PeerMsg_with_append m (Some v).
Definition PeerMsg_mut_append (m : PeerMsg) : PeerMsg * Append :=
  let m' := if is_some (PeerMsg_append m) then m else PeerMsg_with_append m (Some Append_new) in
  (m', default Append_new (PeerMsg_append m')).
Definition PeerMsg_take_append (m : PeerMsg) : PeerMsg * Append :=
  (PeerMsg_with_append m None, default Append_new (PeerMsg_append m)).
Definition PeerMsg_get_append (m : PeerMsg) : Append := default Append_new (PeerMsg_append m).

Definition PeerMsg_with_append_res (m : PeerMsg) (o : option AppendRes) : PeerMsg :=
  mkPeerMsg (PeerMsg_srvid m) (PeerMsg_vote_req m) (PeerMsg_vote_res m) (PeerMsg_append m) o (PeerMsg_unknown_fields m) (PeerMsg_cached_size m).
Definition PeerMsg_clear_append_res (m : PeerMsg) : PeerMsg := PeerMsg_with_append_res m None.
Definition PeerMsg_has_append_res (m : PeerMsg) : bool := is_some (PeerMsg_append_res m).
Definition PeerMsg_set_append_res (m : PeerMsg) (v : AppendRes) : PeerMsg := PeerMsg_with_append_res m (Some v).
Definition PeerMsg_mut_append_res (m : PeerMsg) : PeerMsg * AppendRes :=
  let m' := if is_some (PeerMsg_append_res m) then m else PeerMsg_with_append_res m (Some AppendRes_new) in
  (m', default AppendRes_new (PeerMsg_append_res m')).
Definition PeerMsg_take_append_res (m : PeerMsg) : PeerMsg * AppendRes :=
  (PeerMsg_with_append_res m None, default AppendRes_new (PeerMsg_append_res m)).
Definition PeerMsg_get_append_res (m : PeerMsg) : AppendRes := default AppendRes_new (PeerMsg_append_res m).

Definition PeerMsg_is_initialized (m : PeerMsg) : bool :=
  if negb (is_some (PeerMsg_srvid m)) then false else
  true.

Definition PeerMsg_clear (m : PeerMsg) : PeerMsg :=
  let m := PeerMsg_clear_srvid m in
  let m := PeerMsg_clear_vote_req m in
  let m := PeerMsg_clear_vote_res m in
  let m := PeerMsg_clear_append m in
  let m := PeerMsg_clear_append_res m in
  mkPeerMsg (PeerMsg_srvid m) (PeerMsg_vote_req m) (PeerMsg_vote_res m) (PeerMsg_append m) (PeerMsg_append_res m)
    (UnknownFields_clear (PeerMsg_unknown_fields m)) (PeerMsg_cached_size m).

Definition PeerMsg_eq (m o : PeerMsg) : bool :=
  bool_decide (PeerMsg_srvid m = PeerMsg_srvid o) &&
  opt_eqb VoteReq_eq (PeerMsg_vote_req m) (PeerMsg_vote_req o) &&
  opt_eqb VoteRes_eq (PeerMsg_vote_res m) (PeerMsg_vote_res o) &&
  opt_eqb Append_eq (PeerMsg_append m) (PeerMsg_append o) &&
  opt_eqb AppendRes_eq (PeerMsg_append_res m) (PeerMsg_append_res o) &&
  UnknownFields_eq (PeerMsg_unknown_fields m) (PeerMsg_unknown_fields o).

End Messages.
