(* ===== verification/Protobuf.v ===== *)
(** * The protobuf runtime

    serialization.rs is generated code over the [protobuf] crate, which is not part
    of the repository: its coded streams, size functions and top-level entry points
    are a class here, and [ProtobufLaws] states what the protobuf encoding documents
    of them.  [Message] is the crate's trait, which the generated code implements.
    The last part is what the generated methods share: the loop of [merge_from],
    and what it means for a message to be written as, and read from, given bytes. *)

From stdpp Require Import base tactics option list numbers strings.
From Stdlib Require Import ZArith Lia Ascii.
From S2P Require Import Prelude Crates.

(** ** The encoding *)

Inductive WireType : Type :=
| WireTypeVarint
| WireTypeFixed64
| WireTypeLengthDelimited
| WireTypeStartGroup
| WireTypeEndGroup
| WireTypeFixed32.

#[export] Instance WireType_eq_dec : EqDecision WireType.
Proof. solve_decision. Defined.

Definition wire_code (wt : WireType) : Z :=
  match wt with
  | WireTypeVarint => 0
  | WireTypeFixed64 => 1
  | WireTypeLengthDelimited => 2
  | WireTypeStartGroup => 3
  | WireTypeEndGroup => 4
  | WireTypeFixed32 => 5
  end.

(** Base-128 digits, the least significant first, all but the last with the high
    bit; ten digits hold a [u64]. *)
Fixpoint varint_digits (n : nat) (v : Z) : list Z :=
  match n with
  | O => [v]
  | S n => if v <? 128 then [v] else (128 + v mod 128) :: varint_digits n (v / 128)
  end.
Definition varint (v : Z) : list Z := varint_digits 9 v.
Arguments varint : simpl never.

Definition tag (f : Z) (wt : WireType) : list Z := varint (f * 8 + wire_code wt).

(** [str::as_bytes] and back. *)
Definition string_bytes (s : string) : list Z :=
  map (fun a => Z.of_nat (nat_of_ascii a)) (String.list_ascii_of_string s).
Definition bytes_string (b : list Z) : string :=
  String.string_of_list_ascii (map (fun z => ascii_of_nat (Z.to_nat z)) b).

Lemma bytes_string_bytes s : bytes_string (string_bytes s) = s.
Proof.
  unfold bytes_string, string_bytes. rewrite map_map.
  rewrite (map_ext _ id), map_id; [apply String.string_of_list_ascii_of_string|].
  intros a. cbn. rewrite Nat2Z.id. apply ascii_nat_embedding.
Qed.

(** The encodings of a field. *)
Definition enc_u64 (f v : Z) : list Z := tag f WireTypeVarint ++ varint v.
Definition enc_bytes (f : Z) (b : list Z) : list Z :=
  tag f WireTypeLengthDelimited ++ varint (Z.of_nat (length b)) ++ b.
Definition enc_bool (f : Z) (b : bool) : list Z := enc_u64 f (if b then 1 else 0).
Definition enc_string (f : Z) (s : string) : list Z := enc_bytes f (string_bytes s).

Definition len (l : list Z) : Z := Z.of_nat (length l).
Lemma len_app a b : len (a ++ b) = len a + len b.
Proof. unfold len. rewrite length_app. lia. Qed.
Lemma len_nonneg a : 0 <= len a.
Proof. unfold len. lia. Qed.

(** A field number and a length that fit their encodings. *)
Definition field_ok (f : Z) : Prop := 0 < f < 2 ^ 29.

(** ** The crate *)

(** The trait [protobuf::Message] over given streams: [merge_from] and
    [write_to_with_cached_sizes] return [None] for an [Err]; [compute_size] also
    returns the message with its size cells set. *)
Record MessageImpl (IS OS A : Type) : Type := mkMessageImpl {
  mi_new : A;
  mi_is_initialized : A -> bool;
  mi_merge_from : A -> IS -> option (A * IS);
  mi_compute_size : A -> Outcome (Z * A);
  mi_get_cached_size : A -> Z;
  mi_write_to_with_cached_sizes : A -> OS -> option OS;
}.
Arguments mkMessageImpl {IS OS A}.
Arguments mi_new {IS OS A}.
Arguments mi_is_initialized {IS OS A}.
Arguments mi_merge_from {IS OS A}.
Arguments mi_compute_size {IS OS A}.
Arguments mi_get_cached_size {IS OS A}.
Arguments mi_write_to_with_cached_sizes {IS OS A}.

Class ProtobufStreams `{PB : ProtobufRuntime} : Type := {
  IS : Type; (** [CodedInputStream] *)
  OS : Type; (** [CodedOutputStream] *)
  UnknownValue : Type;
  UnknownFields_add_value : UnknownFields -> Z -> UnknownValue -> UnknownFields;
  (** the bytes a stream still has up to its current limit *)
  is_left : IS -> list Z;
  is_eof : IS -> option (bool * IS);
  read_tag_unpack : IS -> option ((Z * WireType) * IS);
  read_uint64 : IS -> option (Z * IS);
  read_bool : IS -> option (bool * IS);
  read_enum : forall {E : Type}, (Z -> option E) -> IS -> option (E * IS);
  read_bytes_into : IS -> option (list Z * IS);
  read_string_into : IS -> option (string * IS);
  merge_message : forall {A : Type}, (A -> IS -> option (A * IS)) -> A -> IS -> option (A * IS);
  read_repeated_message_into : forall {A : Type},
    A -> (A -> IS -> option (A * IS)) -> WireType -> IS -> list A -> option (list A * IS);
  read_unknown : WireType -> IS -> option (UnknownValue * IS);
  write_tag : Z -> WireType -> OS -> option OS;
  write_raw_varint32 : Z -> OS -> option OS;
  write_uint64 : Z -> Z -> OS -> option OS;
  write_bool : Z -> bool -> OS -> option OS;
  write_enum : Z -> Z -> OS -> option OS;
  write_bytes : Z -> list Z -> OS -> option OS;
  write_string : Z -> string -> OS -> option OS;
  write_unknown_fields : UnknownFields -> OS -> option OS;
  bytes_size : Z -> list Z -> Z;
  string_size : Z -> string -> Z;
  value_size : Z -> Z -> WireType -> Z;
  enum_size : Z -> Z -> Z;
  compute_raw_varint32_size : Z -> Z;
  unknown_fields_size : UnknownFields -> Z;
  (** which strings are valid UTF-8, as every [String] is *)
  utf8 : string -> bool;
  (** [None] for an [Err] or a panic *)
  parse_from_bytes : forall {A : Type}, MessageImpl IS OS A -> list Z -> option A;
  write_to_bytes : forall {A : Type}, MessageImpl IS OS A -> A -> option (list Z);
  (** bytes written so far, and room left *)
  os_view : OS -> list Z -> Z -> Prop;
}.

(** [w] appends the bytes [bs], given the room. *)
Definition appends `{ProtobufStreams} (w : OS -> option OS) (bs : list Z) : Prop :=
  forall out b r, os_view out b r -> len bs <= r ->
  exists out', w out = Some out' /\ os_view out' (b ++ bs) (r - len bs).

(** [rd] takes the bytes [bs] off the front and returns [a]. *)
Definition takes `{ProtobufStreams} {A} (rd : IS -> option (A * IS)) (bs : list Z) (a : A) : Prop :=
  forall inp rest, is_left inp = bs ++ rest -> exists inp', rd inp = Some (a, inp') /\ is_left inp' = rest.

(** [mg] run on exactly the bytes [bs] ends with [a]. *)
Definition consumes `{ProtobufStreams} {A} (mg : IS -> option (A * IS)) (bs : list Z) (a : A) : Prop :=
  forall inp, is_left inp = bs -> exists inp', mg inp = Some (a, inp') /\ is_left inp' = [].

(** [rd] takes at least [d] bytes when it succeeds. *)
Definition shrinks `{ProtobufStreams} {A} (d : nat) (rd : IS -> option (A * IS)) : Prop :=
  forall inp a inp', rd inp = Some (a, inp') -> (d + length (is_left inp') <= length (is_left inp))%nat.

Class ProtobufLaws `{PS : ProtobufStreams} : Prop := {
  is_eof_ok : forall inp, exists inp',
    is_eof inp = Some (bool_decide (is_left inp = []), inp') /\ is_left inp' = is_left inp;
  read_tag_ok : forall f wt, field_ok f -> takes read_tag_unpack (tag f wt) (f, wt);
  read_uint64_ok : forall v, in_u64 v -> takes read_uint64 (varint v) v;
  read_bool_ok : forall b : bool, takes read_bool (varint (if b then 1 else 0)) b;
  read_enum_ok : forall E (from : Z -> option E) v e, 0 <= v < 2 ^ 31 -> from v = Some e ->
    takes (read_enum from) (varint v) e;
  read_bytes_ok : forall b, len b < 2 ^ 32 -> takes read_bytes_into (varint (len b) ++ b) b;
  read_string_ok : forall s, len (string_bytes s) < 2 ^ 32 -> utf8 s = true ->
    takes read_string_into (varint (len (string_bytes s)) ++ string_bytes s) s;
  (** a nested message is merged from a stream limited to its bytes *)
  merge_message_ok : forall A (mg : A -> IS -> option (A * IS)) a a' bs, len bs < 2 ^ 32 ->
    consumes (mg a) bs a' -> takes (merge_message mg a) (varint (len bs) ++ bs) a';
  read_repeated_ok : forall A (new : A) mg a' bs l, len bs < 2 ^ 32 -> consumes (mg new) bs a' ->
    takes (fun inp => read_repeated_message_into new mg WireTypeLengthDelimited inp l)
      (varint (len bs) ++ bs) (l ++ [a']);
  write_tag_ok : forall f wt, field_ok f -> appends (write_tag f wt) (tag f wt);
  write_raw_varint32_ok : forall v, in_u32 v -> appends (write_raw_varint32 v) (varint v);
  write_uint64_ok : forall f v, field_ok f -> in_u64 v -> appends (write_uint64 f v) (enc_u64 f v);
  write_bool_ok : forall f b, field_ok f -> appends (write_bool f b) (enc_bool f b);
  write_enum_ok : forall f v, field_ok f -> 0 <= v < 2 ^ 31 -> appends (write_enum f v) (enc_u64 f v);
  write_bytes_ok : forall f b, field_ok f -> len b < 2 ^ 32 -> appends (write_bytes f b) (enc_bytes f b);
  write_string_ok : forall f s, field_ok f -> len (string_bytes s) < 2 ^ 32 ->
    appends (write_string f s) (enc_string f s);
  write_unknown_ok : appends (write_unknown_fields UnknownFields_new) [];
  bytes_size_ok : forall f b, field_ok f -> len (enc_bytes f b) < 2 ^ 32 -> bytes_size f b = len (enc_bytes f b);
  string_size_ok : forall f s, field_ok f -> len (enc_string f s) < 2 ^ 32 ->
    string_size f s = len (enc_string f s);
  value_size_ok : forall f v, field_ok f -> in_u64 v -> value_size f v WireTypeVarint = len (enc_u64 f v);
  enum_size_ok : forall f v, field_ok f -> 0 <= v < 2 ^ 31 -> enum_size f v = len (enc_u64 f v);
  varint32_size_ok : forall v, in_u32 v -> compute_raw_varint32_size v = len (varint v);
  unknown_size_ok : unknown_fields_size UnknownFields_new = 0;
  unknown_clear_ok : forall u, UnknownFields_clear u = UnknownFields_new;
  unknown_eq_ok : UnknownFields_eq UnknownFields_new UnknownFields_new = true;
  (** [write_to_bytes] checks the message, computes its sizes and writes it to
      a buffer of that size *)
  write_to_bytes_ok : forall A (mi : MessageImpl IS OS A) m m' bs, mi_is_initialized mi m = true ->
    mi_compute_size mi m = Done (len bs, m') ->
    appends (mi_write_to_with_cached_sizes mi m') bs -> write_to_bytes mi m = Some bs;
  write_to_bytes_uninit : forall A (mi : MessageImpl IS OS A) m,
    mi_is_initialized mi m = false -> write_to_bytes mi m = None;
  write_to_bytes_panic : forall A (mi : MessageImpl IS OS A) m e,
    mi_compute_size mi m = Panic e -> write_to_bytes mi m = None;
  (** [parse_from_bytes] merges all the bytes into a new message and checks it *)
  parse_from_bytes_ok : forall A (mi : MessageImpl IS OS A) bs m,
    consumes (mi_merge_from mi (mi_new mi)) bs m ->
    parse_from_bytes mi bs = if mi_is_initialized mi m then Some m else None;
  (** reading only moves forward, and past a tag *)
  read_tag_shrinks : shrinks 1 read_tag_unpack;
  read_uint64_shrinks : shrinks 0 read_uint64;
  read_bool_shrinks : shrinks 0 read_bool;
  read_enum_shrinks : forall E (from : Z -> option E), shrinks 0 (read_enum from);
  read_bytes_shrinks : shrinks 0 read_bytes_into;
  read_string_shrinks : shrinks 0 read_string_into;
  read_unknown_shrinks : forall wt, shrinks 0 (read_unknown wt);
  merge_message_shrinks : forall A (mg : A -> IS -> option (A * IS)) a,
    (forall a, shrinks 0 (mg a)) -> shrinks 0 (merge_message mg a);
  read_repeated_shrinks : forall A (new : A) mg wt l, (forall a, shrinks 0 (mg a)) ->
    shrinks 0 (fun inp => read_repeated_message_into new mg wt inp l);
}.

(** ** What the generated methods share *)

(** How a loop that is given a number of turns comes out: it has not ended within
    them, or has ended with a result or an error. *)
Inductive LoopEnd (A : Type) : Type :=
| OutOfTurns
| Ended (r : option A).
Arguments OutOfTurns {A}.
Arguments Ended {A} r.

Section Shared.
Context `{PS : ProtobufStreams}.

(** The [while !try!(is.eof())] of every [merge_from]; [mf] is the [match] on the
    field number.  [Ended None] is an [Err], [OutOfTurns] a loop that has used up its
    fuel. *)
Fixpoint merge_loop {A} (mf : A -> Z -> WireType -> IS -> option (A * IS)) (fuel : nat) (m : A) (inp : IS)
  : LoopEnd (A * IS) :=
  match fuel with
  | O => OutOfTurns
  | S fuel =>
      match is_eof inp with
      | None => Ended None
      | Some (true, inp) => Ended (Some (m, inp))
      | Some (false, inp) =>
          match read_tag_unpack inp with
          | None => Ended None
          | Some ((field_number, wire_type), inp) =>
              match mf m field_number wire_type inp with
              | None => Ended None
              | Some (m, inp) => merge_loop mf fuel m inp
              end
          end
      end
  end.

(** The loop with as many turns as there are bytes, and one: it ends
    ([merge_from_terminates] in Transport), so the second case does not arise. *)
Definition merge_all {A} (mf : A -> Z -> WireType -> IS -> option (A * IS)) (m : A) (inp : IS)
  : option (A * IS) :=
  match merge_loop mf (S (length (is_left inp))) m inp with
  | Ended r => r
  | OutOfTurns => None
  end.

(** [if wire_type != t { return Err(WireError("unexpected wire type")) }] *)
Definition expect_type {A} (t wire_type : WireType) (k : option A) : option A :=
  if bool_decide (wire_type = t) then k else None.

(** [for value in self.f.iter() { my_size += ... }] *)
Definition size_opt {A} (sz : A -> Z) (my_size : Z) (o : option A) : Outcome Z :=
  match o with Some value => u32_add my_size (sz value) | None => Done my_size end.

(** [let len = value.compute_size(); my_size += 1 + compute_raw_varint32_size(len) + len] *)
Definition size_msg {A} (compute_size : A -> Outcome (Z * A)) (my_size : Z) (value : A) : Outcome (Z * A) :=
  '(ln, value) ← compute_size value;
  n ← u32_add 1 (compute_raw_varint32_size ln);
  n ← u32_add n ln;
  my_size ← u32_add my_size n;
  Done (my_size, value).

Definition size_opt_msg {A} (compute_size : A -> Outcome (Z * A)) (my_size : Z) (o : option A)
  : Outcome (Z * option A) :=
  match o with
  | Some value => '(my_size, value) ← size_msg compute_size my_size value; Done (my_size, Some value)
  | None => Done (my_size, None)
  end.

Fixpoint size_msgs {A} (compute_size : A -> Outcome (Z * A)) (my_size : Z) (l : list A)
  : Outcome (Z * list A) :=
  match l with
  | [] => Done (my_size, [])
  | value :: l =>
      '(my_size, value) ← size_msg compute_size my_size value;
      '(my_size, l) ← size_msgs compute_size my_size l;
      Done (my_size, value :: l)
  end.

(** [if let Some(v) = self.f { try!(...) }] *)
Definition write_opt {A} (w : A -> OS -> option OS) (o : option A) (out : OS) : option OS :=
  match o with Some v => w v out | None => Some out end.

(** A nested message: its tag, its cached size and itself. *)
Definition write_msg {A} (f : Z) (cached : A -> Z) (w : A -> OS -> option OS) (v : A) (out : OS) : option OS :=
  out ← write_tag f WireTypeLengthDelimited out;
  out ← write_raw_varint32 (cached v) out;
  w v out.

Fixpoint write_all {A} (w : A -> OS -> option OS) (l : list A) (out : OS) : option OS :=
  match l with
  | [] => Some out
  | v :: l => out ← w v out; write_all w l out
  end.
End Shared.

Definition enc_opt {A} (e : A -> list Z) (o : option A) : list Z :=
  match o with Some v => e v | None => [] end.

(** ** Writing *)

Section Writing.
Context `{PL : ProtobufLaws}.

(** Sizing then writing [m] produces the bytes [bs]. *)
Definition writes {A} (compute_size : A -> Outcome (Z * A)) (cached : A -> Z) (w : A -> OS -> option OS)
    (m : A) (bs : list Z) : Prop :=
  exists m', compute_size m = Done (len bs, m') /\ cached m' = len bs /\ appends (w m') bs.

Lemma appends_nil : appends Some [].
Proof. intros out b r Hv _. exists out. unfold len. cbn. by rewrite app_nil_r, Z.sub_0_r. Qed.

Lemma appends_seq w1 w2 b1 b2 :
  appends w1 b1 -> appends w2 b2 -> appends (fun out => out ← w1 out; w2 out) (b1 ++ b2).
Proof.
  intros H1 H2 out b r Hv Hr. rewrite len_app in Hr. pose proof (len_nonneg b1). pose proof (len_nonneg b2).
  destruct (H1 out b r Hv ltac:(lia)) as (o1 & E1 & Hv1). destruct (H2 o1 _ _ Hv1 ltac:(lia)) as (o2 & E2 & Hv2).
  exists o2. cbn. rewrite E1. cbn. split; [done|]. by rewrite app_assoc, len_app, Z.sub_add_distr.
Qed.

Lemma appends_opt {A} (w : A -> OS -> option OS) (e : A -> list Z) (o : option A) :
  (forall v, o = Some v -> appends (w v) (e v)) -> appends (write_opt w o) (enc_opt e o).
Proof. destruct o as [v|]; intros H; [apply (H v eq_refl)|apply appends_nil]. Qed.

Lemma varint_len v : 1 <= len (varint v) <= 10.
Proof.
  unfold varint. enough (forall n v, 1 <= len (varint_digits n v) <= Z.of_nat n + 1) as H by apply (H 9%nat).
  clear v. induction n as [|n IH]; intros v; cbn [varint_digits]; [unfold len; cbn; lia|].
  destruct (v <? 128); unfold len in *; cbn [length]; [lia|]. specialize (IH (v / 128)). lia.
Qed.

Lemma tag_len f wt : 0 < f < 16 -> len (tag f wt) = 1.
Proof.
  intros Hf. unfold tag, varint. cbn [varint_digits].
  assert (0 <= wire_code wt <= 5) by (destruct wt; cbn; lia). by rewrite (proj2 (Z.ltb_lt _ _)) by lia.
Qed.

Lemma field_small f : 0 < f < 16 -> field_ok f.
Proof. unfold field_ok. lia. Qed.

Lemma size_opt_ok {A} (sz : A -> Z) (e : A -> list Z) my (o : option A) :
  (forall v, o = Some v -> len (e v) < 2 ^ 32 -> sz v = len (e v)) ->
  0 <= my -> my + len (enc_opt e o) < 2 ^ 32 ->
  size_opt sz my o = Done (my + len (enc_opt e o)).
Proof.
  intros Hs H0 Hlt. destruct o as [v|]; cbn in *.
  - pose proof (len_nonneg (e v)). rewrite (Hs v) by (done || lia). unfold u32_add, u32_max.
    by apply checked_ok; lia.
  - unfold len. cbn. by rewrite Z.add_0_r.
Qed.

Lemma enc_bytes_len f bs : 0 < f < 16 -> len (enc_bytes f bs) = 1 + len (varint (len bs)) + len bs.
Proof. intros Hf. unfold enc_bytes. fold (len bs). rewrite !len_app, tag_len by done. lia. Qed.

Lemma size_msg_ok {A} (cs : A -> Outcome (Z * A)) cached w f my m bs :
  writes cs cached w m bs -> 0 < f < 16 -> 0 <= my -> my + len (enc_bytes f bs) < 2 ^ 32 ->
  exists m', size_msg cs my m = Done (my + len (enc_bytes f bs), m') /\
    appends (write_msg f cached w m') (enc_bytes f bs).
Proof.
  intros (m' & Ec & Eg & Hw) Hf H0 Hlt. rewrite enc_bytes_len in * by done.
  pose proof (varint_len (len bs)). pose proof (len_nonneg bs).
  exists m'. split.
  - unfold size_msg. rewrite Ec. cbn -[Z.pow]. unfold u32_add, u32_max.
    rewrite varint32_size_ok by (unfold in_u32, u32_max; lia).
    do 3 (rewrite checked_ok by lia; cbn -[Z.pow]). repeat f_equal; lia.
  - unfold write_msg, enc_bytes. apply (appends_seq (write_tag f WireTypeLengthDelimited)).
    { by apply write_tag_ok, field_small. }
    apply (appends_seq (write_raw_varint32 (cached m'))); [|done]. rewrite Eg.
    apply write_raw_varint32_ok. unfold in_u32, u32_max. fold (len bs). lia.
Qed.

Lemma size_opt_msg_ok {A} (cs : A -> Outcome (Z * A)) cached w f my (o : option A) (bs : A -> list Z) :
  (forall v, o = Some v -> len (bs v) < 2 ^ 32 -> writes cs cached w v (bs v)) ->
  0 < f < 16 -> 0 <= my -> my + len (enc_opt (fun v => enc_bytes f (bs v)) o) < 2 ^ 32 ->
  exists o', size_opt_msg cs my o = Done (my + len (enc_opt (fun v => enc_bytes f (bs v)) o), o') /\
    appends (write_opt (write_msg f cached w) o') (enc_opt (fun v => enc_bytes f (bs v)) o).
Proof.
  intros Hw Hf H0 Hlt. destruct o as [v|]; cbn -[Z.pow] in *.
  - pose proof (enc_bytes_len f (bs v) Hf). pose proof (varint_len (len (bs v))).
    destruct (size_msg_ok cs cached w f my v (bs v)) as (v' & E & Ha); try done.
    { apply Hw; [done|lia]. }
    exists (Some v'). rewrite E. by split.
  - exists None. unfold len. cbn. rewrite Z.add_0_r. split; [done|]. apply appends_nil.
Qed.

Definition enc_all {A} (e : A -> list Z) (l : list A) : list Z := concat (map e l).

Lemma size_msgs_ok {A} (cs : A -> Outcome (Z * A)) cached w f my (l : list A) (bs : A -> list Z) :
  (forall v, v ∈ l -> len (bs v) < 2 ^ 32 -> writes cs cached w v (bs v)) ->
  0 < f < 16 -> 0 <= my -> my + len (enc_all (fun v => enc_bytes f (bs v)) l) < 2 ^ 32 ->
  exists l', size_msgs cs my l = Done (my + len (enc_all (fun v => enc_bytes f (bs v)) l), l') /\
    appends (write_all (write_msg f cached w) l') (enc_all (fun v => enc_bytes f (bs v)) l).
Proof.
  intros Hw Hf. revert my. unfold enc_all. induction l as [|v l IH]; intros my H0 Hlt; cbn -[Z.pow] in *.
  { exists []. unfold len. cbn. rewrite Z.add_0_r. split; [done|]. apply appends_nil. }
  rewrite len_app in *. pose proof (enc_bytes_len f (bs v) Hf). pose proof (varint_len (len (bs v))).
  pose proof (len_nonneg (bs v)).
  pose proof (len_nonneg (concat (map (fun v => enc_bytes f (bs v)) l))).
  destruct (size_msg_ok cs cached w f my v (bs v)) as (v' & E & Ha); [|done|done|lia|].
  { apply Hw; [by constructor|lia]. }
  destruct (IH (fun v Hv => Hw v (list_elem_of_further _ _ _ Hv)) (my + len (enc_bytes f (bs v))))
    as (l' & E2 & Ha2); [lia..|].
  exists (v' :: l'). rewrite E. cbn -[Z.pow]. rewrite E2. cbn -[Z.pow]. split.
  - do 2 f_equal. lia.
  - by apply (appends_seq (write_msg f cached w v')).
Qed.
End Writing.
Arguments enc_all : simpl never.

(** ** Reading *)

Section Reading.
Context `{PL : ProtobufLaws}.
Context {A : Type} (mf : A -> Z -> WireType -> IS -> option (A * IS)).

(** The loop, at the bytes [bs] with [m], goes on after them with [m']. *)
Definition merges (m : A) (bs : list Z) (m' : A) : Prop :=
  forall fuel inp rest, is_left inp = bs ++ rest -> (length (bs ++ rest) < fuel)%nat ->
  exists fuel' inp', is_left inp' = rest /\ (length rest < fuel')%nat /\
    merge_loop mf fuel m inp = merge_loop mf fuel' m' inp'.

Lemma merges_nil m : merges m [] m.
Proof. intros fuel inp rest El Hf. by exists fuel, inp. Qed.

Lemma merges_app m b1 m1 b2 m2 : merges m b1 m1 -> merges m1 b2 m2 -> merges m (b1 ++ b2) m2.
Proof.
  intros H1 H2 fuel inp rest El Hf. rewrite <-app_assoc in El, Hf.
  destruct (H1 fuel inp _ El Hf) as (f1 & i1 & El1 & Hf1 & ->). by apply H2.
Qed.

(** One field: its tag, then what the [match] reads for it. *)
Lemma merges_field m f wt bs m' :
  field_ok f -> takes (mf m f wt) bs m' -> merges m (tag f wt ++ bs) m'.
Proof.
  intros Hf Ht fuel inp rest El Hlen. destruct fuel as [|fuel]; [lia|]. cbn [merge_loop].
  assert (1 <= len (tag f wt)) by apply varint_len.
  destruct (is_eof_ok inp) as (i1 & -> & El1). rewrite bool_decide_eq_false_2.
  2: { rewrite El. intros E. apply (f_equal len) in E. rewrite !len_app in E. unfold len in *. cbn in E. lia. }
  rewrite <-app_assoc in El. rewrite El in El1.
  destruct (read_tag_ok f wt Hf i1 _ El1) as (i2 & -> & El2). destruct (Ht i2 _ El2) as (i3 & -> & El3).
  exists fuel, i3. split_and!; [done| |done]. rewrite !length_app in Hlen. unfold len in *. lia.
Qed.

(** The whole message. *)
Lemma merges_consumes m bs m' : merges m bs m' -> consumes (merge_all mf m) bs m'.
Proof.
  intros Hm inp El. unfold merge_all. rewrite El.
  destruct (Hm (S (length bs)) inp []) as (fuel & i1 & El1 & Hf & ->);
    [by rewrite app_nil_r|rewrite app_nil_r; lia|].
  destruct fuel as [|fuel]; [cbn in Hf; lia|]. cbn [merge_loop].
  destruct (is_eof_ok i1) as (i2 & -> & El2). rewrite bool_decide_eq_true_2 by done.
  exists i2. split; [done|congruence].
Qed.

(** An optional field that the message does not have yet. *)
Lemma merges_opt {B} (set : A -> option B -> A) (e : B -> list Z) (o : option B) m :
  set m None = m -> (forall v, o = Some v -> merges m (e v) (set m (Some v))) ->
  merges m (enc_opt e o) (set m o).
Proof. intros Hn Hs. destruct o as [v|]; cbn; [by apply Hs|]. rewrite Hn. apply merges_nil. Qed.

(** A field that is read by [rd] and stored by [put]. *)
Lemma merges_read {B} (put : B -> A) (rd : IS -> option (B * IS)) m f wt bs b :
  field_ok f -> (forall inp, mf m f wt inp = '(x, inp) ← rd inp; Some (put x, inp)) ->
  takes rd bs b -> merges m (tag f wt ++ bs) (put b).
Proof.
  intros Hf Hm Ht. apply merges_field; [done|]. intros inp rest El. rewrite Hm.
  destruct (Ht inp rest El) as (i1 & E & El1). exists i1. by rewrite E.
Qed.

Lemma merges_u64 (set : A -> option Z -> A) m f (o : option Z) :
  field_ok f -> set m None = m -> (forall v, o = Some v -> in_u64 v) ->
  (forall inp, mf m f WireTypeVarint inp = '(tmp, inp) ← read_uint64 inp; Some (set m (Some tmp), inp)) ->
  merges m (enc_opt (enc_u64 f) o) (set m o).
Proof.
  intros Hf Hn Hv Hm. apply merges_opt; [done|]. intros v Ev.
  apply (merges_read (fun x => set m (Some x)) read_uint64); [done..|]. apply read_uint64_ok; auto.
Qed.

Lemma merges_bool (set : A -> option bool -> A) m f (o : option bool) :
  field_ok f -> set m None = m ->
  (forall inp, mf m f WireTypeVarint inp = '(tmp, inp) ← read_bool inp; Some (set m (Some tmp), inp)) ->
  merges m (enc_opt (enc_bool f) o) (set m o).
Proof.
  intros Hf Hn Hm. apply merges_opt; [done|]. intros v Ev.
  apply (merges_read (fun x => set m (Some x)) read_bool); [done..|]. apply read_bool_ok.
Qed.

Lemma merges_enum {E} (code : E -> Z) (dec : Z -> option E) (set : A -> option E -> A) m f (o : option E) :
  field_ok f -> set m None = m -> (forall e, 0 <= code e < 2 ^ 31 /\ dec (code e) = Some e) ->
  (forall inp, mf m f WireTypeVarint inp = '(tmp, inp) ← read_enum dec inp; Some (set m (Some tmp), inp)) ->
  merges m (enc_opt (fun e => enc_u64 f (code e)) o) (set m o).
Proof.
  intros Hf Hn Hc Hm. apply merges_opt; [done|]. intros v Ev. destruct (Hc v).
  apply (merges_read (fun x => set m (Some x)) (read_enum dec)); [done..|]. by apply read_enum_ok.
Qed.

Lemma merges_bytes (set : A -> option (list Z) -> A) m f (o : option (list Z)) :
  field_ok f -> set m None = m -> (forall v, o = Some v -> len v < 2 ^ 32) ->
  (forall inp, mf m f WireTypeLengthDelimited inp =
     '(tmp, inp) ← read_bytes_into inp; Some (set m (Some tmp), inp)) ->
  merges m (enc_opt (enc_bytes f) o) (set m o).
Proof.
  intros Hf Hn Hv Hm. apply merges_opt; [done|]. intros v Ev.
  apply (merges_read (fun x => set m (Some x)) read_bytes_into); [done..|]. apply read_bytes_ok; auto.
Qed.

Lemma merges_string (set : A -> option string -> A) m f (o : option string) :
  field_ok f -> set m None = m -> (forall v, o = Some v -> utf8 v = true /\ len (string_bytes v) < 2 ^ 32) ->
  (forall inp, mf m f WireTypeLengthDelimited inp =
     '(tmp, inp) ← read_string_into inp; Some (set m (Some tmp), inp)) ->
  merges m (enc_opt (enc_string f) o) (set m o).
Proof.
  intros Hf Hn Hv Hm. apply merges_opt; [done|]. intros v Ev. destruct (Hv v Ev).
  apply (merges_read (fun x => set m (Some x)) read_string_into); [done..|]. by apply read_string_ok.
Qed.

(** A nested message, which is merged into a new one; [strip] forgets its sizes. *)
Lemma merges_msg {B} (new : B) (mg : B -> IS -> option (B * IS)) (bs : B -> list Z) (strip : B -> B)
    (set : A -> option B -> A) m f (o : option B) :
  field_ok f -> set m None = m ->
  (forall v, o = Some v -> len (bs v) < 2 ^ 32 /\ consumes (mg new) (bs v) (strip v)) ->
  (forall inp, mf m f WireTypeLengthDelimited inp =
     '(tmp, inp) ← merge_message mg new inp; Some (set m (Some tmp), inp)) ->
  merges m (enc_opt (fun v => enc_bytes f (bs v)) o) (set m (strip <$> o)).
Proof.
  intros Hf Hn Hv Hm. destruct o as [v|]; cbn; [|rewrite Hn; apply merges_nil]. destruct (Hv v eq_refl).
  apply (merges_read (fun x => set m (Some x)) (merge_message mg new)); [done..|]. by apply merge_message_ok.
Qed.

Lemma merges_msgs {B} (new : B) (mg : B -> IS -> option (B * IS)) (bs : B -> list Z) (strip : B -> B)
    (set : A -> list B -> A) m f (l : list B) :
  field_ok f -> set m [] = m ->
  (forall v, v ∈ l -> len (bs v) < 2 ^ 32 /\ consumes (mg new) (bs v) (strip v)) ->
  (forall k inp, mf (set m k) f WireTypeLengthDelimited inp =
     '(tmp, inp) ← read_repeated_message_into new mg WireTypeLengthDelimited inp k; Some (set m tmp, inp)) ->
  merges m (enc_all (fun v => enc_bytes f (bs v)) l) (set m (map strip l)).
Proof.
  intros Hf Hn Hv Hm. rewrite <-Hn at 1. change (map strip l) with ([] ++ map strip l).
  unfold enc_all. generalize (@nil B) as k. induction l as [|v l IH]; intros k; cbn.
  { rewrite app_nil_r. apply merges_nil. }
  destruct (Hv v) as [Hl Hc]; [by constructor|].
  eapply merges_app; [|rewrite cons_middle, app_assoc; apply IH; intros; apply Hv; by constructor].
  apply (merges_read (set m) (fun inp => read_repeated_message_into new mg WireTypeLengthDelimited inp k));
    [done..|]. by apply read_repeated_ok.
Qed.
End Reading.

(** ** Encodings are bytes *)

Lemma varint_u8 v : 0 <= v < 2 ^ 64 -> is_bytes (varint v).
Proof.
  intros Hv. unfold varint.
  enough (forall n v, 0 <= v < 128 ^ (Z.of_nat n + 1) -> is_bytes (varint_digits n v)) as H.
  { apply H. cbn in *. lia. }
  clear v Hv. induction n as [|n IH]; intros v Hv.
  { repeat constructor; unfold u8_max; cbn in Hv; lia. }
  cbn [varint_digits]. pose proof (Z.mod_pos_bound v 128 eq_refl).
  destruct (Z.ltb_spec v 128); constructor; unfold in_u8, u8_max; try lia; [constructor|].
  apply IH. replace (Z.of_nat (S n) + 1) with (1 + (Z.of_nat n + 1)) in Hv by lia.
  rewrite Z.pow_add_r in Hv by lia. split; [apply Z.div_pos; lia|apply Z.div_lt_upper_bound; lia].
Qed.

Lemma tag_u8 f wt : field_ok f -> is_bytes (tag f wt).
Proof. intros Hf. apply varint_u8. unfold field_ok in Hf. destruct wt; cbn [wire_code]; lia. Qed.

Lemma enc_u64_u8 f v : field_ok f -> in_u64 v -> is_bytes (enc_u64 f v).
Proof.
  intros Hf Hv. apply is_bytes_app. split; [by apply tag_u8|]. apply varint_u8.
  unfold in_u64, u64_max in Hv. lia.
Qed.

Lemma enc_bytes_u8 f b : field_ok f -> len b < 2 ^ 32 -> is_bytes b -> is_bytes (enc_bytes f b).
Proof.
  intros Hf Hl Hb. unfold enc_bytes. fold (len b). pose proof (len_nonneg b).
  apply is_bytes_app. split; [by apply tag_u8|]. apply is_bytes_app. split; [|done]. apply varint_u8. lia.
Qed.

Lemma string_bytes_u8 s : is_bytes (string_bytes s).
Proof.
  unfold string_bytes. apply Forall_map, Forall_true. intros a. unfold in_u8, u8_max.
  pose proof (nat_ascii_bounded a). lia.
Qed.

Lemma enc_opt_u8 {A} (e : A -> list Z) o : (forall v, o = Some v -> is_bytes (e v)) -> is_bytes (enc_opt e o).
Proof. destruct o as [v|]; cbn; [by auto|constructor]. Qed.

Lemma enc_all_u8 {A} (e : A -> list Z) l : (forall v, v ∈ l -> is_bytes (e v)) -> is_bytes (enc_all e l).
Proof.
  unfold enc_all. induction l as [|v l IH]; intros H; cbn; [constructor|]. apply is_bytes_app.
  split; [apply H; by constructor|]. apply IH. intros w Hw. apply H. by constructor.
Qed.

(** ** Termination

    The loop of [merge_from] takes a tag off the stream in every turn, so as many
    turns as there are bytes, and one to see the end, are enough. *)

(** On any input the loop has ended, with a result or an error of the streams, within
    any number of turns above the number of bytes, and that is the result of
    [merge_all]. *)
Definition terminates `{ProtobufStreams} {A} (mf : A -> Z -> WireType -> IS -> option (A * IS)) : Prop :=
  forall fuel m inp, (length (is_left inp) < fuel)%nat ->
  exists r, merge_loop mf fuel m inp = Ended r /\ merge_all mf m inp = r.

Section Termination.
Context `{PL : ProtobufLaws} {A : Type} (mf : A -> Z -> WireType -> IS -> option (A * IS)).
Hypothesis mf_shrinks : forall m f wt, shrinks 0 (mf m f wt).

(** One turn: the loop ends, or goes on with fewer bytes. *)
Lemma merge_turn m inp :
  (exists r, (forall fuel, merge_loop mf (S fuel) m inp = Ended r) /\
     (forall a inp', r = Some (a, inp') -> is_left inp' = is_left inp)) \/
  exists m' inp', (length (is_left inp') < length (is_left inp))%nat /\
    forall fuel, merge_loop mf (S fuel) m inp = merge_loop mf fuel m' inp'.
Proof using mf_shrinks PL.
  destruct (is_eof_ok inp) as (i1 & E1 & L1). cbn [merge_loop]. rewrite E1.
  case_bool_decide; [left; eexists; split; [done|]; by intros ? ? [= _ <-]|].
  destruct (read_tag_unpack i1) as [[[f wt] i2]|] eqn:E2; [|left; by eexists].
  destruct (mf m f wt i2) as [[m' i3]|] eqn:E3; [|left; by eexists].
  right. exists m', i3. split; [|done]. apply read_tag_shrinks in E2. apply mf_shrinks in E3. rewrite L1 in E2. lia.
Qed.

Lemma merge_loop_ends fuel1 : forall fuel2 m inp,
  (length (is_left inp) < fuel1)%nat -> (length (is_left inp) < fuel2)%nat ->
  exists r, merge_loop mf fuel1 m inp = Ended r /\ merge_loop mf fuel2 m inp = Ended r /\
    forall a inp', r = Some (a, inp') -> (length (is_left inp') <= length (is_left inp))%nat.
Proof using mf_shrinks PL.
  induction fuel1 as [|fuel1 IH]; intros [|fuel2] m inp H1 H2; [lia..|].
  destruct (merge_turn m inp) as [(r & Hr & Hl)|(m' & inp' & Hlt & Hgo)].
  - exists r. rewrite !Hr. split_and!; [done..|]. intros a inp' E. by rewrite (Hl a inp' E).
  - destruct (IH fuel2 m' inp') as (r & Ha & Hb & Hl); [lia..|]. exists r. rewrite !Hgo. split_and!; [done..|].
    intros a i E. specialize (Hl a i E). lia.
Qed.

Lemma merge_all_shrinks m : shrinks 0 (merge_all mf m).
Proof using mf_shrinks PL.
  intros inp a inp' E. unfold merge_all in E.
  destruct (merge_loop_ends (S (length (is_left inp))) (S (length (is_left inp))) m inp) as (r & Hr & _ & Hl); [lia..|].
  rewrite Hr in E. exact (Hl a inp' E).
Qed.

Lemma merge_terminates : terminates mf.
Proof using mf_shrinks PL.
  intros fuel m inp Hf. destruct (merge_loop_ends fuel (S (length (is_left inp))) m inp) as (r & Ha & Hb & _); [lia..|].
  exists r. split; [done|]. unfold merge_all. by rewrite Hb.
Qed.
End Termination.

Lemma expect_type_Some {A} t wt (k : option A) a : expect_type t wt k = Some a -> k = Some a.
Proof. unfold expect_type. by case_bool_decide. Qed.
