(* ===== verification/ProtobufRef.v ===== *)
(** * A reference protobuf runtime

    Streams over lists of bytes that meet [ProtobufLaws]: the laws are consistent,
    and the generated code can be evaluated. *)

From stdpp Require Import base tactics option list numbers strings.
From Stdlib Require Import ZArith Lia.
From S2P Require Import Prelude Crates Reference Protobuf.

Fixpoint read_varint (l : list Z) : option (Z * list Z) :=
  match l with
  | [] => None
  | b :: l =>
      if b <? 128 then Some (b, l)
      else '(v, l) ← read_varint l; Some (b - 128 + 128 * v, l)
  end.

Lemma read_varint_digits n v rest :
  0 <= v < 128 ^ (Z.of_nat n + 1) -> read_varint (varint_digits n v ++ rest) = Some (v, rest).
Proof.
  revert v. induction n as [|n IH]; intros v Hv.
  { cbn. by rewrite (proj2 (Z.ltb_lt _ _)) by (cbn in Hv; lia). }
  cbn [varint_digits]. destruct (Z.ltb_spec v 128) as [Hs|Hs].
  { cbn. by rewrite (proj2 (Z.ltb_lt _ _)) by lia. }
  cbn [app read_varint]. pose proof (Z.mod_pos_bound v 128 eq_refl).
  rewrite (proj2 (Z.ltb_ge _ _)) by lia. rewrite IH.
  - cbn. do 2 f_equal. pose proof (Z.div_mod v 128). lia.
  - replace (Z.of_nat (S n) + 1) with (1 + (Z.of_nat n + 1)) in Hv by lia.
    rewrite Z.pow_add_r in Hv by lia. split; [apply Z.div_pos; lia|].
    apply Z.div_lt_upper_bound; lia.
Qed.

Lemma read_varint_ok v rest : 0 <= v < 2 ^ 64 -> read_varint (varint v ++ rest) = Some (v, rest).
Proof. intros Hv. apply read_varint_digits. cbn in *. lia. Qed.

Definition wire_of (c : Z) : option WireType :=
  if c =? 0 then Some WireTypeVarint
  else if c =? 1 then Some WireTypeFixed64
  else if c =? 2 then Some WireTypeLengthDelimited
  else if c =? 3 then Some WireTypeStartGroup
  else if c =? 4 then Some WireTypeEndGroup
  else if c =? 5 then Some WireTypeFixed32
  else None.

Definition read_tag (l : list Z) : option ((Z * WireType) * list Z) :=
  '(v, l) ← read_varint l; wt ← wire_of (v mod 8); Some ((v / 8, wt), l).

(** The first [n] bytes, if there are so many. *)
Definition split_at (n : Z) (l : list Z) : option (list Z * list Z) :=
  if n <=? len l then Some (take (Z.to_nat n) l, drop (Z.to_nat n) l) else None.

Definition read_delimited (l : list Z) : option (list Z * list Z) :=
  '(n, l) ← read_varint l; split_at n l.

Definition merge_limited {A} (mg : A -> list Z -> option (A * list Z)) (a : A) (l : list Z)
  : option (A * list Z) :=
  '(b, l) ← read_delimited l;
  '(a, r) ← mg a b;
  if bool_decide (r = []) then Some (a, l) else None.

Definition skip_unknown (wt : WireType) (l : list Z) : option (unit * list Z) :=
  match wt with
  | WireTypeVarint => '(_, l) ← read_varint l; Some (tt, l)
  | WireTypeFixed64 => '(_, l) ← split_at 8 l; Some (tt, l)
  | WireTypeLengthDelimited => '(_, l) ← read_delimited l; Some (tt, l)
  | WireTypeFixed32 => '(_, l) ← split_at 4 l; Some (tt, l)
  | _ => None
  end.

(** Output: what is written, and the room left. *)
Definition put (b : list Z) (o : list Z * Z) : option (list Z * Z) :=
  if len b <=? o.2 then Some (o.1 ++ b, o.2 - len b) else None.

#[local] Existing Instance ref_ProtobufRuntime.

Definition ref_ProtobufStreams : @ProtobufStreams ref_ProtobufRuntime := {|
  IS := list Z;
  OS := list Z * Z;
  UnknownValue := unit;
  UnknownFields_add_value u _ _ := u;
  is_left l := l;
  is_eof l := Some (bool_decide (l = []), l);
  read_tag_unpack := read_tag;
  read_uint64 := read_varint;
  read_bool l := '(v, l) ← read_varint l; Some (negb (v =? 0), l);
  read_enum E from l := '(v, l) ← read_varint l; e ← from v; Some (e, l);
  read_bytes_into := read_delimited;
  read_string_into l := '(b, l) ← read_delimited l; Some (bytes_string b, l);
  merge_message A mg a l := merge_limited mg a l;
  read_repeated_message_into A new mg wt l k :=
    match wt with
    | WireTypeLengthDelimited => '(a, l) ← merge_limited mg new l; Some (k ++ [a], l)
    | _ => None
    end;
  read_unknown := skip_unknown;
  write_tag f wt := put (tag f wt);
  write_raw_varint32 v := put (varint v);
  write_uint64 f v := put (enc_u64 f v);
  write_bool f b := put (enc_bool f b);
  write_enum f v := put (enc_u64 f v);
  write_bytes f b := put (enc_bytes f b);
  write_string f s := put (enc_string f s);
  write_unknown_fields _ o := Some o;
  bytes_size f b := len (enc_bytes f b);
  string_size f s := len (enc_string f s);
  value_size f v _ := len (enc_u64 f v);
  enum_size f v := len (enc_u64 f v);
  compute_raw_varint32_size v := len (varint v);
  unknown_fields_size _ := 0;
  utf8 _ := true;
  parse_from_bytes A mi b :=
    '(m, _) ← mi_merge_from mi (mi_new mi) b;
    if mi_is_initialized mi m then Some m else None;
  write_to_bytes A mi m :=
    if mi_is_initialized mi m then
      match mi_compute_size mi m with
      | Done (sz, m') =>
          '(b, r) ← mi_write_to_with_cached_sizes mi m' ([], sz);
          if r =? 0 then Some b else None
      | Panic _ => None
      end
    else None;
  os_view o b r := o = (b, r);
|}.

#[local] Existing Instance ref_ProtobufStreams.

Lemma put_ok b : appends (put b) b.
Proof.
  intros o b0 r -> Hr. eexists. split; [|done]. unfold put. cbn. by rewrite (proj2 (Z.leb_le _ _)) by lia.
Qed.

Lemma split_at_ok b rest : split_at (len b) (b ++ rest) = Some (b, rest).
Proof.
  unfold split_at. rewrite len_app. pose proof (len_nonneg rest). rewrite (proj2 (Z.leb_le _ _)) by lia.
  unfold len. by rewrite Nat2Z.id, take_app_length, drop_app_length.
Qed.

Lemma read_delimited_ok b rest :
  len b < 2 ^ 32 -> read_delimited (varint (len b) ++ b ++ rest) = Some (b, rest).
Proof.
  intros Hb. pose proof (len_nonneg b). unfold read_delimited.
  rewrite read_varint_ok by lia. cbn. apply split_at_ok.
Qed.

Lemma merge_limited_ok {A} (mg : A -> list Z -> option (A * list Z)) a a' bs rest :
  len bs < 2 ^ 32 -> consumes (mg a) bs a' ->
  merge_limited mg a (varint (len bs) ++ bs ++ rest) = Some (a', rest).
Proof.
  intros Hb Hc. unfold merge_limited. rewrite read_delimited_ok by done. cbn.
  destruct (Hc bs eq_refl) as (r & E & Hr). rewrite E. cbn in *. by rewrite Hr.
Qed.

Lemma read_varint_shrinks l v r : read_varint l = Some (v, r) -> (1 + length r <= length l)%nat.
Proof.
  revert v. induction l as [|b l IH]; intros v E; [done|]. cbn in *.
  destruct (b <? 128); [injection E as <- <-; lia|].
  destruct (read_varint l) as [[v' l']|]; [|done]. cbn in E. injection E as <- <-.
  specialize (IH v' eq_refl). lia.
Qed.

Lemma split_at_shrinks n l b r : split_at n l = Some (b, r) -> (length r <= length l)%nat.
Proof.
  unfold split_at. destruct (_ <=? _); [|done]. intros E. injection E as <- <-. rewrite length_drop. lia.
Qed.

Lemma read_delimited_shrinks l b r : read_delimited l = Some (b, r) -> (1 + length r <= length l)%nat.
Proof.
  unfold read_delimited. destruct (read_varint l) as [[n l']|] eqn:E; [|done]. cbn. intros Es.
  apply split_at_shrinks in Es. apply read_varint_shrinks in E. lia.
Qed.

Lemma merge_limited_shrinks {A} (mg : A -> list Z -> option (A * list Z)) a l a' r :
  merge_limited mg a l = Some (a', r) -> (1 + length r <= length l)%nat.
Proof.
  unfold merge_limited. destruct (read_delimited l) as [[b l']|] eqn:E; [|done]. cbn.
  destruct (mg a b) as [[x y]|]; [|done]. cbn. case_bool_decide; [|done]. intros Ex. injection Ex as <- <-.
  by apply read_delimited_shrinks in E.
Qed.

(** Reads that go through one of these. *)
Ltac shrink :=
  repeat (match goal with
  | H : context [mbind _ ?x] |- _ => let E := fresh "E" in destruct x as [[? ?]|] eqn:E; cbn in H; [|discriminate H]
  | H : context [mbind _ ?x] |- _ => destruct x eqn:?; cbn in H; [|discriminate H]
  end); simplify_eq;
  repeat match goal with
  | H : read_varint _ = _ |- _ => apply read_varint_shrinks in H
  | H : split_at _ _ = _ |- _ => apply split_at_shrinks in H
  | H : read_delimited _ = _ |- _ => apply read_delimited_shrinks in H
  | H : merge_limited _ _ _ = _ |- _ => apply merge_limited_shrinks in H
  end; lia.

Lemma ref_ProtobufLaws : @ProtobufLaws _ ref_ProtobufStreams.
Proof.
  split; try (intros; apply put_ok); try done.
  - intros l. by exists l.
  - intros f wt [Hf1 Hf2] l rest El. exists rest. cbn in *. subst l. split; [|done].
    assert (0 <= wire_code wt <= 5) by (destruct wt; cbn; lia).
    unfold read_tag, tag. rewrite read_varint_ok by lia. cbn.
    assert ((f * 8 + wire_code wt) mod 8 = wire_code wt) as -> by (rewrite Z.add_comm, Z.mod_add by lia; apply Z.mod_small; lia).
    assert ((f * 8 + wire_code wt) / 8 = f) as -> by (rewrite Z.add_comm, Z.div_add, Z.div_small by lia; lia).
    by destruct wt.
  - intros v Hv l rest El. cbn in *. subst l. exists rest. split; [|done].
    apply read_varint_ok. unfold in_u64, u64_max in Hv. lia.
  - intros b l rest El. cbn in *. subst l. exists rest. split; [|done].
    rewrite read_varint_ok by (destruct b; lia). by destruct b.
  - intros E from v e Hv He l rest El. cbn in *. subst l. exists rest. split; [|done].
    rewrite read_varint_ok by lia. cbn. by rewrite He.
  - intros b Hb l rest El. cbn in *. subst l. exists rest. rewrite <-app_assoc. by rewrite read_delimited_ok.
  - intros s Hs _ l rest El. cbn in *. subst l. exists rest. rewrite <-app_assoc, read_delimited_ok by done.
    cbn. by rewrite bytes_string_bytes.
  - intros A mg a a' bs Hb Hc l rest El. cbn in *. subst l. exists rest. rewrite <-app_assoc.
    by rewrite (merge_limited_ok mg a a').
  - intros A new mg a' bs k Hb Hc l rest El. cbn in *. subst l. exists rest. rewrite <-app_assoc.
    by rewrite (merge_limited_ok mg new a').
  - intros o b r -> Hr. exists (b, r). cbn. by rewrite app_nil_r, Z.sub_0_r.
  - intros A mi m m' bs Hi Hc Hw. cbn in *. rewrite Hi, Hc.
    destruct (Hw ([], len bs) [] (len bs) eq_refl) as (o & E & Ho); [lia|]. cbn in Ho. subst o.
    rewrite E. cbn. by rewrite Z.sub_diag.
  - intros A mi m Hi. cbn in *. by rewrite Hi.
  - intros A mi m e Hc. cbn in *. rewrite Hc. by destruct (mi_is_initialized mi m).
  - intros A mi bs m Hc. cbn in *. destruct (Hc bs eq_refl) as (r & E & _). by rewrite E.
  - intros l [f wt] r E. cbn in *. unfold read_tag in E. shrink.
  - intros l v r E. cbn in *. shrink.
  - intros l v r E. cbn in *. shrink.
  - intros X from l v r E. cbn in *. shrink.
  - intros l v r E. cbn in *. shrink.
  - intros l v r E. cbn in *. shrink.
  - intros wt l v r E. cbn in *. unfold skip_unknown in E. destruct wt; try done; shrink.
  - intros A mg a _ l v r E. cbn in *. shrink.
  - intros A new mg wt k _ l v r E. cbn in *. destruct wt; try done; shrink.
Qed.
