(* ===== verification/Serialization.v ===== *)
(** * Serialisation of the messages

    The wire methods of the generated messages of serialization.rs: [merge_from],
    [compute_size], [get_cached_size] and [write_to_with_cached_sizes], over the
    streams of the protobuf runtime.  Fields are read, sized and written in the
    source's order; a size cell is set where the source sets it, so [compute_size]
    returns the message with its sizes. *)

From stdpp Require Import base tactics option list numbers strings.
From Stdlib Require Import ZArith.
From S2P Require Import Prelude Crates Messages Protobuf.

Section Serialization.
Context `{PS : ProtobufStreams}.

(** [SingularPtrField::set_default]: a value that is there is cleared, not replaced. *)
Definition set_default {A} (clear : A -> A) (new : A) (o : option A) : A :=
  match o with Some v => clear v | None => new end.

(** ** [SetReq] *)

Definition SetReq_merge_field (m : SetReq) (field_number : Z) (wire_type : WireType) (inp : IS)
  : option (SetReq * IS) :=
  if field_number =? 1 then
    expect_type WireTypeLengthDelimited wire_type
      ('(tmp, inp) ← read_bytes_into inp; Some (SetReq_with_key m (Some tmp), inp))
  else
  if field_number =? 2 then
    expect_type WireTypeLengthDelimited wire_type
      ('(tmp, inp) ← read_bytes_into inp; Some (SetReq_with_value m (Some tmp), inp))
  else
  '(unknown, inp) ← read_unknown wire_type inp;
  Some (mkSetReq (SetReq_key m) (SetReq_value m)
    (UnknownFields_add_value (SetReq_unknown_fields m) field_number unknown) (SetReq_cached_size m), inp).

Definition SetReq_merge_from (m : SetReq) (inp : IS) : option (SetReq * IS) :=
  merge_all SetReq_merge_field m inp.

Definition SetReq_compute_size (m : SetReq) : Outcome (Z * SetReq) :=
  let my_size := 0 in
  my_size ← size_opt (bytes_size 1) my_size (SetReq_key m);
  my_size ← size_opt (bytes_size 2) my_size (SetReq_value m);
  my_size ← u32_add my_size (unknown_fields_size (SetReq_unknown_fields m));
  Done (my_size, mkSetReq (SetReq_key m) (SetReq_value m)
    (SetReq_unknown_fields m) my_size).

Definition SetReq_get_cached_size (m : SetReq) : Z := SetReq_cached_size m.

Definition SetReq_write_to_with_cached_sizes (m : SetReq) (out : OS) : option OS :=
  out ← write_opt (write_bytes 1) (SetReq_key m) out;
  out ← write_opt (write_bytes 2) (SetReq_value m) out;
  write_unknown_fields (SetReq_unknown_fields m) out.

Definition SetReq_impl : MessageImpl IS OS SetReq :=
  mkMessageImpl SetReq_new SetReq_is_initialized SetReq_merge_from SetReq_compute_size
    SetReq_get_cached_size SetReq_write_to_with_cached_sizes.


(** ** [SetRes] *)

Definition SetRes_merge_field (m : SetRes) (field_number : Z) (wire_type : WireType) (inp : IS)
  : option (SetRes * IS) :=
  if field_number =? 1 then
    expect_type WireTypeVarint wire_type
      ('(tmp, inp) ← read_bool inp; Some (SetRes_with_success m (Some tmp), inp))
  else
  if field_number =? 2 then
    expect_type WireTypeVarint wire_type
      ('(tmp, inp) ← read_uint64 inp; Some (SetRes_with_txid m (Some tmp), inp))
  else
  if field_number =? 3 then
    expect_type WireTypeLengthDelimited wire_type
      ('(tmp, inp) ← read_string_into inp; Some (SetRes_with_err m (Some tmp), inp))
  else
  '(unknown, inp) ← read_unknown wire_type inp;
  Some (mkSetRes (SetRes_success m) (SetRes_txid m) (SetRes_err m)
    (UnknownFields_add_value (SetRes_unknown_fields m) field_number unknown) (SetRes_cached_size m), inp).

Definition SetRes_merge_from (m : SetRes) (inp : IS) : option (SetRes * IS) :=
  merge_all SetRes_merge_field m inp.

Definition SetRes_compute_size (m : SetRes) : Outcome (Z * SetRes) :=
  let my_size := 0 in
  my_size ← size_opt (fun _ => 2) my_size (SetRes_success m);
  my_size ← size_opt (fun value => value_size 2 value WireTypeVarint) my_size (SetRes_txid m);
  my_size ← size_opt (string_size 3) my_size (SetRes_err m);
  my_size ← u32_add my_size (unknown_fields_size (SetRes_unknown_fields m));
  Done (my_size, mkSetRes (SetRes_success m) (SetRes_txid m) (SetRes_err m)
    (SetRes_unknown_fields m) my_size).

Definition SetRes_get_cached_size (m : SetRes) : Z := SetRes_cached_size m.

Definition SetRes_write_to_with_cached_sizes (m : SetRes) (out : OS) : option OS :=
  out ← write_opt (write_bool 1) (SetRes_success m) out;
  out ← write_opt (write_uint64 2) (SetRes_txid m) out;
  out ← write_opt (write_string 3) (SetRes_err m) out;
  write_unknown_fields (SetRes_unknown_fields m) out.

Definition SetRes_impl : MessageImpl IS OS SetRes :=
  mkMessageImpl SetRes_new SetRes_is_initialized SetRes_merge_from SetRes_compute_size
    SetRes_get_cached_size SetRes_write_to_with_cached_sizes.


(** ** [GetReq] *)

Definition GetReq_merge_field (m : GetReq) (field_number : Z) (wire_type : WireType) (inp : IS)
  : option (GetReq * IS) :=
  if field_number =? 1 then
    expect_type WireTypeLengthDelimited wire_type
      ('(tmp, inp) ← read_bytes_into inp; Some (GetReq_with_key m (Some tmp), inp))
  else
  '(unknown, inp) ← read_unknown wire_type inp;
  Some (mkGetReq (GetReq_key m)
    (UnknownFields_add_value (GetReq_unknown_fields m) field_number unknown) (GetReq_cached_size m), inp).

Definition GetReq_merge_from (m : GetReq) (inp : IS) : option (GetReq * IS) :=
  merge_all GetReq_merge_field m inp.

Definition GetReq_compute_size (m : GetReq) : Outcome (Z * GetReq) :=
  let my_size := 0 in
  my_size ← size_opt (bytes_size 1) my_size (GetReq_key m);
  my_size ← u32_add my_size (unknown_fields_size (GetReq_unknown_fields m));
  Done (my_size, mkGetReq (GetReq_key m)
    (GetReq_unknown_fields m) my_size).

Definition GetReq_get_cached_size (m : GetReq) : Z := GetReq_cached_size m.

Definition GetReq_write_to_with_cached_sizes (m : GetReq) (out : OS) : option OS :=
  out ← write_opt (write_bytes 1) (GetReq_key m) out;
  write_unknown_fields (GetReq_unknown_fields m) out.

Definition GetReq_impl : MessageImpl IS OS GetReq :=
  mkMessageImpl GetReq_new GetReq_is_initialized GetReq_merge_from GetReq_compute_size
    GetReq_get_cached_size GetReq_write_to_with_cached_sizes.


(** ** [GetRes] *)

Definition GetRes_merge_field (m : GetRes) (field_number : Z) (wire_type : WireType) (inp : IS)
  : option (GetRes * IS) :=
  if field_number =? 1 then
    expect_type WireTypeVarint wire_type
      ('(tmp, inp) ← read_bool inp; Some (GetRes_with_success m (Some tmp), inp))
  else
  if field_number =? 2 then
    expect_type WireTypeVarint wire_type
      ('(tmp, inp) ← read_uint64 inp; Some (GetRes_with_txid m (Some tmp), inp))
  else
  if field_number =? 3 then
    expect_type WireTypeLengthDelimited wire_type
      ('(tmp, inp) ← read_bytes_into inp; Some (GetRes_with_value m (Some tmp), inp))
  else
  if field_number =? 4 then
    expect_type WireTypeLengthDelimited wire_type
      ('(tmp, inp) ← read_string_into inp; Some (GetRes_with_err m (Some tmp), inp))
  else
  '(unknown, inp) ← read_unknown wire_type inp;
  Some (mkGetRes (GetRes_success m) (GetRes_txid m) (GetRes_value m) (GetRes_err m)
    (UnknownFields_add_value (GetRes_unknown_fields m) field_number unknown) (GetRes_cached_size m), inp).

Definition GetRes_merge_from (m : GetRes) (inp : IS) : option (GetRes * IS) :=
  merge_all GetRes_merge_field m inp.

Definition GetRes_compute_size (m : GetRes) : Outcome (Z * GetRes) :=
  let my_size := 0 in
  my_size ← size_opt (fun _ => 2) my_size (GetRes_success m);
  my_size ← size_opt (fun value => value_size 2 value WireTypeVarint) my_size (GetRes_txid m);
  my_size ← size_opt (bytes_size 3) my_size (GetRes_value m);
  my_size ← size_opt (string_size 4) my_size (GetRes_err m);
  my_size ← u32_add my_size (unknown_fields_size (GetRes_unknown_fields m));
  Done (my_size, mkGetRes (GetRes_success m) (GetRes_txid m) (GetRes_value m) (GetRes_err m)
    (GetRes_unknown_fields m) my_size).

Definition GetRes_get_cached_size (m : GetRes) : Z := GetRes_cached_size m.

Definition GetRes_write_to_with_cached_sizes (m : GetRes) (out : OS) : option OS :=
  out ← write_opt (write_bool 1) (GetRes_success m) out;
  out ← write_opt (write_uint64 2) (GetRes_txid m) out;
  out ← write_opt (write_bytes 3) (GetRes_value m) out;
  out ← write_opt (write_string 4) (GetRes_err m) out;
  write_unknown_fields (GetRes_unknown_fields m) out.

Definition GetRes_impl : MessageImpl IS OS GetRes :=
  mkMessageImpl GetRes_new GetRes_is_initialized GetRes_merge_from GetRes_compute_size
    GetRes_get_cached_size GetRes_write_to_with_cached_sizes.


(** ** [CASReq] *)

Definition CASReq_merge_field (m : CASReq) (field_number : Z) (wire_type : WireType) (inp : IS)
  : option (CASReq * IS) :=
  if field_number =? 1 then
    expect_type WireTypeLengthDelimited wire_type
      ('(tmp, inp) ← read_bytes_into inp; Some (CASReq_with_key m (Some tmp), inp))
  else
  if field_number =? 2 then
    expect_type WireTypeLengthDelimited wire_type
      ('(tmp, inp) ← read_bytes_into inp; Some (CASReq_with_new_value m (Some tmp), inp))
  else
  if field_number =? 3 then
    expect_type WireTypeLengthDelimited wire_type
      ('(tmp, inp) ← read_bytes_into inp; Some (CASReq_with_old_value m (Some tmp), inp))
  else
  '(unknown, inp) ← read_unknown wire_type inp;
  Some (mkCASReq (CASReq_key m) (CASReq_new_value m) (CASReq_old_value m)
    (UnknownFields_add_value (CASReq_unknown_fields m) field_number unknown) (CASReq_cached_size m), inp).

Definition CASReq_merge_from (m : CASReq) (inp : IS) : option (CASReq * IS) :=
  merge_all CASReq_merge_field m inp.

Definition CASReq_compute_size (m : CASReq) : Outcome (Z * CASReq) :=
  let my_size := 0 in
  my_size ← size_opt (bytes_size 1) my_size (CASReq_key m);
  my_size ← size_opt (bytes_size 2) my_size (CASReq_new_value m);
  my_size ← size_opt (bytes_size 3) my_size (CASReq_old_value m);
  my_size ← u32_add my_size (unknown_fields_size (CASReq_unknown_fields m));
  Done (my_size, mkCASReq (CASReq_key m) (CASReq_new_value m) (CASReq_old_value m)
    (CASReq_unknown_fields m) my_size).

Definition CASReq_get_cached_size (m : CASReq) : Z := CASReq_cached_size m.

Definition CASReq_write_to_with_cached_sizes (m : CASReq) (out : OS) : option OS :=
  out ← write_opt (write_bytes 1) (CASReq_key m) out;
  out ← write_opt (write_bytes 2) (CASReq_new_value m) out;
  out ← write_opt (write_bytes 3) (CASReq_old_value m) out;
  write_unknown_fields (CASReq_unknown_fields m) out.

Definition CASReq_impl : MessageImpl IS OS CASReq :=
  mkMessageImpl CASReq_new CASReq_is_initialized CASReq_merge_from CASReq_compute_size
    CASReq_get_cached_size CASReq_write_to_with_cached_sizes.


(** ** [CASRes] *)

Definition CASRes_merge_field (m : CASRes) (field_number : Z) (wire_type : WireType) (inp : IS)
  : option (CASRes * IS) :=
  if field_number =? 1 then
    expect_type WireTypeVarint wire_type
      ('(tmp, inp) ← read_bool inp; Some (CASRes_with_success m (Some tmp), inp))
  else
  if field_number =? 2 then
    expect_type WireTypeVarint wire_type
      ('(tmp, inp) ← read_uint64 inp; Some (CASRes_with_txid m (Some tmp), inp))
  else
  if field_number =? 3 then
    expect_type WireTypeLengthDelimited wire_type
      ('(tmp, inp) ← read_bytes_into inp; Some (CASRes_with_value m (Some tmp), inp))
  else
  if field_number =? 4 then
    expect_type WireTypeLengthDelimited wire_type
      ('(tmp, inp) ← read_string_into inp; Some (CASRes_with_err m (Some tmp), inp))
  else
  '(unknown, inp) ← read_unknown wire_type inp;
  Some (mkCASRes (CASRes_success m) (CASRes_txid m) (CASRes_value m) (CASRes_err m)
    (UnknownFields_add_value (CASRes_unknown_fields m) field_number unknown) (CASRes_cached_size m), inp).

Definition CASRes_merge_from (m : CASRes) (inp : IS) : option (CASRes * IS) :=
  merge_all CASRes_merge_field m inp.

Definition CASRes_compute_size (m : CASRes) : Outcome (Z * CASRes) :=
  let my_size := 0 in
  my_size ← size_opt (fun _ => 2) my_size (CASRes_success m);
  my_size ← size_opt (fun value => value_size 2 value WireTypeVarint) my_size (CASRes_txid m);
  my_size ← size_opt (bytes_size 3) my_size (CASRes_value m);
  my_size ← size_opt (string_size 4) my_size (CASRes_err m);
  my_size ← u32_add my_size (unknown_fields_size (CASRes_unknown_fields m));
  Done (my_size, mkCASRes (CASRes_success m) (CASRes_txid m) (CASRes_value m) (CASRes_err m)
    (CASRes_unknown_fields m) my_size).

Definition CASRes_get_cached_size (m : CASRes) : Z := CASRes_cached_size m.

Definition CASRes_write_to_with_cached_sizes (m : CASRes) (out : OS) : option OS :=
  out ← write_opt (write_bool 1) (CASRes_success m) out;
  out ← write_opt (write_uint64 2) (CASRes_txid m) out;
  out ← write_opt (write_bytes 3) (CASRes_value m) out;
  out ← write_opt (write_string 4) (CASRes_err m) out;
  write_unknown_fields (CASRes_unknown_fields m) out.

Definition CASRes_impl : MessageImpl IS OS CASRes :=
  mkMessageImpl CASRes_new CASRes_is_initialized CASRes_merge_from CASRes_compute_size
    CASRes_get_cached_size CASRes_write_to_with_cached_sizes.


(** ** [DelReq] *)

Definition DelReq_merge_field (m : DelReq) (field_number : Z) (wire_type : WireType) (inp : IS)
  : option (DelReq * IS) :=
  if field_number =? 1 then
    expect_type WireTypeLengthDelimited wire_type
      ('(tmp, inp) ← read_bytes_into inp; Some (DelReq_with_key m (Some tmp), inp))
  else
  '(unknown, inp) ← read_unknown wire_type inp;
  Some (mkDelReq (DelReq_key m)
    (UnknownFields_add_value (DelReq_unknown_fields m) field_number unknown) (DelReq_cached_size m), inp).

Definition DelReq_merge_from (m : DelReq) (inp : IS) : option (DelReq * IS) :=
  merge_all DelReq_merge_field m inp.

Definition DelReq_compute_size (m : DelReq) : Outcome (Z * DelReq) :=
  let my_size := 0 in
  my_size ← size_opt (bytes_size 1) my_size (DelReq_key m);
  my_size ← u32_add my_size (unknown_fields_size (DelReq_unknown_fields m));
  Done (my_size, mkDelReq (DelReq_key m)
    (DelReq_unknown_fields m) my_size).

Definition DelReq_get_cached_size (m : DelReq) : Z := DelReq_cached_size m.

Definition DelReq_write_to_with_cached_sizes (m : DelReq) (out : OS) : option OS :=
  out ← write_opt (write_bytes 1) (DelReq_key m) out;
  write_unknown_fields (DelReq_unknown_fields m) out.

Definition DelReq_impl : MessageImpl IS OS DelReq :=
  mkMessageImpl DelReq_new DelReq_is_initialized DelReq_merge_from DelReq_compute_size
    DelReq_get_cached_size DelReq_write_to_with_cached_sizes.


(** ** [DelRes] *)

Definition DelRes_merge_field (m : DelRes) (field_number : Z) (wire_type : WireType) (inp : IS)
  : option (DelRes * IS) :=
  if field_number =? 1 then
    expect_type WireTypeVarint wire_type
      ('(tmp, inp) ← read_bool inp; Some (DelRes_with_success m (Some tmp), inp))
  else
  if field_number =? 2 then
    expect_type WireTypeVarint wire_type
      ('(tmp, inp) ← read_uint64 inp; Some (DelRes_with_txid m (Some tmp), inp))
  else
  if field_number =? 3 then
    expect_type WireTypeLengthDelimited wire_type
      ('(tmp, inp) ← read_bytes_into inp; Some (DelRes_with_value m (Some tmp), inp))
  else
  if field_number =? 4 then
    expect_type WireTypeLengthDelimited wire_type
      ('(tmp, inp) ← read_string_into inp; Some (DelRes_with_err m (Some tmp), inp))
  else
  '(unknown, inp) ← read_unknown wire_type inp;
  Some (mkDelRes (DelRes_success m) (DelRes_txid m) (DelRes_value m) (DelRes_err m)
    (UnknownFields_add_value (DelRes_unknown_fields m) field_number unknown) (DelRes_cached_size m), inp).

Definition DelRes_merge_from (m : DelRes) (inp : IS) : option (DelRes * IS) :=
  merge_all DelRes_merge_field m inp.

Definition DelRes_compute_size (m : DelRes) : Outcome (Z * DelRes) :=
  let my_size := 0 in
  my_size ← size_opt (fun _ => 2) my_size (DelRes_success m);
  my_size ← size_opt (fun value => value_size 2 value WireTypeVarint) my_size (DelRes_txid m);
  my_size ← size_opt (bytes_size 3) my_size (DelRes_value m);
  my_size ← size_opt (string_size 4) my_size (DelRes_err m);
  my_size ← u32_add my_size (unknown_fields_size (DelRes_unknown_fields m));
  Done (my_size, mkDelRes (DelRes_success m) (DelRes_txid m) (DelRes_value m) (DelRes_err m)
    (DelRes_unknown_fields m) my_size).

Definition DelRes_get_cached_size (m : DelRes) : Z := DelRes_cached_size m.

Definition DelRes_write_to_with_cached_sizes (m : DelRes) (out : OS) : option OS :=
  out ← write_opt (write_bool 1) (DelRes_success m) out;
  out ← write_opt (write_uint64 2) (DelRes_txid m) out;
  out ← write_opt (write_bytes 3) (DelRes_value m) out;
  out ← write_opt (write_string 4) (DelRes_err m) out;
  write_unknown_fields (DelRes_unknown_fields m) out.

Definition DelRes_impl : MessageImpl IS OS DelRes :=
  mkMessageImpl DelRes_new DelRes_is_initialized DelRes_merge_from DelRes_compute_size
    DelRes_get_cached_size DelRes_write_to_with_cached_sizes.


(** ** [WatchReq] *)

Definition WatchReq_merge_field (m : WatchReq) (field_number : Z) (wire_type : WireType) (inp : IS)
  : option (WatchReq * IS) :=
  if field_number =? 1 then
    expect_type WireTypeLengthDelimited wire_type
      ('(tmp, inp) ← read_bytes_into inp; Some (WatchReq_with_key m (Some tmp), inp))
  else
  if field_number =? 2 then
    expect_type WireTypeVarint wire_type
      ('(tmp, inp) ← read_uint64 inp; Some (WatchReq_with_last_txid m (Some tmp), inp))
  else
  if field_number =? 3 then
    expect_type WireTypeVarint wire_type
      ('(tmp, inp) ← read_bool inp; Some (WatchReq_with_recursive m (Some tmp), inp))
  else
  if field_number =? 4 then
    expect_type WireTypeVarint wire_type
      ('(tmp, inp) ← read_bool inp; Some (WatchReq_with_historical m (Some tmp), inp))
  else
  '(unknown, inp) ← read_unknown wire_type inp;
  Some (mkWatchReq (WatchReq_key m) (WatchReq_last_txid m) (WatchReq_recursive m) (WatchReq_historical m)
    (UnknownFields_add_value (WatchReq_unknown_fields m) field_number unknown) (WatchReq_cached_size m), inp).

Definition WatchReq_merge_from (m : WatchReq) (inp : IS) : option (WatchReq * IS) :=
  merge_all WatchReq_merge_field m inp.

Definition WatchReq_compute_size (m : WatchReq) : Outcome (Z * WatchReq) :=
  let my_size := 0 in
  my_size ← size_opt (bytes_size 1) my_size (WatchReq_key m);
  my_size ← size_opt (fun value => value_size 2 value WireTypeVarint) my_size (WatchReq_last_txid m);
  my_size ← size_opt (fun _ => 2) my_size (WatchReq_recursive m);
  my_size ← size_opt (fun _ => 2) my_size (WatchReq_historical m);
  my_size ← u32_add my_size (unknown_fields_size (WatchReq_unknown_fields m));
  Done (my_size, mkWatchReq (WatchReq_key m) (WatchReq_last_txid m) (WatchReq_recursive m) (WatchReq_historical m)
    (WatchReq_unknown_fields m) my_size).

Definition WatchReq_get_cached_size (m : WatchReq) : Z := WatchReq_cached_size m.

Definition WatchReq_write_to_with_cached_sizes (m : WatchReq) (out : OS) : option OS :=
  out ← write_opt (write_bytes 1) (WatchReq_key m) out;
  out ← write_opt (write_uint64 2) (WatchReq_last_txid m) out;
  out ← write_opt (write_bool 3) (WatchReq_recursive m) out;
  out ← write_opt (write_bool 4) (WatchReq_historical m) out;
  write_unknown_fields (WatchReq_unknown_fields m) out.

Definition WatchReq_impl : MessageImpl IS OS WatchReq :=
  mkMessageImpl WatchReq_new WatchReq_is_initialized WatchReq_merge_from WatchReq_compute_size
    WatchReq_get_cached_size WatchReq_write_to_with_cached_sizes.


(** ** [Version] *)

Definition Version_merge_field (m : Version) (field_number : Z) (wire_type : WireType) (inp : IS)
  : option (Version * IS) :=
  if field_number =? 1 then
    expect_type WireTypeVarint wire_type
      ('(tmp, inp) ← read_uint64 inp; Some (Version_with_txid m (Some tmp), inp))
  else
  if field_number =? 2 then
    expect_type WireTypeVarint wire_type
      ('(tmp, inp) ← read_uint64 inp; Some (Version_with_term m (Some tmp), inp))
  else
  '(unknown, inp) ← read_unknown wire_type inp;
  Some (mkVersion (Version_txid m) (Version_term m)
    (UnknownFields_add_value (Version_unknown_fields m) field_number unknown) (Version_cached_size m), inp).

Definition Version_merge_from (m : Version) (inp : IS) : option (Version * IS) :=
  merge_all Version_merge_field m inp.

Definition Version_compute_size (m : Version) : Outcome (Z * Version) :=
  let my_size := 0 in
  my_size ← size_opt (fun value => value_size 1 value WireTypeVarint) my_size (Version_txid m);
  my_size ← size_opt (fun value => value_size 2 value WireTypeVarint) my_size (Version_term m);
  my_size ← u32_add my_size (unknown_fields_size (Version_unknown_fields m));
  Done (my_size, mkVersion (Version_txid m) (Version_term m)
    (Version_unknown_fields m) my_size).

Definition Version_get_cached_size (m : Version) : Z := Version_cached_size m.

Definition Version_write_to_with_cached_sizes (m : Version) (out : OS) : option OS :=
  out ← write_opt (write_uint64 1) (Version_txid m) out;
  out ← write_opt (write_uint64 2) (Version_term m) out;
  write_unknown_fields (Version_unknown_fields m) out.

Definition Version_impl : MessageImpl IS OS Version :=
  mkMessageImpl Version_new Version_is_initialized Version_merge_from Version_compute_size
    Version_get_cached_size Version_write_to_with_cached_sizes.


(** ** [Mutation] *)

Definition Mutation_merge_field (m : Mutation) (field_number : Z) (wire_type : WireType) (inp : IS)
  : option (Mutation * IS) :=
  if field_number =? 1 then
    expect_type WireTypeVarint wire_type
      ('(tmp, inp) ← read_enum MutationType_from_i32 inp; Some (Mutation_with_field_type m (Some tmp), inp))
  else
  if field_number =? 2 then
    expect_type WireTypeLengthDelimited wire_type
      ('(tmp, inp) ← merge_message Version_merge_from (set_default Version_clear Version_new (Mutation_version m)) inp; Some (Mutation_with_version m (Some tmp), inp))
  else
  if field_number =? 3 then
    expect_type WireTypeLengthDelimited wire_type
      ('(tmp, inp) ← read_bytes_into inp; Some (Mutation_with_key m (Some tmp), inp))
  else
  if field_number =? 4 then
    expect_type WireTypeLengthDelimited wire_type
      ('(tmp, inp) ← read_bytes_into inp; Some (Mutation_with_value m (Some tmp), inp))
  else
  if field_number =? 5 then
    expect_type WireTypeLengthDelimited wire_type
      ('(tmp, inp) ← read_bytes_into inp; Some (Mutation_with_old_value m (Some tmp), inp))
  else
  '(unknown, inp) ← read_unknown wire_type inp;
  Some (mkMutation (Mutation_field_type m) (Mutation_version m) (Mutation_key m) (Mutation_value m) (Mutation_old_value m)
    (UnknownFields_add_value (Mutation_unknown_fields m) field_number unknown) (Mutation_cached_size m), inp).

Definition Mutation_merge_from (m : Mutation) (inp : IS) : option (Mutation * IS) :=
  merge_all Mutation_merge_field m inp.

Definition Mutation_compute_size (m : Mutation) : Outcome (Z * Mutation) :=
  let my_size := 0 in
  my_size ← size_opt (fun value => enum_size 1 (MutationType_value value)) my_size (Mutation_field_type m);
  '(my_size, version) ← size_opt_msg Version_compute_size my_size (Mutation_version m);
  let m := Mutation_with_version m version in
  my_size ← size_opt (bytes_size 3) my_size (Mutation_key m);
  my_size ← size_opt (bytes_size 4) my_size (Mutation_value m);
  my_size ← size_opt (bytes_size 5) my_size (Mutation_old_value m);
  my_size ← u32_add my_size (unknown_fields_size (Mutation_unknown_fields m));
  Done (my_size, mkMutation (Mutation_field_type m) (Mutation_version m) (Mutation_key m) (Mutation_value m) (Mutation_old_value m)
    (Mutation_unknown_fields m) my_size).

Definition Mutation_get_cached_size (m : Mutation) : Z := Mutation_cached_size m.

Definition Mutation_write_to_with_cached_sizes (m : Mutation) (out : OS) : option OS :=
  out ← write_opt (fun v => write_enum 1 (MutationType_value v)) (Mutation_field_type m) out;
  out ← write_opt (write_msg 2 Version_get_cached_size Version_write_to_with_cached_sizes) (Mutation_version m) out;
  out ← write_opt (write_bytes 3) (Mutation_key m) out;
  out ← write_opt (write_bytes 4) (Mutation_value m) out;
  out ← write_opt (write_bytes 5) (Mutation_old_value m) out;
  write_unknown_fields (Mutation_unknown_fields m) out.

Definition Mutation_impl : MessageImpl IS OS Mutation :=
  mkMessageImpl Mutation_new Mutation_is_initialized Mutation_merge_from Mutation_compute_size
    Mutation_get_cached_size Mutation_write_to_with_cached_sizes.


(** ** [WatchRes] *)

Definition WatchRes_merge_field (m : WatchRes) (field_number : Z) (wire_type : WireType) (inp : IS)
  : option (WatchRes * IS) :=
  if field_number =? 1 then
    expect_type WireTypeVarint wire_type
      ('(tmp, inp) ← read_bool inp; Some (WatchRes_with_success m (Some tmp), inp))
  else
  if field_number =? 2 then
    '(tmp, inp) ← read_repeated_message_into Mutation_new Mutation_merge_from wire_type inp (WatchRes_history m);
    Some (WatchRes_set_history m tmp, inp)
  else
  if field_number =? 3 then
    expect_type WireTypeLengthDelimited wire_type
      ('(tmp, inp) ← read_string_into inp; Some (WatchRes_with_err m (Some tmp), inp))
  else
  '(unknown, inp) ← read_unknown wire_type inp;
  Some (mkWatchRes (WatchRes_success m) (WatchRes_history m) (WatchRes_err m)
    (UnknownFields_add_value (WatchRes_unknown_fields m) field_number unknown) (WatchRes_cached_size m), inp).

Definition WatchRes_merge_from (m : WatchRes) (inp : IS) : option (WatchRes * IS) :=
  merge_all WatchRes_merge_field m inp.

Definition WatchRes_compute_size (m : WatchRes) : Outcome (Z * WatchRes) :=
  let my_size := 0 in
  my_size ← size_opt (fun _ => 2) my_size (WatchRes_success m);
  '(my_size, history) ← size_msgs Mutation_compute_size my_size (WatchRes_history m);
  let m := WatchRes_set_history m history in
  my_size ← size_opt (string_size 3) my_size (WatchRes_err m);
  my_size ← u32_add my_size (unknown_fields_size (WatchRes_unknown_fields m));
  Done (my_size, mkWatchRes (WatchRes_success m) (WatchRes_history m) (WatchRes_err m)
    (WatchRes_unknown_fields m) my_size).

Definition WatchRes_get_cached_size (m : WatchRes) : Z := WatchRes_cached_size m.

Definition WatchRes_write_to_with_cached_sizes (m : WatchRes) (out : OS) : option OS :=
  out ← write_opt (write_bool 1) (WatchRes_success m) out;
  out ← write_all (write_msg 2 Mutation_get_cached_size Mutation_write_to_with_cached_sizes) (WatchRes_history m) out;
  out ← write_opt (write_string 3) (WatchRes_err m) out;
  write_unknown_fields (WatchRes_unknown_fields m) out.

Definition WatchRes_impl : MessageImpl IS OS WatchRes :=
  mkMessageImpl WatchRes_new WatchRes_is_initialized WatchRes_merge_from WatchRes_compute_size
    WatchRes_get_cached_size WatchRes_write_to_with_cached_sizes.


(** ** [RedirectRes] *)

Definition RedirectRes_merge_field (m : RedirectRes) (field_number : Z) (wire_type : WireType) (inp : IS)
  : option (RedirectRes * IS) :=
  if field_number =? 1 then
    expect_type WireTypeVarint wire_type
      ('(tmp, inp) ← read_bool inp; Some (RedirectRes_with_success m (Some tmp), inp))
  else
  if field_number =? 2 then
    expect_type WireTypeLengthDelimited wire_type
      ('(tmp, inp) ← read_string_into inp; Some (RedirectRes_with_address m (Some tmp), inp))
  else
  if field_number =? 3 then
    expect_type WireTypeLengthDelimited wire_type
      ('(tmp, inp) ← read_string_into inp; Some (RedirectRes_with_err m (Some tmp), inp))
  else
  '(unknown, inp) ← read_unknown wire_type inp;
  Some (mkRedirectRes (RedirectRes_success m) (RedirectRes_address m) (RedirectRes_err m)
    (UnknownFields_add_value (RedirectRes_unknown_fields m) field_number unknown) (RedirectRes_cached_size m), inp).

Definition RedirectRes_merge_from (m : RedirectRes) (inp : IS) : option (RedirectRes * IS) :=
  merge_all RedirectRes_merge_field m inp.

Definition RedirectRes_compute_size (m : RedirectRes) : Outcome (Z * RedirectRes) :=
  let my_size := 0 in
  my_size ← size_opt (fun _ => 2) my_size (RedirectRes_success m);
  my_size ← size_opt (string_size 2) my_size (RedirectRes_address m);
  my_size ← size_opt (string_size 3) my_size (RedirectRes_err m);
  my_size ← u32_add my_size (unknown_fields_size (RedirectRes_unknown_fields m));
  Done (my_size, mkRedirectRes (RedirectRes_success m) (RedirectRes_address m) (RedirectRes_err m)
    (RedirectRes_unknown_fields m) my_size).

Definition RedirectRes_get_cached_size (m : RedirectRes) : Z := RedirectRes_cached_size m.

Definition RedirectRes_write_to_with_cached_sizes (m : RedirectRes) (out : OS) : option OS :=
  out ← write_opt (write_bool 1) (RedirectRes_success m) out;
  out ← write_opt (write_string 2) (RedirectRes_address m) out;
  out ← write_opt (write_string 3) (RedirectRes_err m) out;
  write_unknown_fields (RedirectRes_unknown_fields m) out.

Definition RedirectRes_impl : MessageImpl IS OS RedirectRes :=
  mkMessageImpl RedirectRes_new RedirectRes_is_initialized RedirectRes_merge_from RedirectRes_compute_size
    RedirectRes_get_cached_size RedirectRes_write_to_with_cached_sizes.


(** ** [CliReq] *)

Definition CliReq_merge_field (m : CliReq) (field_number : Z) (wire_type : WireType) (inp : IS)
  : option (CliReq * IS) :=
  if field_number =? 1 then
    expect_type WireTypeVarint wire_type
      ('(tmp, inp) ← read_uint64 inp; Some (CliReq_with_req_id m (Some tmp), inp))
  else
  if field_number =? 2 then
    expect_type WireTypeLengthDelimited wire_type
      ('(tmp, inp) ← merge_message GetReq_merge_from (set_default GetReq_clear GetReq_new (CliReq_get m)) inp; Some (CliReq_with_get m (Some tmp), inp))
  else
  if field_number =? 3 then
    expect_type WireTypeLengthDelimited wire_type
      ('(tmp, inp) ← merge_message SetReq_merge_from (set_default SetReq_clear SetReq_new (CliReq_set m)) inp; Some (CliReq_with_set m (Some tmp), inp))
  else
  if field_number =? 4 then
    expect_type WireTypeLengthDelimited wire_type
      ('(tmp, inp) ← merge_message CASReq_merge_from (set_default CASReq_clear CASReq_new (CliReq_cas m)) inp; Some (CliReq_with_cas m (Some tmp), inp))
  else
  if field_number =? 5 then
    expect_type WireTypeLengthDelimited wire_type
      ('(tmp, inp) ← merge_message DelReq_merge_from (set_default DelReq_clear DelReq_new (CliReq_del m)) inp; Some (CliReq_with_del m (Some tmp), inp))
  else
  if field_number =? 6 then
    expect_type WireTypeLengthDelimited wire_type
      ('(tmp, inp) ← merge_message WatchReq_merge_from (set_default WatchReq_clear WatchReq_new (CliReq_watch m)) inp; Some (CliReq_with_watch m (Some tmp), inp))
  else
  '(unknown, inp) ← read_unknown wire_type inp;
  Some (mkCliReq (CliReq_req_id m) (CliReq_get m) (CliReq_set m) (CliReq_cas m) (CliReq_del m) (CliReq_watch m)
    (UnknownFields_add_value (CliReq_unknown_fields m) field_number unknown) (CliReq_cached_size m), inp).

Definition CliReq_merge_from (m : CliReq) (inp : IS) : option (CliReq * IS) :=
  merge_all CliReq_merge_field m inp.

Definition CliReq_compute_size (m : CliReq) : Outcome (Z * CliReq) :=
  let my_size := 0 in
  my_size ← size_opt (fun value => value_size 1 value WireTypeVarint) my_size (CliReq_req_id m);
  '(my_size, get) ← size_opt_msg GetReq_compute_size my_size (CliReq_get m);
  let m := CliReq_with_get m get in
  '(my_size, set) ← size_opt_msg SetReq_compute_size my_size (CliReq_set m);
  let m := CliReq_with_set m set in
  '(my_size, cas) ← size_opt_msg CASReq_compute_size my_size (CliReq_cas m);
  let m := CliReq_with_cas m cas in
  '(my_size, del) ← size_opt_msg DelReq_compute_size my_size (CliReq_del m);
  let m := CliReq_with_del m del in
  '(my_size, watch) ← size_opt_msg WatchReq_compute_size my_size (CliReq_watch m);
  let m := CliReq_with_watch m watch in
  my_size ← u32_add my_size (unknown_fields_size (CliReq_unknown_fields m));
  Done (my_size, mkCliReq (CliReq_req_id m) (CliReq_get m) (CliReq_set m) (CliReq_cas m) (CliReq_del m) (CliReq_watch m)
    (CliReq_unknown_fields m) my_size).

Definition CliReq_get_cached_size (m : CliReq) : Z := CliReq_cached_size m.

Definition CliReq_write_to_with_cached_sizes (m : CliReq) (out : OS) : option OS :=
  out ← write_opt (write_uint64 1) (CliReq_req_id m) out;
  out ← write_opt (write_msg 2 GetReq_get_cached_size GetReq_write_to_with_cached_sizes) (CliReq_get m) out;
  out ← write_opt (write_msg 3 SetReq_get_cached_size SetReq_write_to_with_cached_sizes) (CliReq_set m) out;
  out ← write_opt (write_msg 4 CASReq_get_cached_size CASReq_write_to_with_cached_sizes) (CliReq_cas m) out;
  out ← write_opt (write_msg 5 DelReq_get_cached_size DelReq_write_to_with_cached_sizes) (CliReq_del m) out;
  out ← write_opt (write_msg 6 WatchReq_get_cached_size WatchReq_write_to_with_cached_sizes) (CliReq_watch m) out;
  write_unknown_fields (CliReq_unknown_fields m) out.

Definition CliReq_impl : MessageImpl IS OS CliReq :=
  mkMessageImpl CliReq_new CliReq_is_initialized CliReq_merge_from CliReq_compute_size
    CliReq_get_cached_size CliReq_write_to_with_cached_sizes.


(** ** [CliRes] *)

Definition CliRes_merge_field (m : CliRes) (field_number : Z) (wire_type : WireType) (inp : IS)
  : option (CliRes * IS) :=
  if field_number =? 1 then
    expect_type WireTypeVarint wire_type
      ('(tmp, inp) ← read_uint64 inp; Some (CliRes_with_req_id m (Some tmp), inp))
  else
  if field_number =? 2 then
    expect_type WireTypeLengthDelimited wire_type
      ('(tmp, inp) ← merge_message GetRes_merge_from (set_default GetRes_clear GetRes_new (CliRes_get m)) inp; Some (CliRes_with_get m (Some tmp), inp))
  else
  if field_number =? 3 then
    expect_type WireTypeLengthDelimited wire_type
      ('(tmp, inp) ← merge_message SetRes_merge_from (set_default SetRes_clear SetRes_new (CliRes_set m)) inp; Some (CliRes_with_set m (Some tmp), inp))
  else
  if field_number =? 4 then
    expect_type WireTypeLengthDelimited wire_type
      ('(tmp, inp) ← merge_message CASRes_merge_from (set_default CASRes_clear CASRes_new (CliRes_cas m)) inp; Some (CliRes_with_cas m (Some tmp), inp))
  else
  if field_number =? 5 then
    expect_type WireTypeLengthDelimited wire_type
      ('(tmp, inp) ← merge_message DelRes_merge_from (set_default DelRes_clear DelRes_new (CliRes_del m)) inp; Some (CliRes_with_del m (Some tmp), inp))
  else
  if field_number =? 6 then
    expect_type WireTypeLengthDelimited wire_type
      ('(tmp, inp) ← merge_message WatchRes_merge_from (set_default WatchRes_clear WatchRes_new (CliRes_watch m)) inp; Some (CliRes_with_watch m (Some tmp), inp))
  else
  if field_number =? 7 then
    expect_type WireTypeLengthDelimited wire_type
      ('(tmp, inp) ← merge_message RedirectRes_merge_from (set_default RedirectRes_clear RedirectRes_new (CliRes_redirect m)) inp; Some (CliRes_with_redirect m (Some tmp), inp))
  else
  '(unknown, inp) ← read_unknown wire_type inp;
  Some (mkCliRes (CliRes_req_id m) (CliRes_get m) (CliRes_set m) (CliRes_cas m) (CliRes_del m) (CliRes_watch m) (CliRes_redirect m)
    (UnknownFields_add_value (CliRes_unknown_fields m) field_number unknown) (CliRes_cached_size m), inp).

Definition CliRes_merge_from (m : CliRes) (inp : IS) : option (CliRes * IS) :=
  merge_all CliRes_merge_field m inp.

Definition CliRes_compute_size (m : CliRes) : Outcome (Z * CliRes) :=
  let my_size := 0 in
  my_size ← size_opt (fun value => value_size 1 value WireTypeVarint) my_size (CliRes_req_id m);
  '(my_size, get) ← size_opt_msg GetRes_compute_size my_size (CliRes_get m);
  let m := CliRes_with_get m get in
  '(my_size, set) ← size_opt_msg SetRes_compute_size my_size (CliRes_set m);
  let m := CliRes_with_set m set in
  '(my_size, cas) ← size_opt_msg CASRes_compute_size my_size (CliRes_cas m);
  let m := CliRes_with_cas m cas in
  '(my_size, del) ← size_opt_msg DelRes_compute_size my_size (CliRes_del m);
  let m := CliRes_with_del m del in
  '(my_size, watch) ← size_opt_msg WatchRes_compute_size my_size (CliRes_watch m);
  let m := CliRes_with_watch m watch in
  '(my_size, redirect) ← size_opt_msg RedirectRes_compute_size my_size (CliRes_redirect m);
  let m := CliRes_with_redirect m redirect in
  my_size ← u32_add my_size (unknown_fields_size (CliRes_unknown_fields m));
  Done (my_size, mkCliRes (CliRes_req_id m) (CliRes_get m) (CliRes_set m) (CliRes_cas m) (CliRes_del m) (CliRes_watch m) (CliRes_redirect m)
    (CliRes_unknown_fields m) my_size).

Definition CliRes_get_cached_size (m : CliRes) : Z := CliRes_cached_size m.

Definition CliRes_write_to_with_cached_sizes (m : CliRes) (out : OS) : option OS :=
  out ← write_opt (write_uint64 1) (CliRes_req_id m) out;
  out ← write_opt (write_msg 2 GetRes_get_cached_size GetRes_write_to_with_cached_sizes) (CliRes_get m) out;
  out ← write_opt (write_msg 3 SetRes_get_cached_size SetRes_write_to_with_cached_sizes) (CliRes_set m) out;
  out ← write_opt (write_msg 4 CASRes_get_cached_size CASRes_write_to_with_cached_sizes) (CliRes_cas m) out;
  out ← write_opt (write_msg 5 DelRes_get_cached_size DelRes_write_to_with_cached_sizes) (CliRes_del m) out;
  out ← write_opt (write_msg 6 WatchRes_get_cached_size WatchRes_write_to_with_cached_sizes) (CliRes_watch m) out;
  out ← write_opt (write_msg 7 RedirectRes_get_cached_size RedirectRes_write_to_with_cached_sizes) (CliRes_redirect m) out;
  write_unknown_fields (CliRes_unknown_fields m) out.

Definition CliRes_impl : MessageImpl IS OS CliRes :=
  mkMessageImpl CliRes_new CliRes_is_initialized CliRes_merge_from CliRes_compute_size
    CliRes_get_cached_size CliRes_write_to_with_cached_sizes.


(** ** [VoteReq] *)

Definition VoteReq_merge_field (m : VoteReq) (field_number : Z) (wire_type : WireType) (inp : IS)
  : option (VoteReq * IS) :=
  if field_number =? 1 then
    expect_type WireTypeVarint wire_type
      ('(tmp, inp) ← read_uint64 inp; Some (VoteReq_with_term m (Some tmp), inp))
  else
  if field_number =? 2 then
    expect_type WireTypeVarint wire_type
      ('(tmp, inp) ← read_uint64 inp; Some (VoteReq_with_last_learned_term m (Some tmp), inp))
  else
  if field_number =? 3 then
    expect_type WireTypeVarint wire_type
      ('(tmp, inp) ← read_uint64 inp; Some (VoteReq_with_last_learned_txid m (Some tmp), inp))
  else
  if field_number =? 4 then
    expect_type WireTypeVarint wire_type
      ('(tmp, inp) ← read_uint64 inp; Some (VoteReq_with_last_accepted_term m (Some tmp), inp))
  else
  if field_number =? 5 then
    expect_type WireTypeVarint wire_type
      ('(tmp, inp) ← read_uint64 inp; Some (VoteReq_with_last_accepted_txid m (Some tmp), inp))
  else
  '(unknown, inp) ← read_unknown wire_type inp;
  Some (mkVoteReq (VoteReq_term m) (VoteReq_last_learned_term m) (VoteReq_last_learned_txid m) (VoteReq_last_accepted_term m) (VoteReq_last_accepted_txid m)
    (UnknownFields_add_value (VoteReq_unknown_fields m) field_number unknown) (VoteReq_cached_size m), inp).

Definition VoteReq_merge_from (m : VoteReq) (inp : IS) : option (VoteReq * IS) :=
  merge_all VoteReq_merge_field m inp.

Definition VoteReq_compute_size (m : VoteReq) : Outcome (Z * VoteReq) :=
  let my_size := 0 in
  my_size ← size_opt (fun value => value_size 1 value WireTypeVarint) my_size (VoteReq_term m);
  my_size ← size_opt (fun value => value_size 2 value WireTypeVarint) my_size (VoteReq_last_learned_term m);
  my_size ← size_opt (fun value => value_size 3 value WireTypeVarint) my_size (VoteReq_last_learned_txid m);
  my_size ← size_opt (fun value => value_size 4 value WireTypeVarint) my_size (VoteReq_last_accepted_term m);
  my_size ← size_opt (fun value => value_size 5 value WireTypeVarint) my_size (VoteReq_last_accepted_txid m);
  my_size ← u32_add my_size (unknown_fields_size (VoteReq_unknown_fields m));
  Done (my_size, mkVoteReq (VoteReq_term m) (VoteReq_last_learned_term m) (VoteReq_last_learned_txid m) (VoteReq_last_accepted_term m) (VoteReq_last_accepted_txid m)
    (VoteReq_unknown_fields m) my_size).

Definition VoteReq_get_cached_size (m : VoteReq) : Z := VoteReq_cached_size m.

Definition VoteReq_write_to_with_cached_sizes (m : VoteReq) (out : OS) : option OS :=
  out ← write_opt (write_uint64 1) (VoteReq_term m) out;
  out ← write_opt (write_uint64 2) (VoteReq_last_learned_term m) out;
  out ← write_opt (write_uint64 3) (VoteReq_last_learned_txid m) out;
  out ← write_opt (write_uint64 4) (VoteReq_last_accepted_term m) out;
  out ← write_opt (write_uint64 5) (VoteReq_last_accepted_txid m) out;
  write_unknown_fields (VoteReq_unknown_fields m) out.

Definition VoteReq_impl : MessageImpl IS OS VoteReq :=
  mkMessageImpl VoteReq_new VoteReq_is_initialized VoteReq_merge_from VoteReq_compute_size
    VoteReq_get_cached_size VoteReq_write_to_with_cached_sizes.


(** ** [VoteRes] *)

Definition VoteRes_merge_field (m : VoteRes) (field_number : Z) (wire_type : WireType) (inp : IS)
  : option (VoteRes * IS) :=
  if field_number =? 1 then
    expect_type WireTypeVarint wire_type
      ('(tmp, inp) ← read_bool inp; Some (VoteRes_with_success m (Some tmp), inp))
  else
  if field_number =? 2 then
    expect_type WireTypeVarint wire_type
      ('(tmp, inp) ← read_uint64 inp; Some (VoteRes_with_term m (Some tmp), inp))
  else
  '(unknown, inp) ← read_unknown wire_type inp;
  Some (mkVoteRes (VoteRes_success m) (VoteRes_term m)
    (UnknownFields_add_value (VoteRes_unknown_fields m) field_number unknown) (VoteRes_cached_size m), inp).

Definition VoteRes_merge_from (m : VoteRes) (inp : IS) : option (VoteRes * IS) :=
  merge_all VoteRes_merge_field m inp.

Definition VoteRes_compute_size (m : VoteRes) : Outcome (Z * VoteRes) :=
  let my_size := 0 in
  my_size ← size_opt (fun _ => 2) my_size (VoteRes_success m);
  my_size ← size_opt (fun value => value_size 2 value WireTypeVarint) my_size (VoteRes_term m);
  my_size ← u32_add my_size (unknown_fields_size (VoteRes_unknown_fields m));
  Done (my_size, mkVoteRes (VoteRes_success m) (VoteRes_term m)
    (VoteRes_unknown_fields m) my_size).

Definition VoteRes_get_cached_size (m : VoteRes) : Z := VoteRes_cached_size m.

Definition VoteRes_write_to_with_cached_sizes (m : VoteRes) (out : OS) : option OS :=
  out ← write_opt (write_bool 1) (VoteRes_success m) out;
  out ← write_opt (write_uint64 2) (VoteRes_term m) out;
  write_unknown_fields (VoteRes_unknown_fields m) out.

Definition VoteRes_impl : MessageImpl IS OS VoteRes :=
  mkMessageImpl VoteRes_new VoteRes_is_initialized VoteRes_merge_from VoteRes_compute_size
    VoteRes_get_cached_size VoteRes_write_to_with_cached_sizes.


(** ** [Append] *)

Definition Append_merge_field (m : Append) (field_number : Z) (wire_type : WireType) (inp : IS)
  : option (Append * IS) :=
  if field_number =? 1 then
    expect_type WireTypeVarint wire_type
      ('(tmp, inp) ← read_uint64 inp; Some (Append_with_from_txid m (Some tmp), inp))
  else
  if field_number =? 2 then
    expect_type WireTypeVarint wire_type
      ('(tmp, inp) ← read_uint64 inp; Some (Append_with_from_term m (Some tmp), inp))
  else
  if field_number =? 3 then
    '(tmp, inp) ← read_repeated_message_into Mutation_new Mutation_merge_from wire_type inp (Append_batch m);
    Some (Append_set_batch m tmp, inp)
  else
  if field_number =? 4 then
    expect_type WireTypeVarint wire_type
      ('(tmp, inp) ← read_uint64 inp; Some (Append_with_last_learned_txid m (Some tmp), inp))
  else
  '(unknown, inp) ← read_unknown wire_type inp;
  Some (mkAppend (Append_from_txid m) (Append_from_term m) (Append_batch m) (Append_last_learned_txid m)
    (UnknownFields_add_value (Append_unknown_fields m) field_number unknown) (Append_cached_size m), inp).

Definition Append_merge_from (m : Append) (inp : IS) : option (Append * IS) :=
  merge_all Append_merge_field m inp.

Definition Append_compute_size (m : Append) : Outcome (Z * Append) :=
  let my_size := 0 in
  my_size ← size_opt (fun value => value_size 1 value WireTypeVarint) my_size (Append_from_txid m);
  my_size ← size_opt (fun value => value_size 2 value WireTypeVarint) my_size (Append_from_term m);
  '(my_size, batch) ← size_msgs Mutation_compute_size my_size (Append_batch m);
  let m := Append_set_batch m batch in
  my_size ← size_opt (fun value => value_size 4 value WireTypeVarint) my_size (Append_last_learned_txid m);
  my_size ← u32_add my_size (unknown_fields_size (Append_unknown_fields m));
  Done (my_size, mkAppend (Append_from_txid m) (Append_from_term m) (Append_batch m) (Append_last_learned_txid m)
    (Append_unknown_fields m) my_size).

Definition Append_get_cached_size (m : Append) : Z := Append_cached_size m.

Definition Append_write_to_with_cached_sizes (m : Append) (out : OS) : option OS :=
  out ← write_opt (write_uint64 1) (Append_from_txid m) out;
  out ← write_opt (write_uint64 2) (Append_from_term m) out;
  out ← write_all (write_msg 3 Mutation_get_cached_size Mutation_write_to_with_cached_sizes) (Append_batch m) out;
  out ← write_opt (write_uint64 4) (Append_last_learned_txid m) out;
  write_unknown_fields (Append_unknown_fields m) out.

Definition Append_impl : MessageImpl IS OS Append :=
  mkMessageImpl Append_new Append_is_initialized Append_merge_from Append_compute_size
    Append_get_cached_size Append_write_to_with_cached_sizes.


(** ** [AppendRes] *)

Definition AppendRes_merge_field (m : AppendRes) (field_number : Z) (wire_type : WireType) (inp : IS)
  : option (AppendRes * IS) :=
  if field_number =? 1 then
    expect_type WireTypeVarint wire_type
      ('(tmp, inp) ← read_bool inp; Some (AppendRes_with_accepted m (Some tmp), inp))
  else
  if field_number =? 2 then
    expect_type WireTypeVarint wire_type
      ('(tmp, inp) ← read_uint64 inp; Some (AppendRes_with_last_accepted_txid m (Some tmp), inp))
  else
  if field_number =? 3 then
    expect_type WireTypeVarint wire_type
      ('(tmp, inp) ← read_uint64 inp; Some (AppendRes_with_last_accepted_term m (Some tmp), inp))
  else
  '(unknown, inp) ← read_unknown wire_type inp;
  Some (mkAppendRes (AppendRes_accepted m) (AppendRes_last_accepted_txid m) (AppendRes_last_accepted_term m)
    (UnknownFields_add_value (AppendRes_unknown_fields m) field_number unknown) (AppendRes_cached_size m), inp).

Definition AppendRes_merge_from (m : AppendRes) (inp : IS) : option (AppendRes * IS) :=
  merge_all AppendRes_merge_field m inp.

Definition AppendRes_compute_size (m : AppendRes) : Outcome (Z * AppendRes) :=
  let my_size := 0 in
  my_size ← size_opt (fun _ => 2) my_size (AppendRes_accepted m);
  my_size ← size_opt (fun value => value_size 2 value WireTypeVarint) my_size (AppendRes_last_accepted_txid m);
  my_size ← size_opt (fun value => value_size 3 value WireTypeVarint) my_size (AppendRes_last_accepted_term m);
  my_size ← u32_add my_size (unknown_fields_size (AppendRes_unknown_fields m));
  Done (my_size, mkAppendRes (AppendRes_accepted m) (AppendRes_last_accepted_txid m) (AppendRes_last_accepted_term m)
    (AppendRes_unknown_fields m) my_size).

Definition AppendRes_get_cached_size (m : AppendRes) : Z := AppendRes_cached_size m.

Definition AppendRes_write_to_with_cached_sizes (m : AppendRes) (out : OS) : option OS :=
  out ← write_opt (write_bool 1) (AppendRes_accepted m) out;
  out ← write_opt (write_uint64 2) (AppendRes_last_accepted_txid m) out;
  out ← write_opt (write_uint64 3) (AppendRes_last_accepted_term m) out;
  write_unknown_fields (AppendRes_unknown_fields m) out.

Definition AppendRes_impl : MessageImpl IS OS AppendRes :=
  mkMessageImpl AppendRes_new AppendRes_is_initialized AppendRes_merge_from AppendRes_compute_size
    AppendRes_get_cached_size AppendRes_write_to_with_cached_sizes.


(** ** [PeerMsg] *)

Definition PeerMsg_merge_field (m : PeerMsg) (field_number : Z) (wire_type : WireType) (inp : IS)
  : option (PeerMsg * IS) :=
  if field_number =? 1 then
    expect_type WireTypeLengthDelimited wire_type
      ('(tmp, inp) ← read_string_into inp; Some (PeerMsg_with_srvid m (Some tmp), inp))
  else
  if field_number =? 2 then
    expect_type WireTypeLengthDelimited wire_type
      ('(tmp, inp) ← merge_message VoteReq_merge_from (set_default VoteReq_clear VoteReq_new (PeerMsg_vote_req m)) inp; Some (PeerMsg_with_vote_req m (Some tmp), inp))
  else
  if field_number =? 3 then
    expect_type WireTypeLengthDelimited wire_type
      ('(tmp, inp) ← merge_message VoteRes_merge_from (set_default VoteRes_clear VoteRes_new (PeerMsg_vote_res m)) inp; Some (PeerMsg_with_vote_res m (Some tmp), inp))
  else
  if field_number =? 4 then
    expect_type WireTypeLengthDelimited wire_type
      ('(tmp, inp) ← merge_message Append_merge_from (set_default Append_clear Append_new (PeerMsg_append m)) inp; Some (PeerMsg_with_append m (Some tmp), inp))
  else
  if field_number =? 5 then
    expect_type WireTypeLengthDelimited wire_type
      ('(tmp, inp) ← merge_message AppendRes_merge_from (set_default AppendRes_clear AppendRes_new (PeerMsg_append_res m)) inp; Some (PeerMsg_with_append_res m (Some tmp), inp))
  else
  '(unknown, inp) ← read_unknown wire_type inp;
  Some (mkPeerMsg (PeerMsg_srvid m) (PeerMsg_vote_req m) (PeerMsg_vote_res m) (PeerMsg_append m) (PeerMsg_append_res m)
    (UnknownFields_add_value (PeerMsg_unknown_fields m) field_number unknown) (PeerMsg_cached_size m), inp).

Definition PeerMsg_merge_from (m : PeerMsg) (inp : IS) : option (PeerMsg * IS) :=
  merge_all PeerMsg_merge_field m inp.

Definition PeerMsg_compute_size (m : PeerMsg) : Outcome (Z * PeerMsg) :=
  let my_size := 0 in
  my_size ← size_opt (string_size 1) my_size (PeerMsg_srvid m);
  '(my_size, vote_req) ← size_opt_msg VoteReq_compute_size my_size (PeerMsg_vote_req m);
  let m := PeerMsg_with_vote_req m vote_req in
  '(my_size, vote_res) ← size_opt_msg VoteRes_compute_size my_size (PeerMsg_vote_res m);
  let m := PeerMsg_with_vote_res m vote_res in
  '(my_size, append) ← size_opt_msg Append_compute_size my_size (PeerMsg_append m);
  let m := PeerMsg_with_append m append in
  '(my_size, append_res) ← size_opt_msg AppendRes_compute_size my_size (PeerMsg_append_res m);
  let m := PeerMsg_with_append_res m append_res in
  my_size ← u32_add my_size (unknown_fields_size (PeerMsg_unknown_fields m));
  Done (my_size, mkPeerMsg (PeerMsg_srvid m) (PeerMsg_vote_req m) (PeerMsg_vote_res m) (PeerMsg_append m) (PeerMsg_append_res m)
    (PeerMsg_unknown_fields m) my_size).

Definition PeerMsg_get_cached_size (m : PeerMsg) : Z := PeerMsg_cached_size m.

Definition PeerMsg_write_to_with_cached_sizes (m : PeerMsg) (out : OS) : option OS :=
  out ← write_opt (write_string 1) (PeerMsg_srvid m) out;
  out ← write_opt (write_msg 2 VoteReq_get_cached_size VoteReq_write_to_with_cached_sizes) (PeerMsg_vote_req m) out;
  out ← write_opt (write_msg 3 VoteRes_get_cached_size VoteRes_write_to_with_cached_sizes) (PeerMsg_vote_res m) out;
  out ← write_opt (write_msg 4 Append_get_cached_size Append_write_to_with_cached_sizes) (PeerMsg_append m) out;
  out ← write_opt (write_msg 5 AppendRes_get_cached_size AppendRes_write_to_with_cached_sizes) (PeerMsg_append_res m) out;
  write_unknown_fields (PeerMsg_unknown_fields m) out.

Definition PeerMsg_impl : MessageImpl IS OS PeerMsg :=
  mkMessageImpl PeerMsg_new PeerMsg_is_initialized PeerMsg_merge_from PeerMsg_compute_size
    PeerMsg_get_cached_size PeerMsg_write_to_with_cached_sizes.

End Serialization.
