(* ===== verification/SerializationFacts.v ===== *)
(** * The wire format of the messages

    For every message [X]: [X_bytes] is its encoding, field by field; [X_ok] says
    that its numbers fit [u64], its strings are UTF-8 and it has no unknown fields;
    [X_strip] forgets the cached sizes.  [X_writes]: sizing and writing produces
    [X_bytes], with the right size in every size cell; [X_reads]: merging these
    bytes into a new message gives the message back.  A bound of [2^32] on the length
    is inherent: sizes are [u32]. *)

From stdpp Require Import base tactics option list numbers strings.
From Stdlib Require Import ZArith Lia.
From S2P Require Import Prelude Crates Messages Protobuf Serialization.

Create HintDb wire.

Lemma MutationType_code (e : MutationType) :
  0 <= MutationType_value e < 2 ^ 31 /\ MutationType_from_i32 (MutationType_value e) = Some e.
Proof. by destruct e. Qed.

Lemma enc_bytes_le f b : len b <= len (enc_bytes f b).
Proof.
  unfold enc_bytes. rewrite !len_app. pose proof (len_nonneg (tag f WireTypeLengthDelimited)).
  pose proof (len_nonneg (varint (Z.of_nat (length b)))). lia.
Qed.

Lemma enc_all_le {A} (e : A -> list Z) l v : v ∈ l -> len (e v) <= len (enc_all e l).
Proof.
  unfold enc_all. induction 1 as [v l|v w l _ IH]; cbn; rewrite len_app.
  - pose proof (len_nonneg (concat (map e l))). lia.
  - pose proof (len_nonneg (e w)). lia.
Qed.

(** Lengths: the bound on the whole gives the bound on the parts. *)
Ltac len_facts :=
  repeat match goal with
  | H : context [len ?l] |- _ =>
      lazymatch goal with _ : 0 <= len l |- _ => fail | _ => pose proof (len_nonneg l) end
  end.
Ltac len_split H := rewrite !len_app in H; change (len []) with 0 in H; len_facts.
Ltac msg_proj := cbn -[Z.pow len] in *.

(** A part that is there is shorter than the whole. *)
Ltac len_part :=
  match goal with
  | Ev : ?o = Some ?v |- _ => subst o; cbn [enc_opt] in *; unfold enc_string in *; len_facts;
      repeat match goal with
      | H : context [len (enc_bytes ?f ?b)] |- _ =>
          lazymatch goal with _ : len b <= len (enc_bytes f b) |- _ => fail | _ => pose proof (enc_bytes_le f b) end
      end; lia
  | Hv : ?v ∈ ?l, H : context [len (enc_all ?e ?l)] |- _ =>
      pose proof (enc_all_le e l v Hv); cbn beta in *; len_facts;
      match goal with H' : context [enc_bytes ?f ?b] |- len ?b < _ => pose proof (enc_bytes_le f b) end; lia
  end.

Lemma enc_bool_len f b : 0 < f < 16 -> len (enc_bool f b) = 2.
Proof. intros Hf. unfold enc_bool, enc_u64. rewrite len_app, tag_len by done. by destruct b. Qed.

(** One step of [compute_size]. *)
Ltac size_value :=
  intros ? ? ?; cbn beta;
  first
    [ apply bytes_size_ok; [apply field_small; lia|assumption]
    | apply string_size_ok; [apply field_small; lia|assumption]
    | apply value_size_ok; [apply field_small; lia|solve [eauto]]
    | apply enum_size_ok; [apply field_small; lia|apply MutationType_code]
    | symmetry; apply enc_bool_len; lia ].
Ltac size_field e :=
  match goal with |- context [size_opt ?sz ?my ?o] =>
    rewrite (size_opt_ok sz e my o); [|size_value|lia|lia]; msg_proj
  end.
Tactic Notation "size_sub" constr(L) constr(B) constr(Wr) ident(s) ident(Ha) :=
  let go my o :=
    let E := fresh "E" in
    destruct (L my o B) as (s & E & Ha);
      [intros ? ? ?; apply Wr; [solve [eauto]|assumption]|lia|lia|lia|];
    rewrite E; clear E; msg_proj in
  match goal with
  | |- context [size_opt_msg _ ?my ?o] => go my o
  | |- context [size_msgs _ ?my ?o] => go my o
  end.
Ltac len_sum := rewrite !len_app; change (len []) with 0; unfold u32_max; lia.
Ltac size_end :=
  rewrite unknown_size_ok; unfold u32_add;
  match goal with
  | |- ex (fun m' => mbind _ (checked _ _ ?x) = Done (len ?bs, m') /\ _) =>
      replace x with (len bs) by len_sum; rewrite checked_ok by len_sum
  end; msg_proj.

(** One step of [write_to_with_cached_sizes]. *)
Ltac apply_seq := refine (appends_seq _ _ _ _ _ _).
Ltac write_field :=
  apply appends_opt; intros ? ?;
  first
    [ apply write_bytes_ok; [apply field_small; lia|len_part]
    | apply write_string_ok; [apply field_small; lia|len_part]
    | apply write_uint64_ok; [apply field_small; lia|solve [eauto]]
    | apply write_enum_ok; [apply field_small; lia|apply MutationType_code]
    | apply write_bool_ok; apply field_small; lia ].

(** One step of [merge_from]. *)
Ltac read_side :=
  first
    [ apply field_small; lia
    | reflexivity
    | apply MutationType_code
    | solve [eauto]
    | intros ? ?; len_part
    | intros ? ?; split; [solve [eauto]|len_part]
    | intros ? ?; match goal with |- len ?b < ?n /\ _ => assert (len b < n) by len_part end;
      split; [assumption|solve [eauto with wire]] ].
Ltac read_field L := eapply merges_app; [eapply L; read_side|].

(** One field of an encoding is bytes. *)
Ltac u8_field :=
  first
    [ apply enc_opt_u8; intros ? ?;
      first
        [ apply enc_u64_u8; [apply field_small; lia|solve [eauto]]
        | apply enc_u64_u8; [apply field_small; lia|unfold in_u64, u64_max; lia]
        | apply enc_u64_u8; [apply field_small; lia|];
          match goal with |- in_u64 (MutationType_value ?e) => by destruct e end
        | match goal with |- is_bytes (enc_bool _ ?b) => apply enc_u64_u8; [apply field_small; lia|by destruct b] end
        | apply enc_bytes_u8; [apply field_small; lia|len_part|solve [eauto using string_bytes_u8]]
        | match goal with |- is_bytes (enc_bytes _ ?b) => assert (len b < 2 ^ 32) by len_part end;
          apply enc_bytes_u8; [apply field_small; lia|assumption|solve [eauto with wire]] ]
    | apply enc_all_u8; intros ? ?;
      match goal with |- is_bytes (enc_bytes _ ?b) => assert (len b < 2 ^ 32) by len_part end;
      apply enc_bytes_u8; [apply field_small; lia|assumption|solve [eauto with wire]] ].

Lemma opt_eqb_strip {A} (eqb : A -> A -> bool) (strip : A -> A) o :
  (forall v, o = Some v -> eqb (strip v) v = true) -> opt_eqb eqb (strip <$> o) o = true.
Proof. destruct o; cbn; auto. Qed.

Lemma list_eqb_strip {A} (eqb : A -> A -> bool) (strip : A -> A) l :
  (forall v, v ∈ l -> eqb (strip v) v = true) -> list_eqb eqb (map strip l) l = true.
Proof.
  induction l as [|a l IH]; intros H; cbn; [done|]. rewrite H by constructor. apply IH.
  intros v Hv. apply H. by constructor.
Qed.

(** [PartialEq] ignores the cached sizes. *)
Ltac strip_fields :=
  repeat match goal with
  | |- _ && _ = true => apply andb_true_intro; split
  | |- bool_decide _ = true => apply bool_decide_eq_true_2; reflexivity
  | |- opt_eqb _ (_ <$> _) _ = true => apply opt_eqb_strip; intros ? ?; solve [eauto with wire]
  | |- list_eqb _ (map _ _) _ = true => apply list_eqb_strip; intros ? ?; solve [eauto with wire]
  end; try reflexivity.

Section SerializationFacts.
Context `{PL : ProtobufLaws}.

(** ** [SetReq] *)

Definition SetReq_bytes (m : SetReq) : list Z :=
  enc_opt (enc_bytes 1) (SetReq_key m) ++
  enc_opt (enc_bytes 2) (SetReq_value m) ++ [].

Definition SetReq_ok (m : SetReq) : Prop :=
  SetReq_unknown_fields m = UnknownFields_new /\
  (forall v, SetReq_key m = Some v -> is_bytes v) /\
  (forall v, SetReq_value m = Some v -> is_bytes v).

Definition SetReq_strip (m : SetReq) : SetReq :=
  mkSetReq (SetReq_key m) (SetReq_value m) UnknownFields_new 0.

Lemma SetReq_writes m :
  SetReq_ok m -> len (SetReq_bytes m) < 2 ^ 32 ->
  writes SetReq_compute_size SetReq_get_cached_size SetReq_write_to_with_cached_sizes m (SetReq_bytes m).
Proof.
  intros (Hu & Hkey & Hvalue) Hlen. destruct m as [v_key v_value uf cs].
  unfold SetReq_ok, SetReq_bytes, SetReq_compute_size, writes in *. msg_proj. subst uf. len_split Hlen.
  size_field (enc_bytes 1).
  size_field (enc_bytes 2).
  size_end. eexists. split; [reflexivity|]. split; [reflexivity|].
  unfold SetReq_write_to_with_cached_sizes. msg_proj.
  apply_seq; [write_field|].
  apply_seq; [write_field|].
  apply write_unknown_ok.
Qed.

Lemma SetReq_reads m :
  SetReq_ok m -> len (SetReq_bytes m) < 2 ^ 32 ->
  consumes (SetReq_merge_from SetReq_new) (SetReq_bytes m) (SetReq_strip m).
Proof.
  intros (Hu & Hkey & Hvalue) Hlen. destruct m as [v_key v_value uf cs].
  unfold SetReq_ok, SetReq_bytes, SetReq_strip, SetReq_merge_from, SetReq_new in *. msg_proj. len_split Hlen. apply merges_consumes.
  read_field (merges_bytes SetReq_merge_field SetReq_with_key).
  read_field (merges_bytes SetReq_merge_field SetReq_with_value).
  apply merges_nil.
Qed.

Lemma SetReq_u8 m : SetReq_ok m -> len (SetReq_bytes m) < 2 ^ 32 -> is_bytes (SetReq_bytes m).
Proof.
  intros (Hu & Hkey & Hvalue) Hlen. destruct m as [v_key v_value uf cs]. unfold SetReq_ok, SetReq_bytes in *. msg_proj. len_split Hlen.
  repeat (apply is_bytes_app; split; [u8_field|]). constructor.
Qed.

Lemma SetReq_strip_eq m : SetReq_ok m -> SetReq_eq (SetReq_strip m) m = true.
Proof.
  intros (Hu & Hkey & Hvalue). unfold SetReq_eq. msg_proj. rewrite Hu, unknown_eq_ok. strip_fields.
Qed.

#[local] Hint Resolve SetReq_writes SetReq_reads SetReq_u8 SetReq_strip_eq : wire.


(** ** [SetRes] *)

Definition SetRes_bytes (m : SetRes) : list Z :=
  enc_opt (enc_bool 1) (SetRes_success m) ++
  enc_opt (enc_u64 2) (SetRes_txid m) ++
  enc_opt (enc_string 3) (SetRes_err m) ++ [].

Definition SetRes_ok (m : SetRes) : Prop :=
  SetRes_unknown_fields m = UnknownFields_new /\
  (forall v, SetRes_txid m = Some v -> in_u64 v) /\
  (forall v, SetRes_err m = Some v -> utf8 v = true).

Definition SetRes_strip (m : SetRes) : SetRes :=
  mkSetRes (SetRes_success m) (SetRes_txid m) (SetRes_err m) UnknownFields_new 0.

Lemma SetRes_writes m :
  SetRes_ok m -> len (SetRes_bytes m) < 2 ^ 32 ->
  writes SetRes_compute_size SetRes_get_cached_size SetRes_write_to_with_cached_sizes m (SetRes_bytes m).
Proof.
  intros (Hu & Htxid & Herr) Hlen. destruct m as [v_success v_txid v_err uf cs].
  unfold SetRes_ok, SetRes_bytes, SetRes_compute_size, writes in *. msg_proj. subst uf. len_split Hlen.
  size_field (enc_bool 1).
  size_field (enc_u64 2).
  size_field (enc_string 3).
  size_end. eexists. split; [reflexivity|]. split; [reflexivity|].
  unfold SetRes_write_to_with_cached_sizes. msg_proj.
  apply_seq; [write_field|].
  apply_seq; [write_field|].
  apply_seq; [write_field|].
  apply write_unknown_ok.
Qed.

Lemma SetRes_reads m :
  SetRes_ok m -> len (SetRes_bytes m) < 2 ^ 32 ->
  consumes (SetRes_merge_from SetRes_new) (SetRes_bytes m) (SetRes_strip m).
Proof.
  intros (Hu & Htxid & Herr) Hlen. destruct m as [v_success v_txid v_err uf cs].
  unfold SetRes_ok, SetRes_bytes, SetRes_strip, SetRes_merge_from, SetRes_new in *. msg_proj. len_split Hlen. apply merges_consumes.
  read_field (merges_bool SetRes_merge_field SetRes_with_success).
  read_field (merges_u64 SetRes_merge_field SetRes_with_txid).
  read_field (merges_string SetRes_merge_field SetRes_with_err).
  apply merges_nil.
Qed.

Lemma SetRes_u8 m : SetRes_ok m -> len (SetRes_bytes m) < 2 ^ 32 -> is_bytes (SetRes_bytes m).
Proof.
  intros (Hu & Htxid & Herr) Hlen. destruct m as [v_success v_txid v_err uf cs]. unfold SetRes_ok, SetRes_bytes in *. msg_proj. len_split Hlen.
  repeat (apply is_bytes_app; split; [u8_field|]). constructor.
Qed.

Lemma SetRes_strip_eq m : SetRes_ok m -> SetRes_eq (SetRes_strip m) m = true.
Proof.
  intros (Hu & Htxid & Herr). unfold SetRes_eq. msg_proj. rewrite Hu, unknown_eq_ok. strip_fields.
Qed.

#[local] Hint Resolve SetRes_writes SetRes_reads SetRes_u8 SetRes_strip_eq : wire.


(** ** [GetReq] *)

Definition GetReq_bytes (m : GetReq) : list Z :=
  enc_opt (enc_bytes 1) (GetReq_key m) ++ [].

Definition GetReq_ok (m : GetReq) : Prop :=
  GetReq_unknown_fields m = UnknownFields_new /\
  (forall v, GetReq_key m = Some v -> is_bytes v).

Definition GetReq_strip (m : GetReq) : GetReq :=
  mkGetReq (GetReq_key m) UnknownFields_new 0.

Lemma GetReq_writes m :
  GetReq_ok m -> len (GetReq_bytes m) < 2 ^ 32 ->
  writes GetReq_compute_size GetReq_get_cached_size GetReq_write_to_with_cached_sizes m (GetReq_bytes m).
Proof.
  intros (Hu & Hkey) Hlen. destruct m as [v_key uf cs].
  unfold GetReq_ok, GetReq_bytes, GetReq_compute_size, writes in *. msg_proj. subst uf. len_split Hlen.
  size_field (enc_bytes 1).
  size_end. eexists. split; [reflexivity|]. split; [reflexivity|].
  unfold GetReq_write_to_with_cached_sizes. msg_proj.
  apply_seq; [write_field|].
  apply write_unknown_ok.
Qed.

Lemma GetReq_reads m :
  GetReq_ok m -> len (GetReq_bytes m) < 2 ^ 32 ->
  consumes (GetReq_merge_from GetReq_new) (GetReq_bytes m) (GetReq_strip m).
Proof.
  intros (Hu & Hkey) Hlen. destruct m as [v_key uf cs].
  unfold GetReq_ok, GetReq_bytes, GetReq_strip, GetReq_merge_from, GetReq_new in *. msg_proj. len_split Hlen. apply merges_consumes.
  read_field (merges_bytes GetReq_merge_field GetReq_with_key).
  apply merges_nil.
Qed.

Lemma GetReq_u8 m : GetReq_ok m -> len (GetReq_bytes m) < 2 ^ 32 -> is_bytes (GetReq_bytes m).
Proof.
  intros (Hu & Hkey) Hlen. destruct m as [v_key uf cs]. unfold GetReq_ok, GetReq_bytes in *. msg_proj. len_split Hlen.
  repeat (apply is_bytes_app; split; [u8_field|]). constructor.
Qed.

Lemma GetReq_strip_eq m : GetReq_ok m -> GetReq_eq (GetReq_strip m) m = true.
Proof.
  intros (Hu & Hkey). unfold GetReq_eq. msg_proj. rewrite Hu, unknown_eq_ok. strip_fields.
Qed.

#[local] Hint Resolve GetReq_writes GetReq_reads GetReq_u8 GetReq_strip_eq : wire.


(** ** [GetRes] *)

Definition GetRes_bytes (m : GetRes) : list Z :=
  enc_opt (enc_bool 1) (GetRes_success m) ++
  enc_opt (enc_u64 2) (GetRes_txid m) ++
  enc_opt (enc_bytes 3) (GetRes_value m) ++
  enc_opt (enc_string 4) (GetRes_err m) ++ [].

Definition GetRes_ok (m : GetRes) : Prop :=
  GetRes_unknown_fields m = UnknownFields_new /\
  (forall v, GetRes_txid m = Some v -> in_u64 v) /\
  (forall v, GetRes_value m = Some v -> is_bytes v) /\
  (forall v, GetRes_err m = Some v -> utf8 v = true).

Definition GetRes_strip (m : GetRes) : GetRes :=
  mkGetRes (GetRes_success m) (GetRes_txid m) (GetRes_value m) (GetRes_err m) UnknownFields_new 0.

Lemma GetRes_writes m :
  GetRes_ok m -> len (GetRes_bytes m) < 2 ^ 32 ->
  writes GetRes_compute_size GetRes_get_cached_size GetRes_write_to_with_cached_sizes m (GetRes_bytes m).
Proof.
  intros (Hu & Htxid & Hvalue & Herr) Hlen. destruct m as [v_success v_txid v_value v_err uf cs].
  unfold GetRes_ok, GetRes_bytes, GetRes_compute_size, writes in *. msg_proj. subst uf. len_split Hlen.
  size_field (enc_bool 1).
  size_field (enc_u64 2).
  size_field (enc_bytes 3).
  size_field (enc_string 4).
  size_end. eexists. split; [reflexivity|]. split; [reflexivity|].
  unfold GetRes_write_to_with_cached_sizes. msg_proj.
  apply_seq; [write_field|].
  apply_seq; [write_field|].
  apply_seq; [write_field|].
  apply_seq; [write_field|].
  apply write_unknown_ok.
Qed.

Lemma GetRes_reads m :
  GetRes_ok m -> len (GetRes_bytes m) < 2 ^ 32 ->
  consumes (GetRes_merge_from GetRes_new) (GetRes_bytes m) (GetRes_strip m).
Proof.
  intros (Hu & Htxid & Hvalue & Herr) Hlen. destruct m as [v_success v_txid v_value v_err uf cs].
  unfold GetRes_ok, GetRes_bytes, GetRes_strip, GetRes_merge_from, GetRes_new in *. msg_proj. len_split Hlen. apply merges_consumes.
  read_field (merges_bool GetRes_merge_field GetRes_with_success).
  read_field (merges_u64 GetRes_merge_field GetRes_with_txid).
  read_field (merges_bytes GetRes_merge_field GetRes_with_value).
  read_field (merges_string GetRes_merge_field GetRes_with_err).
  apply merges_nil.
Qed.

Lemma GetRes_u8 m : GetRes_ok m -> len (GetRes_bytes m) < 2 ^ 32 -> is_bytes (GetRes_bytes m).
Proof.
  intros (Hu & Htxid & Hvalue & Herr) Hlen. destruct m as [v_success v_txid v_value v_err uf cs]. unfold GetRes_ok, GetRes_bytes in *. msg_proj. len_split Hlen.
  repeat (apply is_bytes_app; split; [u8_field|]). constructor.
Qed.

Lemma GetRes_strip_eq m : GetRes_ok m -> GetRes_eq (GetRes_strip m) m = true.
Proof.
  intros (Hu & Htxid & Hvalue & Herr). unfold GetRes_eq. msg_proj. rewrite Hu, unknown_eq_ok. strip_fields.
Qed.

#[local] Hint Resolve GetRes_writes GetRes_reads GetRes_u8 GetRes_strip_eq : wire.


(** ** [CASReq] *)

Definition CASReq_bytes (m : CASReq) : list Z :=
  enc_opt (enc_bytes 1) (CASReq_key m) ++
  enc_opt (enc_bytes 2) (CASReq_new_value m) ++
  enc_opt (enc_bytes 3) (CASReq_old_value m) ++ [].

Definition CASReq_ok (m : CASReq) : Prop :=
  CASReq_unknown_fields m = UnknownFields_new /\
  (forall v, CASReq_key m = Some v -> is_bytes v) /\
  (forall v, CASReq_new_value m = Some v -> is_bytes v) /\
  (forall v, CASReq_old_value m = Some v -> is_bytes v).

Definition CASReq_strip (m : CASReq) : CASReq :=
  mkCASReq (CASReq_key m) (CASReq_new_value m) (CASReq_old_value m) UnknownFields_new 0.

Lemma CASReq_writes m :
  CASReq_ok m -> len (CASReq_bytes m) < 2 ^ 32 ->
  writes CASReq_compute_size CASReq_get_cached_size CASReq_write_to_with_cached_sizes m (CASReq_bytes m).
Proof.
  intros (Hu & Hkey & Hnew_value & Hold_value) Hlen. destruct m as [v_key v_new_value v_old_value uf cs].
  unfold CASReq_ok, CASReq_bytes, CASReq_compute_size, writes in *. msg_proj. subst uf. len_split Hlen.
  size_field (enc_bytes 1).
  size_field (enc_bytes 2).
  size_field (enc_bytes 3).
  size_end. eexists. split; [reflexivity|]. split; [reflexivity|].
  unfold CASReq_write_to_with_cached_sizes. msg_proj.
  apply_seq; [write_field|].
  apply_seq; [write_field|].
  apply_seq; [write_field|].
  apply write_unknown_ok.
Qed.

Lemma CASReq_reads m :
  CASReq_ok m -> len (CASReq_bytes m) < 2 ^ 32 ->
  consumes (CASReq_merge_from CASReq_new) (CASReq_bytes m) (CASReq_strip m).
Proof.
  intros (Hu & Hkey & Hnew_value & Hold_value) Hlen. destruct m as [v_key v_new_value v_old_value uf cs].
  unfold CASReq_ok, CASReq_bytes, CASReq_strip, CASReq_merge_from, CASReq_new in *. msg_proj. len_split Hlen. apply merges_consumes.
  read_field (merges_bytes CASReq_merge_field CASReq_with_key).
  read_field (merges_bytes CASReq_merge_field CASReq_with_new_value).
  read_field (merges_bytes CASReq_merge_field CASReq_with_old_value).
  apply merges_nil.
Qed.

Lemma CASReq_u8 m : CASReq_ok m -> len (CASReq_bytes m) < 2 ^ 32 -> is_bytes (CASReq_bytes m).
Proof.
  intros (Hu & Hkey & Hnew_value & Hold_value) Hlen. destruct m as [v_key v_new_value v_old_value uf cs]. unfold CASReq_ok, CASReq_bytes in *. msg_proj. len_split Hlen.
  repeat (apply is_bytes_app; split; [u8_field|]). constructor.
Qed.

Lemma CASReq_strip_eq m : CASReq_ok m -> CASReq_eq (CASReq_strip m) m = true.
Proof.
  intros (Hu & Hkey & Hnew_value & Hold_value). unfold CASReq_eq. msg_proj. rewrite Hu, unknown_eq_ok. strip_fields.
Qed.

#[local] Hint Resolve CASReq_writes CASReq_reads CASReq_u8 CASReq_strip_eq : wire.


(** ** [CASRes] *)

Definition CASRes_bytes (m : CASRes) : list Z :=
  enc_opt (enc_bool 1) (CASRes_success m) ++
  enc_opt (enc_u64 2) (CASRes_txid m) ++
  enc_opt (enc_bytes 3) (CASRes_value m) ++
  enc_opt (enc_string 4) (CASRes_err m) ++ [].

Definition CASRes_ok (m : CASRes) : Prop :=
  CASRes_unknown_fields m = UnknownFields_new /\
  (forall v, CASRes_txid m = Some v -> in_u64 v) /\
  (forall v, CASRes_value m = Some v -> is_bytes v) /\
  (forall v, CASRes_err m = Some v -> utf8 v = true).

Definition CASRes_strip (m : CASRes) : CASRes :=
  mkCASRes (CASRes_success m) (CASRes_txid m) (CASRes_value m) (CASRes_err m) UnknownFields_new 0.

Lemma CASRes_writes m :
  CASRes_ok m -> len (CASRes_bytes m) < 2 ^ 32 ->
  writes CASRes_compute_size CASRes_get_cached_size CASRes_write_to_with_cached_sizes m (CASRes_bytes m).
Proof.
  intros (Hu & Htxid & Hvalue & Herr) Hlen. destruct m as [v_success v_txid v_value v_err uf cs].
  unfold CASRes_ok, CASRes_bytes, CASRes_compute_size, writes in *. msg_proj. subst uf. len_split Hlen.
  size_field (enc_bool 1).
  size_field (enc_u64 2).
  size_field (enc_bytes 3).
  size_field (enc_string 4).
  size_end. eexists. split; [reflexivity|]. split; [reflexivity|].
  unfold CASRes_write_to_with_cached_sizes. msg_proj.
  apply_seq; [write_field|].
  apply_seq; [write_field|].
  apply_seq; [write_field|].
  apply_seq; [write_field|].
  apply write_unknown_ok.
Qed.

Lemma CASRes_reads m :
  CASRes_ok m -> len (CASRes_bytes m) < 2 ^ 32 ->
  consumes (CASRes_merge_from CASRes_new) (CASRes_bytes m) (CASRes_strip m).
Proof.
  intros (Hu & Htxid & Hvalue & Herr) Hlen. destruct m as [v_success v_txid v_value v_err uf cs].
  unfold CASRes_ok, CASRes_bytes, CASRes_strip, CASRes_merge_from, CASRes_new in *. msg_proj. len_split Hlen. apply merges_consumes.
  read_field (merges_bool CASRes_merge_field CASRes_with_success).
  read_field (merges_u64 CASRes_merge_field CASRes_with_txid).
  read_field (merges_bytes CASRes_merge_field CASRes_with_value).
  read_field (merges_string CASRes_merge_field CASRes_with_err).
  apply merges_nil.
Qed.

Lemma CASRes_u8 m : CASRes_ok m -> len (CASRes_bytes m) < 2 ^ 32 -> is_bytes (CASRes_bytes m).
Proof.
  intros (Hu & Htxid & Hvalue & Herr) Hlen. destruct m as [v_success v_txid v_value v_err uf cs]. unfold CASRes_ok, CASRes_bytes in *. msg_proj. len_split Hlen.
  repeat (apply is_bytes_app; split; [u8_field|]). constructor.
Qed.

Lemma CASRes_strip_eq m : CASRes_ok m -> CASRes_eq (CASRes_strip m) m = true.
Proof.
  intros (Hu & Htxid & Hvalue & Herr). unfold CASRes_eq. msg_proj. rewrite Hu, unknown_eq_ok. strip_fields.
Qed.

#[local] Hint Resolve CASRes_writes CASRes_reads CASRes_u8 CASRes_strip_eq : wire.


(** ** [DelReq] *)

Definition DelReq_bytes (m : DelReq) : list Z :=
  enc_opt (enc_bytes 1) (DelReq_key m) ++ [].

Definition DelReq_ok (m : DelReq) : Prop :=
  DelReq_unknown_fields m = UnknownFields_new /\
  (forall v, DelReq_key m = Some v -> is_bytes v).

Definition DelReq_strip (m : DelReq) : DelReq :=
  mkDelReq (DelReq_key m) UnknownFields_new 0.

Lemma DelReq_writes m :
  DelReq_ok m -> len (DelReq_bytes m) < 2 ^ 32 ->
  writes DelReq_compute_size DelReq_get_cached_size DelReq_write_to_with_cached_sizes m (DelReq_bytes m).
Proof.
  intros (Hu & Hkey) Hlen. destruct m as [v_key uf cs].
  unfold DelReq_ok, DelReq_bytes, DelReq_compute_size, writes in *. msg_proj. subst uf. len_split Hlen.
  size_field (enc_bytes 1).
  size_end. eexists. split; [reflexivity|]. split; [reflexivity|].
  unfold DelReq_write_to_with_cached_sizes. msg_proj.
  apply_seq; [write_field|].
  apply write_unknown_ok.
Qed.

Lemma DelReq_reads m :
  DelReq_ok m -> len (DelReq_bytes m) < 2 ^ 32 ->
  consumes (DelReq_merge_from DelReq_new) (DelReq_bytes m) (DelReq_strip m).
Proof.
  intros (Hu & Hkey) Hlen. destruct m as [v_key uf cs].
  unfold DelReq_ok, DelReq_bytes, DelReq_strip, DelReq_merge_from, DelReq_new in *. msg_proj. len_split Hlen. apply merges_consumes.
  read_field (merges_bytes DelReq_merge_field DelReq_with_key).
  apply merges_nil.
Qed.

Lemma DelReq_u8 m : DelReq_ok m -> len (DelReq_bytes m) < 2 ^ 32 -> is_bytes (DelReq_bytes m).
Proof.
  intros (Hu & Hkey) Hlen. destruct m as [v_key uf cs]. unfold DelReq_ok, DelReq_bytes in *. msg_proj. len_split Hlen.
  repeat (apply is_bytes_app; split; [u8_field|]). constructor.
Qed.

Lemma DelReq_strip_eq m : DelReq_ok m -> DelReq_eq (DelReq_strip m) m = true.
Proof.
  intros (Hu & Hkey). unfold DelReq_eq. msg_proj. rewrite Hu, unknown_eq_ok. strip_fields.
Qed.

#[local] Hint Resolve DelReq_writes DelReq_reads DelReq_u8 DelReq_strip_eq : wire.


(** ** [DelRes] *)

Definition DelRes_bytes (m : DelRes) : list Z :=
  enc_opt (enc_bool 1) (DelRes_success m) ++
  enc_opt (enc_u64 2) (DelRes_txid m) ++
  enc_opt (enc_bytes 3) (DelRes_value m) ++
  enc_opt (enc_string 4) (DelRes_err m) ++ [].

Definition DelRes_ok (m : DelRes) : Prop :=
  DelRes_unknown_fields m = UnknownFields_new /\
  (forall v, DelRes_txid m = Some v -> in_u64 v) /\
  (forall v, DelRes_value m = Some v -> is_bytes v) /\
  (forall v, DelRes_err m = Some v -> utf8 v = true).

Definition DelRes_strip (m : DelRes) : DelRes :=
  mkDelRes (DelRes_success m) (DelRes_txid m) (DelRes_value m) (DelRes_err m) UnknownFields_new 0.

Lemma DelRes_writes m :
  DelRes_ok m -> len (DelRes_bytes m) < 2 ^ 32 ->
  writes DelRes_compute_size DelRes_get_cached_size DelRes_write_to_with_cached_sizes m (DelRes_bytes m).
Proof.
  intros (Hu & Htxid & Hvalue & Herr) Hlen. destruct m as [v_success v_txid v_value v_err uf cs].
  unfold DelRes_ok, DelRes_bytes, DelRes_compute_size, writes in *. msg_proj. subst uf. len_split Hlen.
  size_field (enc_bool 1).
  size_field (enc_u64 2).
  size_field (enc_bytes 3).
  size_field (enc_string 4).
  size_end. eexists. split; [reflexivity|]. split; [reflexivity|].
  unfold DelRes_write_to_with_cached_sizes. msg_proj.
  apply_seq; [write_field|].
  apply_seq; [write_field|].
  apply_seq; [write_field|].
  apply_seq; [write_field|].
  apply write_unknown_ok.
Qed.

Lemma DelRes_reads m :
  DelRes_ok m -> len (DelRes_bytes m) < 2 ^ 32 ->
  consumes (DelRes_merge_from DelRes_new) (DelRes_bytes m) (DelRes_strip m).
Proof.
  intros (Hu & Htxid & Hvalue & Herr) Hlen. destruct m as [v_success v_txid v_value v_err uf cs].
  unfold DelRes_ok, DelRes_bytes, DelRes_strip, DelRes_merge_from, DelRes_new in *. msg_proj. len_split Hlen. apply merges_consumes.
  read_field (merges_bool DelRes_merge_field DelRes_with_success).
  read_field (merges_u64 DelRes_merge_field DelRes_with_txid).
  read_field (merges_bytes DelRes_merge_field DelRes_with_value).
  read_field (merges_string DelRes_merge_field DelRes_with_err).
  apply merges_nil.
Qed.

Lemma DelRes_u8 m : DelRes_ok m -> len (DelRes_bytes m) < 2 ^ 32 -> is_bytes (DelRes_bytes m).
Proof.
  intros (Hu & Htxid & Hvalue & Herr) Hlen. destruct m as [v_success v_txid v_value v_err uf cs]. unfold DelRes_ok, DelRes_bytes in *. msg_proj. len_split Hlen.
  repeat (apply is_bytes_app; split; [u8_field|]). constructor.
Qed.

Lemma DelRes_strip_eq m : DelRes_ok m -> DelRes_eq (DelRes_strip m) m = true.
Proof.
  intros (Hu & Htxid & Hvalue & Herr). unfold DelRes_eq. msg_proj. rewrite Hu, unknown_eq_ok. strip_fields.
Qed.

#[local] Hint Resolve DelRes_writes DelRes_reads DelRes_u8 DelRes_strip_eq : wire.


(** ** [WatchReq] *)

Definition WatchReq_bytes (m : WatchReq) : list Z :=
  enc_opt (enc_bytes 1) (WatchReq_key m) ++
  enc_opt (enc_u64 2) (WatchReq_last_txid m) ++
  enc_opt (enc_bool 3) (WatchReq_recursive m) ++
  enc_opt (enc_bool 4) (WatchReq_historical m) ++ [].

Definition WatchReq_ok (m : WatchReq) : Prop :=
  WatchReq_unknown_fields m = UnknownFields_new /\
  (forall v, WatchReq_key m = Some v -> is_bytes v) /\
  (forall v, WatchReq_last_txid m = Some v -> in_u64 v).

Definition WatchReq_strip (m : WatchReq) : WatchReq :=
  mkWatchReq (WatchReq_key m) (WatchReq_last_txid m) (WatchReq_recursive m) (WatchReq_historical m) UnknownFields_new 0.

Lemma WatchReq_writes m :
  WatchReq_ok m -> len (WatchReq_bytes m) < 2 ^ 32 ->
  writes WatchReq_compute_size WatchReq_get_cached_size WatchReq_write_to_with_cached_sizes m (WatchReq_bytes m).
Proof.
  intros (Hu & Hkey & Hlast_txid) Hlen. destruct m as [v_key v_last_txid v_recursive v_historical uf cs].
  unfold WatchReq_ok, WatchReq_bytes, WatchReq_compute_size, writes in *. msg_proj. subst uf. len_split Hlen.
  size_field (enc_bytes 1).
  size_field (enc_u64 2).
  size_field (enc_bool 3).
  size_field (enc_bool 4).
  size_end. eexists. split; [reflexivity|]. split; [reflexivity|].
  unfold WatchReq_write_to_with_cached_sizes. msg_proj.
  apply_seq; [write_field|].
  apply_seq; [write_field|].
  apply_seq; [write_field|].
  apply_seq; [write_field|].
  apply write_unknown_ok.
Qed.

Lemma WatchReq_reads m :
  WatchReq_ok m -> len (WatchReq_bytes m) < 2 ^ 32 ->
  consumes (WatchReq_merge_from WatchReq_new) (WatchReq_bytes m) (WatchReq_strip m).
Proof.
  intros (Hu & Hkey & Hlast_txid) Hlen. destruct m as [v_key v_last_txid v_recursive v_historical uf cs].
  unfold WatchReq_ok, WatchReq_bytes, WatchReq_strip, WatchReq_merge_from, WatchReq_new in *. msg_proj. len_split Hlen. apply merges_consumes.
  read_field (merges_bytes WatchReq_merge_field WatchReq_with_key).
  read_field (merges_u64 WatchReq_merge_field WatchReq_with_last_txid).
  read_field (merges_bool WatchReq_merge_field WatchReq_with_recursive).
  read_field (merges_bool WatchReq_merge_field WatchReq_with_historical).
  apply merges_nil.
Qed.

Lemma WatchReq_u8 m : WatchReq_ok m -> len (WatchReq_bytes m) < 2 ^ 32 -> is_bytes (WatchReq_bytes m).
Proof.
  intros (Hu & Hkey & Hlast_txid) Hlen. destruct m as [v_key v_last_txid v_recursive v_historical uf cs]. unfold WatchReq_ok, WatchReq_bytes in *. msg_proj. len_split Hlen.
  repeat (apply is_bytes_app; split; [u8_field|]). constructor.
Qed.

Lemma WatchReq_strip_eq m : WatchReq_ok m -> WatchReq_eq (WatchReq_strip m) m = true.
Proof.
  intros (Hu & Hkey & Hlast_txid). unfold WatchReq_eq. msg_proj. rewrite Hu, unknown_eq_ok. strip_fields.
Qed.

#[local] Hint Resolve WatchReq_writes WatchReq_reads WatchReq_u8 WatchReq_strip_eq : wire.


(** ** [Version] *)

Definition Version_bytes (m : Version) : list Z :=
  enc_opt (enc_u64 1) (Version_txid m) ++
  enc_opt (enc_u64 2) (Version_term m) ++ [].

Definition Version_ok (m : Version) : Prop :=
  Version_unknown_fields m = UnknownFields_new /\
  (forall v, Version_txid m = Some v -> in_u64 v) /\
  (forall v, Version_term m = Some v -> in_u64 v).

Definition Version_strip (m : Version) : Version :=
  mkVersion (Version_txid m) (Version_term m) UnknownFields_new 0.

Lemma Version_writes m :
  Version_ok m -> len (Version_bytes m) < 2 ^ 32 ->
  writes Version_compute_size Version_get_cached_size Version_write_to_with_cached_sizes m (Version_bytes m).
Proof.
  intros (Hu & Htxid & Hterm) Hlen. destruct m as [v_txid v_term uf cs].
  unfold Version_ok, Version_bytes, Version_compute_size, writes in *. msg_proj. subst uf. len_split Hlen.
  size_field (enc_u64 1).
  size_field (enc_u64 2).
  size_end. eexists. split; [reflexivity|]. split; [reflexivity|].
  unfold Version_write_to_with_cached_sizes. msg_proj.
  apply_seq; [write_field|].
  apply_seq; [write_field|].
  apply write_unknown_ok.
Qed.

Lemma Version_reads m :
  Version_ok m -> len (Version_bytes m) < 2 ^ 32 ->
  consumes (Version_merge_from Version_new) (Version_bytes m) (Version_strip m).
Proof.
  intros (Hu & Htxid & Hterm) Hlen. destruct m as [v_txid v_term uf cs].
  unfold Version_ok, Version_bytes, Version_strip, Version_merge_from, Version_new in *. msg_proj. len_split Hlen. apply merges_consumes.
  read_field (merges_u64 Version_merge_field Version_with_txid).
  read_field (merges_u64 Version_merge_field Version_with_term).
  apply merges_nil.
Qed.

Lemma Version_u8 m : Version_ok m -> len (Version_bytes m) < 2 ^ 32 -> is_bytes (Version_bytes m).
Proof.
  intros (Hu & Htxid & Hterm) Hlen. destruct m as [v_txid v_term uf cs]. unfold Version_ok, Version_bytes in *. msg_proj. len_split Hlen.
  repeat (apply is_bytes_app; split; [u8_field|]). constructor.
Qed.

Lemma Version_strip_eq m : Version_ok m -> Version_eq (Version_strip m) m = true.
Proof.
  intros (Hu & Htxid & Hterm). unfold Version_eq. msg_proj. rewrite Hu, unknown_eq_ok. strip_fields.
Qed.

#[local] Hint Resolve Version_writes Version_reads Version_u8 Version_strip_eq : wire.


(** ** [Mutation] *)

Definition Mutation_bytes (m : Mutation) : list Z :=
  enc_opt (fun e => enc_u64 1 (MutationType_value e)) (Mutation_field_type m) ++
  enc_opt (fun v => enc_bytes 2 (Version_bytes v)) (Mutation_version m) ++
  enc_opt (enc_bytes 3) (Mutation_key m) ++
  enc_opt (enc_bytes 4) (Mutation_value m) ++
  enc_opt (enc_bytes 5) (Mutation_old_value m) ++ [].

Definition Mutation_ok (m : Mutation) : Prop :=
  Mutation_unknown_fields m = UnknownFields_new /\
  (forall v, Mutation_version m = Some v -> Version_ok v) /\
  (forall v, Mutation_key m = Some v -> is_bytes v) /\
  (forall v, Mutation_value m = Some v -> is_bytes v) /\
  (forall v, Mutation_old_value m = Some v -> is_bytes v).

Definition Mutation_strip (m : Mutation) : Mutation :=
  mkMutation (Mutation_field_type m) (Version_strip <$> Mutation_version m) (Mutation_key m) (Mutation_value m) (Mutation_old_value m) UnknownFields_new 0.

Lemma Mutation_writes m :
  Mutation_ok m -> len (Mutation_bytes m) < 2 ^ 32 ->
  writes Mutation_compute_size Mutation_get_cached_size Mutation_write_to_with_cached_sizes m (Mutation_bytes m).
Proof.
  intros (Hu & Hversion & Hkey & Hvalue & Hold_value) Hlen. destruct m as [v_field_type v_version v_key v_value v_old_value uf cs].
  unfold Mutation_ok, Mutation_bytes, Mutation_compute_size, writes in *. msg_proj. subst uf. len_split Hlen.
  size_field (fun e => enc_u64 1 (MutationType_value e)).
  size_sub (size_opt_msg_ok Version_compute_size Version_get_cached_size Version_write_to_with_cached_sizes 2) Version_bytes Version_writes s_version Ha_version.
  size_field (enc_bytes 3).
  size_field (enc_bytes 4).
  size_field (enc_bytes 5).
  size_end. eexists. split; [reflexivity|]. split; [reflexivity|].
  unfold Mutation_write_to_with_cached_sizes. msg_proj.
  apply_seq; [write_field|].
  apply_seq; [exact Ha_version|].
  apply_seq; [write_field|].
  apply_seq; [write_field|].
  apply_seq; [write_field|].
  apply write_unknown_ok.
Qed.

Lemma Mutation_reads m :
  Mutation_ok m -> len (Mutation_bytes m) < 2 ^ 32 ->
  consumes (Mutation_merge_from Mutation_new) (Mutation_bytes m) (Mutation_strip m).
Proof.
  intros (Hu & Hversion & Hkey & Hvalue & Hold_value) Hlen. destruct m as [v_field_type v_version v_key v_value v_old_value uf cs].
  unfold Mutation_ok, Mutation_bytes, Mutation_strip, Mutation_merge_from, Mutation_new in *. msg_proj. len_split Hlen. apply merges_consumes.
  read_field (merges_enum Mutation_merge_field MutationType_value MutationType_from_i32 Mutation_with_field_type).
  read_field (merges_msg Mutation_merge_field Version_new Version_merge_from Version_bytes Version_strip Mutation_with_version).
  read_field (merges_bytes Mutation_merge_field Mutation_with_key).
  read_field (merges_bytes Mutation_merge_field Mutation_with_value).
  read_field (merges_bytes Mutation_merge_field Mutation_with_old_value).
  apply merges_nil.
Qed.

Lemma Mutation_u8 m : Mutation_ok m -> len (Mutation_bytes m) < 2 ^ 32 -> is_bytes (Mutation_bytes m).
Proof.
  intros (Hu & Hversion & Hkey & Hvalue & Hold_value) Hlen. destruct m as [v_field_type v_version v_key v_value v_old_value uf cs]. unfold Mutation_ok, Mutation_bytes in *. msg_proj. len_split Hlen.
  repeat (apply is_bytes_app; split; [u8_field|]). constructor.
Qed.

Lemma Mutation_strip_eq m : Mutation_ok m -> Mutation_eq (Mutation_strip m) m = true.
Proof.
  intros (Hu & Hversion & Hkey & Hvalue & Hold_value). unfold Mutation_eq. msg_proj. rewrite Hu, unknown_eq_ok. strip_fields.
Qed.

#[local] Hint Resolve Mutation_writes Mutation_reads Mutation_u8 Mutation_strip_eq : wire.


(** ** [WatchRes] *)

Definition WatchRes_bytes (m : WatchRes) : list Z :=
  enc_opt (enc_bool 1) (WatchRes_success m) ++
  enc_all (fun v => enc_bytes 2 (Mutation_bytes v)) (WatchRes_history m) ++
  enc_opt (enc_string 3) (WatchRes_err m) ++ [].

Definition WatchRes_ok (m : WatchRes) : Prop :=
  WatchRes_unknown_fields m = UnknownFields_new /\
  (forall v, v ∈ WatchRes_history m -> Mutation_ok v) /\
  (forall v, WatchRes_err m = Some v -> utf8 v = true).

Definition WatchRes_strip (m : WatchRes) : WatchRes :=
  mkWatchRes (WatchRes_success m) (map Mutation_strip (WatchRes_history m)) (WatchRes_err m) UnknownFields_new 0.

Lemma WatchRes_writes m :
  WatchRes_ok m -> len (WatchRes_bytes m) < 2 ^ 32 ->
  writes WatchRes_compute_size WatchRes_get_cached_size WatchRes_write_to_with_cached_sizes m (WatchRes_bytes m).
Proof.
  intros (Hu & Hhistory & Herr) Hlen. destruct m as [v_success v_history v_err uf cs].
  unfold WatchRes_ok, WatchRes_bytes, WatchRes_compute_size, writes in *. msg_proj. subst uf. len_split Hlen.
  size_field (enc_bool 1).
  size_sub (size_msgs_ok Mutation_compute_size Mutation_get_cached_size Mutation_write_to_with_cached_sizes 2) Mutation_bytes Mutation_writes s_history Ha_history.
  size_field (enc_string 3).
  size_end. eexists. split; [reflexivity|]. split; [reflexivity|].
  unfold WatchRes_write_to_with_cached_sizes. msg_proj.
  apply_seq; [write_field|].
  apply_seq; [exact Ha_history|].
  apply_seq; [write_field|].
  apply write_unknown_ok.
Qed.

Lemma WatchRes_reads m :
  WatchRes_ok m -> len (WatchRes_bytes m) < 2 ^ 32 ->
  consumes (WatchRes_merge_from WatchRes_new) (WatchRes_bytes m) (WatchRes_strip m).
Proof.
  intros (Hu & Hhistory & Herr) Hlen. destruct m as [v_success v_history v_err uf cs].
  unfold WatchRes_ok, WatchRes_bytes, WatchRes_strip, WatchRes_merge_from, WatchRes_new in *. msg_proj. len_split Hlen. apply merges_consumes.
  read_field (merges_bool WatchRes_merge_field WatchRes_with_success).
  read_field (merges_msgs WatchRes_merge_field Mutation_new Mutation_merge_from Mutation_bytes Mutation_strip WatchRes_set_history).
  read_field (merges_string WatchRes_merge_field WatchRes_with_err).
  apply merges_nil.
Qed.

Lemma WatchRes_u8 m : WatchRes_ok m -> len (WatchRes_bytes m) < 2 ^ 32 -> is_bytes (WatchRes_bytes m).
Proof.
  intros (Hu & Hhistory & Herr) Hlen. destruct m as [v_success v_history v_err uf cs]. unfold WatchRes_ok, WatchRes_bytes in *. msg_proj. len_split Hlen.
  repeat (apply is_bytes_app; split; [u8_field|]). constructor.
Qed.

Lemma WatchRes_strip_eq m : WatchRes_ok m -> WatchRes_eq (WatchRes_strip m) m = true.
Proof.
  intros (Hu & Hhistory & Herr). unfold WatchRes_eq. msg_proj. rewrite Hu, unknown_eq_ok. strip_fields.
Qed.

#[local] Hint Resolve WatchRes_writes WatchRes_reads WatchRes_u8 WatchRes_strip_eq : wire.


(** ** [RedirectRes] *)

Definition RedirectRes_bytes (m : RedirectRes) : list Z :=
  enc_opt (enc_bool 1) (RedirectRes_success m) ++
  enc_opt (enc_string 2) (RedirectRes_address m) ++
  enc_opt (enc_string 3) (RedirectRes_err m) ++ [].

Definition RedirectRes_ok (m : RedirectRes) : Prop :=
  RedirectRes_unknown_fields m = UnknownFields_new /\
  (forall v, RedirectRes_address m = Some v -> utf8 v = true) /\
  (forall v, RedirectRes_err m = Some v -> utf8 v = true).

Definition RedirectRes_strip (m : RedirectRes) : RedirectRes :=
  mkRedirectRes (RedirectRes_success m) (RedirectRes_address m) (RedirectRes_err m) UnknownFields_new 0.

Lemma RedirectRes_writes m :
  RedirectRes_ok m -> len (RedirectRes_bytes m) < 2 ^ 32 ->
  writes RedirectRes_compute_size RedirectRes_get_cached_size RedirectRes_write_to_with_cached_sizes m (RedirectRes_bytes m).
Proof.
  intros (Hu & Haddress & Herr) Hlen. destruct m as [v_success v_address v_err uf cs].
  unfold RedirectRes_ok, RedirectRes_bytes, RedirectRes_compute_size, writes in *. msg_proj. subst uf. len_split Hlen.
  size_field (enc_bool 1).
  size_field (enc_string 2).
  size_field (enc_string 3).
  size_end. eexists. split; [reflexivity|]. split; [reflexivity|].
  unfold RedirectRes_write_to_with_cached_sizes. msg_proj.
  apply_seq; [write_field|].
  apply_seq; [write_field|].
  apply_seq; [write_field|].
  apply write_unknown_ok.
Qed.

Lemma RedirectRes_reads m :
  RedirectRes_ok m -> len (RedirectRes_bytes m) < 2 ^ 32 ->
  consumes (RedirectRes_merge_from RedirectRes_new) (RedirectRes_bytes m) (RedirectRes_strip m).
Proof.
  intros (Hu & Haddress & Herr) Hlen. destruct m as [v_success v_address v_err uf cs].
  unfold RedirectRes_ok, RedirectRes_bytes, RedirectRes_strip, RedirectRes_merge_from, RedirectRes_new in *. msg_proj. len_split Hlen. apply merges_consumes.
  read_field (merges_bool RedirectRes_merge_field RedirectRes_with_success).
  read_field (merges_string RedirectRes_merge_field RedirectRes_with_address).
  read_field (merges_string RedirectRes_merge_field RedirectRes_with_err).
  apply merges_nil.
Qed.

Lemma RedirectRes_u8 m : RedirectRes_ok m -> len (RedirectRes_bytes m) < 2 ^ 32 -> is_bytes (RedirectRes_bytes m).
Proof.
  intros (Hu & Haddress & Herr) Hlen. destruct m as [v_success v_address v_err uf cs]. unfold RedirectRes_ok, RedirectRes_bytes in *. msg_proj. len_split Hlen.
  repeat (apply is_bytes_app; split; [u8_field|]). constructor.
Qed.

Lemma RedirectRes_strip_eq m : RedirectRes_ok m -> RedirectRes_eq (RedirectRes_strip m) m = true.
Proof.
  intros (Hu & Haddress & Herr). unfold RedirectRes_eq. msg_proj. rewrite Hu, unknown_eq_ok. strip_fields.
Qed.

#[local] Hint Resolve RedirectRes_writes RedirectRes_reads RedirectRes_u8 RedirectRes_strip_eq : wire.


(** ** [CliReq] *)

Definition CliReq_bytes (m : CliReq) : list Z :=
  enc_opt (enc_u64 1) (CliReq_req_id m) ++
  enc_opt (fun v => enc_bytes 2 (GetReq_bytes v)) (CliReq_get m) ++
  enc_opt (fun v => enc_bytes 3 (SetReq_bytes v)) (CliReq_set m) ++
  enc_opt (fun v => enc_bytes 4 (CASReq_bytes v)) (CliReq_cas m) ++
  enc_opt (fun v => enc_bytes 5 (DelReq_bytes v)) (CliReq_del m) ++
  enc_opt (fun v => enc_bytes 6 (WatchReq_bytes v)) (CliReq_watch m) ++ [].

Definition CliReq_ok (m : CliReq) : Prop :=
  CliReq_unknown_fields m = UnknownFields_new /\
  (forall v, CliReq_req_id m = Some v -> in_u64 v) /\
  (forall v, CliReq_get m = Some v -> GetReq_ok v) /\
  (forall v, CliReq_set m = Some v -> SetReq_ok v) /\
  (forall v, CliReq_cas m = Some v -> CASReq_ok v) /\
  (forall v, CliReq_del m = Some v -> DelReq_ok v) /\
  (forall v, CliReq_watch m = Some v -> WatchReq_ok v).

Definition CliReq_strip (m : CliReq) : CliReq :=
  mkCliReq (CliReq_req_id m) (GetReq_strip <$> CliReq_get m) (SetReq_strip <$> CliReq_set m) (CASReq_strip <$> CliReq_cas m) (DelReq_strip <$> CliReq_del m) (WatchReq_strip <$> CliReq_watch m) UnknownFields_new 0.

Lemma CliReq_writes m :
  CliReq_ok m -> len (CliReq_bytes m) < 2 ^ 32 ->
  writes CliReq_compute_size CliReq_get_cached_size CliReq_write_to_with_cached_sizes m (CliReq_bytes m).
Proof.
  intros (Hu & Hreq_id & Hget & Hset & Hcas & Hdel & Hwatch) Hlen. destruct m as [v_req_id v_get v_set v_cas v_del v_watch uf cs].
  unfold CliReq_ok, CliReq_bytes, CliReq_compute_size, writes in *. msg_proj. subst uf. len_split Hlen.
  size_field (enc_u64 1).
  size_sub (size_opt_msg_ok GetReq_compute_size GetReq_get_cached_size GetReq_write_to_with_cached_sizes 2) GetReq_bytes GetReq_writes s_get Ha_get.
  size_sub (size_opt_msg_ok SetReq_compute_size SetReq_get_cached_size SetReq_write_to_with_cached_sizes 3) SetReq_bytes SetReq_writes s_set Ha_set.
  size_sub (size_opt_msg_ok CASReq_compute_size CASReq_get_cached_size CASReq_write_to_with_cached_sizes 4) CASReq_bytes CASReq_writes s_cas Ha_cas.
  size_sub (size_opt_msg_ok DelReq_compute_size DelReq_get_cached_size DelReq_write_to_with_cached_sizes 5) DelReq_bytes DelReq_writes s_del Ha_del.
  size_sub (size_opt_msg_ok WatchReq_compute_size WatchReq_get_cached_size WatchReq_write_to_with_cached_sizes 6) WatchReq_bytes WatchReq_writes s_watch Ha_watch.
  size_end. eexists. split; [reflexivity|]. split; [reflexivity|].
  unfold CliReq_write_to_with_cached_sizes. msg_proj.
  apply_seq; [write_field|].
  apply_seq; [exact Ha_get|].
  apply_seq; [exact Ha_set|].
  apply_seq; [exact Ha_cas|].
  apply_seq; [exact Ha_del|].
  apply_seq; [exact Ha_watch|].
  apply write_unknown_ok.
Qed.

Lemma CliReq_reads m :
  CliReq_ok m -> len (CliReq_bytes m) < 2 ^ 32 ->
  consumes (CliReq_merge_from CliReq_new) (CliReq_bytes m) (CliReq_strip m).
Proof.
  intros (Hu & Hreq_id & Hget & Hset & Hcas & Hdel & Hwatch) Hlen. destruct m as [v_req_id v_get v_set v_cas v_del v_watch uf cs].
  unfold CliReq_ok, CliReq_bytes, CliReq_strip, CliReq_merge_from, CliReq_new in *. msg_proj. len_split Hlen. apply merges_consumes.
  read_field (merges_u64 CliReq_merge_field CliReq_with_req_id).
  read_field (merges_msg CliReq_merge_field GetReq_new GetReq_merge_from GetReq_bytes GetReq_strip CliReq_with_get).
  read_field (merges_msg CliReq_merge_field SetReq_new SetReq_merge_from SetReq_bytes SetReq_strip CliReq_with_set).
  read_field (merges_msg CliReq_merge_field CASReq_new CASReq_merge_from CASReq_bytes CASReq_strip CliReq_with_cas).
  read_field (merges_msg CliReq_merge_field DelReq_new DelReq_merge_from DelReq_bytes DelReq_strip CliReq_with_del).
  read_field (merges_msg CliReq_merge_field WatchReq_new WatchReq_merge_from WatchReq_bytes WatchReq_strip CliReq_with_watch).
  apply merges_nil.
Qed.

Lemma CliReq_u8 m : CliReq_ok m -> len (CliReq_bytes m) < 2 ^ 32 -> is_bytes (CliReq_bytes m).
Proof.
  intros (Hu & Hreq_id & Hget & Hset & Hcas & Hdel & Hwatch) Hlen. destruct m as [v_req_id v_get v_set v_cas v_del v_watch uf cs]. unfold CliReq_ok, CliReq_bytes in *. msg_proj. len_split Hlen.
  repeat (apply is_bytes_app; split; [u8_field|]). constructor.
Qed.

Lemma CliReq_strip_eq m : CliReq_ok m -> CliReq_eq (CliReq_strip m) m = true.
Proof.
  intros (Hu & Hreq_id & Hget & Hset & Hcas & Hdel & Hwatch). unfold CliReq_eq. msg_proj. rewrite Hu, unknown_eq_ok. strip_fields.
Qed.

#[local] Hint Resolve CliReq_writes CliReq_reads CliReq_u8 CliReq_strip_eq : wire.


(** ** [CliRes] *)

Definition CliRes_bytes (m : CliRes) : list Z :=
  enc_opt (enc_u64 1) (CliRes_req_id m) ++
  enc_opt (fun v => enc_bytes 2 (GetRes_bytes v)) (CliRes_get m) ++
  enc_opt (fun v => enc_bytes 3 (SetRes_bytes v)) (CliRes_set m) ++
  enc_opt (fun v => enc_bytes 4 (CASRes_bytes v)) (CliRes_cas m) ++
  enc_opt (fun v => enc_bytes 5 (DelRes_bytes v)) (CliRes_del m) ++
  enc_opt (fun v => enc_bytes 6 (WatchRes_bytes v)) (CliRes_watch m) ++
  enc_opt (fun v => enc_bytes 7 (RedirectRes_bytes v)) (CliRes_redirect m) ++ [].

Definition CliRes_ok (m : CliRes) : Prop :=
  CliRes_unknown_fields m = UnknownFields_new /\
  (forall v, CliRes_req_id m = Some v -> in_u64 v) /\
  (forall v, CliRes_get m = Some v -> GetRes_ok v) /\
  (forall v, CliRes_set m = Some v -> SetRes_ok v) /\
  (forall v, CliRes_cas m = Some v -> CASRes_ok v) /\
  (forall v, CliRes_del m = Some v -> DelRes_ok v) /\
  (forall v, CliRes_watch m = Some v -> WatchRes_ok v) /\
  (forall v, CliRes_redirect m = Some v -> RedirectRes_ok v).

Definition CliRes_strip (m : CliRes) : CliRes :=
  mkCliRes (CliRes_req_id m) (GetRes_strip <$> CliRes_get m) (SetRes_strip <$> CliRes_set m) (CASRes_strip <$> CliRes_cas m) (DelRes_strip <$> CliRes_del m) (WatchRes_strip <$> CliRes_watch m) (RedirectRes_strip <$> CliRes_redirect m) UnknownFields_new 0.

Lemma CliRes_writes m :
  CliRes_ok m -> len (CliRes_bytes m) < 2 ^ 32 ->
  writes CliRes_compute_size CliRes_get_cached_size CliRes_write_to_with_cached_sizes m (CliRes_bytes m).
Proof.
  intros (Hu & Hreq_id & Hget & Hset & Hcas & Hdel & Hwatch & Hredirect) Hlen. destruct m as [v_req_id v_get v_set v_cas v_del v_watch v_redirect uf cs].
  unfold CliRes_ok, CliRes_bytes, CliRes_compute_size, writes in *. msg_proj. subst uf. len_split Hlen.
  size_field (enc_u64 1).
  size_sub (size_opt_msg_ok GetRes_compute_size GetRes_get_cached_size GetRes_write_to_with_cached_sizes 2) GetRes_bytes GetRes_writes s_get Ha_get.
  size_sub (size_opt_msg_ok SetRes_compute_size SetRes_get_cached_size SetRes_write_to_with_cached_sizes 3) SetRes_bytes SetRes_writes s_set Ha_set.
  size_sub (size_opt_msg_ok CASRes_compute_size CASRes_get_cached_size CASRes_write_to_with_cached_sizes 4) CASRes_bytes CASRes_writes s_cas Ha_cas.
  size_sub (size_opt_msg_ok DelRes_compute_size DelRes_get_cached_size DelRes_write_to_with_cached_sizes 5) DelRes_bytes DelRes_writes s_del Ha_del.
  size_sub (size_opt_msg_ok WatchRes_compute_size WatchRes_get_cached_size WatchRes_write_to_with_cached_sizes 6) WatchRes_bytes WatchRes_writes s_watch Ha_watch.
  size_sub (size_opt_msg_ok RedirectRes_compute_size RedirectRes_get_cached_size RedirectRes_write_to_with_cached_sizes 7) RedirectRes_bytes RedirectRes_writes s_redirect Ha_redirect.
  size_end. eexists. split; [reflexivity|]. split; [reflexivity|].
  unfold CliRes_write_to_with_cached_sizes. msg_proj.
  apply_seq; [write_field|].
  apply_seq; [exact Ha_get|].
  apply_seq; [exact Ha_set|].
  apply_seq; [exact Ha_cas|].
  apply_seq; [exact Ha_del|].
  apply_seq; [exact Ha_watch|].
  apply_seq; [exact Ha_redirect|].
  apply write_unknown_ok.
Qed.

Lemma CliRes_reads m :
  CliRes_ok m -> len (CliRes_bytes m) < 2 ^ 32 ->
  consumes (CliRes_merge_from CliRes_new) (CliRes_bytes m) (CliRes_strip m).
Proof.
  intros (Hu & Hreq_id & Hget & Hset & Hcas & Hdel & Hwatch & Hredirect) Hlen. destruct m as [v_req_id v_get v_set v_cas v_del v_watch v_redirect uf cs].
  unfold CliRes_ok, CliRes_bytes, CliRes_strip, CliRes_merge_from, CliRes_new in *. msg_proj. len_split Hlen. apply merges_consumes.
  read_field (merges_u64 CliRes_merge_field CliRes_with_req_id).
  read_field (merges_msg CliRes_merge_field GetRes_new GetRes_merge_from GetRes_bytes GetRes_strip CliRes_with_get).
  read_field (merges_msg CliRes_merge_field SetRes_new SetRes_merge_from SetRes_bytes SetRes_strip CliRes_with_set).
  read_field (merges_msg CliRes_merge_field CASRes_new CASRes_merge_from CASRes_bytes CASRes_strip CliRes_with_cas).
  read_field (merges_msg CliRes_merge_field DelRes_new DelRes_merge_from DelRes_bytes DelRes_strip CliRes_with_del).
  read_field (merges_msg CliRes_merge_field WatchRes_new WatchRes_merge_from WatchRes_bytes WatchRes_strip CliRes_with_watch).
  read_field (merges_msg CliRes_merge_field RedirectRes_new RedirectRes_merge_from RedirectRes_bytes RedirectRes_strip CliRes_with_redirect).
  apply merges_nil.
Qed.

Lemma CliRes_u8 m : CliRes_ok m -> len (CliRes_bytes m) < 2 ^ 32 -> is_bytes (CliRes_bytes m).
Proof.
  intros (Hu & Hreq_id & Hget & Hset & Hcas & Hdel & Hwatch & Hredirect) Hlen. destruct m as [v_req_id v_get v_set v_cas v_del v_watch v_redirect uf cs]. unfold CliRes_ok, CliRes_bytes in *. msg_proj. len_split Hlen.
  repeat (apply is_bytes_app; split; [u8_field|]). constructor.
Qed.

Lemma CliRes_strip_eq m : CliRes_ok m -> CliRes_eq (CliRes_strip m) m = true.
Proof.
  intros (Hu & Hreq_id & Hget & Hset & Hcas & Hdel & Hwatch & Hredirect). unfold CliRes_eq. msg_proj. rewrite Hu, unknown_eq_ok. strip_fields.
Qed.

#[local] Hint Resolve CliRes_writes CliRes_reads CliRes_u8 CliRes_strip_eq : wire.


(** ** [VoteReq] *)

Definition VoteReq_bytes (m : VoteReq) : list Z :=
  enc_opt (enc_u64 1) (VoteReq_term m) ++
  enc_opt (enc_u64 2) (VoteReq_last_learned_term m) ++
  enc_opt (enc_u64 3) (VoteReq_last_learned_txid m) ++
  enc_opt (enc_u64 4) (VoteReq_last_accepted_term m) ++
  enc_opt (enc_u64 5) (VoteReq_last_accepted_txid m) ++ [].

Definition VoteReq_ok (m : VoteReq) : Prop :=
  VoteReq_unknown_fields m = UnknownFields_new /\
  (forall v, VoteReq_term m = Some v -> in_u64 v) /\
  (forall v, VoteReq_last_learned_term m = Some v -> in_u64 v) /\
  (forall v, VoteReq_last_learned_txid m = Some v -> in_u64 v) /\
  (forall v, VoteReq_last_accepted_term m = Some v -> in_u64 v) /\
  (forall v, VoteReq_last_accepted_txid m = Some v -> in_u64 v).

Definition VoteReq_strip (m : VoteReq) : VoteReq :=
  mkVoteReq (VoteReq_term m) (VoteReq_last_learned_term m) (VoteReq_last_learned_txid m) (VoteReq_last_accepted_term m) (VoteReq_last_accepted_txid m) UnknownFields_new 0.

Lemma VoteReq_writes m :
  VoteReq_ok m -> len (VoteReq_bytes m) < 2 ^ 32 ->
  writes VoteReq_compute_size VoteReq_get_cached_size VoteReq_write_to_with_cached_sizes m (VoteReq_bytes m).
Proof.
  intros (Hu & Hterm & Hlast_learned_term & Hlast_learned_txid & Hlast_accepted_term & Hlast_accepted_txid) Hlen. destruct m as [v_term v_last_learned_term v_last_learned_txid v_last_accepted_term v_last_accepted_txid uf cs].
  unfold VoteReq_ok, VoteReq_bytes, VoteReq_compute_size, writes in *. msg_proj. subst uf. len_split Hlen.
  size_field (enc_u64 1).
  size_field (enc_u64 2).
  size_field (enc_u64 3).
  size_field (enc_u64 4).
  size_field (enc_u64 5).
  size_end. eexists. split; [reflexivity|]. split; [reflexivity|].
  unfold VoteReq_write_to_with_cached_sizes. msg_proj.
  apply_seq; [write_field|].
  apply_seq; [write_field|].
  apply_seq; [write_field|].
  apply_seq; [write_field|].
  apply_seq; [write_field|].
  apply write_unknown_ok.
Qed.

Lemma VoteReq_reads m :
  VoteReq_ok m -> len (VoteReq_bytes m) < 2 ^ 32 ->
  consumes (VoteReq_merge_from VoteReq_new) (VoteReq_bytes m) (VoteReq_strip m).
Proof.
  intros (Hu & Hterm & Hlast_learned_term & Hlast_learned_txid & Hlast_accepted_term & Hlast_accepted_txid) Hlen. destruct m as [v_term v_last_learned_term v_last_learned_txid v_last_accepted_term v_last_accepted_txid uf cs].
  unfold VoteReq_ok, VoteReq_bytes, VoteReq_strip, VoteReq_merge_from, VoteReq_new in *. msg_proj. len_split Hlen. apply merges_consumes.
  read_field (merges_u64 VoteReq_merge_field VoteReq_with_term).
  read_field (merges_u64 VoteReq_merge_field VoteReq_with_last_learned_term).
  read_field (merges_u64 VoteReq_merge_field VoteReq_with_last_learned_txid).
  read_field (merges_u64 VoteReq_merge_field VoteReq_with_last_accepted_term).
  read_field (merges_u64 VoteReq_merge_field VoteReq_with_last_accepted_txid).
  apply merges_nil.
Qed.

Lemma VoteReq_u8 m : VoteReq_ok m -> len (VoteReq_bytes m) < 2 ^ 32 -> is_bytes (VoteReq_bytes m).
Proof.
  intros (Hu & Hterm & Hlast_learned_term & Hlast_learned_txid & Hlast_accepted_term & Hlast_accepted_txid) Hlen. destruct m as [v_term v_last_learned_term v_last_learned_txid v_last_accepted_term v_last_accepted_txid uf cs]. unfold VoteReq_ok, VoteReq_bytes in *. msg_proj. len_split Hlen.
  repeat (apply is_bytes_app; split; [u8_field|]). constructor.
Qed.

Lemma VoteReq_strip_eq m : VoteReq_ok m -> VoteReq_eq (VoteReq_strip m) m = true.
Proof.
  intros (Hu & Hterm & Hlast_learned_term & Hlast_learned_txid & Hlast_accepted_term & Hlast_accepted_txid). unfold VoteReq_eq. msg_proj. rewrite Hu, unknown_eq_ok. strip_fields.
Qed.

#[local] Hint Resolve VoteReq_writes VoteReq_reads VoteReq_u8 VoteReq_strip_eq : wire.


(** ** [VoteRes] *)

Definition VoteRes_bytes (m : VoteRes) : list Z :=
  enc_opt (enc_bool 1) (VoteRes_success m) ++
  enc_opt (enc_u64 2) (VoteRes_term m) ++ [].

Definition VoteRes_ok (m : VoteRes) : Prop :=
  VoteRes_unknown_fields m = UnknownFields_new /\
  (forall v, VoteRes_term m = Some v -> in_u64 v).

Definition VoteRes_strip (m : VoteRes) : VoteRes :=
  mkVoteRes (VoteRes_success m) (VoteRes_term m) UnknownFields_new 0.

Lemma VoteRes_writes m :
  VoteRes_ok m -> len (VoteRes_bytes m) < 2 ^ 32 ->
  writes VoteRes_compute_size VoteRes_get_cached_size VoteRes_write_to_with_cached_sizes m (VoteRes_bytes m).
Proof.
  intros (Hu & Hterm) Hlen. destruct m as [v_success v_term uf cs].
  unfold VoteRes_ok, VoteRes_bytes, VoteRes_compute_size, writes in *. msg_proj. subst uf. len_split Hlen.
  size_field (enc_bool 1).
  size_field (enc_u64 2).
  size_end. eexists. split; [reflexivity|]. split; [reflexivity|].
  unfold VoteRes_write_to_with_cached_sizes. msg_proj.
  apply_seq; [write_field|].
  apply_seq; [write_field|].
  apply write_unknown_ok.
Qed.

Lemma VoteRes_reads m :
  VoteRes_ok m -> len (VoteRes_bytes m) < 2 ^ 32 ->
  consumes (VoteRes_merge_from VoteRes_new) (VoteRes_bytes m) (VoteRes_strip m).
Proof.
  intros (Hu & Hterm) Hlen. destruct m as [v_success v_term uf cs].
  unfold VoteRes_ok, VoteRes_bytes, VoteRes_strip, VoteRes_merge_from, VoteRes_new in *. msg_proj. len_split Hlen. apply merges_consumes.
  read_field (merges_bool VoteRes_merge_field VoteRes_with_success).
  read_field (merges_u64 VoteRes_merge_field VoteRes_with_term).
  apply merges_nil.
Qed.

Lemma VoteRes_u8 m : VoteRes_ok m -> len (VoteRes_bytes m) < 2 ^ 32 -> is_bytes (VoteRes_bytes m).
Proof.
  intros (Hu & Hterm) Hlen. destruct m as [v_success v_term uf cs]. unfold VoteRes_ok, VoteRes_bytes in *. msg_proj. len_split Hlen.
  repeat (apply is_bytes_app; split; [u8_field|]). constructor.
Qed.

Lemma VoteRes_strip_eq m : VoteRes_ok m -> VoteRes_eq (VoteRes_strip m) m = true.
Proof.
  intros (Hu & Hterm). unfold VoteRes_eq. msg_proj. rewrite Hu, unknown_eq_ok. strip_fields.
Qed.

#[local] Hint Resolve VoteRes_writes VoteRes_reads VoteRes_u8 VoteRes_strip_eq : wire.


(** ** [Append] *)

Definition Append_bytes (m : Append) : list Z :=
  enc_opt (enc_u64 1) (Append_from_txid m) ++
  enc_opt (enc_u64 2) (Append_from_term m) ++
  enc_all (fun v => enc_bytes 3 (Mutation_bytes v)) (Append_batch m) ++
  enc_opt (enc_u64 4) (Append_last_learned_txid m) ++ [].

Definition Append_ok (m : Append) : Prop :=
  Append_unknown_fields m = UnknownFields_new /\
  (forall v, Append_from_txid m = Some v -> in_u64 v) /\
  (forall v, Append_from_term m = Some v -> in_u64 v) /\
  (forall v, v ∈ Append_batch m -> Mutation_ok v) /\
  (forall v, Append_last_learned_txid m = Some v -> in_u64 v).

Definition Append_strip (m : Append) : Append :=
  mkAppend (Append_from_txid m) (Append_from_term m) (map Mutation_strip (Append_batch m)) (Append_last_learned_txid m) UnknownFields_new 0.

Lemma Append_writes m :
  Append_ok m -> len (Append_bytes m) < 2 ^ 32 ->
  writes Append_compute_size Append_get_cached_size Append_write_to_with_cached_sizes m (Append_bytes m).
Proof.
  intros (Hu & Hfrom_txid & Hfrom_term & Hbatch & Hlast_learned_txid) Hlen. destruct m as [v_from_txid v_from_term v_batch v_last_learned_txid uf cs].
  unfold Append_ok, Append_bytes, Append_compute_size, writes in *. msg_proj. subst uf. len_split Hlen.
  size_field (enc_u64 1).
  size_field (enc_u64 2).
  size_sub (size_msgs_ok Mutation_compute_size Mutation_get_cached_size Mutation_write_to_with_cached_sizes 3) Mutation_bytes Mutation_writes s_batch Ha_batch.
  size_field (enc_u64 4).
  size_end. eexists. split; [reflexivity|]. split; [reflexivity|].
  unfold Append_write_to_with_cached_sizes. msg_proj.
  apply_seq; [write_field|].
  apply_seq; [write_field|].
  apply_seq; [exact Ha_batch|].
  apply_seq; [write_field|].
  apply write_unknown_ok.
Qed.

Lemma Append_reads m :
  Append_ok m -> len (Append_bytes m) < 2 ^ 32 ->
  consumes (Append_merge_from Append_new) (Append_bytes m) (Append_strip m).
Proof.
  intros (Hu & Hfrom_txid & Hfrom_term & Hbatch & Hlast_learned_txid) Hlen. destruct m as [v_from_txid v_from_term v_batch v_last_learned_txid uf cs].
  unfold Append_ok, Append_bytes, Append_strip, Append_merge_from, Append_new in *. msg_proj. len_split Hlen. apply merges_consumes.
  read_field (merges_u64 Append_merge_field Append_with_from_txid).
  read_field (merges_u64 Append_merge_field Append_with_from_term).
  read_field (merges_msgs Append_merge_field Mutation_new Mutation_merge_from Mutation_bytes Mutation_strip Append_set_batch).
  read_field (merges_u64 Append_merge_field Append_with_last_learned_txid).
  apply merges_nil.
Qed.

Lemma Append_u8 m : Append_ok m -> len (Append_bytes m) < 2 ^ 32 -> is_bytes (Append_bytes m).
Proof.
  intros (Hu & Hfrom_txid & Hfrom_term & Hbatch & Hlast_learned_txid) Hlen. destruct m as [v_from_txid v_from_term v_batch v_last_learned_txid uf cs]. unfold Append_ok, Append_bytes in *. msg_proj. len_split Hlen.
  repeat (apply is_bytes_app; split; [u8_field|]). constructor.
Qed.

Lemma Append_strip_eq m : Append_ok m -> Append_eq (Append_strip m) m = true.
Proof.
  intros (Hu & Hfrom_txid & Hfrom_term & Hbatch & Hlast_learned_txid). unfold Append_eq. msg_proj. rewrite Hu, unknown_eq_ok. strip_fields.
Qed.

#[local] Hint Resolve Append_writes Append_reads Append_u8 Append_strip_eq : wire.


(** ** [AppendRes] *)

Definition AppendRes_bytes (m : AppendRes) : list Z :=
  enc_opt (enc_bool 1) (AppendRes_accepted m) ++
  enc_opt (enc_u64 2) (AppendRes_last_accepted_txid m) ++
  enc_opt (enc_u64 3) (AppendRes_last_accepted_term m) ++ [].

Definition AppendRes_ok (m : AppendRes) : Prop :=
  AppendRes_unknown_fields m = UnknownFields_new /\
  (forall v, AppendRes_last_accepted_txid m = Some v -> in_u64 v) /\
  (forall v, AppendRes_last_accepted_term m = Some v -> in_u64 v).

Definition AppendRes_strip (m : AppendRes) : AppendRes :=
  mkAppendRes (AppendRes_accepted m) (AppendRes_last_accepted_txid m) (AppendRes_last_accepted_term m) UnknownFields_new 0.

Lemma AppendRes_writes m :
  AppendRes_ok m -> len (AppendRes_bytes m) < 2 ^ 32 ->
  writes AppendRes_compute_size AppendRes_get_cached_size AppendRes_write_to_with_cached_sizes m (AppendRes_bytes m).
Proof.
  intros (Hu & Hlast_accepted_txid & Hlast_accepted_term) Hlen. destruct m as [v_accepted v_last_accepted_txid v_last_accepted_term uf cs].
  unfold AppendRes_ok, AppendRes_bytes, AppendRes_compute_size, writes in *. msg_proj. subst uf. len_split Hlen.
  size_field (enc_bool 1).
  size_field (enc_u64 2).
  size_field (enc_u64 3).
  size_end. eexists. split; [reflexivity|]. split; [reflexivity|].
  unfold AppendRes_write_to_with_cached_sizes. msg_proj.
  apply_seq; [write_field|].
  apply_seq; [write_field|].
  apply_seq; [write_field|].
  apply write_unknown_ok.
Qed.

Lemma AppendRes_reads m :
  AppendRes_ok m -> len (AppendRes_bytes m) < 2 ^ 32 ->
  consumes (AppendRes_merge_from AppendRes_new) (AppendRes_bytes m) (AppendRes_strip m).
Proof.
  intros (Hu & Hlast_accepted_txid & Hlast_accepted_term) Hlen. destruct m as [v_accepted v_last_accepted_txid v_last_accepted_term uf cs].
  unfold AppendRes_ok, AppendRes_bytes, AppendRes_strip, AppendRes_merge_from, AppendRes_new in *. msg_proj. len_split Hlen. apply merges_consumes.
  read_field (merges_bool AppendRes_merge_field AppendRes_with_accepted).
  read_field (merges_u64 AppendRes_merge_field AppendRes_with_last_accepted_txid).
  read_field (merges_u64 AppendRes_merge_field AppendRes_with_last_accepted_term).
  apply merges_nil.
Qed.

Lemma AppendRes_u8 m : AppendRes_ok m -> len (AppendRes_bytes m) < 2 ^ 32 -> is_bytes (AppendRes_bytes m).
Proof.
  intros (Hu & Hlast_accepted_txid & Hlast_accepted_term) Hlen. destruct m as [v_accepted v_last_accepted_txid v_last_accepted_term uf cs]. unfold AppendRes_ok, AppendRes_bytes in *. msg_proj. len_split Hlen.
  repeat (apply is_bytes_app; split; [u8_field|]). constructor.
Qed.

Lemma AppendRes_strip_eq m : AppendRes_ok m -> AppendRes_eq (AppendRes_strip m) m = true.
Proof.
  intros (Hu & Hlast_accepted_txid & Hlast_accepted_term). unfold AppendRes_eq. msg_proj. rewrite Hu, unknown_eq_ok. strip_fields.
Qed.

#[local] Hint Resolve AppendRes_writes AppendRes_reads AppendRes_u8 AppendRes_strip_eq : wire.


(** ** [PeerMsg] *)

Definition PeerMsg_bytes (m : PeerMsg) : list Z :=
  enc_opt (enc_string 1) (PeerMsg_srvid m) ++
  enc_opt (fun v => enc_bytes 2 (VoteReq_bytes v)) (PeerMsg_vote_req m) ++
  enc_opt (fun v => enc_bytes 3 (VoteRes_bytes v)) (PeerMsg_vote_res m) ++
  enc_opt (fun v => enc_bytes 4 (Append_bytes v)) (PeerMsg_append m) ++
  enc_opt (fun v => enc_bytes 5 (AppendRes_bytes v)) (PeerMsg_append_res m) ++ [].

Definition PeerMsg_ok (m : PeerMsg) : Prop :=
  PeerMsg_unknown_fields m = UnknownFields_new /\
  (forall v, PeerMsg_srvid m = Some v -> utf8 v = true) /\
  (forall v, PeerMsg_vote_req m = Some v -> VoteReq_ok v) /\
  (forall v, PeerMsg_vote_res m = Some v -> VoteRes_ok v) /\
  (forall v, PeerMsg_append m = Some v -> Append_ok v) /\
  (forall v, PeerMsg_append_res m = Some v -> AppendRes_ok v).

Definition PeerMsg_strip (m : PeerMsg) : PeerMsg :=
  mkPeerMsg (PeerMsg_srvid m) (VoteReq_strip <$> PeerMsg_vote_req m) (VoteRes_strip <$> PeerMsg_vote_res m) (Append_strip <$> PeerMsg_append m) (AppendRes_strip <$> PeerMsg_append_res m) UnknownFields_new 0.

Lemma PeerMsg_writes m :
  PeerMsg_ok m -> len (PeerMsg_bytes m) < 2 ^ 32 ->
  writes PeerMsg_compute_size PeerMsg_get_cached_size PeerMsg_write_to_with_cached_sizes m (PeerMsg_bytes m).
Proof.
  intros (Hu & Hsrvid & Hvote_req & Hvote_res & Happend & Happend_res) Hlen. destruct m as [v_srvid v_vote_req v_vote_res v_append v_append_res uf cs].
  unfold PeerMsg_ok, PeerMsg_bytes, PeerMsg_compute_size, writes in *. msg_proj. subst uf. len_split Hlen.
  size_field (enc_string 1).
  size_sub (size_opt_msg_ok VoteReq_compute_size VoteReq_get_cached_size VoteReq_write_to_with_cached_sizes 2) VoteReq_bytes VoteReq_writes s_vote_req Ha_vote_req.
  size_sub (size_opt_msg_ok VoteRes_compute_size VoteRes_get_cached_size VoteRes_write_to_with_cached_sizes 3) VoteRes_bytes VoteRes_writes s_vote_res Ha_vote_res.
  size_sub (size_opt_msg_ok Append_compute_size Append_get_cached_size Append_write_to_with_cached_sizes 4) Append_bytes Append_writes s_append Ha_append.
  size_sub (size_opt_msg_ok AppendRes_compute_size AppendRes_get_cached_size AppendRes_write_to_with_cached_sizes 5) AppendRes_bytes AppendRes_writes s_append_res Ha_append_res.
  size_end. eexists. split; [reflexivity|]. split; [reflexivity|].
  unfold PeerMsg_write_to_with_cached_sizes. msg_proj.
  apply_seq; [write_field|].
  apply_seq; [exact Ha_vote_req|].
  apply_seq; [exact Ha_vote_res|].
  apply_seq; [exact Ha_append|].
  apply_seq; [exact Ha_append_res|].
  apply write_unknown_ok.
Qed.

Lemma PeerMsg_reads m :
  PeerMsg_ok m -> len (PeerMsg_bytes m) < 2 ^ 32 ->
  consumes (PeerMsg_merge_from PeerMsg_new) (PeerMsg_bytes m) (PeerMsg_strip m).
Proof.
  intros (Hu & Hsrvid & Hvote_req & Hvote_res & Happend & Happend_res) Hlen. destruct m as [v_srvid v_vote_req v_vote_res v_append v_append_res uf cs].
  unfold PeerMsg_ok, PeerMsg_bytes, PeerMsg_strip, PeerMsg_merge_from, PeerMsg_new in *. msg_proj. len_split Hlen. apply merges_consumes.
  read_field (merges_string PeerMsg_merge_field PeerMsg_with_srvid).
  read_field (merges_msg PeerMsg_merge_field VoteReq_new VoteReq_merge_from VoteReq_bytes VoteReq_strip PeerMsg_with_vote_req).
  read_field (merges_msg PeerMsg_merge_field VoteRes_new VoteRes_merge_from VoteRes_bytes VoteRes_strip PeerMsg_with_vote_res).
  read_field (merges_msg PeerMsg_merge_field Append_new Append_merge_from Append_bytes Append_strip PeerMsg_with_append).
  read_field (merges_msg PeerMsg_merge_field AppendRes_new AppendRes_merge_from AppendRes_bytes AppendRes_strip PeerMsg_with_append_res).
  apply merges_nil.
Qed.

Lemma PeerMsg_u8 m : PeerMsg_ok m -> len (PeerMsg_bytes m) < 2 ^ 32 -> is_bytes (PeerMsg_bytes m).
Proof.
  intros (Hu & Hsrvid & Hvote_req & Hvote_res & Happend & Happend_res) Hlen. destruct m as [v_srvid v_vote_req v_vote_res v_append v_append_res uf cs]. unfold PeerMsg_ok, PeerMsg_bytes in *. msg_proj. len_split Hlen.
  repeat (apply is_bytes_app; split; [u8_field|]). constructor.
Qed.

Lemma PeerMsg_strip_eq m : PeerMsg_ok m -> PeerMsg_eq (PeerMsg_strip m) m = true.
Proof.
  intros (Hu & Hsrvid & Hvote_req & Hvote_res & Happend & Happend_res). unfold PeerMsg_eq. msg_proj. rewrite Hu, unknown_eq_ok. strip_fields.
Qed.

#[local] Hint Resolve PeerMsg_writes PeerMsg_reads PeerMsg_u8 PeerMsg_strip_eq : wire.

End SerializationFacts.
