(* ===== verification/Descriptor.v ===== *)
(** * The file descriptor

    serialization.rs carries the descriptor of serialization.proto as a sequence of
    bytes, which [parse_descriptor_proto] hands to the protobuf crate.  Here are the
    bytes, the declarations of include/serialization.proto, and the encoding of
    declarations by the published format of descriptors (descriptor.proto: a file has a
    name [1], a package [2], messages [4], enums [5] and information on its source [9]; a
    message a name [1] and fields [2]; a field a name [1], a number [3], a label [4], a
    type [5] and the name of its type [6]; an enum a name [1] and values [2], of a name
    [1] and a number [2]). *)

From stdpp Require Import base tactics option list numbers strings.
From Stdlib Require Import ZArith Lia.
From S2P Require Import Prelude Crates Protobuf.

(** ** Descriptors *)

Inductive Label : Type := LABEL_OPTIONAL | LABEL_REQUIRED | LABEL_REPEATED.

(** The types the file uses. *)
Inductive FieldType : Type :=
| TYPE_UINT64
| TYPE_BOOL
| TYPE_STRING
| TYPE_MESSAGE (type_name : string)
| TYPE_BYTES
| TYPE_ENUM (type_name : string).

Record FieldDescriptorProto : Type := mkField {
  fp_label : Label;
  fp_type : FieldType;
  fp_name : string;
  fp_number : Z;
}.
Record DescriptorProto : Type := mkMessage { mp_name : string; mp_field : list FieldDescriptorProto }.
Record EnumDescriptorProto : Type := mkEnum { ep_name : string; ep_value : list (string * Z) }.
Record FileDescriptorProto : Type := mkFile {
  file_name : string;
  file_package : string;
  file_message_type : list DescriptorProto;
  file_enum_type : list EnumDescriptorProto;
}.

(** ** include/serialization.proto *)

Definition SetReq_proto : DescriptorProto := mkMessage "SetReq"
  [ mkField LABEL_REQUIRED TYPE_BYTES "key" 1
  ; mkField LABEL_REQUIRED TYPE_BYTES "value" 2 ].

Definition SetRes_proto : DescriptorProto := mkMessage "SetRes"
  [ mkField LABEL_REQUIRED TYPE_BOOL "success" 1
  ; mkField LABEL_REQUIRED TYPE_UINT64 "txid" 2
  ; mkField LABEL_OPTIONAL TYPE_STRING "err" 3 ].

Definition GetReq_proto : DescriptorProto := mkMessage "GetReq"
  [ mkField LABEL_REQUIRED TYPE_BYTES "key" 1 ].

Definition GetRes_proto : DescriptorProto := mkMessage "GetRes"
  [ mkField LABEL_REQUIRED TYPE_BOOL "success" 1
  ; mkField LABEL_REQUIRED TYPE_UINT64 "txid" 2
  ; mkField LABEL_OPTIONAL TYPE_BYTES "value" 3
  ; mkField LABEL_OPTIONAL TYPE_STRING "err" 4 ].

Definition CASReq_proto : DescriptorProto := mkMessage "CASReq"
  [ mkField LABEL_REQUIRED TYPE_BYTES "key" 1
  ; mkField LABEL_OPTIONAL TYPE_BYTES "new_value" 2
  ; mkField LABEL_OPTIONAL TYPE_BYTES "old_value" 3 ].

Definition CASRes_proto : DescriptorProto := mkMessage "CASRes"
  [ mkField LABEL_REQUIRED TYPE_BOOL "success" 1
  ; mkField LABEL_REQUIRED TYPE_UINT64 "txid" 2
  ; mkField LABEL_OPTIONAL TYPE_BYTES "value" 3
  ; mkField LABEL_OPTIONAL TYPE_STRING "err" 4 ].

Definition DelReq_proto : DescriptorProto := mkMessage "DelReq"
  [ mkField LABEL_REQUIRED TYPE_BYTES "key" 1 ].

Definition DelRes_proto : DescriptorProto := mkMessage "DelRes"
  [ mkField LABEL_REQUIRED TYPE_BOOL "success" 1
  ; mkField LABEL_REQUIRED TYPE_UINT64 "txid" 2
  ; mkField LABEL_REQUIRED TYPE_BYTES "value" 3
  ; mkField LABEL_OPTIONAL TYPE_STRING "err" 4 ].

Definition WatchReq_proto : DescriptorProto := mkMessage "WatchReq"
  [ mkField LABEL_REQUIRED TYPE_BYTES "key" 1
  ; mkField LABEL_REQUIRED TYPE_UINT64 "last_txid" 2
  ; mkField LABEL_REQUIRED TYPE_BOOL "recursive" 3
  ; mkField LABEL_REQUIRED TYPE_BOOL "historical" 4 ].

Definition WatchRes_proto : DescriptorProto := mkMessage "WatchRes"
  [ mkField LABEL_REQUIRED TYPE_BOOL "success" 1
  ; mkField LABEL_REPEATED (TYPE_MESSAGE ".rasputin.Mutation") "history" 2
  ; mkField LABEL_OPTIONAL TYPE_STRING "err" 3 ].

Definition RedirectRes_proto : DescriptorProto := mkMessage "RedirectRes"
  [ mkField LABEL_REQUIRED TYPE_BOOL "success" 1
  ; mkField LABEL_OPTIONAL TYPE_STRING "address" 2
  ; mkField LABEL_OPTIONAL TYPE_STRING "err" 3 ].

Definition Mutation_proto : DescriptorProto := mkMessage "Mutation"
  [ mkField LABEL_REQUIRED (TYPE_ENUM ".rasputin.MutationType") "type" 1
  ; mkField LABEL_REQUIRED (TYPE_MESSAGE ".rasputin.Version") "version" 2
  ; mkField LABEL_REQUIRED TYPE_BYTES "key" 3
  ; mkField LABEL_OPTIONAL TYPE_BYTES "value" 4
  ; mkField LABEL_OPTIONAL TYPE_BYTES "old_value" 5 ].

Definition Version_proto : DescriptorProto := mkMessage "Version"
  [ mkField LABEL_REQUIRED TYPE_UINT64 "txid" 1
  ; mkField LABEL_REQUIRED TYPE_UINT64 "term" 2 ].

Definition CliReq_proto : DescriptorProto := mkMessage "CliReq"
  [ mkField LABEL_REQUIRED TYPE_UINT64 "req_id" 1
  ; mkField LABEL_OPTIONAL (TYPE_MESSAGE ".rasputin.GetReq") "get" 2
  ; mkField LABEL_OPTIONAL (TYPE_MESSAGE ".rasputin.SetReq") "set" 3
  ; mkField LABEL_OPTIONAL (TYPE_MESSAGE ".rasputin.CASReq") "cas" 4
  ; mkField LABEL_OPTIONAL (TYPE_MESSAGE ".rasputin.DelReq") "del" 5
  ; mkField LABEL_OPTIONAL (TYPE_MESSAGE ".rasputin.WatchReq") "watch" 6 ].

Definition CliRes_proto : DescriptorProto := mkMessage "CliRes"
  [ mkField LABEL_REQUIRED TYPE_UINT64 "req_id" 1
  ; mkField LABEL_OPTIONAL (TYPE_MESSAGE ".rasputin.GetRes") "get" 2
  ; mkField LABEL_OPTIONAL (TYPE_MESSAGE ".rasputin.SetRes") "set" 3
  ; mkField LABEL_OPTIONAL (TYPE_MESSAGE ".rasputin.CASRes") "cas" 4
  ; mkField LABEL_OPTIONAL (TYPE_MESSAGE ".rasputin.DelRes") "del" 5
  ; mkField LABEL_OPTIONAL (TYPE_MESSAGE ".rasputin.WatchRes") "watch" 6
  ; mkField LABEL_OPTIONAL (TYPE_MESSAGE ".rasputin.RedirectRes") "redirect" 7 ].

Definition VoteReq_proto : DescriptorProto := mkMessage "VoteReq"
  [ mkField LABEL_REQUIRED TYPE_UINT64 "term" 1
  ; mkField LABEL_REQUIRED TYPE_UINT64 "last_learned_term" 2
  ; mkField LABEL_REQUIRED TYPE_UINT64 "last_learned_txid" 3
  ; mkField LABEL_REQUIRED TYPE_UINT64 "last_accepted_term" 4
  ; mkField LABEL_REQUIRED TYPE_UINT64 "last_accepted_txid" 5 ].

Definition VoteRes_proto : DescriptorProto := mkMessage "VoteRes"
  [ mkField LABEL_REQUIRED TYPE_BOOL "success" 1
  ; mkField LABEL_REQUIRED TYPE_UINT64 "term" 2 ].

Definition Append_proto : DescriptorProto := mkMessage "Append"
  [ mkField LABEL_REQUIRED TYPE_UINT64 "from_txid" 1
  ; mkField LABEL_REQUIRED TYPE_UINT64 "from_term" 2
  ; mkField LABEL_REPEATED (TYPE_MESSAGE ".rasputin.Mutation") "batch" 3
  ; mkField LABEL_REQUIRED TYPE_UINT64 "last_learned_txid" 4 ].

Definition AppendRes_proto : DescriptorProto := mkMessage "AppendRes"
  [ mkField LABEL_REQUIRED TYPE_BOOL "accepted" 1
  ; mkField LABEL_OPTIONAL TYPE_UINT64 "last_accepted_txid" 2
  ; mkField LABEL_OPTIONAL TYPE_UINT64 "last_accepted_term" 3 ].

Definition PeerMsg_proto : DescriptorProto := mkMessage "PeerMsg"
  [ mkField LABEL_REQUIRED TYPE_STRING "srvid" 1
  ; mkField LABEL_OPTIONAL (TYPE_MESSAGE ".rasputin.VoteReq") "vote_req" 2
  ; mkField LABEL_OPTIONAL (TYPE_MESSAGE ".rasputin.VoteRes") "vote_res" 3
  ; mkField LABEL_OPTIONAL (TYPE_MESSAGE ".rasputin.Append") "append" 4
  ; mkField LABEL_OPTIONAL (TYPE_MESSAGE ".rasputin.AppendRes") "append_res" 5 ].

Definition MutationType_proto : EnumDescriptorProto := mkEnum "MutationType"
  [ ("KVSET", 1); ("KVCAS", 2); ("KVDEL", 3) ].

Definition rasputin_proto : FileDescriptorProto := mkFile "include/serialization.proto" "rasputin"
  [ SetReq_proto; SetRes_proto; GetReq_proto; GetRes_proto; CASReq_proto; CASRes_proto; DelReq_proto; DelRes_proto; WatchReq_proto; WatchRes_proto; RedirectRes_proto; Mutation_proto; Version_proto; CliReq_proto; CliRes_proto; VoteReq_proto; VoteRes_proto; Append_proto; AppendRes_proto; PeerMsg_proto ]
  [ MutationType_proto ].

(** ** The bytes *)

Definition file_descriptor_proto_data_1 : list Z := [
    0x0a; 0x1b; 0x69; 0x6e; 0x63; 0x6c; 0x75; 0x64; 0x65; 0x2f; 0x73; 0x65; 0x72; 0x69; 0x61; 0x6c;
    0x69; 0x7a; 0x61; 0x74; 0x69; 0x6f; 0x6e; 0x2e; 0x70; 0x72; 0x6f; 0x74; 0x6f; 0x12; 0x08; 0x72;
    0x61; 0x73; 0x70; 0x75; 0x74; 0x69; 0x6e; 0x22; 0x24; 0x0a; 0x06; 0x53; 0x65; 0x74; 0x52; 0x65;
    0x71; 0x12; 0x0b; 0x0a; 0x03; 0x6b; 0x65; 0x79; 0x18; 0x01; 0x20; 0x02; 0x28; 0x0c; 0x12; 0x0d;
    0x0a; 0x05; 0x76; 0x61; 0x6c; 0x75; 0x65; 0x18; 0x02; 0x20; 0x02; 0x28; 0x0c; 0x22; 0x34; 0x0a;
    0x06; 0x53; 0x65; 0x74; 0x52; 0x65; 0x73; 0x12; 0x0f; 0x0a; 0x07; 0x73; 0x75; 0x63; 0x63; 0x65;
    0x73; 0x73; 0x18; 0x01; 0x20; 0x02; 0x28; 0x08; 0x12; 0x0c; 0x0a; 0x04; 0x74; 0x78; 0x69; 0x64;
    0x18; 0x02; 0x20; 0x02; 0x28; 0x04; 0x12; 0x0b; 0x0a; 0x03; 0x65; 0x72; 0x72; 0x18; 0x03; 0x20;
    0x01; 0x28; 0x09; 0x22; 0x15; 0x0a; 0x06; 0x47; 0x65; 0x74; 0x52; 0x65; 0x71; 0x12; 0x0b; 0x0a;
    0x03; 0x6b; 0x65; 0x79; 0x18; 0x01; 0x20; 0x02; 0x28; 0x0c; 0x22; 0x43; 0x0a; 0x06; 0x47; 0x65;
    0x74; 0x52; 0x65; 0x73; 0x12; 0x0f; 0x0a; 0x07; 0x73; 0x75; 0x63; 0x63; 0x65; 0x73; 0x73; 0x18;
    0x01; 0x20; 0x02; 0x28; 0x08; 0x12; 0x0c; 0x0a; 0x04; 0x74; 0x78; 0x69; 0x64; 0x18; 0x02; 0x20;
    0x02; 0x28; 0x04; 0x12; 0x0d; 0x0a; 0x05; 0x76; 0x61; 0x6c; 0x75; 0x65; 0x18; 0x03; 0x20; 0x01;
    0x28; 0x0c; 0x12; 0x0b; 0x0a; 0x03; 0x65; 0x72; 0x72; 0x18; 0x04; 0x20; 0x01; 0x28; 0x09; 0x22;
    0x3b; 0x0a; 0x06; 0x43; 0x41; 0x53; 0x52; 0x65; 0x71; 0x12; 0x0b; 0x0a; 0x03; 0x6b; 0x65; 0x79;
    0x18; 0x01; 0x20; 0x02; 0x28; 0x0c; 0x12; 0x11; 0x0a; 0x09; 0x6e; 0x65; 0x77; 0x5f; 0x76; 0x61;
    0x6c; 0x75; 0x65; 0x18; 0x02; 0x20; 0x01; 0x28; 0x0c; 0x12; 0x11; 0x0a; 0x09; 0x6f; 0x6c; 0x64;
    0x5f; 0x76; 0x61; 0x6c; 0x75; 0x65; 0x18; 0x03; 0x20; 0x01; 0x28; 0x0c; 0x22; 0x43; 0x0a; 0x06;
    0x43; 0x41; 0x53; 0x52; 0x65; 0x73; 0x12; 0x0f; 0x0a; 0x07; 0x73; 0x75; 0x63; 0x63; 0x65; 0x73;
    0x73; 0x18; 0x01; 0x20; 0x02; 0x28; 0x08; 0x12; 0x0c; 0x0a; 0x04; 0x74; 0x78; 0x69; 0x64; 0x18;
    0x02; 0x20; 0x02; 0x28; 0x04; 0x12; 0x0d; 0x0a; 0x05; 0x76; 0x61; 0x6c; 0x75; 0x65; 0x18; 0x03;
    0x20; 0x01; 0x28; 0x0c; 0x12; 0x0b; 0x0a; 0x03; 0x65; 0x72; 0x72; 0x18; 0x04; 0x20; 0x01; 0x28;
    0x09; 0x22; 0x15; 0x0a; 0x06; 0x44; 0x65; 0x6c; 0x52; 0x65; 0x71; 0x12; 0x0b; 0x0a; 0x03; 0x6b;
    0x65; 0x79; 0x18; 0x01; 0x20; 0x02; 0x28; 0x0c; 0x22; 0x43; 0x0a; 0x06; 0x44; 0x65; 0x6c; 0x52;
    0x65; 0x73; 0x12; 0x0f; 0x0a; 0x07; 0x73; 0x75; 0x63; 0x63; 0x65; 0x73; 0x73; 0x18; 0x01; 0x20;
    0x02; 0x28; 0x08; 0x12; 0x0c; 0x0a; 0x04; 0x74; 0x78; 0x69; 0x64; 0x18; 0x02; 0x20; 0x02; 0x28;
    0x04; 0x12; 0x0d; 0x0a; 0x05; 0x76; 0x61; 0x6c; 0x75; 0x65; 0x18; 0x03; 0x20; 0x02; 0x28; 0x0c;
    0x12; 0x0b; 0x0a; 0x03; 0x65; 0x72; 0x72; 0x18; 0x04; 0x20; 0x01; 0x28; 0x09; 0x22; 0x51; 0x0a;
    0x08; 0x57; 0x61; 0x74; 0x63; 0x68; 0x52; 0x65; 0x71; 0x12; 0x0b; 0x0a; 0x03; 0x6b; 0x65; 0x79;
    0x18; 0x01; 0x20; 0x02; 0x28; 0x0c; 0x12; 0x11; 0x0a; 0x09; 0x6c; 0x61; 0x73; 0x74; 0x5f; 0x74;
    0x78; 0x69; 0x64; 0x18; 0x02; 0x20; 0x02; 0x28; 0x04; 0x12; 0x11; 0x0a; 0x09; 0x72; 0x65; 0x63;
    0x75; 0x72; 0x73; 0x69; 0x76; 0x65; 0x18; 0x03; 0x20; 0x02; 0x28; 0x08; 0x12; 0x12; 0x0a; 0x0a;
    0x68; 0x69; 0x73; 0x74; 0x6f; 0x72; 0x69; 0x63; 0x61; 0x6c; 0x18; 0x04; 0x20; 0x02; 0x28; 0x08;
    0x22; 0x4d; 0x0a; 0x08; 0x57; 0x61; 0x74; 0x63; 0x68; 0x52; 0x65; 0x73; 0x12; 0x0f; 0x0a; 0x07;
    0x73; 0x75; 0x63; 0x63; 0x65; 0x73; 0x73; 0x18; 0x01; 0x20; 0x02; 0x28; 0x08; 0x12; 0x23; 0x0a;
    0x07; 0x68; 0x69; 0x73; 0x74; 0x6f; 0x72; 0x79; 0x18; 0x02; 0x20; 0x03; 0x28; 0x0b; 0x32; 0x12;
    0x2e; 0x72; 0x61; 0x73; 0x70; 0x75; 0x74; 0x69; 0x6e; 0x2e; 0x4d; 0x75; 0x74; 0x61; 0x74; 0x69;
    0x6f; 0x6e; 0x12; 0x0b; 0x0a; 0x03; 0x65; 0x72; 0x72; 0x18; 0x03; 0x20; 0x01; 0x28; 0x09; 0x22;
    0x3c; 0x0a; 0x0b; 0x52; 0x65; 0x64; 0x69; 0x72; 0x65; 0x63; 0x74; 0x52; 0x65; 0x73; 0x12; 0x0f;
    0x0a; 0x07; 0x73; 0x75; 0x63; 0x63; 0x65; 0x73; 0x73; 0x18; 0x01; 0x20; 0x02; 0x28; 0x08; 0x12;
    0x0f; 0x0a; 0x07; 0x61; 0x64; 0x64; 0x72; 0x65; 0x73; 0x73; 0x18; 0x02; 0x20; 0x01; 0x28; 0x09;
    0x12; 0x0b; 0x0a; 0x03; 0x65; 0x72; 0x72; 0x18; 0x03; 0x20; 0x01; 0x28; 0x09; 0x22; 0x83; 0x01;
    0x0a; 0x08; 0x4d; 0x75; 0x74; 0x61; 0x74; 0x69; 0x6f; 0x6e; 0x12; 0x24; 0x0a; 0x04; 0x74; 0x79;
    0x70; 0x65; 0x18; 0x01; 0x20; 0x02; 0x28; 0x0e; 0x32; 0x16; 0x2e; 0x72; 0x61; 0x73; 0x70; 0x75;
    0x74; 0x69; 0x6e; 0x2e; 0x4d; 0x75; 0x74; 0x61; 0x74; 0x69; 0x6f; 0x6e; 0x54; 0x79; 0x70; 0x65;
    0x12; 0x22; 0x0a; 0x07; 0x76; 0x65; 0x72; 0x73; 0x69; 0x6f; 0x6e; 0x18; 0x02; 0x20; 0x02; 0x28;
    0x0b; 0x32; 0x11; 0x2e; 0x72; 0x61; 0x73; 0x70; 0x75; 0x74; 0x69; 0x6e; 0x2e; 0x56; 0x65; 0x72;
    0x73; 0x69; 0x6f; 0x6e; 0x12; 0x0b; 0x0a; 0x03; 0x6b; 0x65; 0x79; 0x18; 0x03; 0x20; 0x02; 0x28;
    0x0c; 0x12; 0x0d; 0x0a; 0x05; 0x76; 0x61; 0x6c; 0x75; 0x65; 0x18; 0x04; 0x20; 0x01; 0x28; 0x0c;
    0x12; 0x11; 0x0a; 0x09; 0x6f; 0x6c; 0x64; 0x5f; 0x76; 0x61; 0x6c; 0x75; 0x65; 0x18; 0x05; 0x20;
    0x01; 0x28; 0x0c; 0x22; 0x25; 0x0a; 0x07; 0x56; 0x65; 0x72; 0x73; 0x69; 0x6f; 0x6e; 0x12; 0x0c;
    0x0a; 0x04; 0x74; 0x78; 0x69; 0x64; 0x18; 0x01; 0x20; 0x02; 0x28; 0x04; 0x12; 0x0c; 0x0a; 0x04;
    0x74; 0x65; 0x72; 0x6d; 0x18; 0x02; 0x20; 0x02; 0x28; 0x04; 0x22; 0xb7; 0x01; 0x0a; 0x06; 0x43;
    0x6c; 0x69; 0x52; 0x65; 0x71; 0x12; 0x0e; 0x0a; 0x06; 0x72; 0x65; 0x71; 0x5f; 0x69; 0x64; 0x18;
    0x01; 0x20; 0x02; 0x28; 0x04; 0x12; 0x1d; 0x0a; 0x03; 0x67; 0x65; 0x74; 0x18; 0x02; 0x20; 0x01;
    0x28; 0x0b; 0x32; 0x10; 0x2e; 0x72; 0x61; 0x73; 0x70; 0x75; 0x74; 0x69; 0x6e; 0x2e; 0x47; 0x65;
    0x74; 0x52; 0x65; 0x71; 0x12; 0x1d; 0x0a; 0x03; 0x73; 0x65; 0x74; 0x18; 0x03; 0x20; 0x01; 0x28;
    0x0b; 0x32; 0x10; 0x2e; 0x72; 0x61; 0x73; 0x70; 0x75; 0x74; 0x69; 0x6e; 0x2e; 0x53; 0x65; 0x74;
    0x52; 0x65; 0x71; 0x12; 0x1d; 0x0a; 0x03; 0x63; 0x61; 0x73; 0x18; 0x04; 0x20; 0x01; 0x28; 0x0b;
    0x32; 0x10; 0x2e; 0x72; 0x61; 0x73; 0x70; 0x75; 0x74; 0x69; 0x6e; 0x2e; 0x43; 0x41; 0x53; 0x52;
    0x65; 0x71; 0x12; 0x1d; 0x0a; 0x03; 0x64; 0x65; 0x6c; 0x18; 0x05; 0x20; 0x01; 0x28; 0x0b; 0x32;
    0x10; 0x2e; 0x72; 0x61; 0x73; 0x70; 0x75; 0x74; 0x69; 0x6e; 0x2e; 0x44; 0x65; 0x6c; 0x52; 0x65;
    0x71; 0x12; 0x21; 0x0a; 0x05; 0x77; 0x61; 0x74; 0x63; 0x68; 0x18; 0x06; 0x20; 0x01; 0x28; 0x0b;
    0x32; 0x12; 0x2e; 0x72; 0x61; 0x73; 0x70; 0x75; 0x74; 0x69; 0x6e; 0x2e; 0x57; 0x61; 0x74; 0x63;
    0x68; 0x52; 0x65; 0x71; 0x22; 0xe0; 0x01; 0x0a; 0x06; 0x43; 0x6c; 0x69; 0x52; 0x65; 0x73; 0x12;
    0x0e; 0x0a; 0x06; 0x72; 0x65; 0x71; 0x5f; 0x69; 0x64; 0x18; 0x01; 0x20; 0x02; 0x28; 0x04; 0x12;
    0x1d; 0x0a; 0x03; 0x67; 0x65; 0x74; 0x18; 0x02; 0x20; 0x01; 0x28; 0x0b; 0x32; 0x10; 0x2e; 0x72;
    0x61; 0x73; 0x70; 0x75; 0x74; 0x69; 0x6e; 0x2e; 0x47; 0x65; 0x74; 0x52; 0x65; 0x73; 0x12; 0x1d;
    0x0a; 0x03; 0x73; 0x65; 0x74; 0x18; 0x03; 0x20; 0x01; 0x28; 0x0b; 0x32; 0x10; 0x2e; 0x72; 0x61;
    0x73; 0x70; 0x75; 0x74; 0x69; 0x6e; 0x2e; 0x53; 0x65; 0x74; 0x52; 0x65; 0x73; 0x12; 0x1d; 0x0a;
    0x03; 0x63; 0x61; 0x73; 0x18; 0x04; 0x20; 0x01; 0x28; 0x0b; 0x32; 0x10; 0x2e; 0x72; 0x61; 0x73;
    0x70; 0x75; 0x74; 0x69; 0x6e; 0x2e; 0x43; 0x41; 0x53; 0x52; 0x65; 0x73; 0x12; 0x1d; 0x0a; 0x03;
    0x64; 0x65; 0x6c; 0x18; 0x05; 0x20; 0x01; 0x28; 0x0b; 0x32; 0x10; 0x2e; 0x72; 0x61; 0x73; 0x70;
    0x75; 0x74; 0x69; 0x6e; 0x2e; 0x44; 0x65; 0x6c; 0x52; 0x65; 0x73; 0x12; 0x21; 0x0a; 0x05; 0x77;
    0x61; 0x74; 0x63; 0x68; 0x18; 0x06; 0x20; 0x01; 0x28; 0x0b; 0x32; 0x12; 0x2e; 0x72; 0x61; 0x73;
    0x70; 0x75; 0x74; 0x69; 0x6e; 0x2e; 0x57; 0x61; 0x74; 0x63; 0x68; 0x52; 0x65; 0x73; 0x12; 0x27;
    0x0a; 0x08; 0x72; 0x65; 0x64; 0x69; 0x72; 0x65; 0x63; 0x74; 0x18; 0x07; 0x20; 0x01; 0x28; 0x0b;
    0x32; 0x15; 0x2e; 0x72; 0x61; 0x73; 0x70; 0x75; 0x74; 0x69; 0x6e; 0x2e; 0x52; 0x65; 0x64; 0x69;
    0x72; 0x65; 0x63; 0x74; 0x52; 0x65; 0x73; 0x22; 0x85; 0x01; 0x0a; 0x07; 0x56; 0x6f; 0x74; 0x65;
    0x52; 0x65; 0x71; 0x12; 0x0c; 0x0a; 0x04; 0x74; 0x65; 0x72; 0x6d; 0x18; 0x01; 0x20; 0x02; 0x28;
    0x04; 0x12; 0x19; 0x0a; 0x11; 0x6c; 0x61; 0x73; 0x74; 0x5f; 0x6c; 0x65; 0x61; 0x72; 0x6e; 0x65;
    0x64; 0x5f; 0x74; 0x65; 0x72; 0x6d; 0x18; 0x02; 0x20; 0x02; 0x28; 0x04; 0x12; 0x19; 0x0a; 0x11;
    0x6c; 0x61; 0x73; 0x74; 0x5f; 0x6c; 0x65; 0x61; 0x72; 0x6e; 0x65; 0x64; 0x5f; 0x74; 0x78; 0x69;
    0x64; 0x18; 0x03; 0x20; 0x02; 0x28; 0x04; 0x12; 0x1a; 0x0a; 0x12; 0x6c; 0x61; 0x73; 0x74; 0x5f;
    0x61; 0x63; 0x63; 0x65; 0x70; 0x74; 0x65; 0x64; 0x5f; 0x74; 0x65; 0x72; 0x6d; 0x18; 0x04; 0x20;
    0x02; 0x28; 0x04; 0x12; 0x1a; 0x0a; 0x12; 0x6c; 0x61; 0x73; 0x74; 0x5f; 0x61; 0x63; 0x63; 0x65;
    0x70; 0x74; 0x65; 0x64; 0x5f; 0x74; 0x78; 0x69; 0x64; 0x18; 0x05; 0x20; 0x02; 0x28; 0x04; 0x22;
    0x28; 0x0a; 0x07; 0x56; 0x6f; 0x74; 0x65; 0x52; 0x65; 0x73; 0x12; 0x0f; 0x0a; 0x07; 0x73; 0x75;
    0x63; 0x63; 0x65; 0x73; 0x73; 0x18; 0x01; 0x20; 0x02; 0x28; 0x08; 0x12; 0x0c; 0x0a; 0x04; 0x74;
    0x65; 0x72; 0x6d; 0x18; 0x02; 0x20; 0x02; 0x28; 0x04; 0x22; 0x6c; 0x0a; 0x06; 0x41; 0x70; 0x70;
    0x65; 0x6e; 0x64; 0x12; 0x11; 0x0a; 0x09; 0x66; 0x72; 0x6f; 0x6d; 0x5f; 0x74; 0x78; 0x69; 0x64;
    0x18; 0x01; 0x20; 0x02; 0x28; 0x04; 0x12; 0x11; 0x0a; 0x09; 0x66; 0x72; 0x6f; 0x6d; 0x5f; 0x74;
    0x65; 0x72; 0x6d; 0x18; 0x02; 0x20; 0x02; 0x28; 0x04; 0x12; 0x21; 0x0a; 0x05; 0x62; 0x61; 0x74;
    0x63; 0x68; 0x18; 0x03; 0x20; 0x03; 0x28; 0x0b; 0x32; 0x12; 0x2e; 0x72; 0x61; 0x73; 0x70; 0x75;
    0x74; 0x69; 0x6e; 0x2e; 0x4d; 0x75; 0x74; 0x61; 0x74; 0x69; 0x6f; 0x6e; 0x12; 0x19; 0x0a; 0x11;
    0x6c; 0x61; 0x73; 0x74; 0x5f; 0x6c; 0x65; 0x61; 0x72; 0x6e; 0x65; 0x64; 0x5f; 0x74; 0x78; 0x69;
    0x64; 0x18; 0x04; 0x20; 0x02; 0x28; 0x04; 0x22; 0x55; 0x0a; 0x09; 0x41; 0x70; 0x70; 0x65; 0x6e;
    0x64; 0x52; 0x65; 0x73; 0x12; 0x10; 0x0a; 0x08; 0x61; 0x63; 0x63; 0x65; 0x70; 0x74; 0x65; 0x64;
    0x18; 0x01; 0x20; 0x02; 0x28; 0x08; 0x12; 0x1a; 0x0a; 0x12; 0x6c; 0x61; 0x73; 0x74; 0x5f; 0x61;
    0x63; 0x63; 0x65; 0x70; 0x74; 0x65; 0x64; 0x5f; 0x74; 0x78; 0x69; 0x64; 0x18; 0x02; 0x20; 0x01;
    0x28; 0x04; 0x12; 0x1a; 0x0a; 0x12; 0x6c; 0x61; 0x73; 0x74; 0x5f; 0x61; 0x63; 0x63; 0x65; 0x70;
    0x74; 0x65; 0x64; 0x5f; 0x74; 0x65; 0x72; 0x6d; 0x18; 0x03; 0x20; 0x01; 0x28; 0x04; 0x22; 0xad;
    0x01; 0x0a; 0x07; 0x50; 0x65; 0x65; 0x72; 0x4d; 0x73; 0x67; 0x12; 0x0d; 0x0a; 0x05; 0x73; 0x72;
    0x76; 0x69; 0x64; 0x18; 0x01; 0x20; 0x02; 0x28; 0x09; 0x12; 0x23; 0x0a; 0x08; 0x76; 0x6f; 0x74;
    0x65; 0x5f; 0x72; 0x65; 0x71; 0x18; 0x02; 0x20; 0x01; 0x28; 0x0b; 0x32; 0x11; 0x2e; 0x72; 0x61;
    0x73; 0x70; 0x75; 0x74; 0x69; 0x6e; 0x2e; 0x56; 0x6f; 0x74; 0x65; 0x52; 0x65; 0x71; 0x12; 0x23;
    0x0a; 0x08; 0x76; 0x6f; 0x74; 0x65; 0x5f; 0x72; 0x65; 0x73; 0x18; 0x03; 0x20; 0x01; 0x28; 0x0b;
    0x32; 0x11; 0x2e; 0x72; 0x61; 0x73; 0x70; 0x75; 0x74; 0x69; 0x6e; 0x2e; 0x56; 0x6f; 0x74; 0x65;
    0x52; 0x65; 0x73; 0x12; 0x20; 0x0a; 0x06; 0x61; 0x70; 0x70; 0x65; 0x6e; 0x64; 0x18; 0x04; 0x20;
    0x01; 0x28; 0x0b; 0x32; 0x10; 0x2e; 0x72; 0x61; 0x73; 0x70; 0x75; 0x74; 0x69; 0x6e; 0x2e; 0x41;
    0x70; 0x70; 0x65; 0x6e; 0x64; 0x12; 0x27; 0x0a; 0x0a; 0x61; 0x70; 0x70; 0x65; 0x6e; 0x64; 0x5f;
    0x72; 0x65; 0x73; 0x18; 0x05; 0x20; 0x01; 0x28; 0x0b; 0x32; 0x13; 0x2e; 0x72; 0x61; 0x73; 0x70;
    0x75; 0x74; 0x69; 0x6e; 0x2e; 0x41; 0x70; 0x70; 0x65; 0x6e; 0x64; 0x52; 0x65; 0x73; 0x2a; 0x2f;
    0x0a; 0x0c; 0x4d; 0x75; 0x74; 0x61; 0x74; 0x69; 0x6f; 0x6e; 0x54; 0x79; 0x70; 0x65; 0x12; 0x09;
    0x0a; 0x05; 0x4b; 0x56; 0x53; 0x45; 0x54; 0x10; 0x01; 0x12; 0x09; 0x0a; 0x05; 0x4b; 0x56; 0x43;
    0x41; 0x53; 0x10; 0x02; 0x12; 0x09; 0x0a; 0x05; 0x4b; 0x56; 0x44; 0x45; 0x4c; 0x10; 0x03; 0x4a;
    0xfd; 0x2c; 0x0a; 0x07; 0x12; 0x05; 0x00; 0x00; 0x97; 0x01; 0x01; 0x0a; 0x08; 0x0a; 0x01; 0x02;
    0x12; 0x03; 0x02; 0x08; 0x10; 0x0a; 0x33; 0x0a; 0x02; 0x04; 0x00; 0x12; 0x04; 0x07; 0x00; 0x0a;
    0x01; 0x1a; 0x27; 0x0a; 0x20; 0x43; 0x6c; 0x69; 0x65; 0x6e; 0x74; 0x20; 0x3c; 0x2d; 0x3e; 0x20;
    0x72; 0x61; 0x73; 0x70; 0x75; 0x74; 0x69; 0x6e; 0x20; 0x73; 0x65; 0x72; 0x76; 0x65; 0x72; 0x20;
    0x6d; 0x65; 0x73; 0x73; 0x61; 0x67; 0x65; 0x73; 0x0a; 0x0a; 0x0a; 0x0a; 0x0a; 0x03; 0x04; 0x00;
    0x01; 0x12; 0x03; 0x07; 0x08; 0x0e; 0x0a; 0x0b; 0x0a; 0x04; 0x04; 0x00; 0x02; 0x00; 0x12; 0x03;
    0x08; 0x02; 0x19; 0x0a; 0x0c; 0x0a; 0x05; 0x04; 0x00; 0x02; 0x00; 0x04; 0x12; 0x03; 0x08; 0x02;
    0x0a; 0x0a; 0x0c; 0x0a; 0x05; 0x04; 0x00; 0x02; 0x00; 0x05; 0x12; 0x03; 0x08; 0x0b; 0x10; 0x0a;
    0x0c; 0x0a; 0x05; 0x04; 0x00; 0x02; 0x00; 0x01; 0x12; 0x03; 0x08; 0x11; 0x14; 0x0a; 0x0c; 0x0a;
    0x05; 0x04; 0x00; 0x02; 0x00; 0x03; 0x12; 0x03; 0x08; 0x17; 0x18; 0x0a; 0x0b; 0x0a; 0x04; 0x04;
    0x00; 0x02; 0x01; 0x12; 0x03; 0x09; 0x02; 0x1b; 0x0a; 0x0c; 0x0a; 0x05; 0x04; 0x00; 0x02; 0x01;
    0x04; 0x12; 0x03; 0x09; 0x02; 0x0a; 0x0a; 0x0c; 0x0a; 0x05; 0x04; 0x00; 0x02; 0x01; 0x05; 0x12;
    0x03; 0x09; 0x0b; 0x10; 0x0a; 0x0c; 0x0a; 0x05; 0x04; 0x00; 0x02; 0x01; 0x01; 0x12; 0x03; 0x09;
    0x11; 0x16; 0x0a; 0x0c; 0x0a; 0x05; 0x04; 0x00; 0x02; 0x01; 0x03; 0x12; 0x03; 0x09; 0x19; 0x1a;
    0x0a; 0x0a; 0x0a; 0x02; 0x04; 0x01; 0x12; 0x04; 0x0c; 0x00; 0x10; 0x01; 0x0a; 0x0a; 0x0a; 0x03;
    0x04; 0x01; 0x01; 0x12; 0x03; 0x0c; 0x08; 0x0e; 0x0a; 0x0b; 0x0a; 0x04; 0x04; 0x01; 0x02; 0x00;
    0x12; 0x03; 0x0d; 0x02; 0x1c; 0x0a; 0x0c; 0x0a; 0x05; 0x04; 0x01; 0x02; 0x00; 0x04; 0x12; 0x03;
    0x0d; 0x02; 0x0a; 0x0a; 0x0c; 0x0a; 0x05; 0x04; 0x01; 0x02; 0x00; 0x05; 0x12; 0x03; 0x0d; 0x0b;
    0x0f; 0x0a; 0x0c; 0x0a; 0x05; 0x04; 0x01; 0x02; 0x00; 0x01; 0x12; 0x03; 0x0d; 0x10; 0x17; 0x0a;
    0x0c; 0x0a; 0x05; 0x04; 0x01; 0x02; 0x00; 0x03; 0x12; 0x03; 0x0d; 0x1a; 0x1b; 0x0a; 0x0b; 0x0a;
    0x04; 0x04; 0x01; 0x02; 0x01; 0x12; 0x03; 0x0e; 0x02; 0x1b; 0x0a; 0x0c; 0x0a; 0x05; 0x04; 0x01;
    0x02; 0x01; 0x04; 0x12; 0x03; 0x0e; 0x02; 0x0a; 0x0a; 0x0c; 0x0a; 0x05; 0x04; 0x01; 0x02; 0x01;
    0x05; 0x12; 0x03; 0x0e; 0x0b; 0x11; 0x0a; 0x0c; 0x0a; 0x05; 0x04; 0x01; 0x02; 0x01; 0x01; 0x12;
    0x03; 0x0e; 0x12; 0x16; 0x0a; 0x0c; 0x0a; 0x05; 0x04; 0x01; 0x02; 0x01; 0x03; 0x12; 0x03; 0x0e;
    0x19; 0x1a; 0x0a; 0x0b; 0x0a; 0x04; 0x04; 0x01; 0x02; 0x02; 0x12; 0x03; 0x0f; 0x02; 0x1a; 0x0a;
    0x0c; 0x0a; 0x05; 0x04; 0x01; 0x02; 0x02; 0x04; 0x12; 0x03; 0x0f; 0x02; 0x0a; 0x0a; 0x0c; 0x0a;
    0x05; 0x04; 0x01; 0x02; 0x02; 0x05; 0x12; 0x03; 0x0f; 0x0b; 0x11; 0x0a; 0x0c; 0x0a; 0x05; 0x04;
    0x01; 0x02; 0x02; 0x01; 0x12; 0x03; 0x0f; 0x12; 0x15; 0x0a; 0x0c; 0x0a; 0x05; 0x04; 0x01; 0x02;
    0x02; 0x03; 0x12; 0x03; 0x0f; 0x18; 0x19; 0x0a; 0x0a; 0x0a; 0x02; 0x04; 0x02; 0x12; 0x04; 0x12;
    0x00; 0x14; 0x01; 0x0a; 0x0a; 0x0a; 0x03; 0x04; 0x02; 0x01; 0x12; 0x03; 0x12; 0x08; 0x0e; 0x0a;
    0x0b; 0x0a; 0x04; 0x04; 0x02; 0x02; 0x00; 0x12; 0x03; 0x13; 0x02; 0x19; 0x0a; 0x0c; 0x0a; 0x05;
    0x04; 0x02; 0x02; 0x00; 0x04; 0x12; 0x03; 0x13; 0x02; 0x0a; 0x0a; 0x0c; 0x0a; 0x05; 0x04; 0x02;
    0x02; 0x00; 0x05; 0x12; 0x03; 0x13; 0x0b; 0x10; 0x0a; 0x0c; 0x0a; 0x05; 0x04; 0x02; 0x02; 0x00;
    0x01; 0x12; 0x03; 0x13; 0x11; 0x14; 0x0a; 0x0c; 0x0a; 0x05; 0x04; 0x02; 0x02; 0x00; 0x03; 0x12 ].

Definition file_descriptor_proto_data_2 : list Z := [
    0x03; 0x13; 0x17; 0x18; 0x0a; 0x0a; 0x0a; 0x02; 0x04; 0x03; 0x12; 0x04; 0x16; 0x00; 0x1b; 0x01;
    0x0a; 0x0a; 0x0a; 0x03; 0x04; 0x03; 0x01; 0x12; 0x03; 0x16; 0x08; 0x0e; 0x0a; 0x0b; 0x0a; 0x04;
    0x04; 0x03; 0x02; 0x00; 0x12; 0x03; 0x17; 0x02; 0x1c; 0x0a; 0x0c; 0x0a; 0x05; 0x04; 0x03; 0x02;
    0x00; 0x04; 0x12; 0x03; 0x17; 0x02; 0x0a; 0x0a; 0x0c; 0x0a; 0x05; 0x04; 0x03; 0x02; 0x00; 0x05;
    0x12; 0x03; 0x17; 0x0b; 0x0f; 0x0a; 0x0c; 0x0a; 0x05; 0x04; 0x03; 0x02; 0x00; 0x01; 0x12; 0x03;
    0x17; 0x10; 0x17; 0x0a; 0x0c; 0x0a; 0x05; 0x04; 0x03; 0x02; 0x00; 0x03; 0x12; 0x03; 0x17; 0x1a;
    0x1b; 0x0a; 0x0b; 0x0a; 0x04; 0x04; 0x03; 0x02; 0x01; 0x12; 0x03; 0x18; 0x02; 0x1b; 0x0a; 0x0c;
    0x0a; 0x05; 0x04; 0x03; 0x02; 0x01; 0x04; 0x12; 0x03; 0x18; 0x02; 0x0a; 0x0a; 0x0c; 0x0a; 0x05;
    0x04; 0x03; 0x02; 0x01; 0x05; 0x12; 0x03; 0x18; 0x0b; 0x11; 0x0a; 0x0c; 0x0a; 0x05; 0x04; 0x03;
    0x02; 0x01; 0x01; 0x12; 0x03; 0x18; 0x12; 0x16; 0x0a; 0x0c; 0x0a; 0x05; 0x04; 0x03; 0x02; 0x01;
    0x03; 0x12; 0x03; 0x18; 0x19; 0x1a; 0x0a; 0x0b; 0x0a; 0x04; 0x04; 0x03; 0x02; 0x02; 0x12; 0x03;
    0x19; 0x02; 0x1b; 0x0a; 0x0c; 0x0a; 0x05; 0x04; 0x03; 0x02; 0x02; 0x04; 0x12; 0x03; 0x19; 0x02;
    0x0a; 0x0a; 0x0c; 0x0a; 0x05; 0x04; 0x03; 0x02; 0x02; 0x05; 0x12; 0x03; 0x19; 0x0b; 0x10; 0x0a;
    0x0c; 0x0a; 0x05; 0x04; 0x03; 0x02; 0x02; 0x01; 0x12; 0x03; 0x19; 0x11; 0x16; 0x0a; 0x0c; 0x0a;
    0x05; 0x04; 0x03; 0x02; 0x02; 0x03; 0x12; 0x03; 0x19; 0x19; 0x1a; 0x0a; 0x0b; 0x0a; 0x04; 0x04;
    0x03; 0x02; 0x03; 0x12; 0x03; 0x1a; 0x02; 0x1a; 0x0a; 0x0c; 0x0a; 0x05; 0x04; 0x03; 0x02; 0x03;
    0x04; 0x12; 0x03; 0x1a; 0x02; 0x0a; 0x0a; 0x0c; 0x0a; 0x05; 0x04; 0x03; 0x02; 0x03; 0x05; 0x12;
    0x03; 0x1a; 0x0b; 0x11; 0x0a; 0x0c; 0x0a; 0x05; 0x04; 0x03; 0x02; 0x03; 0x01; 0x12; 0x03; 0x1a;
    0x12; 0x15; 0x0a; 0x0c; 0x0a; 0x05; 0x04; 0x03; 0x02; 0x03; 0x03; 0x12; 0x03; 0x1a; 0x18; 0x19;
    0x0a; 0x0a; 0x0a; 0x02; 0x04; 0x04; 0x12; 0x04; 0x1d; 0x00; 0x21; 0x01; 0x0a; 0x0a; 0x0a; 0x03;
    0x04; 0x04; 0x01; 0x12; 0x03; 0x1d; 0x08; 0x0e; 0x0a; 0x0b; 0x0a; 0x04; 0x04; 0x04; 0x02; 0x00;
    0x12; 0x03; 0x1e; 0x02; 0x19; 0x0a; 0x0c; 0x0a; 0x05; 0x04; 0x04; 0x02; 0x00; 0x04; 0x12; 0x03;
    0x1e; 0x02; 0x0a; 0x0a; 0x0c; 0x0a; 0x05; 0x04; 0x04; 0x02; 0x00; 0x05; 0x12; 0x03; 0x1e; 0x0b;
    0x10; 0x0a; 0x0c; 0x0a; 0x05; 0x04; 0x04; 0x02; 0x00; 0x01; 0x12; 0x03; 0x1e; 0x11; 0x14; 0x0a;
    0x0c; 0x0a; 0x05; 0x04; 0x04; 0x02; 0x00; 0x03; 0x12; 0x03; 0x1e; 0x17; 0x18; 0x0a; 0x0b; 0x0a;
    0x04; 0x04; 0x04; 0x02; 0x01; 0x12; 0x03; 0x1f; 0x02; 0x1f; 0x0a; 0x0c; 0x0a; 0x05; 0x04; 0x04;
    0x02; 0x01; 0x04; 0x12; 0x03; 0x1f; 0x02; 0x0a; 0x0a; 0x0c; 0x0a; 0x05; 0x04; 0x04; 0x02; 0x01;
    0x05; 0x12; 0x03; 0x1f; 0x0b; 0x10; 0x0a; 0x0c; 0x0a; 0x05; 0x04; 0x04; 0x02; 0x01; 0x01; 0x12;
    0x03; 0x1f; 0x11; 0x1a; 0x0a; 0x0c; 0x0a; 0x05; 0x04; 0x04; 0x02; 0x01; 0x03; 0x12; 0x03; 0x1f;
    0x1d; 0x1e; 0x0a; 0x0b; 0x0a; 0x04; 0x04; 0x04; 0x02; 0x02; 0x12; 0x03; 0x20; 0x02; 0x1f; 0x0a;
    0x0c; 0x0a; 0x05; 0x04; 0x04; 0x02; 0x02; 0x04; 0x12; 0x03; 0x20; 0x02; 0x0a; 0x0a; 0x0c; 0x0a;
    0x05; 0x04; 0x04; 0x02; 0x02; 0x05; 0x12; 0x03; 0x20; 0x0b; 0x10; 0x0a; 0x0c; 0x0a; 0x05; 0x04;
    0x04; 0x02; 0x02; 0x01; 0x12; 0x03; 0x20; 0x11; 0x1a; 0x0a; 0x0c; 0x0a; 0x05; 0x04; 0x04; 0x02;
    0x02; 0x03; 0x12; 0x03; 0x20; 0x1d; 0x1e; 0x0a; 0x0a; 0x0a; 0x02; 0x04; 0x05; 0x12; 0x04; 0x23;
    0x00; 0x28; 0x01; 0x0a; 0x0a; 0x0a; 0x03; 0x04; 0x05; 0x01; 0x12; 0x03; 0x23; 0x08; 0x0e; 0x0a;
    0x0b; 0x0a; 0x04; 0x04; 0x05; 0x02; 0x00; 0x12; 0x03; 0x24; 0x02; 0x1c; 0x0a; 0x0c; 0x0a; 0x05;
    0x04; 0x05; 0x02; 0x00; 0x04; 0x12; 0x03; 0x24; 0x02; 0x0a; 0x0a; 0x0c; 0x0a; 0x05; 0x04; 0x05;
    0x02; 0x00; 0x05; 0x12; 0x03; 0x24; 0x0b; 0x0f; 0x0a; 0x0c; 0x0a; 0x05; 0x04; 0x05; 0x02; 0x00;
    0x01; 0x12; 0x03; 0x24; 0x10; 0x17; 0x0a; 0x0c; 0x0a; 0x05; 0x04; 0x05; 0x02; 0x00; 0x03; 0x12;
    0x03; 0x24; 0x1a; 0x1b; 0x0a; 0x0b; 0x0a; 0x04; 0x04; 0x05; 0x02; 0x01; 0x12; 0x03; 0x25; 0x02;
    0x1b; 0x0a; 0x0c; 0x0a; 0x05; 0x04; 0x05; 0x02; 0x01; 0x04; 0x12; 0x03; 0x25; 0x02; 0x0a; 0x0a;
    0x0c; 0x0a; 0x05; 0x04; 0x05; 0x02; 0x01; 0x05; 0x12; 0x03; 0x25; 0x0b; 0x11; 0x0a; 0x0c; 0x0a;
    0x05; 0x04; 0x05; 0x02; 0x01; 0x01; 0x12; 0x03; 0x25; 0x12; 0x16; 0x0a; 0x0c; 0x0a; 0x05; 0x04;
    0x05; 0x02; 0x01; 0x03; 0x12; 0x03; 0x25; 0x19; 0x1a; 0x0a; 0x0b; 0x0a; 0x04; 0x04; 0x05; 0x02;
    0x02; 0x12; 0x03; 0x26; 0x02; 0x1b; 0x0a; 0x0c; 0x0a; 0x05; 0x04; 0x05; 0x02; 0x02; 0x04; 0x12;
    0x03; 0x26; 0x02; 0x0a; 0x0a; 0x0c; 0x0a; 0x05; 0x04; 0x05; 0x02; 0x02; 0x05; 0x12; 0x03; 0x26;
    0x0b; 0x10; 0x0a; 0x0c; 0x0a; 0x05; 0x04; 0x05; 0x02; 0x02; 0x01; 0x12; 0x03; 0x26; 0x11; 0x16;
    0x0a; 0x0c; 0x0a; 0x05; 0x04; 0x05; 0x02; 0x02; 0x03; 0x12; 0x03; 0x26; 0x19; 0x1a; 0x0a; 0x0b;
    0x0a; 0x04; 0x04; 0x05; 0x02; 0x03; 0x12; 0x03; 0x27; 0x02; 0x1a; 0x0a; 0x0c; 0x0a; 0x05; 0x04;
    0x05; 0x02; 0x03; 0x04; 0x12; 0x03; 0x27; 0x02; 0x0a; 0x0a; 0x0c; 0x0a; 0x05; 0x04; 0x05; 0x02;
    0x03; 0x05; 0x12; 0x03; 0x27; 0x0b; 0x11; 0x0a; 0x0c; 0x0a; 0x05; 0x04; 0x05; 0x02; 0x03; 0x01;
    0x12; 0x03; 0x27; 0x12; 0x15; 0x0a; 0x0c; 0x0a; 0x05; 0x04; 0x05; 0x02; 0x03; 0x03; 0x12; 0x03;
    0x27; 0x18; 0x19; 0x0a; 0x0a; 0x0a; 0x02; 0x04; 0x06; 0x12; 0x04; 0x2a; 0x00; 0x2c; 0x01; 0x0a;
    0x0a; 0x0a; 0x03; 0x04; 0x06; 0x01; 0x12; 0x03; 0x2a; 0x08; 0x0e; 0x0a; 0x0b; 0x0a; 0x04; 0x04;
    0x06; 0x02; 0x00; 0x12; 0x03; 0x2b; 0x02; 0x19; 0x0a; 0x0c; 0x0a; 0x05; 0x04; 0x06; 0x02; 0x00;
    0x04; 0x12; 0x03; 0x2b; 0x02; 0x0a; 0x0a; 0x0c; 0x0a; 0x05; 0x04; 0x06; 0x02; 0x00; 0x05; 0x12;
    0x03; 0x2b; 0x0b; 0x10; 0x0a; 0x0c; 0x0a; 0x05; 0x04; 0x06; 0x02; 0x00; 0x01; 0x12; 0x03; 0x2b;
    0x11; 0x14; 0x0a; 0x0c; 0x0a; 0x05; 0x04; 0x06; 0x02; 0x00; 0x03; 0x12; 0x03; 0x2b; 0x17; 0x18;
    0x0a; 0x0a; 0x0a; 0x02; 0x04; 0x07; 0x12; 0x04; 0x2e; 0x00; 0x33; 0x01; 0x0a; 0x0a; 0x0a; 0x03;
    0x04; 0x07; 0x01; 0x12; 0x03; 0x2e; 0x08; 0x0e; 0x0a; 0x0b; 0x0a; 0x04; 0x04; 0x07; 0x02; 0x00;
    0x12; 0x03; 0x2f; 0x02; 0x1c; 0x0a; 0x0c; 0x0a; 0x05; 0x04; 0x07; 0x02; 0x00; 0x04; 0x12; 0x03;
    0x2f; 0x02; 0x0a; 0x0a; 0x0c; 0x0a; 0x05; 0x04; 0x07; 0x02; 0x00; 0x05; 0x12; 0x03; 0x2f; 0x0b;
    0x0f; 0x0a; 0x0c; 0x0a; 0x05; 0x04; 0x07; 0x02; 0x00; 0x01; 0x12; 0x03; 0x2f; 0x10; 0x17; 0x0a;
    0x0c; 0x0a; 0x05; 0x04; 0x07; 0x02; 0x00; 0x03; 0x12; 0x03; 0x2f; 0x1a; 0x1b; 0x0a; 0x0b; 0x0a;
    0x04; 0x04; 0x07; 0x02; 0x01; 0x12; 0x03; 0x30; 0x02; 0x1b; 0x0a; 0x0c; 0x0a; 0x05; 0x04; 0x07;
    0x02; 0x01; 0x04; 0x12; 0x03; 0x30; 0x02; 0x0a; 0x0a; 0x0c; 0x0a; 0x05; 0x04; 0x07; 0x02; 0x01;
    0x05; 0x12; 0x03; 0x30; 0x0b; 0x11; 0x0a; 0x0c; 0x0a; 0x05; 0x04; 0x07; 0x02; 0x01; 0x01; 0x12;
    0x03; 0x30; 0x12; 0x16; 0x0a; 0x0c; 0x0a; 0x05; 0x04; 0x07; 0x02; 0x01; 0x03; 0x12; 0x03; 0x30;
    0x19; 0x1a; 0x0a; 0x0b; 0x0a; 0x04; 0x04; 0x07; 0x02; 0x02; 0x12; 0x03; 0x31; 0x02; 0x1b; 0x0a;
    0x0c; 0x0a; 0x05; 0x04; 0x07; 0x02; 0x02; 0x04; 0x12; 0x03; 0x31; 0x02; 0x0a; 0x0a; 0x0c; 0x0a;
    0x05; 0x04; 0x07; 0x02; 0x02; 0x05; 0x12; 0x03; 0x31; 0x0b; 0x10; 0x0a; 0x0c; 0x0a; 0x05; 0x04;
    0x07; 0x02; 0x02; 0x01; 0x12; 0x03; 0x31; 0x11; 0x16; 0x0a; 0x0c; 0x0a; 0x05; 0x04; 0x07; 0x02;
    0x02; 0x03; 0x12; 0x03; 0x31; 0x19; 0x1a; 0x0a; 0x0b; 0x0a; 0x04; 0x04; 0x07; 0x02; 0x03; 0x12;
    0x03; 0x32; 0x02; 0x1a; 0x0a; 0x0c; 0x0a; 0x05; 0x04; 0x07; 0x02; 0x03; 0x04; 0x12; 0x03; 0x32;
    0x02; 0x0a; 0x0a; 0x0c; 0x0a; 0x05; 0x04; 0x07; 0x02; 0x03; 0x05; 0x12; 0x03; 0x32; 0x0b; 0x11;
    0x0a; 0x0c; 0x0a; 0x05; 0x04; 0x07; 0x02; 0x03; 0x01; 0x12; 0x03; 0x32; 0x12; 0x15; 0x0a; 0x0c;
    0x0a; 0x05; 0x04; 0x07; 0x02; 0x03; 0x03; 0x12; 0x03; 0x32; 0x18; 0x19; 0x0a; 0x0a; 0x0a; 0x02;
    0x04; 0x08; 0x12; 0x04; 0x35; 0x00; 0x3a; 0x01; 0x0a; 0x0a; 0x0a; 0x03; 0x04; 0x08; 0x01; 0x12;
    0x03; 0x35; 0x08; 0x10; 0x0a; 0x0b; 0x0a; 0x04; 0x04; 0x08; 0x02; 0x00; 0x12; 0x03; 0x36; 0x02;
    0x19; 0x0a; 0x0c; 0x0a; 0x05; 0x04; 0x08; 0x02; 0x00; 0x04; 0x12; 0x03; 0x36; 0x02; 0x0a; 0x0a;
    0x0c; 0x0a; 0x05; 0x04; 0x08; 0x02; 0x00; 0x05; 0x12; 0x03; 0x36; 0x0b; 0x10; 0x0a; 0x0c; 0x0a;
    0x05; 0x04; 0x08; 0x02; 0x00; 0x01; 0x12; 0x03; 0x36; 0x11; 0x14; 0x0a; 0x0c; 0x0a; 0x05; 0x04;
    0x08; 0x02; 0x00; 0x03; 0x12; 0x03; 0x36; 0x17; 0x18; 0x0a; 0x0b; 0x0a; 0x04; 0x04; 0x08; 0x02;
    0x01; 0x12; 0x03; 0x37; 0x02; 0x20; 0x0a; 0x0c; 0x0a; 0x05; 0x04; 0x08; 0x02; 0x01; 0x04; 0x12;
    0x03; 0x37; 0x02; 0x0a; 0x0a; 0x0c; 0x0a; 0x05; 0x04; 0x08; 0x02; 0x01; 0x05; 0x12; 0x03; 0x37;
    0x0b; 0x11; 0x0a; 0x0c; 0x0a; 0x05; 0x04; 0x08; 0x02; 0x01; 0x01; 0x12; 0x03; 0x37; 0x12; 0x1b;
    0x0a; 0x0c; 0x0a; 0x05; 0x04; 0x08; 0x02; 0x01; 0x03; 0x12; 0x03; 0x37; 0x1e; 0x1f; 0x0a; 0x0b;
    0x0a; 0x04; 0x04; 0x08; 0x02; 0x02; 0x12; 0x03; 0x38; 0x02; 0x1e; 0x0a; 0x0c; 0x0a; 0x05; 0x04;
    0x08; 0x02; 0x02; 0x04; 0x12; 0x03; 0x38; 0x02; 0x0a; 0x0a; 0x0c; 0x0a; 0x05; 0x04; 0x08; 0x02;
    0x02; 0x05; 0x12; 0x03; 0x38; 0x0b; 0x0f; 0x0a; 0x0c; 0x0a; 0x05; 0x04; 0x08; 0x02; 0x02; 0x01;
    0x12; 0x03; 0x38; 0x10; 0x19; 0x0a; 0x0c; 0x0a; 0x05; 0x04; 0x08; 0x02; 0x02; 0x03; 0x12; 0x03;
    0x38; 0x1c; 0x1d; 0x0a; 0x0b; 0x0a; 0x04; 0x04; 0x08; 0x02; 0x03; 0x12; 0x03; 0x39; 0x02; 0x1f;
    0x0a; 0x0c; 0x0a; 0x05; 0x04; 0x08; 0x02; 0x03; 0x04; 0x12; 0x03; 0x39; 0x02; 0x0a; 0x0a; 0x0c;
    0x0a; 0x05; 0x04; 0x08; 0x02; 0x03; 0x05; 0x12; 0x03; 0x39; 0x0b; 0x0f; 0x0a; 0x0c; 0x0a; 0x05;
    0x04; 0x08; 0x02; 0x03; 0x01; 0x12; 0x03; 0x39; 0x10; 0x1a; 0x0a; 0x0c; 0x0a; 0x05; 0x04; 0x08;
    0x02; 0x03; 0x03; 0x12; 0x03; 0x39; 0x1d; 0x1e; 0x0a; 0x0a; 0x0a; 0x02; 0x04; 0x09; 0x12; 0x04;
    0x3c; 0x00; 0x40; 0x01; 0x0a; 0x0a; 0x0a; 0x03; 0x04; 0x09; 0x01; 0x12; 0x03; 0x3c; 0x08; 0x10;
    0x0a; 0x0b; 0x0a; 0x04; 0x04; 0x09; 0x02; 0x00; 0x12; 0x03; 0x3d; 0x02; 0x1c; 0x0a; 0x0c; 0x0a;
    0x05; 0x04; 0x09; 0x02; 0x00; 0x04; 0x12; 0x03; 0x3d; 0x02; 0x0a; 0x0a; 0x0c; 0x0a; 0x05; 0x04;
    0x09; 0x02; 0x00; 0x05; 0x12; 0x03; 0x3d; 0x0b; 0x0f; 0x0a; 0x0c; 0x0a; 0x05; 0x04; 0x09; 0x02;
    0x00; 0x01; 0x12; 0x03; 0x3d; 0x10; 0x17; 0x0a; 0x0c; 0x0a; 0x05; 0x04; 0x09; 0x02; 0x00; 0x03;
    0x12; 0x03; 0x3d; 0x1a; 0x1b; 0x0a; 0x0b; 0x0a; 0x04; 0x04; 0x09; 0x02; 0x01; 0x12; 0x03; 0x3e;
    0x02; 0x20; 0x0a; 0x0c; 0x0a; 0x05; 0x04; 0x09; 0x02; 0x01; 0x04; 0x12; 0x03; 0x3e; 0x02; 0x0a;
    0x0a; 0x0c; 0x0a; 0x05; 0x04; 0x09; 0x02; 0x01; 0x06; 0x12; 0x03; 0x3e; 0x0b; 0x13; 0x0a; 0x0c;
    0x0a; 0x05; 0x04; 0x09; 0x02; 0x01; 0x01; 0x12; 0x03; 0x3e; 0x14; 0x1b; 0x0a; 0x0c; 0x0a; 0x05;
    0x04; 0x09; 0x02; 0x01; 0x03; 0x12; 0x03; 0x3e; 0x1e; 0x1f; 0x0a; 0x0b; 0x0a; 0x04; 0x04; 0x09;
    0x02; 0x02; 0x12; 0x03; 0x3f; 0x02; 0x1a; 0x0a; 0x0c; 0x0a; 0x05; 0x04; 0x09; 0x02; 0x02; 0x04;
    0x12; 0x03; 0x3f; 0x02; 0x0a; 0x0a; 0x0c; 0x0a; 0x05; 0x04; 0x09; 0x02; 0x02; 0x05; 0x12; 0x03;
    0x3f; 0x0b; 0x11; 0x0a; 0x0c; 0x0a; 0x05; 0x04; 0x09; 0x02; 0x02; 0x01; 0x12; 0x03; 0x3f; 0x12;
    0x15; 0x0a; 0x0c; 0x0a; 0x05; 0x04; 0x09; 0x02; 0x02; 0x03; 0x12; 0x03; 0x3f; 0x18; 0x19; 0x0a;
    0x0a; 0x0a; 0x02; 0x04; 0x0a; 0x12; 0x04; 0x42; 0x00; 0x46; 0x01; 0x0a; 0x0a; 0x0a; 0x03; 0x04;
    0x0a; 0x01; 0x12; 0x03; 0x42; 0x08; 0x13; 0x0a; 0x0b; 0x0a; 0x04; 0x04; 0x0a; 0x02; 0x00; 0x12;
    0x03; 0x43; 0x02; 0x1c; 0x0a; 0x0c; 0x0a; 0x05; 0x04; 0x0a; 0x02; 0x00; 0x04; 0x12; 0x03; 0x43;
    0x02; 0x0a; 0x0a; 0x0c; 0x0a; 0x05; 0x04; 0x0a; 0x02; 0x00; 0x05; 0x12; 0x03; 0x43; 0x0b; 0x0f;
    0x0a; 0x0c; 0x0a; 0x05; 0x04; 0x0a; 0x02; 0x00; 0x01; 0x12; 0x03; 0x43; 0x10; 0x17; 0x0a; 0x0c;
    0x0a; 0x05; 0x04; 0x0a; 0x02; 0x00; 0x03; 0x12; 0x03; 0x43; 0x1a; 0x1b; 0x0a; 0x0b; 0x0a; 0x04;
    0x04; 0x0a; 0x02; 0x01; 0x12; 0x03; 0x44; 0x02; 0x1e; 0x0a; 0x0c; 0x0a; 0x05; 0x04; 0x0a; 0x02;
    0x01; 0x04; 0x12; 0x03; 0x44; 0x02; 0x0a; 0x0a; 0x0c; 0x0a; 0x05; 0x04; 0x0a; 0x02; 0x01; 0x05;
    0x12; 0x03; 0x44; 0x0b; 0x11; 0x0a; 0x0c; 0x0a; 0x05; 0x04; 0x0a; 0x02; 0x01; 0x01; 0x12; 0x03;
    0x44; 0x12; 0x19; 0x0a; 0x0c; 0x0a; 0x05; 0x04; 0x0a; 0x02; 0x01; 0x03; 0x12; 0x03; 0x44; 0x1c;
    0x1d; 0x0a; 0x0b; 0x0a; 0x04; 0x04; 0x0a; 0x02; 0x02; 0x12; 0x03; 0x45; 0x02; 0x1a; 0x0a; 0x0c;
    0x0a; 0x05; 0x04; 0x0a; 0x02; 0x02; 0x04; 0x12; 0x03; 0x45; 0x02; 0x0a; 0x0a; 0x0c; 0x0a; 0x05;
    0x04; 0x0a; 0x02; 0x02; 0x05; 0x12; 0x03; 0x45; 0x0b; 0x11; 0x0a; 0x0c; 0x0a; 0x05; 0x04; 0x0a;
    0x02; 0x02; 0x01; 0x12; 0x03; 0x45; 0x12; 0x15; 0x0a; 0x0c; 0x0a; 0x05; 0x04; 0x0a; 0x02; 0x02;
    0x03; 0x12; 0x03; 0x45; 0x18; 0x19; 0x0a; 0x17; 0x0a; 0x02; 0x05; 0x00; 0x12; 0x04; 0x49; 0x00;
    0x4d; 0x01; 0x1a; 0x0b; 0x20; 0x64; 0x61; 0x74; 0x61; 0x74; 0x79; 0x70; 0x65; 0x73; 0x0a; 0x0a;
    0x0a; 0x0a; 0x03; 0x05; 0x00; 0x01; 0x12; 0x03; 0x49; 0x05; 0x11; 0x0a; 0x0b; 0x0a; 0x04; 0x05;
    0x00; 0x02; 0x00; 0x12; 0x03; 0x4a; 0x02; 0x0c; 0x0a; 0x0c; 0x0a; 0x05; 0x05; 0x00; 0x02; 0x00;
    0x01; 0x12; 0x03; 0x4a; 0x02; 0x07; 0x0a; 0x0c; 0x0a; 0x05; 0x05; 0x00; 0x02; 0x00; 0x02; 0x12;
    0x03; 0x4a; 0x0a; 0x0b; 0x0a; 0x0b; 0x0a; 0x04; 0x05; 0x00; 0x02; 0x01; 0x12; 0x03; 0x4b; 0x02;
    0x0c; 0x0a; 0x0c; 0x0a; 0x05; 0x05; 0x00; 0x02; 0x01; 0x01; 0x12; 0x03; 0x4b; 0x02; 0x07; 0x0a;
    0x0c; 0x0a; 0x05; 0x05; 0x00; 0x02; 0x01; 0x02; 0x12; 0x03; 0x4b; 0x0a; 0x0b; 0x0a; 0x0b; 0x0a;
    0x04; 0x05; 0x00; 0x02; 0x02; 0x12; 0x03; 0x4c; 0x02; 0x0c; 0x0a; 0x0c; 0x0a; 0x05; 0x05; 0x00;
    0x02; 0x02; 0x01; 0x12; 0x03; 0x4c; 0x02; 0x07; 0x0a; 0x0c; 0x0a; 0x05; 0x05; 0x00; 0x02; 0x02;
    0x02; 0x12; 0x03; 0x4c; 0x0a; 0x0b; 0x0a; 0x0a; 0x0a; 0x02; 0x04; 0x0b; 0x12; 0x04; 0x4f; 0x00;
    0x55; 0x01; 0x0a; 0x0a; 0x0a; 0x03; 0x04; 0x0b; 0x01; 0x12; 0x03; 0x4f; 0x08; 0x10; 0x0a; 0x0b;
    0x0a; 0x04; 0x04; 0x0b; 0x02; 0x00; 0x12; 0x03; 0x50; 0x02; 0x21; 0x0a; 0x0c; 0x0a; 0x05; 0x04;
    0x0b; 0x02; 0x00; 0x04; 0x12; 0x03; 0x50; 0x02; 0x0a; 0x0a; 0x0c; 0x0a; 0x05; 0x04; 0x0b; 0x02;
    0x00; 0x06; 0x12; 0x03; 0x50; 0x0b; 0x17; 0x0a; 0x0c; 0x0a; 0x05; 0x04; 0x0b; 0x02; 0x00; 0x01;
    0x12; 0x03; 0x50; 0x18; 0x1c; 0x0a; 0x0c; 0x0a; 0x05; 0x04; 0x0b; 0x02; 0x00; 0x03; 0x12; 0x03;
    0x50; 0x1f; 0x20; 0x0a; 0x0b; 0x0a; 0x04; 0x04; 0x0b; 0x02; 0x01; 0x12; 0x03; 0x51; 0x02; 0x1f;
    0x0a; 0x0c; 0x0a; 0x05; 0x04; 0x0b; 0x02; 0x01; 0x04; 0x12; 0x03; 0x51; 0x02; 0x0a; 0x0a; 0x0c;
    0x0a; 0x05; 0x04; 0x0b; 0x02; 0x01; 0x06; 0x12; 0x03; 0x51; 0x0b; 0x12; 0x0a; 0x0c; 0x0a; 0x05;
    0x04; 0x0b; 0x02; 0x01; 0x01; 0x12; 0x03; 0x51; 0x13; 0x1a; 0x0a; 0x0c; 0x0a; 0x05; 0x04; 0x0b;
    0x02; 0x01; 0x03; 0x12; 0x03; 0x51; 0x1d; 0x1e; 0x0a; 0x0b; 0x0a; 0x04; 0x04; 0x0b; 0x02; 0x02;
    0x12; 0x03; 0x52; 0x02; 0x19; 0x0a; 0x0c; 0x0a; 0x05; 0x04; 0x0b; 0x02; 0x02; 0x04; 0x12; 0x03;
    0x52; 0x02; 0x0a; 0x0a; 0x0c; 0x0a; 0x05; 0x04; 0x0b; 0x02; 0x02; 0x05; 0x12; 0x03; 0x52; 0x0b;
    0x10; 0x0a; 0x0c; 0x0a; 0x05; 0x04; 0x0b; 0x02; 0x02; 0x01; 0x12; 0x03; 0x52; 0x11; 0x14; 0x0a;
    0x0c; 0x0a; 0x05; 0x04; 0x0b; 0x02; 0x02; 0x03; 0x12; 0x03; 0x52; 0x17; 0x18; 0x0a; 0x0b; 0x0a;
    0x04; 0x04; 0x0b; 0x02; 0x03; 0x12; 0x03; 0x53; 0x02; 0x1b; 0x0a; 0x0c; 0x0a; 0x05; 0x04; 0x0b ].

Definition file_descriptor_proto_data_3 : list Z := [
    0x02; 0x03; 0x04; 0x12; 0x03; 0x53; 0x02; 0x0a; 0x0a; 0x0c; 0x0a; 0x05; 0x04; 0x0b; 0x02; 0x03;
    0x05; 0x12; 0x03; 0x53; 0x0b; 0x10; 0x0a; 0x0c; 0x0a; 0x05; 0x04; 0x0b; 0x02; 0x03; 0x01; 0x12;
    0x03; 0x53; 0x11; 0x16; 0x0a; 0x0c; 0x0a; 0x05; 0x04; 0x0b; 0x02; 0x03; 0x03; 0x12; 0x03; 0x53;
    0x19; 0x1a; 0x0a; 0x0b; 0x0a; 0x04; 0x04; 0x0b; 0x02; 0x04; 0x12; 0x03; 0x54; 0x02; 0x1f; 0x0a;
    0x0c; 0x0a; 0x05; 0x04; 0x0b; 0x02; 0x04; 0x04; 0x12; 0x03; 0x54; 0x02; 0x0a; 0x0a; 0x0c; 0x0a;
    0x05; 0x04; 0x0b; 0x02; 0x04; 0x05; 0x12; 0x03; 0x54; 0x0b; 0x10; 0x0a; 0x0c; 0x0a; 0x05; 0x04;
    0x0b; 0x02; 0x04; 0x01; 0x12; 0x03; 0x54; 0x11; 0x1a; 0x0a; 0x0c; 0x0a; 0x05; 0x04; 0x0b; 0x02;
    0x04; 0x03; 0x12; 0x03; 0x54; 0x1d; 0x1e; 0x0a; 0x0a; 0x0a; 0x02; 0x04; 0x0c; 0x12; 0x04; 0x57;
    0x00; 0x5a; 0x01; 0x0a; 0x0a; 0x0a; 0x03; 0x04; 0x0c; 0x01; 0x12; 0x03; 0x57; 0x08; 0x0f; 0x0a;
    0x0b; 0x0a; 0x04; 0x04; 0x0c; 0x02; 0x00; 0x12; 0x03; 0x58; 0x02; 0x1b; 0x0a; 0x0c; 0x0a; 0x05;
    0x04; 0x0c; 0x02; 0x00; 0x04; 0x12; 0x03; 0x58; 0x02; 0x0a; 0x0a; 0x0c; 0x0a; 0x05; 0x04; 0x0c;
    0x02; 0x00; 0x05; 0x12; 0x03; 0x58; 0x0b; 0x11; 0x0a; 0x0c; 0x0a; 0x05; 0x04; 0x0c; 0x02; 0x00;
    0x01; 0x12; 0x03; 0x58; 0x12; 0x16; 0x0a; 0x0c; 0x0a; 0x05; 0x04; 0x0c; 0x02; 0x00; 0x03; 0x12;
    0x03; 0x58; 0x19; 0x1a; 0x0a; 0x0b; 0x0a; 0x04; 0x04; 0x0c; 0x02; 0x01; 0x12; 0x03; 0x59; 0x02;
    0x1b; 0x0a; 0x0c; 0x0a; 0x05; 0x04; 0x0c; 0x02; 0x01; 0x04; 0x12; 0x03; 0x59; 0x02; 0x0a; 0x0a;
    0x0c; 0x0a; 0x05; 0x04; 0x0c; 0x02; 0x01; 0x05; 0x12; 0x03; 0x59; 0x0b; 0x11; 0x0a; 0x0c; 0x0a;
    0x05; 0x04; 0x0c; 0x02; 0x01; 0x01; 0x12; 0x03; 0x59; 0x12; 0x16; 0x0a; 0x0c; 0x0a; 0x05; 0x04;
    0x0c; 0x02; 0x01; 0x03; 0x12; 0x03; 0x59; 0x19; 0x1a; 0x0a; 0x21; 0x0a; 0x02; 0x04; 0x0d; 0x12;
    0x04; 0x5d; 0x00; 0x64; 0x01; 0x1a; 0x15; 0x20; 0x63; 0x6c; 0x69; 0x65; 0x6e; 0x74; 0x20; 0x74;
    0x6f; 0x70; 0x2d; 0x6c; 0x65; 0x76; 0x6c; 0x20; 0x41; 0x50; 0x49; 0x0a; 0x0a; 0x0a; 0x0a; 0x03;
    0x04; 0x0d; 0x01; 0x12; 0x03; 0x5d; 0x08; 0x0e; 0x0a; 0x0b; 0x0a; 0x04; 0x04; 0x0d; 0x02; 0x00;
    0x12; 0x03; 0x5e; 0x02; 0x1d; 0x0a; 0x0c; 0x0a; 0x05; 0x04; 0x0d; 0x02; 0x00; 0x04; 0x12; 0x03;
    0x5e; 0x02; 0x0a; 0x0a; 0x0c; 0x0a; 0x05; 0x04; 0x0d; 0x02; 0x00; 0x05; 0x12; 0x03; 0x5e; 0x0b;
    0x11; 0x0a; 0x0c; 0x0a; 0x05; 0x04; 0x0d; 0x02; 0x00; 0x01; 0x12; 0x03; 0x5e; 0x12; 0x18; 0x0a;
    0x0c; 0x0a; 0x05; 0x04; 0x0d; 0x02; 0x00; 0x03; 0x12; 0x03; 0x5e; 0x1b; 0x1c; 0x0a; 0x0b; 0x0a;
    0x04; 0x04; 0x0d; 0x02; 0x01; 0x12; 0x03; 0x5f; 0x02; 0x1a; 0x0a; 0x0c; 0x0a; 0x05; 0x04; 0x0d;
    0x02; 0x01; 0x04; 0x12; 0x03; 0x5f; 0x02; 0x0a; 0x0a; 0x0c; 0x0a; 0x05; 0x04; 0x0d; 0x02; 0x01;
    0x06; 0x12; 0x03; 0x5f; 0x0b; 0x11; 0x0a; 0x0c; 0x0a; 0x05; 0x04; 0x0d; 0x02; 0x01; 0x01; 0x12;
    0x03; 0x5f; 0x12; 0x15; 0x0a; 0x0c; 0x0a; 0x05; 0x04; 0x0d; 0x02; 0x01; 0x03; 0x12; 0x03; 0x5f;
    0x18; 0x19; 0x0a; 0x0b; 0x0a; 0x04; 0x04; 0x0d; 0x02; 0x02; 0x12; 0x03; 0x60; 0x02; 0x1a; 0x0a;
    0x0c; 0x0a; 0x05; 0x04; 0x0d; 0x02; 0x02; 0x04; 0x12; 0x03; 0x60; 0x02; 0x0a; 0x0a; 0x0c; 0x0a;
    0x05; 0x04; 0x0d; 0x02; 0x02; 0x06; 0x12; 0x03; 0x60; 0x0b; 0x11; 0x0a; 0x0c; 0x0a; 0x05; 0x04;
    0x0d; 0x02; 0x02; 0x01; 0x12; 0x03; 0x60; 0x12; 0x15; 0x0a; 0x0c; 0x0a; 0x05; 0x04; 0x0d; 0x02;
    0x02; 0x03; 0x12; 0x03; 0x60; 0x18; 0x19; 0x0a; 0x0b; 0x0a; 0x04; 0x04; 0x0d; 0x02; 0x03; 0x12;
    0x03; 0x61; 0x02; 0x1a; 0x0a; 0x0c; 0x0a; 0x05; 0x04; 0x0d; 0x02; 0x03; 0x04; 0x12; 0x03; 0x61;
    0x02; 0x0a; 0x0a; 0x0c; 0x0a; 0x05; 0x04; 0x0d; 0x02; 0x03; 0x06; 0x12; 0x03; 0x61; 0x0b; 0x11;
    0x0a; 0x0c; 0x0a; 0x05; 0x04; 0x0d; 0x02; 0x03; 0x01; 0x12; 0x03; 0x61; 0x12; 0x15; 0x0a; 0x0c;
    0x0a; 0x05; 0x04; 0x0d; 0x02; 0x03; 0x03; 0x12; 0x03; 0x61; 0x18; 0x19; 0x0a; 0x0b; 0x0a; 0x04;
    0x04; 0x0d; 0x02; 0x04; 0x12; 0x03; 0x62; 0x02; 0x1a; 0x0a; 0x0c; 0x0a; 0x05; 0x04; 0x0d; 0x02;
    0x04; 0x04; 0x12; 0x03; 0x62; 0x02; 0x0a; 0x0a; 0x0c; 0x0a; 0x05; 0x04; 0x0d; 0x02; 0x04; 0x06;
    0x12; 0x03; 0x62; 0x0b; 0x11; 0x0a; 0x0c; 0x0a; 0x05; 0x04; 0x0d; 0x02; 0x04; 0x01; 0x12; 0x03;
    0x62; 0x12; 0x15; 0x0a; 0x0c; 0x0a; 0x05; 0x04; 0x0d; 0x02; 0x04; 0x03; 0x12; 0x03; 0x62; 0x18;
    0x19; 0x0a; 0x0b; 0x0a; 0x04; 0x04; 0x0d; 0x02; 0x05; 0x12; 0x03; 0x63; 0x02; 0x1e; 0x0a; 0x0c;
    0x0a; 0x05; 0x04; 0x0d; 0x02; 0x05; 0x04; 0x12; 0x03; 0x63; 0x02; 0x0a; 0x0a; 0x0c; 0x0a; 0x05;
    0x04; 0x0d; 0x02; 0x05; 0x06; 0x12; 0x03; 0x63; 0x0b; 0x13; 0x0a; 0x0c; 0x0a; 0x05; 0x04; 0x0d;
    0x02; 0x05; 0x01; 0x12; 0x03; 0x63; 0x14; 0x19; 0x0a; 0x0c; 0x0a; 0x05; 0x04; 0x0d; 0x02; 0x05;
    0x03; 0x12; 0x03; 0x63; 0x1c; 0x1d; 0x0a; 0x0a; 0x0a; 0x02; 0x04; 0x0e; 0x12; 0x04; 0x66; 0x00;
    0x6e; 0x01; 0x0a; 0x0a; 0x0a; 0x03; 0x04; 0x0e; 0x01; 0x12; 0x03; 0x66; 0x08; 0x0e; 0x0a; 0x0b;
    0x0a; 0x04; 0x04; 0x0e; 0x02; 0x00; 0x12; 0x03; 0x67; 0x02; 0x1d; 0x0a; 0x0c; 0x0a; 0x05; 0x04;
    0x0e; 0x02; 0x00; 0x04; 0x12; 0x03; 0x67; 0x02; 0x0a; 0x0a; 0x0c; 0x0a; 0x05; 0x04; 0x0e; 0x02;
    0x00; 0x05; 0x12; 0x03; 0x67; 0x0b; 0x11; 0x0a; 0x0c; 0x0a; 0x05; 0x04; 0x0e; 0x02; 0x00; 0x01;
    0x12; 0x03; 0x67; 0x12; 0x18; 0x0a; 0x0c; 0x0a; 0x05; 0x04; 0x0e; 0x02; 0x00; 0x03; 0x12; 0x03;
    0x67; 0x1b; 0x1c; 0x0a; 0x0b; 0x0a; 0x04; 0x04; 0x0e; 0x02; 0x01; 0x12; 0x03; 0x68; 0x02; 0x1a;
    0x0a; 0x0c; 0x0a; 0x05; 0x04; 0x0e; 0x02; 0x01; 0x04; 0x12; 0x03; 0x68; 0x02; 0x0a; 0x0a; 0x0c;
    0x0a; 0x05; 0x04; 0x0e; 0x02; 0x01; 0x06; 0x12; 0x03; 0x68; 0x0b; 0x11; 0x0a; 0x0c; 0x0a; 0x05;
    0x04; 0x0e; 0x02; 0x01; 0x01; 0x12; 0x03; 0x68; 0x12; 0x15; 0x0a; 0x0c; 0x0a; 0x05; 0x04; 0x0e;
    0x02; 0x01; 0x03; 0x12; 0x03; 0x68; 0x18; 0x19; 0x0a; 0x0b; 0x0a; 0x04; 0x04; 0x0e; 0x02; 0x02;
    0x12; 0x03; 0x69; 0x02; 0x1a; 0x0a; 0x0c; 0x0a; 0x05; 0x04; 0x0e; 0x02; 0x02; 0x04; 0x12; 0x03;
    0x69; 0x02; 0x0a; 0x0a; 0x0c; 0x0a; 0x05; 0x04; 0x0e; 0x02; 0x02; 0x06; 0x12; 0x03; 0x69; 0x0b;
    0x11; 0x0a; 0x0c; 0x0a; 0x05; 0x04; 0x0e; 0x02; 0x02; 0x01; 0x12; 0x03; 0x69; 0x12; 0x15; 0x0a;
    0x0c; 0x0a; 0x05; 0x04; 0x0e; 0x02; 0x02; 0x03; 0x12; 0x03; 0x69; 0x18; 0x19; 0x0a; 0x0b; 0x0a;
    0x04; 0x04; 0x0e; 0x02; 0x03; 0x12; 0x03; 0x6a; 0x02; 0x1a; 0x0a; 0x0c; 0x0a; 0x05; 0x04; 0x0e;
    0x02; 0x03; 0x04; 0x12; 0x03; 0x6a; 0x02; 0x0a; 0x0a; 0x0c; 0x0a; 0x05; 0x04; 0x0e; 0x02; 0x03;
    0x06; 0x12; 0x03; 0x6a; 0x0b; 0x11; 0x0a; 0x0c; 0x0a; 0x05; 0x04; 0x0e; 0x02; 0x03; 0x01; 0x12;
    0x03; 0x6a; 0x12; 0x15; 0x0a; 0x0c; 0x0a; 0x05; 0x04; 0x0e; 0x02; 0x03; 0x03; 0x12; 0x03; 0x6a;
    0x18; 0x19; 0x0a; 0x0b; 0x0a; 0x04; 0x04; 0x0e; 0x02; 0x04; 0x12; 0x03; 0x6b; 0x02; 0x1a; 0x0a;
    0x0c; 0x0a; 0x05; 0x04; 0x0e; 0x02; 0x04; 0x04; 0x12; 0x03; 0x6b; 0x02; 0x0a; 0x0a; 0x0c; 0x0a;
    0x05; 0x04; 0x0e; 0x02; 0x04; 0x06; 0x12; 0x03; 0x6b; 0x0b; 0x11; 0x0a; 0x0c; 0x0a; 0x05; 0x04;
    0x0e; 0x02; 0x04; 0x01; 0x12; 0x03; 0x6b; 0x12; 0x15; 0x0a; 0x0c; 0x0a; 0x05; 0x04; 0x0e; 0x02;
    0x04; 0x03; 0x12; 0x03; 0x6b; 0x18; 0x19; 0x0a; 0x0b; 0x0a; 0x04; 0x04; 0x0e; 0x02; 0x05; 0x12;
    0x03; 0x6c; 0x02; 0x1e; 0x0a; 0x0c; 0x0a; 0x05; 0x04; 0x0e; 0x02; 0x05; 0x04; 0x12; 0x03; 0x6c;
    0x02; 0x0a; 0x0a; 0x0c; 0x0a; 0x05; 0x04; 0x0e; 0x02; 0x05; 0x06; 0x12; 0x03; 0x6c; 0x0b; 0x13;
    0x0a; 0x0c; 0x0a; 0x05; 0x04; 0x0e; 0x02; 0x05; 0x01; 0x12; 0x03; 0x6c; 0x14; 0x19; 0x0a; 0x0c;
    0x0a; 0x05; 0x04; 0x0e; 0x02; 0x05; 0x03; 0x12; 0x03; 0x6c; 0x1c; 0x1d; 0x0a; 0x0b; 0x0a; 0x04;
    0x04; 0x0e; 0x02; 0x06; 0x12; 0x03; 0x6d; 0x02; 0x24; 0x0a; 0x0c; 0x0a; 0x05; 0x04; 0x0e; 0x02;
    0x06; 0x04; 0x12; 0x03; 0x6d; 0x02; 0x0a; 0x0a; 0x0c; 0x0a; 0x05; 0x04; 0x0e; 0x02; 0x06; 0x06;
    0x12; 0x03; 0x6d; 0x0b; 0x16; 0x0a; 0x0c; 0x0a; 0x05; 0x04; 0x0e; 0x02; 0x06; 0x01; 0x12; 0x03;
    0x6d; 0x17; 0x1f; 0x0a; 0x0c; 0x0a; 0x05; 0x04; 0x0e; 0x02; 0x06; 0x03; 0x12; 0x03; 0x6d; 0x22;
    0x23; 0x0a; 0x1a; 0x0a; 0x02; 0x04; 0x0f; 0x12; 0x04; 0x73; 0x00; 0x79; 0x01; 0x1a; 0x0e; 0x0a;
    0x20; 0x4c; 0x65; 0x61; 0x64; 0x65; 0x72; 0x73; 0x68; 0x69; 0x70; 0x0a; 0x0a; 0x0a; 0x0a; 0x0a;
    0x03; 0x04; 0x0f; 0x01; 0x12; 0x03; 0x73; 0x08; 0x0f; 0x0a; 0x0b; 0x0a; 0x04; 0x04; 0x0f; 0x02;
    0x00; 0x12; 0x03; 0x74; 0x02; 0x1b; 0x0a; 0x0c; 0x0a; 0x05; 0x04; 0x0f; 0x02; 0x00; 0x04; 0x12;
    0x03; 0x74; 0x02; 0x0a; 0x0a; 0x0c; 0x0a; 0x05; 0x04; 0x0f; 0x02; 0x00; 0x05; 0x12; 0x03; 0x74;
    0x0b; 0x11; 0x0a; 0x0c; 0x0a; 0x05; 0x04; 0x0f; 0x02; 0x00; 0x01; 0x12; 0x03; 0x74; 0x12; 0x16;
    0x0a; 0x0c; 0x0a; 0x05; 0x04; 0x0f; 0x02; 0x00; 0x03; 0x12; 0x03; 0x74; 0x19; 0x1a; 0x0a; 0x0b;
    0x0a; 0x04; 0x04; 0x0f; 0x02; 0x01; 0x12; 0x03; 0x75; 0x02; 0x28; 0x0a; 0x0c; 0x0a; 0x05; 0x04;
    0x0f; 0x02; 0x01; 0x04; 0x12; 0x03; 0x75; 0x02; 0x0a; 0x0a; 0x0c; 0x0a; 0x05; 0x04; 0x0f; 0x02;
    0x01; 0x05; 0x12; 0x03; 0x75; 0x0b; 0x11; 0x0a; 0x0c; 0x0a; 0x05; 0x04; 0x0f; 0x02; 0x01; 0x01;
    0x12; 0x03; 0x75; 0x12; 0x23; 0x0a; 0x0c; 0x0a; 0x05; 0x04; 0x0f; 0x02; 0x01; 0x03; 0x12; 0x03;
    0x75; 0x26; 0x27; 0x0a; 0x0b; 0x0a; 0x04; 0x04; 0x0f; 0x02; 0x02; 0x12; 0x03; 0x76; 0x02; 0x28;
    0x0a; 0x0c; 0x0a; 0x05; 0x04; 0x0f; 0x02; 0x02; 0x04; 0x12; 0x03; 0x76; 0x02; 0x0a; 0x0a; 0x0c;
    0x0a; 0x05; 0x04; 0x0f; 0x02; 0x02; 0x05; 0x12; 0x03; 0x76; 0x0b; 0x11; 0x0a; 0x0c; 0x0a; 0x05;
    0x04; 0x0f; 0x02; 0x02; 0x01; 0x12; 0x03; 0x76; 0x12; 0x23; 0x0a; 0x0c; 0x0a; 0x05; 0x04; 0x0f;
    0x02; 0x02; 0x03; 0x12; 0x03; 0x76; 0x26; 0x27; 0x0a; 0x0b; 0x0a; 0x04; 0x04; 0x0f; 0x02; 0x03;
    0x12; 0x03; 0x77; 0x02; 0x29; 0x0a; 0x0c; 0x0a; 0x05; 0x04; 0x0f; 0x02; 0x03; 0x04; 0x12; 0x03;
    0x77; 0x02; 0x0a; 0x0a; 0x0c; 0x0a; 0x05; 0x04; 0x0f; 0x02; 0x03; 0x05; 0x12; 0x03; 0x77; 0x0b;
    0x11; 0x0a; 0x0c; 0x0a; 0x05; 0x04; 0x0f; 0x02; 0x03; 0x01; 0x12; 0x03; 0x77; 0x12; 0x24; 0x0a;
    0x0c; 0x0a; 0x05; 0x04; 0x0f; 0x02; 0x03; 0x03; 0x12; 0x03; 0x77; 0x27; 0x28; 0x0a; 0x0b; 0x0a;
    0x04; 0x04; 0x0f; 0x02; 0x04; 0x12; 0x03; 0x78; 0x02; 0x29; 0x0a; 0x0c; 0x0a; 0x05; 0x04; 0x0f;
    0x02; 0x04; 0x04; 0x12; 0x03; 0x78; 0x02; 0x0a; 0x0a; 0x0c; 0x0a; 0x05; 0x04; 0x0f; 0x02; 0x04;
    0x05; 0x12; 0x03; 0x78; 0x0b; 0x11; 0x0a; 0x0c; 0x0a; 0x05; 0x04; 0x0f; 0x02; 0x04; 0x01; 0x12;
    0x03; 0x78; 0x12; 0x24; 0x0a; 0x0c; 0x0a; 0x05; 0x04; 0x0f; 0x02; 0x04; 0x03; 0x12; 0x03; 0x78;
    0x27; 0x28; 0x0a; 0x0a; 0x0a; 0x02; 0x04; 0x10; 0x12; 0x04; 0x7b; 0x00; 0x7e; 0x01; 0x0a; 0x0a;
    0x0a; 0x03; 0x04; 0x10; 0x01; 0x12; 0x03; 0x7b; 0x08; 0x0f; 0x0a; 0x0b; 0x0a; 0x04; 0x04; 0x10;
    0x02; 0x00; 0x12; 0x03; 0x7c; 0x02; 0x1c; 0x0a; 0x0c; 0x0a; 0x05; 0x04; 0x10; 0x02; 0x00; 0x04;
    0x12; 0x03; 0x7c; 0x02; 0x0a; 0x0a; 0x0c; 0x0a; 0x05; 0x04; 0x10; 0x02; 0x00; 0x05; 0x12; 0x03;
    0x7c; 0x0b; 0x0f; 0x0a; 0x0c; 0x0a; 0x05; 0x04; 0x10; 0x02; 0x00; 0x01; 0x12; 0x03; 0x7c; 0x10;
    0x17; 0x0a; 0x0c; 0x0a; 0x05; 0x04; 0x10; 0x02; 0x00; 0x03; 0x12; 0x03; 0x7c; 0x1a; 0x1b; 0x0a;
    0x0b; 0x0a; 0x04; 0x04; 0x10; 0x02; 0x01; 0x12; 0x03; 0x7d; 0x02; 0x1b; 0x0a; 0x0c; 0x0a; 0x05;
    0x04; 0x10; 0x02; 0x01; 0x04; 0x12; 0x03; 0x7d; 0x02; 0x0a; 0x0a; 0x0c; 0x0a; 0x05; 0x04; 0x10;
    0x02; 0x01; 0x05; 0x12; 0x03; 0x7d; 0x0b; 0x11; 0x0a; 0x0c; 0x0a; 0x05; 0x04; 0x10; 0x02; 0x01;
    0x01; 0x12; 0x03; 0x7d; 0x12; 0x16; 0x0a; 0x0c; 0x0a; 0x05; 0x04; 0x10; 0x02; 0x01; 0x03; 0x12;
    0x03; 0x7d; 0x19; 0x1a; 0x0a; 0x1d; 0x0a; 0x02; 0x04; 0x11; 0x12; 0x06; 0x83; 0x01; 0x00; 0x88;
    0x01; 0x01; 0x1a; 0x0f; 0x0a; 0x20; 0x52; 0x65; 0x70; 0x6c; 0x69; 0x63; 0x61; 0x74; 0x69; 0x6f;
    0x6e; 0x0a; 0x0a; 0x0a; 0x0b; 0x0a; 0x03; 0x04; 0x11; 0x01; 0x12; 0x04; 0x83; 0x01; 0x08; 0x0e;
    0x0a; 0x0c; 0x0a; 0x04; 0x04; 0x11; 0x02; 0x00; 0x12; 0x04; 0x84; 0x01; 0x02; 0x20; 0x0a; 0x0d;
    0x0a; 0x05; 0x04; 0x11; 0x02; 0x00; 0x04; 0x12; 0x04; 0x84; 0x01; 0x02; 0x0a; 0x0a; 0x0d; 0x0a;
    0x05; 0x04; 0x11; 0x02; 0x00; 0x05; 0x12; 0x04; 0x84; 0x01; 0x0b; 0x11; 0x0a; 0x0d; 0x0a; 0x05;
    0x04; 0x11; 0x02; 0x00; 0x01; 0x12; 0x04; 0x84; 0x01; 0x12; 0x1b; 0x0a; 0x0d; 0x0a; 0x05; 0x04;
    0x11; 0x02; 0x00; 0x03; 0x12; 0x04; 0x84; 0x01; 0x1e; 0x1f; 0x0a; 0x0c; 0x0a; 0x04; 0x04; 0x11;
    0x02; 0x01; 0x12; 0x04; 0x85; 0x01; 0x02; 0x20; 0x0a; 0x0d; 0x0a; 0x05; 0x04; 0x11; 0x02; 0x01;
    0x04; 0x12; 0x04; 0x85; 0x01; 0x02; 0x0a; 0x0a; 0x0d; 0x0a; 0x05; 0x04; 0x11; 0x02; 0x01; 0x05;
    0x12; 0x04; 0x85; 0x01; 0x0b; 0x11; 0x0a; 0x0d; 0x0a; 0x05; 0x04; 0x11; 0x02; 0x01; 0x01; 0x12;
    0x04; 0x85; 0x01; 0x12; 0x1b; 0x0a; 0x0d; 0x0a; 0x05; 0x04; 0x11; 0x02; 0x01; 0x03; 0x12; 0x04;
    0x85; 0x01; 0x1e; 0x1f; 0x0a; 0x0c; 0x0a; 0x04; 0x04; 0x11; 0x02; 0x02; 0x12; 0x04; 0x86; 0x01;
    0x02; 0x1e; 0x0a; 0x0d; 0x0a; 0x05; 0x04; 0x11; 0x02; 0x02; 0x04; 0x12; 0x04; 0x86; 0x01; 0x02;
    0x0a; 0x0a; 0x0d; 0x0a; 0x05; 0x04; 0x11; 0x02; 0x02; 0x06; 0x12; 0x04; 0x86; 0x01; 0x0b; 0x13;
    0x0a; 0x0d; 0x0a; 0x05; 0x04; 0x11; 0x02; 0x02; 0x01; 0x12; 0x04; 0x86; 0x01; 0x14; 0x19; 0x0a;
    0x0d; 0x0a; 0x05; 0x04; 0x11; 0x02; 0x02; 0x03; 0x12; 0x04; 0x86; 0x01; 0x1c; 0x1d; 0x0a; 0x0c;
    0x0a; 0x04; 0x04; 0x11; 0x02; 0x03; 0x12; 0x04; 0x87; 0x01; 0x02; 0x28; 0x0a; 0x0d; 0x0a; 0x05;
    0x04; 0x11; 0x02; 0x03; 0x04; 0x12; 0x04; 0x87; 0x01; 0x02; 0x0a; 0x0a; 0x0d; 0x0a; 0x05; 0x04;
    0x11; 0x02; 0x03; 0x05; 0x12; 0x04; 0x87; 0x01; 0x0b; 0x11; 0x0a; 0x0d; 0x0a; 0x05; 0x04; 0x11;
    0x02; 0x03; 0x01; 0x12; 0x04; 0x87; 0x01; 0x12; 0x23; 0x0a; 0x0d; 0x0a; 0x05; 0x04; 0x11; 0x02;
    0x03; 0x03; 0x12; 0x04; 0x87; 0x01; 0x26; 0x27; 0x0a; 0x0c; 0x0a; 0x02; 0x04; 0x12; 0x12; 0x06;
    0x8a; 0x01; 0x00; 0x8e; 0x01; 0x01; 0x0a; 0x0b; 0x0a; 0x03; 0x04; 0x12; 0x01; 0x12; 0x04; 0x8a;
    0x01; 0x08; 0x11; 0x0a; 0x0c; 0x0a; 0x04; 0x04; 0x12; 0x02; 0x00; 0x12; 0x04; 0x8b; 0x01; 0x02;
    0x1d; 0x0a; 0x0d; 0x0a; 0x05; 0x04; 0x12; 0x02; 0x00; 0x04; 0x12; 0x04; 0x8b; 0x01; 0x02; 0x0a;
    0x0a; 0x0d; 0x0a; 0x05; 0x04; 0x12; 0x02; 0x00; 0x05; 0x12; 0x04; 0x8b; 0x01; 0x0b; 0x0f; 0x0a;
    0x0d; 0x0a; 0x05; 0x04; 0x12; 0x02; 0x00; 0x01; 0x12; 0x04; 0x8b; 0x01; 0x10; 0x18; 0x0a; 0x0d;
    0x0a; 0x05; 0x04; 0x12; 0x02; 0x00; 0x03; 0x12; 0x04; 0x8b; 0x01; 0x1b; 0x1c; 0x0a; 0x0c; 0x0a;
    0x04; 0x04; 0x12; 0x02; 0x01; 0x12; 0x04; 0x8c; 0x01; 0x02; 0x29; 0x0a; 0x0d; 0x0a; 0x05; 0x04;
    0x12; 0x02; 0x01; 0x04; 0x12; 0x04; 0x8c; 0x01; 0x02; 0x0a; 0x0a; 0x0d; 0x0a; 0x05; 0x04; 0x12;
    0x02; 0x01; 0x05; 0x12; 0x04; 0x8c; 0x01; 0x0b; 0x11; 0x0a; 0x0d; 0x0a; 0x05; 0x04; 0x12; 0x02;
    0x01; 0x01; 0x12; 0x04; 0x8c; 0x01; 0x12; 0x24; 0x0a; 0x0d; 0x0a; 0x05; 0x04; 0x12; 0x02; 0x01;
    0x03; 0x12; 0x04; 0x8c; 0x01; 0x27; 0x28; 0x0a; 0x0c; 0x0a; 0x04; 0x04; 0x12; 0x02; 0x02; 0x12;
    0x04; 0x8d; 0x01; 0x02; 0x29; 0x0a; 0x0d; 0x0a; 0x05; 0x04; 0x12; 0x02; 0x02; 0x04; 0x12; 0x04;
    0x8d; 0x01; 0x02; 0x0a; 0x0a; 0x0d; 0x0a; 0x05; 0x04; 0x12; 0x02; 0x02; 0x05; 0x12; 0x04; 0x8d;
    0x01; 0x0b; 0x11; 0x0a; 0x0d; 0x0a; 0x05; 0x04; 0x12; 0x02; 0x02; 0x01; 0x12; 0x04; 0x8d; 0x01;
    0x12; 0x24; 0x0a; 0x0d; 0x0a; 0x05; 0x04; 0x12; 0x02; 0x02; 0x03; 0x12; 0x04; 0x8d; 0x01; 0x27;
    0x28; 0x0a; 0x2d; 0x0a; 0x02; 0x04; 0x13; 0x12; 0x06; 0x91; 0x01; 0x00; 0x97; 0x01; 0x01; 0x1a ].

Definition file_descriptor_proto_data_4 : list Z := [
    0x1f; 0x20; 0x73; 0x65; 0x72; 0x76; 0x65; 0x72; 0x3c; 0x2d; 0x3e; 0x73; 0x65; 0x72; 0x76; 0x65;
    0x72; 0x20; 0x74; 0x6f; 0x70; 0x2d; 0x6c; 0x65; 0x76; 0x65; 0x6c; 0x20; 0x61; 0x70; 0x69; 0x0a;
    0x0a; 0x0b; 0x0a; 0x03; 0x04; 0x13; 0x01; 0x12; 0x04; 0x91; 0x01; 0x08; 0x0f; 0x0a; 0x0c; 0x0a;
    0x04; 0x04; 0x13; 0x02; 0x00; 0x12; 0x04; 0x92; 0x01; 0x02; 0x1c; 0x0a; 0x0d; 0x0a; 0x05; 0x04;
    0x13; 0x02; 0x00; 0x04; 0x12; 0x04; 0x92; 0x01; 0x02; 0x0a; 0x0a; 0x0d; 0x0a; 0x05; 0x04; 0x13;
    0x02; 0x00; 0x05; 0x12; 0x04; 0x92; 0x01; 0x0b; 0x11; 0x0a; 0x0d; 0x0a; 0x05; 0x04; 0x13; 0x02;
    0x00; 0x01; 0x12; 0x04; 0x92; 0x01; 0x12; 0x17; 0x0a; 0x0d; 0x0a; 0x05; 0x04; 0x13; 0x02; 0x00;
    0x03; 0x12; 0x04; 0x92; 0x01; 0x1a; 0x1b; 0x0a; 0x0c; 0x0a; 0x04; 0x04; 0x13; 0x02; 0x01; 0x12;
    0x04; 0x93; 0x01; 0x02; 0x20; 0x0a; 0x0d; 0x0a; 0x05; 0x04; 0x13; 0x02; 0x01; 0x04; 0x12; 0x04;
    0x93; 0x01; 0x02; 0x0a; 0x0a; 0x0d; 0x0a; 0x05; 0x04; 0x13; 0x02; 0x01; 0x06; 0x12; 0x04; 0x93;
    0x01; 0x0b; 0x12; 0x0a; 0x0d; 0x0a; 0x05; 0x04; 0x13; 0x02; 0x01; 0x01; 0x12; 0x04; 0x93; 0x01;
    0x13; 0x1b; 0x0a; 0x0d; 0x0a; 0x05; 0x04; 0x13; 0x02; 0x01; 0x03; 0x12; 0x04; 0x93; 0x01; 0x1e;
    0x1f; 0x0a; 0x0c; 0x0a; 0x04; 0x04; 0x13; 0x02; 0x02; 0x12; 0x04; 0x94; 0x01; 0x02; 0x20; 0x0a;
    0x0d; 0x0a; 0x05; 0x04; 0x13; 0x02; 0x02; 0x04; 0x12; 0x04; 0x94; 0x01; 0x02; 0x0a; 0x0a; 0x0d;
    0x0a; 0x05; 0x04; 0x13; 0x02; 0x02; 0x06; 0x12; 0x04; 0x94; 0x01; 0x0b; 0x12; 0x0a; 0x0d; 0x0a;
    0x05; 0x04; 0x13; 0x02; 0x02; 0x01; 0x12; 0x04; 0x94; 0x01; 0x13; 0x1b; 0x0a; 0x0d; 0x0a; 0x05;
    0x04; 0x13; 0x02; 0x02; 0x03; 0x12; 0x04; 0x94; 0x01; 0x1e; 0x1f; 0x0a; 0x0c; 0x0a; 0x04; 0x04;
    0x13; 0x02; 0x03; 0x12; 0x04; 0x95; 0x01; 0x02; 0x1d; 0x0a; 0x0d; 0x0a; 0x05; 0x04; 0x13; 0x02;
    0x03; 0x04; 0x12; 0x04; 0x95; 0x01; 0x02; 0x0a; 0x0a; 0x0d; 0x0a; 0x05; 0x04; 0x13; 0x02; 0x03;
    0x06; 0x12; 0x04; 0x95; 0x01; 0x0b; 0x11; 0x0a; 0x0d; 0x0a; 0x05; 0x04; 0x13; 0x02; 0x03; 0x01;
    0x12; 0x04; 0x95; 0x01; 0x12; 0x18; 0x0a; 0x0d; 0x0a; 0x05; 0x04; 0x13; 0x02; 0x03; 0x03; 0x12;
    0x04; 0x95; 0x01; 0x1b; 0x1c; 0x0a; 0x0c; 0x0a; 0x04; 0x04; 0x13; 0x02; 0x04; 0x12; 0x04; 0x96;
    0x01; 0x02; 0x24; 0x0a; 0x0d; 0x0a; 0x05; 0x04; 0x13; 0x02; 0x04; 0x04; 0x12; 0x04; 0x96; 0x01;
    0x02; 0x0a; 0x0a; 0x0d; 0x0a; 0x05; 0x04; 0x13; 0x02; 0x04; 0x06; 0x12; 0x04; 0x96; 0x01; 0x0b;
    0x14; 0x0a; 0x0d; 0x0a; 0x05; 0x04; 0x13; 0x02; 0x04; 0x01; 0x12; 0x04; 0x96; 0x01; 0x15; 0x1f;
    0x0a; 0x0d; 0x0a; 0x05; 0x04; 0x13; 0x02; 0x04; 0x03; 0x12; 0x04; 0x96; 0x01; 0x22; 0x23 ].

Definition file_descriptor_proto_data : list Z :=
  file_descriptor_proto_data_1 ++ file_descriptor_proto_data_2 ++ file_descriptor_proto_data_3 ++ file_descriptor_proto_data_4.

(** [parse] is the crate's [parse_from_bytes] for descriptors, [FD] what it returns. *)
Definition parse_descriptor_proto {FD : Type} (parse : list Z -> option FD) : Outcome FD :=
  unwrap (parse file_descriptor_proto_data).

(** ** The encoding of a descriptor *)

Definition label_code (l : Label) : Z :=
  match l with LABEL_OPTIONAL => 1 | LABEL_REQUIRED => 2 | LABEL_REPEATED => 3 end.

Definition type_code (ty : FieldType) : Z :=
  match ty with
  | TYPE_UINT64 => 4
  | TYPE_BOOL => 8
  | TYPE_STRING => 9
  | TYPE_MESSAGE _ => 11
  | TYPE_BYTES => 12
  | TYPE_ENUM _ => 14
  end.

Definition type_name (ty : FieldType) : option string :=
  match ty with TYPE_MESSAGE n | TYPE_ENUM n => Some n | _ => None end.

Definition enc_field (fp : FieldDescriptorProto) : list Z :=
  enc_string 1 (fp_name fp) ++ enc_u64 3 (fp_number fp) ++ enc_u64 4 (label_code (fp_label fp)) ++
  enc_u64 5 (type_code (fp_type fp)) ++ enc_opt (enc_string 6) (type_name (fp_type fp)).

Definition enc_message (mp : DescriptorProto) : list Z :=
  enc_string 1 (mp_name mp) ++ enc_all (fun fp => enc_bytes 2 (enc_field fp)) (mp_field mp).

Definition enc_enum (ep : EnumDescriptorProto) : list Z :=
  enc_string 1 (ep_name ep) ++ enc_all (fun v => enc_bytes 2 (enc_string 1 v.1 ++ enc_u64 2 v.2)) (ep_value ep).

(** A file with its source information. *)
Definition enc_file (fd : FileDescriptorProto) (info : list Z) : list Z :=
  enc_string 1 (file_name fd) ++ enc_string 2 (file_package fd) ++
  enc_all (fun mp => enc_bytes 4 (enc_message mp)) (file_message_type fd) ++
  enc_all (fun ep => enc_bytes 5 (enc_enum ep)) (file_enum_type fd) ++ enc_bytes 9 info.

(** ** Looking up *)

(** The crate names a field in Rust after its name in the file, but for keywords. *)
Definition rust_name (name : string) : string :=
  if bool_decide (name = "type") then "field_type" else name.

Definition find_message (fd : FileDescriptorProto) (type_name : string) : option DescriptorProto :=
  List.find (fun m => bool_decide (type_name = "." +:+ file_package fd +:+ "." +:+ mp_name m)) (file_message_type fd).

Definition find_field (m : DescriptorProto) (name : string) : option FieldDescriptorProto :=
  List.find (fun f => bool_decide (name = rust_name (fp_name f))) (mp_field m).

(** The bytes encode the declarations, and where they are in the file. *)
Definition source_info : list Z := drop 1858 file_descriptor_proto_data.

Lemma descriptor_encodes : file_descriptor_proto_data = enc_file rasputin_proto source_info.
Proof. vm_compute. reflexivity. Qed.
