(* ===== verification/Reflection.v ===== *)
(** * Reflection

    The [descriptor_static] of every generated message: the table of its fields' names
    and accessors, from which the protobuf crate formats and inspects messages without
    knowing their type.  An accessor gives the values of its field, as dynamic values. *)

From stdpp Require Import base tactics option list numbers strings.
From Stdlib Require Import ZArith Lia.
From S2P Require Import Prelude Crates Messages Protobuf Descriptor.

#[local] Set Warnings "-register-all".
(** A dynamic value; a message by the values of its fields. *)
Inductive DynValue : Type :=
| DynBytes (b : list Z)
| DynString (s : string)
| DynU64 (v : Z)
| DynBool (b : bool)
| DynEnum (v : Z)
| DynMessage (fields : list (string * list DynValue)).
Abbreviation DynFields := (list (string * list DynValue)).

(** The kind of accessor a field has. *)
Inductive AccessorKind : Type :=
| SingularBytes | SingularString | SingularU64 | SingularBool | SingularEnum | SingularMessage | RepeatedMessage.

Record FieldAccessor (M : Type) : Type := mkAccessor {
  fa_name : string;
  fa_kind : AccessorKind;
  fa_get : M -> list DynValue;
}.
Arguments mkAccessor {M}.
Arguments fa_name {M}.
Arguments fa_kind {M}.
Arguments fa_get {M}.

Record MessageDescriptor (M : Type) : Type := mkDescriptor {
  md_name : string;
  md_fields : list (FieldAccessor M);
}.
Arguments mkDescriptor {M}.
Arguments md_name {M}.
Arguments md_fields {M}.

(** A message seen through its descriptor. *)
Definition reflect {M} (d : MessageDescriptor M) (m : M) : DynFields :=
  map (fun a => (fa_name a, fa_get a m)) (md_fields d).

(** [make_singular_*_accessor(name, has, get)] *)
Definition make_singular {M A} (k : AccessorKind) (dyn : A -> DynValue) (name : string) (has : M -> bool) (get : M -> A)
  : FieldAccessor M :=
  mkAccessor name k (fun m => if has m then [dyn (get m)] else []).

Section Accessors.
Context {M : Type}.
Definition make_singular_bytes_accessor (name : string) (has : M -> bool) (get : M -> list Z) : FieldAccessor M :=
  make_singular SingularBytes DynBytes name has get.
Definition make_singular_string_accessor (name : string) (has : M -> bool) (get : M -> string) : FieldAccessor M :=
  make_singular SingularString DynString name has get.
Definition make_singular_u64_accessor (name : string) (has : M -> bool) (get : M -> Z) : FieldAccessor M :=
  make_singular SingularU64 DynU64 name has get.
Definition make_singular_bool_accessor (name : string) (has : M -> bool) (get : M -> bool) : FieldAccessor M :=
  make_singular SingularBool DynBool name has get.
Definition make_singular_enum_accessor {E} (value : E -> Z) (name : string) (has : M -> bool) (get : M -> E)
  : FieldAccessor M :=
  make_singular SingularEnum (fun e => DynEnum (value e)) name has get.
Definition make_singular_message_accessor {T} (d : MessageDescriptor T) (name : string) (has : M -> bool) (get : M -> T)
  : FieldAccessor M :=
  make_singular SingularMessage (fun t => DynMessage (reflect d t)) name has get.
Definition make_repeated_message_accessor {T} (d : MessageDescriptor T) (name : string) (get : M -> list T)
  : FieldAccessor M :=
  mkAccessor name RepeatedMessage (fun m => map (fun t => DynMessage (reflect d t)) (get m)).
End Accessors.

Section Reflection.
Context `{PB : ProtobufRuntime}.

Definition SetReq_descriptor_static : MessageDescriptor SetReq := mkDescriptor "SetReq"
  [ make_singular_bytes_accessor "key" SetReq_has_key SetReq_get_key
  ; make_singular_bytes_accessor "value" SetReq_has_value SetReq_get_value ].

Definition SetRes_descriptor_static : MessageDescriptor SetRes := mkDescriptor "SetRes"
  [ make_singular_bool_accessor "success" SetRes_has_success SetRes_get_success
  ; make_singular_u64_accessor "txid" SetRes_has_txid SetRes_get_txid
  ; make_singular_string_accessor "err" SetRes_has_err SetRes_get_err ].

Definition GetReq_descriptor_static : MessageDescriptor GetReq := mkDescriptor "GetReq"
  [ make_singular_bytes_accessor "key" GetReq_has_key GetReq_get_key ].

Definition GetRes_descriptor_static : MessageDescriptor GetRes := mkDescriptor "GetRes"
  [ make_singular_bool_accessor "success" GetRes_has_success GetRes_get_success
  ; make_singular_u64_accessor "txid" GetRes_has_txid GetRes_get_txid
  ; make_singular_bytes_accessor "value" GetRes_has_value GetRes_get_value
  ; make_singular_string_accessor "err" GetRes_has_err GetRes_get_err ].

Definition CASReq_descriptor_static : MessageDescriptor CASReq := mkDescriptor "CASReq"
  [ make_singular_bytes_accessor "key" CASReq_has_key CASReq_get_key
  ; make_singular_bytes_accessor "new_value" CASReq_has_new_value CASReq_get_new_value
  ; make_singular_bytes_accessor "old_value" CASReq_has_old_value CASReq_get_old_value ].

Definition CASRes_descriptor_static : MessageDescriptor CASRes := mkDescriptor "CASRes"
  [ make_singular_bool_accessor "success" CASRes_has_success CASRes_get_success
  ; make_singular_u64_accessor "txid" CASRes_has_txid CASRes_get_txid
  ; make_singular_bytes_accessor "value" CASRes_has_value CASRes_get_value
  ; make_singular_string_accessor "err" CASRes_has_err CASRes_get_err ].

Definition DelReq_descriptor_static : MessageDescriptor DelReq := mkDescriptor "DelReq"
  [ make_singular_bytes_accessor "key" DelReq_has_key DelReq_get_key ].

Definition DelRes_descriptor_static : MessageDescriptor DelRes := mkDescriptor "DelRes"
  [ make_singular_bool_accessor "success" DelRes_has_success DelRes_get_success
  ; make_singular_u64_accessor "txid" DelRes_has_txid DelRes_get_txid
  ; make_singular_bytes_accessor "value" DelRes_has_value DelRes_get_value
  ; make_singular_string_accessor "err" DelRes_has_err DelRes_get_err ].

Definition WatchReq_descriptor_static : MessageDescriptor WatchReq := mkDescriptor "WatchReq"
  [ make_singular_bytes_accessor "key" WatchReq_has_key WatchReq_get_key
  ; make_singular_u64_accessor "last_txid" WatchReq_has_last_txid WatchReq_get_last_txid
  ; make_singular_bool_accessor "recursive" WatchReq_has_recursive WatchReq_get_recursive
  ; make_singular_bool_accessor "historical" WatchReq_has_historical WatchReq_get_historical ].

Definition Version_descriptor_static : MessageDescriptor Version := mkDescriptor "Version"
  [ make_singular_u64_accessor "txid" Version_has_txid Version_get_txid
  ; make_singular_u64_accessor "term" Version_has_term Version_get_term ].

Definition Mutation_descriptor_static : MessageDescriptor Mutation := mkDescriptor "Mutation"
  [ make_singular_enum_accessor MutationType_value "field_type" Mutation_has_field_type Mutation_get_field_type
  ; make_singular_message_accessor Version_descriptor_static "version" Mutation_has_version Mutation_get_version
  ; make_singular_bytes_accessor "key" Mutation_has_key Mutation_get_key
  ; make_singular_bytes_accessor "value" Mutation_has_value Mutation_get_value
  ; make_singular_bytes_accessor "old_value" Mutation_has_old_value Mutation_get_old_value ].

Definition WatchRes_descriptor_static : MessageDescriptor WatchRes := mkDescriptor "WatchRes"
  [ make_singular_bool_accessor "success" WatchRes_has_success WatchRes_get_success
  ; make_repeated_message_accessor Mutation_descriptor_static "history" WatchRes_get_history
  ; make_singular_string_accessor "err" WatchRes_has_err WatchRes_get_err ].

Definition RedirectRes_descriptor_static : MessageDescriptor RedirectRes := mkDescriptor "RedirectRes"
  [ make_singular_bool_accessor "success" RedirectRes_has_success RedirectRes_get_success
  ; make_singular_string_accessor "address" RedirectRes_has_address RedirectRes_get_address
  ; make_singular_string_accessor "err" RedirectRes_has_err RedirectRes_get_err ].

Definition CliReq_descriptor_static : MessageDescriptor CliReq := mkDescriptor "CliReq"
  [ make_singular_u64_accessor "req_id" CliReq_has_req_id CliReq_get_req_id
  ; make_singular_message_accessor GetReq_descriptor_static "get" CliReq_has_get CliReq_get_get
  ; make_singular_message_accessor SetReq_descriptor_static "set" CliReq_has_set CliReq_get_set
  ; make_singular_message_accessor CASReq_descriptor_static "cas" CliReq_has_cas CliReq_get_cas
  ; make_singular_message_accessor DelReq_descriptor_static "del" CliReq_has_del CliReq_get_del
  ; make_singular_message_accessor WatchReq_descriptor_static "watch" CliReq_has_watch CliReq_get_watch ].

Definition CliRes_descriptor_static : MessageDescriptor CliRes := mkDescriptor "CliRes"
  [ make_singular_u64_accessor "req_id" CliRes_has_req_id CliRes_get_req_id
  ; make_singular_message_accessor GetRes_descriptor_static "get" CliRes_has_get CliRes_get_get
  ; make_singular_message_accessor SetRes_descriptor_static "set" CliRes_has_set CliRes_get_set
  ; make_singular_message_accessor CASRes_descriptor_static "cas" CliRes_has_cas CliRes_get_cas
  ; make_singular_message_accessor DelRes_descriptor_static "del" CliRes_has_del CliRes_get_del
  ; make_singular_message_accessor WatchRes_descriptor_static "watch" CliRes_has_watch CliRes_get_watch
  ; make_singular_message_accessor RedirectRes_descriptor_static "redirect" CliRes_has_redirect CliRes_get_redirect ].

Definition VoteReq_descriptor_static : MessageDescriptor VoteReq := mkDescriptor "VoteReq"
  [ make_singular_u64_accessor "term" VoteReq_has_term VoteReq_get_term
  ; make_singular_u64_accessor "last_learned_term" VoteReq_has_last_learned_term VoteReq_get_last_learned_term
  ; make_singular_u64_accessor "last_learned_txid" VoteReq_has_last_learned_txid VoteReq_get_last_learned_txid
  ; make_singular_u64_accessor "last_accepted_term" VoteReq_has_last_accepted_term VoteReq_get_last_accepted_term
  ; make_singular_u64_accessor "last_accepted_txid" VoteReq_has_last_accepted_txid VoteReq_get_last_accepted_txid ].

Definition VoteRes_descriptor_static : MessageDescriptor VoteRes := mkDescriptor "VoteRes"
  [ make_singular_bool_accessor "success" VoteRes_has_success VoteRes_get_success
  ; make_singular_u64_accessor "term" VoteRes_has_term VoteRes_get_term ].

Definition Append_descriptor_static : MessageDescriptor Append := mkDescriptor "Append"
  [ make_singular_u64_accessor "from_txid" Append_has_from_txid Append_get_from_txid
  ; make_singular_u64_accessor "from_term" Append_has_from_term Append_get_from_term
  ; make_repeated_message_accessor Mutation_descriptor_static "batch" Append_get_batch
  ; make_singular_u64_accessor "last_learned_txid" Append_has_last_learned_txid Append_get_last_learned_txid ].

Definition AppendRes_descriptor_static : MessageDescriptor AppendRes := mkDescriptor "AppendRes"
  [ make_singular_bool_accessor "accepted" AppendRes_has_accepted AppendRes_get_accepted
  ; make_singular_u64_accessor "last_accepted_txid" AppendRes_has_last_accepted_txid AppendRes_get_last_accepted_txid
  ; make_singular_u64_accessor "last_accepted_term" AppendRes_has_last_accepted_term AppendRes_get_last_accepted_term ].

Definition PeerMsg_descriptor_static : MessageDescriptor PeerMsg := mkDescriptor "PeerMsg"
  [ make_singular_string_accessor "srvid" PeerMsg_has_srvid PeerMsg_get_srvid
  ; make_singular_message_accessor VoteReq_descriptor_static "vote_req" PeerMsg_has_vote_req PeerMsg_get_vote_req
  ; make_singular_message_accessor VoteRes_descriptor_static "vote_res" PeerMsg_has_vote_res PeerMsg_get_vote_res
  ; make_singular_message_accessor Append_descriptor_static "append" PeerMsg_has_append PeerMsg_get_append
  ; make_singular_message_accessor AppendRes_descriptor_static "append_res" PeerMsg_has_append_res PeerMsg_get_append_res ].

End Reflection.
