(* ===== verification/Clock.v ===== *)
(** * Clocks

    The [Clock] trait of clock.rs and its two implementations.  Reading a clock
    may return a different time at every call, so [now] returns the clock to be
    read next.  [RealClock] reads whatever sequence the operating system
    provides; [TestClock] is the simulator's clock, whose arithmetic on [u32] and
    [i32] is kept at its width. *)

From stdpp Require Import base tactics option list numbers strings.
From Stdlib Require Import ZArith Lia.
From S2P Require Import Prelude Crates.

Class Clock (C : Type) : Type := {
  now : C -> Timespec * C;
  sleep_ms : C -> Z -> Outcome C;
}.

(** Successive readings of a clock never go back, and are usable times:
    [clock_from c t] says that [c] will only read times from [t] on. *)
Class MonotoneClock (C : Type) `{Clock C} : Type := {
  clock_from : C -> Timespec -> Prop;
  now_from : forall c t, clock_from c t ->
    ts_le t (now c).1 /\ ts_ok (now c).1 /\ clock_from (now c).2 (now c).1;
}.

(** ** [RealClock] *)

Record RealClock : Type := mkRealClock { readings : nat -> Timespec; reads : nat }.

#[export] Instance RealClock_Clock : Clock RealClock := {|
  now c := (readings c (reads c), mkRealClock (readings c) (S (reads c)));
  sleep_ms c ms := Done c;
|}.

(** ** [TestClock] *)

Record TestClock : Type := mkTestClock { inner : Timespec }.

Definition TestClock_new : TestClock := mkTestClock {| sec := 0; nsec := 0 |}.

Definition TestClock_now (c : TestClock) : Timespec := inner c.

Definition TestClock_sleep_ms (c : TestClock) (ms : Z) : Outcome TestClock :=
  ns ← u32_mul (ms mod 10 ^ 6) (10 ^ 6);
  n ← i32_add (nsec (inner c)) (as_i32 ns);
  if 10 ^ 9 <? n then
    s ← i64_add (sec (inner c)) (Z.quot n (10 ^ 9));
    mret (mkTestClock {| sec := s; nsec := Z.rem n (10 ^ 9) |})
  else
    mret (mkTestClock {| sec := sec (inner c); nsec := n |}).

#[export] Instance TestClock_Clock : Clock TestClock := {|
  now c := (TestClock_now c, c);
  sleep_ms := TestClock_sleep_ms;
|}.

#[export] Instance TestClock_Monotone : MonotoneClock TestClock.
Proof.
  refine (@Build_MonotoneClock _ _ (fun c t => ts_le t (inner c) /\ ts_ok (inner c)) _).
  intros c t [? ?]. cbn. auto with rasputin.
Defined.

(** The instant of a time in nanoseconds, and the range the simulator's clock
    keeps its [nsec] in (the end point is reached, see below). *)
Definition nanos (t : Timespec) : Z := sec t * 10 ^ 9 + nsec t.

Definition TestClock_wf (c : TestClock) : Prop :=
  0 <= nsec (inner c) <= 10 ^ 9 /\ 0 <= sec (inner c) < 2 ^ 62.

(** The carry out of [nsec]. *)
Lemma TestClock_carry n :
  10 ^ 9 < n < 2 ^ 31 ->
  Z.quot n (10 ^ 9) * 10 ^ 9 + Z.rem n (10 ^ 9) = n /\ 0 <= Z.rem n (10 ^ 9) < 10 ^ 9 /\
  0 <= Z.quot n (10 ^ 9) <= 2.
Proof.
  intros Hn. rewrite Z.quot_div_nonneg, Z.rem_mod_nonneg by lia.
  pose proof (Z.div_mod n (10 ^ 9)). pose proof (Z.mod_pos_bound n (10 ^ 9)).
  pose proof (Z.div_le_upper_bound n (10 ^ 9) 2). pose proof (Z.div_pos n (10 ^ 9)). lia.
Qed.

Lemma as_i32_wraps r : 2148 <= r <= 4294 -> as_i32 (r * 10 ^ 6) = r * 10 ^ 6 - 2 ^ 32.
Proof. intros Hr. unfold as_i32. rewrite <-(Z.mod_add _ (-1)) by lia. rewrite Z.mod_small by lia. lia. Qed.

(** Adding nanoseconds that fit, with the carry. *)
Lemma TestClock_add s n d :
  0 <= n <= 10 ^ 9 -> 0 <= s < 2 ^ 62 -> - 2 ^ 31 <= d -> n + d < 2 ^ 31 ->
  exists c', (n' ← i32_add n d;
    if 10 ^ 9 <? n' then s' ← i64_add s (Z.quot n' (10 ^ 9)); mret (mkTestClock {| sec := s'; nsec := Z.rem n' (10 ^ 9) |})
    else mret (mkTestClock {| sec := s; nsec := n' |})) = Done c' /\
    nanos (inner c') = s * 10 ^ 9 + n + d /\ (0 <= d -> 0 <= nsec (inner c') <= 10 ^ 9).
Proof.
  intros Hn Hs Hd Hlt. unfold i32_add, nanos. rewrite checked_ok by lia. cbn -[Z.pow].
  destruct (Z.ltb_spec (10 ^ 9) (n + d)) as [Hc|Hc]; cbn -[Z.pow].
  - destruct (TestClock_carry (n + d)) as (He & Hr & Hq); [lia|].
    unfold i64_add. rewrite checked_ok by lia. cbn -[Z.pow]. eexists; split; [done|]. cbn -[Z.pow]. lia.
  - eexists; split; [done|]. cbn -[Z.pow]. lia.
Qed.



(** The carry is taken only above [10^9], so a clock can rest on the
    unnormalised end of its range. *)
Example TestClock_unnormalised :
  (c ← sleep_ms TestClock_new 500; sleep_ms c 500) =
  Done (mkTestClock {| sec := 0; nsec := 10 ^ 9 |}).
Proof. reflexivity. Qed.
