(* ===== verification/Codec.v ===== *)
(** * The framing codec

    codec.rs: a message on the wire is its length in four big-endian bytes and
    then its bytes.  [Framed] decodes incrementally: the bytes of an unfinished
    frame stay in its buffers until the next [decode].  [frames] is the abstract
    specification, the division of a byte stream into complete frames and an
    unfinished rest; [decode_refines] shows that the incremental decoder
    implements it whatever the chunks are, and [stream_spec] that it
    inverts [encode]. *)

From stdpp Require Import base tactics option list numbers strings.
From Stdlib Require Import ZArith Lia.
From S2P Require Import Prelude Crates Reference.

(** ** Lengths *)

Definition usize_to_array (u : Z) : list Z :=
  [as_u8 (Z.shiftr u 24); as_u8 (Z.shiftr u 16); as_u8 (Z.shiftr u 8); as_u8 u].

Definition array_to_usize (a b c d : Z) : Z :=
  Z.shiftl a 24 + Z.shiftl b 16 + Z.shiftl c 8 + d.

(** ** [Framed] and the [Codec] trait *)

Class Codec (S In Out : Type) : Type := {
  (** the decoder and the buffer are updated in place *)
  codec_decode : S -> In -> Outcome (S * In * list Out);
  codec_encode : S -> Out -> Outcome In;
}.

Section Framed.
Context `{BC : BytesCrate}.

Record Framed : Type := mkFramed { sz_buf : MutByteBuf; msg : option MutByteBuf }.

Definition Framed_new : Framed := mkFramed (mut_with_capacity 4) None.

(** Slice indexing. *)
Definition index (l : list Z) (i : nat) : Outcome Z :=
  match l !! i with
  | Some b => Done b
  | None => Panic "index out of bounds"
  end.

(** The buffer [decode] allocates for a message of [size] bytes. *)
Definition new_msg_buf (size : Z) : MutByteBuf :=
  ByteBuf_flip (ByteBuf_from_mem_ref (next_power_of_two size) (as_u32 size) 0 (as_u32 size)).

(** First half of a turn: read the size unless a message is in progress; the
    flag is the [break] of an unfinished size. *)
Definition read_size (fr : Framed) (buf : ByteBuf) : Outcome (bool * Framed * ByteBuf) :=
  match msg fr with
  | Some _ => Done (false, fr, buf)
  | None =>
      let '(_, buf, sz) := try_read_buf buf (sz_buf fr) in
      if negb (MutByteBuf_remaining sz =? 0) then Done (true, mkFramed sz None, buf)
      else
        let b := MutByteBuf_bytes sz in
        b0 ← index b 0; b1 ← index b 1; b2 ← index b 2; b3 ← index b 3;
        Done (false, mkFramed sz (Some (new_msg_buf (array_to_usize b0 b1 b2 b3))), buf)
  end.

(** Second half: take the message out of [self], read into it, and push it when
    it is complete; the flag says whether the loop goes on. *)
Definition read_msg (fr : Framed) (buf : ByteBuf) (res : list ByteBuf)
  : Outcome (bool * Framed * ByteBuf * list ByteBuf) :=
  match msg fr with
  | None => Done (false, fr, buf, res)
  | Some m =>
      let '(r, buf, m) := try_read_buf buf m in
      match r with
      | Some (Some _) =>
          if MutByteBuf_remaining m =? 0 then
            Done (true, mkFramed (MutByteBuf_clear (sz_buf fr)) None, buf,
                  res ++ [MutByteBuf_flip m])
          else Done (false, mkFramed (sz_buf fr) (Some m), buf, res)
      | _ => Done (false, mkFramed (sz_buf fr) None, buf, res)
      end
  end.

(** One turn of the loop of [decode]. *)
Definition decode_step (fr : Framed) (buf : ByteBuf) (res : list ByteBuf)
  : Outcome (bool * Framed * ByteBuf * list ByteBuf) :=
  '(brk, fr, buf) ← read_size fr buf;
  if (brk : bool) then Done (false, fr, buf, res) else read_msg fr buf res.

Fixpoint decode_loop (fuel : nat) (fr : Framed) (buf : ByteBuf) (res : list ByteBuf)
  : Outcome (Framed * ByteBuf * list ByteBuf) :=
  match fuel with
  | O => Panic "out of fuel"
  | S fuel =>
      '(go, fr, buf, res) ← decode_step fr buf res;
      if (go : bool) then decode_loop fuel fr buf res else Done (fr, buf, res)
  end.

(** Every turn but the last reads at least one byte, so the length of the input
    bounds the turns. *)
Definition decode (fr : Framed) (buf : ByteBuf) : Outcome (Framed * ByteBuf * list ByteBuf) :=
  decode_loop (S (length (ByteBuf_bytes buf))) fr buf [].

Definition encode (item : ByteBuf) : Outcome ByteBuf :=
  let b := ByteBuf_bytes item in
  let len := Z.of_nat (length b) in
  let res := mut_with_capacity (4 + len) in
  let '(n, res) := write_slice res (usize_to_array len) in
  _ ← assert_true (n =? 4);
  let '(n, res) := write_slice res b in
  _ ← assert_true (n =? len);
  Done (MutByteBuf_flip res).

#[export] Instance Framed_Codec : Codec Framed ByteBuf ByteBuf := {|
  codec_decode := decode;
  codec_encode _ item := encode item;
|}.
End Framed.
Arguments decode : simpl never.

(** [CodecStack]: two codecs composed. *)
Section CodecStack.
Context {L R In Mid Out : Type} `{Codec L In Mid} `{Codec R Mid Out}.

Record CodecStack : Type := mkStack { stack_left : L; stack_right : R }.

Fixpoint decode_all (r : R) (ds : list Mid) : Outcome (R * list Out) :=
  match ds with
  | [] => Done (r, [])
  | d :: ds =>
      '(r, _, os) ← codec_decode (In := Mid) r d;
      '(r, os') ← decode_all r ds;
      Done (r, os ++ os')
  end.

#[export] Instance CodecStack_Codec : Codec CodecStack In Out := {|
  codec_decode s buf :=
    '(l, buf, ds) ← codec_decode (Out := Mid) (stack_left s) buf;
    '(r, os) ← decode_all (stack_right s) ds;
    Done (mkStack l r, buf, os);
  codec_encode s out :=
    mid ← codec_encode (In := Mid) (stack_right s) out;
    codec_encode (stack_left s) mid;
|}.
End CodecStack.

(** ** The specification: dividing a stream into frames *)

(** The length a header announces. *)
Definition header_size (h : list Z) : Z :=
  match h with
  | [a; b; c; d] => array_to_usize a b c d
  | _ => 0
  end.

Definition frame (m : list Z) : list Z := usize_to_array (Z.of_nat (length m)) ++ m.

Inductive incomplete : list Z -> Prop :=
| inc_header h : (length h < 4)%nat -> incomplete h
| inc_body h m : length h = 4%nat -> Z.of_nat (length m) < header_size h -> incomplete (h ++ m).

Inductive frames : list Z -> list (list Z) -> list Z -> Prop :=
| frames_rest l : incomplete l -> frames l [] l
| frames_cons h m l ms rest :
    length h = 4%nat -> Z.of_nat (length m) = header_size h ->
    frames l ms rest -> frames (h ++ m ++ l) (m :: ms) rest.

(** ** Facts of the specification *)

Lemma frames_app l1 ms1 r1 l2 ms2 r2 :
  frames l1 ms1 r1 -> frames (r1 ++ l2) ms2 r2 -> frames (l1 ++ l2) (ms1 ++ ms2) r2.
Proof.
  induction 1 as [l Hl|h m l ms rest Hh Hm _ IH]; intros H2; [done|].
  rewrite <-!app_assoc. cbn. constructor; auto.
Qed.

Lemma incomplete_frame_inv h m l :
  length h = 4%nat -> Z.of_nat (length m) = header_size h -> ~ incomplete (h ++ m ++ l).
Proof.
  intros Hh Hm Hi. inversion Hi as [h' Hl E|h' m' Hh' Hl E].
  - subst h'. rewrite length_app in Hl. lia.
  - apply app_inj_1 in E as [-> ->]; [|lia]. rewrite length_app in Hl. lia.
Qed.

(** The division into frames is unique. *)
Lemma frames_det l ms r ms' r' : frames l ms r -> frames l ms' r' -> ms = ms' /\ r = r'.
Proof.
  intros Hf. revert ms' r'. induction Hf as [l Hl|h m l ms rest Hh Hm _ IH]; intros ms' r' Hf'.
  - inversion Hf' as [|h m l2 ms2 r2 Hh Hm]; subst; [done|].
    by apply incomplete_frame_inv in Hl.
  - inversion Hf' as [l' Hl|h2 m2 l2 ms2 r2 Hh2 Hm2 Hf2 E]; subst.
    { by apply incomplete_frame_inv in Hl. }
    apply app_inj_1 in E as [-> E]; [|lia]. apply app_inj_1 in E as [-> ->]; [|lia].
    apply IH in Hf2 as [-> ->]. done.
Qed.

(** ** Lengths: round trips *)

Lemma header_size_mod u : header_size (usize_to_array u) = u mod 2 ^ 32.
Proof.
  unfold header_size, usize_to_array, array_to_usize, as_u8.
  rewrite !Z.shiftl_mul_pow2, !Z.shiftr_div_pow2 by lia.
  Z.to_euclidean_division_equations. lia.
Qed.

Lemma header_size_roundtrip u : 0 <= u < 2 ^ 32 -> header_size (usize_to_array u) = u.
Proof. intros. rewrite header_size_mod. by apply Z.mod_small. Qed.

Lemma array_to_usize_bound a b c d :
  is_bytes [a; b; c; d] -> 0 <= array_to_usize a b c d < 2 ^ 32.
Proof.
  unfold is_bytes, in_u8, u8_max. rewrite !Forall_cons. intros (?&?&?&?&_).
  unfold array_to_usize. rewrite !Z.shiftl_mul_pow2 by lia. lia.
Qed.

Lemma header_size_bound h : is_bytes h -> 0 <= header_size h < 2 ^ 32.
Proof.
  intros Hh. unfold header_size. destruct h as [|a [|b [|c [|d [|]]]]]; try lia.
  by apply array_to_usize_bound.
Qed.

Lemma frames_frame m l ms rest :
  Z.of_nat (length m) < 2 ^ 32 -> frames l ms rest -> frames (frame m ++ l) (m :: ms) rest.
Proof.
  intros Hm Hf. unfold frame. rewrite <-app_assoc. constructor; [done| |done].
  rewrite header_size_roundtrip; lia.
Qed.

Lemma frames_concat ms :
  Forall (fun m => Z.of_nat (length m) < 2 ^ 32) ms ->
  frames (concat (map frame ms)) ms [].
Proof.
  induction 1 as [|m ms Hm _ IH]; cbn; [do 2 constructor; cbn; lia|].
  by apply frames_frame.
Qed.

(** [array_to_usize] and [usize_to_array] are inverse up to the 32 bits the
    header has: a length comes back modulo [2^32] (so exactly, below [2^32]; a
    larger [usize] is truncated), and four bytes always come back. *)
Theorem usize_array_roundtrip (u a b c d : Z) :
  is_bytes [a; b; c; d] ->
  header_size (usize_to_array u) = u mod 2 ^ 32 /\
  usize_to_array (array_to_usize a b c d) = [a; b; c; d].
Proof.
  unfold is_bytes, in_u8, u8_max. rewrite !Forall_cons. intros (?&?&?&?&_).
  split; [apply header_size_mod|].
  unfold usize_to_array, array_to_usize, as_u8.
  rewrite !Z.shiftl_mul_pow2, !Z.shiftr_div_pow2 by lia.
  repeat f_equal; Z.to_euclidean_division_equations; lia.
Qed.

Lemma usize_array_roundtrip_witness :
  header_size (usize_to_array (2 ^ 32 + 7)) = (2 ^ 32 + 7) mod 2 ^ 32 /\
  usize_to_array (array_to_usize 250 1 2 3) = [250; 1; 2; 3].
Proof.
  apply (usize_array_roundtrip (2 ^ 32 + 7) 250 1 2 3).
  repeat constructor; vm_compute; congruence.
Defined.

(** ** The decoder against the specification *)

Section DecodeSpec.
Context `{BL : BytesLaws}.

(** The decoder holds the bytes [acc] of an unfinished frame. *)
Inductive framed_rep (fr : Framed) : list Z -> Prop :=
| rep_header h :
    msg fr = None -> (length h < 4)%nat ->
    mut_view (sz_buf fr) h (4 - Z.of_nat (length h)) -> framed_rep fr h
| rep_body h b m :
    msg fr = Some m -> length h = 4%nat -> mut_view (sz_buf fr) h 0 ->
    Z.of_nat (length b) < header_size h ->
    mut_view m b (header_size h - Z.of_nat (length b)) -> framed_rep fr (h ++ b).

Lemma framed_rep_incomplete fr acc : framed_rep fr acc -> incomplete acc.
Proof. destruct 1; by constructor. Qed.

Lemma Framed_new_rep : framed_rep Framed_new [].
Proof.
  apply rep_header; cbn; [done|lia|]. by apply (mut_with_capacity_view 4).
Qed.

Lemma next_power_of_two_le n : 0 <= n -> n <= next_power_of_two n.
Proof.
  intros Hn. unfold next_power_of_two.
  destruct (Z.eq_dec n 0) as [->|]; [done|].
  apply Z.log2_log2_up_spec. lia.
Qed.

Lemma new_msg_buf_view n : 0 <= n < 2 ^ 32 -> mut_view (new_msg_buf n) [] n.
Proof.
  intros Hn. unfold new_msg_buf, as_u32. rewrite Z.mod_small by done.
  apply from_mem_ref_flip. pose proof (next_power_of_two_le n). lia.
Qed.

(** What [read_msg] does with [b] of the message's bytes already there: all of
    the input is consumed, or the frame is complete. *)
Lemma read_msg_spec fr buf res h b m :
  msg fr = Some m -> length h = 4%nat -> mut_view (sz_buf fr) h 0 ->
  Z.of_nat (length b) <= header_size h ->
  mut_view m b (header_size h - Z.of_nat (length b)) ->
  (exists fr' buf' x m1, read_msg fr buf res = Done (true, fr', buf', res ++ [x]) /\
     ByteBuf_bytes buf = m1 ++ ByteBuf_bytes buf' /\ ByteBuf_bytes x = b ++ m1 /\
     Z.of_nat (length (b ++ m1)) = header_size h /\ framed_rep fr' []) \/
  (exists fr' buf', read_msg fr buf res = Done (false, fr', buf', res) /\
     ByteBuf_bytes buf' = [] /\ framed_rep fr' (h ++ b ++ ByteBuf_bytes buf)).
Proof.
  intros Hm Hh Hsz Hb Hv. unfold read_msg. rewrite Hm.
  pose proof (try_read_buf_view buf m b _ Hv ltac:(lia)) as (Hr & Hbuf & Hm').
  destruct (try_read_buf buf m) as [[r buf'] m'] eqn:E. cbn in Hr, Hbuf, Hm'. subst r.
  set (n := Nat.min (length (ByteBuf_bytes buf)) (Z.to_nat (header_size h - Z.of_nat (length b)))) in *.
  destruct Hm' as [Hw Hroom]. rewrite Hroom.
  destruct (Z.eqb_spec (header_size h - Z.of_nat (length b) - Z.of_nat n) 0) as [H0|H0].
  - left. eexists _, buf', _, (take n (ByteBuf_bytes buf)). split_and!; [done| | | |].
    + by rewrite Hbuf, take_drop.
    + by rewrite flip_bytes.
    + rewrite length_app, length_take. lia.
    + apply rep_header; [done|cbn; lia|]. cbn [sz_buf length].
      pose proof (clear_view _ _ _ Hsz) as Hc. by rewrite Hh in Hc.
  - right. assert (n = length (ByteBuf_bytes buf)) as Hn by lia.
    eexists _, buf'. split_and!; [done| |].
    + rewrite Hbuf, Hn. apply drop_all.
    + apply (rep_body _ h _ m'); cbn; [done..| |].
      * rewrite length_app. lia.
      * rewrite length_app. split; [by rewrite Hw, Hn, firstn_all|lia].
Qed.

(** [read_size] from an unfinished header: either all input is consumed, or the
    header is complete and a buffer of the announced size is there. *)
Lemma read_size_spec fr buf h :
  msg fr = None -> (length h < 4)%nat ->
  mut_view (sz_buf fr) h (4 - Z.of_nat (length h)) ->
  is_bytes (h ++ ByteBuf_bytes buf) ->
  (exists fr' buf', read_size fr buf = Done (true, fr', buf') /\
     ByteBuf_bytes buf' = [] /\ framed_rep fr' (h ++ ByteBuf_bytes buf)) \/
  (exists fr' buf' h2 m, read_size fr buf = Done (false, fr', buf') /\
     ByteBuf_bytes buf = h2 ++ ByteBuf_bytes buf' /\ h2 <> [] /\
     length (h ++ h2) = 4%nat /\ msg fr' = Some m /\ mut_view (sz_buf fr') (h ++ h2) 0 /\
     mut_view m [] (header_size (h ++ h2))).
Proof.
  intros Hm Hh Hv Hb. unfold read_size. rewrite Hm.
  pose proof (try_read_buf_view buf (sz_buf fr) h _ Hv ltac:(lia)) as (Hr & Hbuf & Hm').
  destruct (try_read_buf buf (sz_buf fr)) as [[r buf'] sz] eqn:E. cbn in Hr, Hbuf, Hm'.
  set (n := Nat.min (length (ByteBuf_bytes buf)) (Z.to_nat (4 - Z.of_nat (length h)))) in *.
  destruct Hm' as [Hw Hroom]. rewrite Hroom.
  destruct (Z.eqb_spec (4 - Z.of_nat (length h) - Z.of_nat n) 0) as [H0|H0]; cbn [negb].
  - right. set (h2 := take n (ByteBuf_bytes buf)) in *.
    assert (length (h ++ h2) = 4%nat) as Hl.
    { subst h2. rewrite length_app, length_take. lia. }
    assert (is_bytes (h ++ h2)) as Hbb.
    { rewrite <-(take_drop n (ByteBuf_bytes buf)), app_assoc in Hb. by apply is_bytes_app in Hb as [? _]. }
    rewrite Hw. destruct (h ++ h2) as [|a [|b [|c [|d [|]]]]] eqn:Eh; try done. cbn -[try_read_buf].
    eexists _, buf', h2, _. split_and!; [done| | |by rewrite Eh|done| |].
    + by rewrite Hbuf; subst h2; rewrite take_drop.
    + intros H2. rewrite H2, app_nil_r in Eh. rewrite Eh in Hh. cbn in Hh. lia.
    + rewrite Eh. cbn. split; [done|lia].
    + rewrite Eh. apply new_msg_buf_view. by apply array_to_usize_bound.
  - left. assert (n = length (ByteBuf_bytes buf)) as Hn by lia.
    eexists _, buf'. split_and!; [done| |].
    + rewrite Hbuf, Hn. apply drop_all.
    + rewrite Hn, firstn_all in Hw. apply rep_header; cbn; [done| |].
      * rewrite length_app. lia.
      * split; [done|]. rewrite length_app. lia.
Qed.

Lemma decode_step_spec fr buf res acc :
  framed_rep fr acc -> is_bytes (acc ++ ByteBuf_bytes buf) ->
  (exists fr' buf' x h, decode_step fr buf res = Done (true, fr', buf', res ++ [x]) /\
     acc ++ ByteBuf_bytes buf = h ++ ByteBuf_bytes x ++ ByteBuf_bytes buf' /\
     length h = 4%nat /\ Z.of_nat (length (ByteBuf_bytes x)) = header_size h /\
     framed_rep fr' [] /\ (length (ByteBuf_bytes buf') < length (ByteBuf_bytes buf))%nat) \/
  (exists fr' buf', decode_step fr buf res = Done (false, fr', buf', res) /\
     ByteBuf_bytes buf' = [] /\ framed_rep fr' (acc ++ ByteBuf_bytes buf)).
Proof.
  intros Hr Hb. unfold decode_step. destruct Hr as [h Hm Hh Hv|h b m Hm Hh Hsz Hlt Hv].
  - destruct (read_size_spec fr buf h Hm Hh Hv Hb)
      as [(fr' & buf' & -> & ? & ?)|(fr' & buf' & h2 & m & -> & E & Hne & Hl & Hm' & Hsz & Hmv)];
      cbn; [right; eauto|].
    assert (0 <= header_size (h ++ h2) < 2 ^ 32) as Hbound.
    { apply header_size_bound. rewrite E, app_assoc in Hb. by apply is_bytes_app in Hb as [? _]. }
    destruct (read_msg_spec fr' buf' res (h ++ h2) [] m Hm' Hl Hsz ltac:(cbn; lia)) as
      [(fr2 & buf2 & x & m1 & -> & E2 & Hx & Hsize & Hrep)|(fr2 & buf2 & -> & E2 & Hrep)].
    { by rewrite Z.sub_0_r. }
    + left. eexists fr2, buf2, x, (h ++ h2). split_and!; [done| |done|by rewrite Hx|done|].
      * rewrite E, E2, Hx. by rewrite app_assoc.
      * rewrite E, E2, !length_app. destruct h2; [done|cbn; lia].
    + right. exists fr2, buf2. split_and!; [done..|]. cbn in Hrep. by rewrite E, app_assoc.
  - unfold read_size. rewrite Hm. cbn.
    destruct (read_msg_spec fr buf res h b m Hm Hh Hsz ltac:(lia) Hv) as
      [(fr2 & buf2 & x & m1 & -> & E2 & Hx & Hsize & Hrep)|(fr2 & buf2 & -> & E2 & Hrep)].
    + left. eexists fr2, buf2, x, h. split_and!; [done| |done|by rewrite Hx|done|].
      * rewrite E2, Hx. by rewrite <-!app_assoc.
      * rewrite E2, !length_app. rewrite length_app in Hsize. lia.
    + right. exists fr2, buf2. split_and!; [done..|]. by rewrite <-app_assoc.
Qed.

Lemma decode_loop_spec fuel fr buf res acc :
  framed_rep fr acc -> is_bytes (acc ++ ByteBuf_bytes buf) ->
  (length (ByteBuf_bytes buf) < fuel)%nat ->
  exists fr' buf' out rest, decode_loop fuel fr buf res = Done (fr', buf', res ++ out) /\
    frames (acc ++ ByteBuf_bytes buf) (map ByteBuf_bytes out) rest /\
    ByteBuf_bytes buf' = [] /\ framed_rep fr' rest.
Proof.
  revert fr buf res acc. induction fuel as [|fuel IH]; intros fr buf res acc Hr Hb Hf; [lia|].
  cbn [decode_loop].
  destruct (decode_step_spec fr buf res acc Hr Hb)
    as [(fr' & buf' & x & h & -> & E & Hh & Hx & Hr' & Hlt)|(fr' & buf' & -> & E & Hr')]; cbn.
  - destruct (IH fr' buf' (res ++ [x]) [] Hr') as (fr2 & buf2 & out & rest & -> & Hfr & E2 & Hrep).
    { cbn. rewrite E, app_assoc in Hb. by apply is_bytes_app in Hb as [_ ?]. }
    { lia. }
    exists fr2, buf2, (x :: out), rest. split_and!; [by rewrite <-app_assoc| |done..].
    rewrite E. cbn. by constructor.
  - exists fr', buf', [], (acc ++ ByteBuf_bytes buf). rewrite app_nil_r. split_and!; [done| |done..].
    constructor. by eapply framed_rep_incomplete.
Qed.

Lemma decode_spec fr buf acc :
  framed_rep fr acc -> is_bytes (acc ++ ByteBuf_bytes buf) ->
  exists fr' buf' out rest, decode fr buf = Done (fr', buf', out) /\
    frames (acc ++ ByteBuf_bytes buf) (map ByteBuf_bytes out) rest /\
    ByteBuf_bytes buf' = [] /\ framed_rep fr' rest.
Proof. intros Hr Hb. unfold decode. eapply (decode_loop_spec _ _ _ []); [done..|lia]. Qed.
End DecodeSpec.

(** ** What the codec promises *)

Section CodecTheorems.
Context `{BL : BytesLaws}.

(** C21: [Framed::decode] refines the division of the stream into frames: from
    a decoder that holds the unfinished bytes [acc], on any chunk of bytes, it
    terminates without a panic, returns exactly the complete frames of [acc]
    followed by the chunk, consumes the whole chunk and holds exactly the
    unfinished rest. *)
Theorem decode_refines (fr : Framed) (buf : ByteBuf) (acc : list Z) :
  framed_rep fr acc -> is_bytes (acc ++ ByteBuf_bytes buf) ->
  exists fr' buf' out rest, decode fr buf = Done (fr', buf', out) /\
    frames (acc ++ ByteBuf_bytes buf) (map ByteBuf_bytes out) rest /\
    ByteBuf_bytes buf' = [] /\ framed_rep fr' rest.
Proof.
  apply decode_spec.
Qed.

Lemma encode_frame item :
  exists x, encode item = Done x /\ ByteBuf_bytes x = frame (ByteBuf_bytes item).
Proof.
  unfold encode, frame. set (b := ByteBuf_bytes item). set (len := Z.of_nat (length b)).
  pose proof (mut_with_capacity_view (4 + len) ltac:(lia)) as Hv.
  pose proof (next_power_of_two_le (4 + len) ltac:(lia)) as Hcap.
  destruct (write_slice_view _ _ _ (usize_to_array len) Hv ltac:(cbn; lia)) as [Hn Hv2].
  destruct (write_slice _ (usize_to_array len)) as [n1 r1]. cbn in Hn, Hv2. subst n1. cbn.
  destruct (write_slice_view _ _ _ b Hv2 ltac:(lia)) as [Hn Hv3].
  destruct (write_slice r1 b) as [n2 r2]. cbn in Hn, Hv3. subst n2.
  rewrite Z.eqb_refl. cbn. eexists; split; [done|]. rewrite flip_bytes. by destruct Hv3 as [-> _].
Qed.

(** The calls of [decode] a connection makes, one per chunk it reads. *)
Fixpoint decode_chunks (fr : Framed) (cs : list ByteBuf) : Outcome (Framed * list ByteBuf) :=
  match cs with
  | [] => Done (fr, [])
  | c :: cs =>
      '(fr, _, out) ← decode fr c;
      '(fr, out') ← decode_chunks fr cs;
      Done (fr, out ++ out')
  end.

Lemma decode_chunks_spec fr cs acc :
  framed_rep fr acc -> is_bytes (acc ++ concat (map ByteBuf_bytes cs)) ->
  exists fr' out rest, decode_chunks fr cs = Done (fr', out) /\
    frames (acc ++ concat (map ByteBuf_bytes cs)) (map ByteBuf_bytes out) rest /\
    framed_rep fr' rest.
Proof.
  revert fr acc. induction cs as [|c cs IH]; intros fr acc Hr Hb; cbn in *.
  - exists fr, [], acc. rewrite app_nil_r. split_and!; [done| |done].
    constructor. by eapply framed_rep_incomplete.
  - rewrite app_assoc in Hb. pose proof Hb as [Hb1 Hb2]%is_bytes_app.
    destruct (decode_spec fr c acc Hr Hb1) as (fr1 & buf1 & out1 & rest1 & -> & Hf1 & _ & Hr1).
    cbn.
    destruct (IH fr1 rest1 Hr1) as (fr2 & out2 & rest2 & -> & Hf2 & Hr2).
    { apply is_bytes_app. split; [|done].
      clear -Hf1 Hb1. induction Hf1; [done|]. do 2 apply is_bytes_app in Hb1 as [_ Hb1]. auto. }
    exists fr2, (out1 ++ out2), rest2. split_and!; [done| |done].
    rewrite app_assoc, map_app. by eapply frames_app.
Qed.

(** What [encode] writes for a sequence of messages, cut into chunks at any places,
    comes out of a new decoder as exactly those messages, with nothing left over. *)
Lemma stream_spec (items es cs : list ByteBuf) :
  Forall (fun it => is_bytes (ByteBuf_bytes it) /\ Z.of_nat (length (ByteBuf_bytes it)) < 2 ^ 32) items ->
  Forall2 (fun it e => encode it = Done e) items es ->
  concat (map ByteBuf_bytes cs) = concat (map ByteBuf_bytes es) ->
  exists fr out, decode_chunks Framed_new cs = Done (fr, out) /\
    map ByteBuf_bytes out = map ByteBuf_bytes items /\ framed_rep fr [].
Proof.
  intros Hit Henc Hcs.
  assert (concat (map ByteBuf_bytes es) = concat (map frame (map ByteBuf_bytes items)) /\
    is_bytes (concat (map ByteBuf_bytes es))) as [He Hb].
  { clear Hcs. induction Henc as [|it e items es He _ IH]; cbn; [by split; [|constructor]|].
    apply Forall_cons in Hit as [[Hib Hil] Hit]. destruct (IH Hit) as [-> IHb].
    destruct (encode_frame it) as (x & Ex & Hx). rewrite Ex in He. injection He as <-.
    rewrite Hx. split; [done|]. apply is_bytes_app. split; [|by destruct (IH Hit) as [<- ?]].
    apply is_bytes_app. split; [|done]. repeat constructor; apply as_u8_range. }
  rewrite <-Hcs in Hb. destruct (decode_chunks_spec Framed_new cs [] Framed_new_rep Hb)
    as (fr & out & rest & E & Hf & Hr).
  exists fr, out. cbn in Hf. rewrite Hcs, He in Hf.
  destruct (frames_det _ _ _ _ _ Hf (frames_concat (map ByteBuf_bytes items)
    ltac:(apply Forall_map; eapply Forall_impl; [exact Hit|naive_solver]))) as [-> ->].
  done.
Qed.
End CodecTheorems.

(** ** Witnesses on the reference buffers *)

#[local] Existing Instance ref_BytesCrate.
#[local] Existing Instance ref_BytesLaws.

Lemma decode_refines_witness :
  exists fr' buf' out rest,
    decode Framed_new (ref_buf [0; 0; 0; 2; 104; 105; 0; 0]) = Done (fr', buf', out) /\
    frames ([] ++ [0; 0; 0; 2; 104; 105; 0; 0]) (map ByteBuf_bytes out) rest /\
    ByteBuf_bytes buf' = [] /\ framed_rep fr' rest.
Proof.
  apply (decode_refines Framed_new (ref_buf [0; 0; 0; 2; 104; 105; 0; 0]) []).
  - apply Framed_new_rep.
  - repeat constructor; vm_compute; congruence.
Defined.

(** A header of zero announces an empty message, which is delivered. *)
Example decode_empty_message :
  decode Framed_new (ref_buf [0; 0; 0; 0]) = Done (Framed_new, ref_buf [], [ref_buf []]).
Proof. reflexivity. Qed.
