(* ===== verification/RangeBounds.v ===== *)
(** * Key ranges

    range_bounds.rs: a non-empty interval [lower, upper) of byte strings, ordered
    by position.  [cmp] answers [Equal] for any two ranges that share a key, so
    it is the order of disjoint ranges; on overlapping ones it is not the
    equality [eq] decides, nor an equivalence. *)

From stdpp Require Import base tactics option list numbers strings.
From Stdlib Require Import ZArith Lia.
From S2P Require Import Prelude BTreeMap.

Record RangeBounds : Type := mkRange { lower : list Z; upper : list Z }.

(** [<], [<=] and [>=] on [Vec<u8>] *)
Definition bytes_lt (a b : list Z) : bool := match key_cmp a b with Lt => true | _ => false end.
Definition bytes_le (a b : list Z) : bool := negb (bytes_lt b a).

(** [RangeBounds::new]; [inr] is the [Err] *)
Definition RangeBounds_new (lo up : list Z) : RangeBounds + string :=
  if bytes_le up lo then inr "lower is >= upper, which is incorrect!"
  else inl (mkRange lo up).

Definition RangeBounds_cmp (self other : RangeBounds) : Outcome comparison :=
  _ ← assert_true (bytes_lt (lower self) (upper self));
  _ ← assert_true (bytes_lt (lower other) (upper other));
  if bytes_le (upper self) (lower other) then Done Lt
  else if bytes_le (upper other) (lower self) then Done Gt
  else Done Eq.

Definition RangeBounds_partial_cmp (self other : RangeBounds) : Outcome (option comparison) :=
  Some <$> RangeBounds_cmp self other.

Definition RangeBounds_eq (self other : RangeBounds) : bool :=
  bool_decide ((lower self, upper self) = (lower other, upper other)).

(** ** Invariant and meaning *)

Definition range_wf (r : RangeBounds) : Prop := bytes_lt (lower r) (upper r) = true.

Definition in_range (k : list Z) (r : RangeBounds) : Prop :=
  bytes_le (lower r) k = true /\ bytes_lt k (upper r) = true.

Lemma bytes_lt_key a b : bytes_lt a b = true <-> key_lt a b.
Proof. unfold bytes_lt, key_lt. by destruct (key_cmp a b). Qed.

Lemma bytes_lt_irrefl a : bytes_lt a a = false.
Proof. unfold bytes_lt. by rewrite key_cmp_refl. Qed.

Lemma bytes_lt_trans a b c : bytes_lt a b = true -> bytes_lt b c = true -> bytes_lt a c = true.
Proof. rewrite !bytes_lt_key. apply key_cmp_trans. Qed.

Lemma bytes_le_lt a b : bytes_le a b = true <-> bytes_lt b a = false.
Proof. unfold bytes_le. by rewrite negb_true_iff. Qed.

Lemma bytes_lt_total a b : bytes_lt a b = true \/ a = b \/ bytes_lt b a = true.
Proof.
  unfold bytes_lt. destruct (key_cmp a b) eqn:E; auto.
  - right; left. by apply key_cmp_eq.
  - right; right. apply key_cmp_gt_lt in E. by rewrite E.
Qed.

Lemma bytes_lt_asym a b : bytes_lt a b = true -> bytes_lt b a = false.
Proof.
  intros Hab. destruct (bytes_lt b a) eqn:Hba; [|done].
  rewrite <-(bytes_lt_irrefl a). symmetry. by eapply bytes_lt_trans.
Qed.

Lemma bytes_le_lt_trans a b c : bytes_le a b = true -> bytes_lt b c = true -> bytes_lt a c = true.
Proof.
  rewrite bytes_le_lt. intros Hba Hbc. destruct (bytes_lt_total a b) as [?|[->|?]]; [|done|congruence].
  by eapply bytes_lt_trans.
Qed.

Lemma bytes_lt_le_trans a b c : bytes_lt a b = true -> bytes_le b c = true -> bytes_lt a c = true.
Proof.
  rewrite bytes_le_lt. intros Hab Hcb. destruct (bytes_lt_total b c) as [?|[->|?]]; [|done|congruence].
  by eapply bytes_lt_trans.
Qed.

Lemma bytes_le_refl a : bytes_le a a = true.
Proof. by rewrite bytes_le_lt, bytes_lt_irrefl. Qed.

Lemma bytes_lt_le a b : bytes_lt a b = true -> bytes_le a b = true.
Proof. intros. rewrite bytes_le_lt. by apply bytes_lt_asym. Qed.

Lemma RangeBounds_new_spec lo up r : RangeBounds_new lo up = inl r <-> r = mkRange lo up /\ range_wf r.
Proof.
  unfold RangeBounds_new, range_wf, bytes_le. destruct (bytes_lt lo up) eqn:E; cbn; split.
  - by intros [= <-].
  - by intros [-> _].
  - done.
  - intros [-> H]. cbn in H. congruence.
Qed.

Lemma RangeBounds_cmp_wf a b :
  range_wf a -> range_wf b ->
  RangeBounds_cmp a b =
    Done (if bytes_le (upper a) (lower b) then Lt
          else if bytes_le (upper b) (lower a) then Gt else Eq).
Proof.
  unfold range_wf, RangeBounds_cmp. intros -> ->. cbn.
  by destruct (bytes_le (upper a) (lower b)), (bytes_le (upper b) (lower a)).
Qed.

(** Two ranges are disjoint, or they share the larger of the two lower ends. *)
Lemma range_overlap a b :
  range_wf a -> range_wf b ->
  bytes_le (upper a) (lower b) = false -> bytes_le (upper b) (lower a) = false ->
  exists k, in_range k a /\ in_range k b.
Proof.
  unfold range_wf, in_range. intros Ha Hb Hab Hba.
  apply negb_false_iff in Hab, Hba.
  destruct (bytes_lt_total (lower a) (lower b)) as [H|[H|H]].
  - exists (lower b). auto using bytes_lt_le, bytes_le_refl.
  - exists (lower a). rewrite <-H. rewrite H at 3. auto using bytes_le_refl.
  - exists (lower a). auto using bytes_lt_le, bytes_le_refl.
Qed.

Lemma range_before a b k :
  bytes_le (upper a) (lower b) = true -> in_range k a -> in_range k b -> False.
Proof.
  intros Hab [_ Hka] [Hkb _].
  pose proof (bytes_lt_le_trans _ _ _ Hka Hab) as H1.
  pose proof (bytes_lt_le_trans _ _ _ H1 Hkb) as H2. by rewrite bytes_lt_irrefl in H2.
Qed.

(** On ranges that [RangeBounds::new] accepts, [cmp] never panics and its
    answer is the position of the ranges: [Less] (mirrored by [Greater]) exactly
    when every key of the first is below every key of the second, [Equal] exactly
    when some key is in both; and [Less] is transitive. *)
Theorem RangeBounds_cmp_position (a b c : RangeBounds) :
  range_wf a -> range_wf b -> range_wf c ->
  exists o, RangeBounds_cmp a b = Done o /\ RangeBounds_cmp b a = Done (CompOpp o) /\
    (o = Lt <-> forall x y, in_range x a -> in_range y b -> bytes_lt x y = true) /\
    (o = Eq <-> exists k, in_range k a /\ in_range k b) /\
    (o = Lt -> RangeBounds_cmp b c = Done Lt -> RangeBounds_cmp a c = Done Lt).
Proof.
  intros Ha Hb Hc. rewrite !RangeBounds_cmp_wf by done.
  assert (forall a, range_wf a -> in_range (lower a) a) as Hin.
  { intros r Hr. split; [apply bytes_le_refl|done]. }
  destruct (bytes_le (upper a) (lower b)) eqn:Hab; [|destruct (bytes_le (upper b) (lower a)) eqn:Hba].
  - assert (bytes_le (upper b) (lower a) = false) as Hba.
    { apply negb_false_iff. eapply bytes_lt_trans; [exact Ha|]. eapply bytes_le_lt_trans; done. }
    rewrite Hba. eexists; split_and!; [done|done| | |].
    + split; [|done]. intros _ x y [_ Hx] [Hy _].
      eapply bytes_lt_le_trans; [|done]. by eapply bytes_lt_le_trans.
    + split; [done|]. intros (k & Hka & Hkb). by destruct (range_before a b k).
    + intros _. destruct (bytes_le (upper b) (lower c)) eqn:Hbc.
      2: { by destruct (bytes_le (upper c) (lower b)). }
      intros _. assert (bytes_le (upper a) (lower c) = true) as ->; [|done].
      apply bytes_lt_le. eapply bytes_le_lt_trans; [done|]. by eapply bytes_lt_le_trans.
  - eexists; split_and!; [done|done| | |done].
    + split; [done|]. intros H. specialize (H _ _ (Hin a Ha) (Hin b Hb)).
      pose proof (bytes_lt_le_trans _ _ _ Hb Hba) as H2. by rewrite bytes_lt_asym in H2.
    + split; [done|]. intros (k & Hka & Hkb). by destruct (range_before b a k).
  - eexists; split_and!; [done|done| | |done].
    + split; [done|]. intros H. destruct (range_overlap a b) as (k & Hka & Hkb); [done..|].
      specialize (H _ _ Hka Hkb). by rewrite bytes_lt_irrefl in H.
    + split; [|done]. intros _. by apply range_overlap.
Qed.

Lemma RangeBounds_cmp_position_witness :
  exists o, RangeBounds_cmp (mkRange [1] [5]) (mkRange [5] [9]) = Done o /\
    RangeBounds_cmp (mkRange [5] [9]) (mkRange [1] [5]) = Done (CompOpp o) /\
    (o = Lt <-> forall x y, in_range x (mkRange [1] [5]) -> in_range y (mkRange [5] [9]) -> bytes_lt x y = true) /\
    (o = Eq <-> exists k, in_range k (mkRange [1] [5]) /\ in_range k (mkRange [5] [9])) /\
    (o = Lt -> RangeBounds_cmp (mkRange [5] [9]) (mkRange [9] [9; 0]) = Done Lt ->
     RangeBounds_cmp (mkRange [1] [5]) (mkRange [9] [9; 0]) = Done Lt).
Proof. apply RangeBounds_cmp_position; reflexivity. Defined.

(** The ranges [RangeBounds::new] accepts violate the contract of [Ord]
    that [BTreeMap<RangeBounds, _>] relies on: [Equal] is neither [eq] nor
    transitive. *)
Theorem RangeBounds_cmp_not_lawful :
  exists a b c, RangeBounds_new [1] [3] = inl a /\ RangeBounds_new [2] [5] = inl b /\
    RangeBounds_new [4] [6] = inl c /\
    RangeBounds_cmp a b = Done Eq /\ RangeBounds_eq a b = false /\
    RangeBounds_cmp b c = Done Eq /\ RangeBounds_cmp a c = Done Lt.
Proof. do 3 eexists. split_and!; reflexivity. Qed.
