(* ===== verification/State.v ===== *)
(** * Server state

    The shared types of server/mod.rs: the constants, envelopes, replication
    peers and the [State] machine's states with their predicates.  A lease is the
    [until] of a state; [valid_leader] means that this node leads, or follows,
    under an unexpired lease. *)

From stdpp Require Import base tactics option list numbers strings.
From Stdlib Require Import ZArith Lia.
From S2P Require Import Prelude Crates.

Definition SERVER_CLIENTS : Token := 0.
Definition SERVER_PEERS : Token := 1.
Definition PEER_BROADCAST : Token := usize_max.

Abbreviation TXID := Z (only parsing).
Abbreviation Term := Z (only parsing).
Abbreviation PeerID := string (only parsing).

Section Types.
Context `{TC : TimeCrate} `{BC : BytesCrate}.

Definition LEADER_DURATION : Duration := Duration_seconds 12.
Definition LEADER_REFRESH : Duration := Duration_seconds 6.

Record Envelope : Type := mkEnvelope {
  address : option SocketAddr;
  tok : Token;
  msg : ByteBuf;
}.

Definition Envelope_clone (e : Envelope) : Envelope :=
  mkEnvelope (address e) (tok e) (ByteBuf_from_slice (ByteBuf_bytes (msg e))).

Record RepPeer : Type := mkRepPeer {
  rp_last_accepted_term : Term;
  rp_last_accepted_txid : TXID;
  rp_max_sent_txid : TXID;
  rp_tok : Token;
  rp_id : PeerID;
  rp_addr : option SocketAddr;
}.

Inductive State : Type :=
| Leader (term : Term) (have : list Token) (need : Z) (until : Timespec)
| Candidate (term : Term) (have : list Token) (need : Z) (until : Timespec)
| Follower (term : Term) (id : PeerID) (tok : Token) (leader_addr : SocketAddr) (until : Timespec)
| Init.

Definition valid_leader (s : State) (now : Timespec) : bool :=
  match s with
  | Leader _ _ _ until => Timespec_lt now until
  | Follower _ _ _ _ until => Timespec_lt now until
  | _ => false
  end.

Definition valid_candidate (s : State) (now : Timespec) : bool :=
  match s with
  | Candidate _ _ _ until => Timespec_lt now until
  | _ => false
  end.

Definition is_leader (s : State) : bool :=
  match s with Leader _ _ _ _ => true | _ => false end.

Definition is_follower (s : State) : bool :=
  match s with Follower _ _ _ _ _ => true | _ => false end.

Definition is_following (s : State) (id : PeerID) : bool :=
  match s with
  | Follower _ lid _ _ _ => bool_decide (lid = id)
  | _ => false
  end.

Definition is_candidate (s : State) : bool :=
  match s with Candidate _ _ _ _ => true | _ => false end.

Definition should_extend_leadership (s : State) (now : Timespec) : Outcome bool :=
  match s with
  | Leader _ _ _ until =>
      t ← Timespec_add now LEADER_REFRESH;
      Done (Timespec_ge t until && Timespec_lt now until)
  | _ => Done false
  end.

Definition can_extend_lead (s : State) : bool :=
  match s with
  | Candidate _ have need _ => need <? Z.of_nat (length have)
  | Leader _ have need _ => need <? Z.of_nat (length have)
  | _ => false
  end.

Definition following (s : State) (id : PeerID) : bool :=
  match s with
  | Follower _ fid _ _ _ => bool_decide (id = fid)
  | _ => false
  end.

Definition state_until (s : State) : option Timespec :=
  match s with
  | Leader _ _ _ until => Some until
  | Candidate _ _ _ until => Some until
  | Follower _ _ _ _ until => Some until
  | Init => None
  end.

Definition state_term (s : State) : option Term :=
  match s with
  | Leader term _ _ _ => Some term
  | Candidate term _ _ _ => Some term
  | Follower term _ _ _ _ => Some term
  | Init => None
  end.
End Types.

Section StateFacts.
Context `{TL : TimeLaws}.

(** A state is never both a valid lease and a valid candidacy, and each needs
    an unexpired [until]. *)
Lemma valid_leader_until s now :
  valid_leader s now = true -> exists u, state_until s = Some u /\ ts_lt now u.
Proof. destruct s; cbn; try done; intros ?%Timespec_lt_spec; eauto. Qed.

Lemma valid_leader_candidate s now : valid_leader s now = true -> valid_candidate s now = false.
Proof. by destruct s. Qed.

(** A lease that has expired stays expired. *)
Lemma valid_leader_mono s t1 t2 :
  ts_le t1 t2 -> valid_leader s t2 = true -> valid_leader s t1 = true.
Proof.
  destruct s; cbn; try done; intros; rewrite !Timespec_lt_spec in *; eauto using ts_le_lt_trans.
Qed.

Lemma valid_candidate_mono s t1 t2 :
  ts_le t1 t2 -> valid_candidate s t2 = true -> valid_candidate s t1 = true.
Proof.
  destruct s; cbn; try done; intros; rewrite !Timespec_lt_spec in *; eauto using ts_le_lt_trans.
Qed.

Lemma following_is_following s id : following s id = is_following s id.
Proof. destruct s; cbn; try done. apply bool_decide_ext. naive_solver. Qed.
End StateFacts.
