(* ===== verification/Connections.v ===== *)
(** * Connections and the event loop's handler

    server/server_conn.rs, server/connset.rs and server/traffic_cop.rs: the reads and
    writes of one connection, a set of connections with its listener, and the
    [Handler] that the event loop calls.  A method that acts on the event loop takes
    it and returns it; the two channels of requests to the server's threads, which all
    connections of a set share, are kept beside it in [Env].  [inr] is an [Err]. *)

From stdpp Require Import base tactics option list numbers strings.
From Stdlib Require Import ZArith Lia.
From S2P Require Import Prelude Crates Codec Mio State.

(** The two [Sender<Envelope>]s, and their clones. *)
Inductive Sender : Type := peer_req_tx | cli_req_tx.
#[export] Instance Sender_eq_dec : EqDecision Sender.
Proof. solve_decision. Defined.

Section Connections.
Context `{TC : TimeCrate} `{MC : MioCrate}.

(** What was sent on the channels, and the event loop. *)
Record Env : Type := mkEnv {
  event_loop : EventLoop;
  peer_reqs : list Envelope;
  cli_reqs : list Envelope;
}.

Definition set_event_loop (env : Env) (el : EventLoop) : Env := mkEnv el (peer_reqs env) (cli_reqs env).

Definition requests (tx : Sender) (env : Env) : list Envelope :=
  match tx with peer_req_tx => peer_reqs env | cli_req_tx => cli_reqs env end.

Definition send (tx : Sender) (e : Envelope) (env : Env) : Env :=
  match tx with
  | peer_req_tx => mkEnv (event_loop env) (peer_reqs env ++ [e]) (cli_reqs env)
  | cli_req_tx => mkEnv (event_loop env) (peer_reqs env) (cli_reqs env ++ [e])
  end.

Abbreviation IoResult A := (sum A IoError).

(** [io::Result::unwrap] and [expect] *)
Definition unwrap_io {A} (r : IoResult A) : Outcome A :=
  match r with inl a => Done a | inr _ => Panic "called `Result::unwrap()` on an `Err` value" end.

(** ** [ServerConn] *)

Record ServerConn : Type := mkServerConn {
  sock : TcpStream;
  req_tx : Sender;
  res_bufs : list ByteBuf;
  res_remaining : Z;
  req_codec : Framed;
  token : option Token;
  interest : EventSet;
}.

Definition set_token (sc : ServerConn) (t : option Token) : ServerConn :=
  mkServerConn (sock sc) (req_tx sc) (res_bufs sc) (res_remaining sc) (req_codec sc) t (interest sc).

Definition ServerConn_new (k : TcpStream) (tx : Sender) : ServerConn :=
  mkServerConn k tx [] 0 Framed_new None es_hup.

(** The [event_loop.reregister] both methods end with. *)
Definition conn_reregister (sc : ServerConn) (env : Env) : Outcome (IoResult unit * ServerConn * Env) :=
  t ← unwrap (token sc);
  let '(r, el) := reregister (sock sc) t (interest sc) (event_loop env) in
  Done (r, sc, set_event_loop env el).

Definition writable (sc : ServerConn) (env : Env) : Outcome (IoResult unit * ServerConn * Env) :=
  match res_bufs sc with
  | [] => Done (inl tt, sc, env) (* no responses yet, don't reregister *)
  | res_buf :: bufs =>
      let '(r, k, res_buf) := sock_try_write_buf (sock sc) res_buf in
      match r with
      | inr e =>
          (* Don't reregister. *)
          Done (inr e, mkServerConn k (req_tx sc) bufs (res_remaining sc) (req_codec sc) (token sc) (interest sc), env)
      | inl wrote =>
          '(remaining, intr) ←
            (match wrote with
             | None => Done (res_remaining sc, es_insert (interest sc) es_writable)
             | Some r =>
                 remaining ← u64_sub (res_remaining sc) r;
                 if remaining =? 0
                 then Done (remaining, es_remove (es_insert (interest sc) es_readable) es_writable)
                 else Done (remaining, interest sc)
             end);
          (* push res back if it's not finished *)
          let bufs := if negb (ByteBuf_remaining res_buf =? 0) then res_buf :: bufs else bufs in
          conn_reregister (mkServerConn k (req_tx sc) bufs remaining (req_codec sc) (token sc) intr) env
      end
  end.

(** [for req in self.req_codec.decode(..)] *)
Fixpoint send_reqs (sc : ServerConn) (reqs : list ByteBuf) (env : Env) : Outcome Env :=
  match reqs with
  | [] => Done env
  | req :: reqs =>
      a ← unwrap_io (peer_addr (sock sc));
      t ← unwrap (token sc);
      send_reqs sc reqs (send (req_tx sc) (mkEnvelope (Some a) t req) env)
  end.

Definition readable (sc : ServerConn) (env : Env) : Outcome (IoResult unit * ServerConn * Env) :=
  let req_buf := mut_with_capacity 1024 in
  let '(r, k, req_buf) := sock_try_read_buf (sock sc) req_buf in
  intr ← (match r with
          | inl None => Panic "got readable, but can't read from the socket"
          | inl (Some _) => Done (interest sc)
          | inr _ => Done (es_remove (interest sc) es_readable)
          end);
  '(codec, _, reqs) ← decode (req_codec sc) (MutByteBuf_flip req_buf);
  let sc := mkServerConn k (req_tx sc) (res_bufs sc) (res_remaining sc) codec (token sc) intr in
  env ← send_reqs sc reqs env;
  conn_reregister sc env.

(** ** [ConnSet] *)

Record ConnSet : Type := mkConnSet {
  srv_sock : TcpListener;
  srv_token : Token;
  conns : Slab ServerConn;
  set_req_tx : Sender;
}.

Definition set_conns (cs : ConnSet) (c : Slab ServerConn) : ConnSet :=
  mkConnSet (srv_sock cs) (srv_token cs) c (set_req_tx cs).

Definition register (k : TcpStream) (cs : ConnSet) (env : Env) : Outcome (IoResult Token * ConnSet * Env) :=
  let conn := ServerConn_new k (set_req_tx cs) in
  (* Re-register accepting socket *)
  let '(_, el) := reregister_listener (srv_sock cs) (srv_token cs) es_readable (event_loop env) in
  let env := set_event_loop env el in
  let '(r, c) := slab_insert (conns cs) conn in
  match r with
  | inl t =>
      (* Register the connection *)
      conn ← unwrap (slab_get c t);
      let conn := set_token conn (Some t) in
      let c := slab_set c t conn in
      let '(r, el) := register_opt (sock conn) t es_readable (event_loop env) in
      _ ← unwrap_io r;
      Done (inl t, set_conns cs c, set_event_loop env el)
  | inr _ => Done (inr (OtherError "All connection slots full."), set_conns cs c, env)
  end.

Definition accept (cs : ConnSet) (env : Env) : Outcome (IoResult unit * ConnSet * Env) :=
  let '(r, l) := listener_accept (srv_sock cs) in
  let cs := mkConnSet l (srv_token cs) (conns cs) (set_req_tx cs) in
  match r with
  | inr e => Done (inr e, cs, env)
  | inl k =>
      k ← unwrap k;
      '(r, cs, env) ← register k cs env;
      Done (match r with inl _ => inl tt | inr e => inr e end, cs, env)
  end.

(** [self.conn(tok).readable(..)] and [writable(..)]: a method of the connection, unless
    there is none. *)
Definition on_conn (f : ServerConn -> Env -> Outcome (IoResult unit * ServerConn * Env)) (t : Token)
    (cs : ConnSet) (env : Env) : Outcome (IoResult unit * ConnSet * Env) :=
  match slab_get (conns cs) t with
  | None => Done (inl tt, cs, env)
  | Some sc =>
      '(r, sc, env) ← f sc env;
      Done (r, set_conns cs (slab_set (conns cs) t sc), env)
  end.

Definition conn_readable (t : Token) (cs : ConnSet) (env : Env) : Outcome (IoResult unit * ConnSet * Env) :=
  on_conn readable t cs env.

Definition conn_writable (t : Token) (cs : ConnSet) (env : Env) : Outcome (IoResult unit * ConnSet * Env) :=
  on_conn writable t cs env.

(** ** [TrafficCop] *)

Record Peer : Type := mkPeer { peer_address : SocketAddr; peer_sock : option Token }.

Record TrafficCop : Type := mkTrafficCop {
  cop_peers : list Peer;
  cli_handler : ConnSet;
  peer_handler : ConnSet;
}.

(** [TrafficCop::new], after the listeners are bound and the addresses parsed. *)
Definition TrafficCop_new (cli_srv_sock peer_srv_sock : TcpListener) (peer_addrs : list SocketAddr) : TrafficCop :=
  mkTrafficCop (map (fun a => mkPeer a None) peer_addrs)
    (mkConnSet cli_srv_sock SERVER_CLIENTS (slab_new_starting_at 1024 4096) cli_req_tx)
    (mkConnSet peer_srv_sock SERVER_PEERS (slab_new_starting_at 2 15) peer_req_tx).

Definition set_cli_handler (cop : TrafficCop) (cs : ConnSet) : TrafficCop :=
  mkTrafficCop (cop_peers cop) cs (peer_handler cop).
Definition set_peer_handler (cop : TrafficCop) (cs : ConnSet) : TrafficCop :=
  mkTrafficCop (cop_peers cop) (cli_handler cop) cs.

Definition between (lo hi : Z) (t : Token) : bool := (lo <=? t) && (t <=? hi).

(** The first [if] of [ready]: forget a connection that failed or was closed. *)
Definition clear_conn (t : Token) (cop : TrafficCop) : Outcome TrafficCop :=
  if between 2 16 t then
    if slab_contains (conns (peer_handler cop)) t then
      Done (mkTrafficCop
        (map (fun p => if bool_decide (peer_sock p = Some t) then mkPeer (peer_address p) None else p) (cop_peers cop))
        (cli_handler cop) (set_conns (peer_handler cop) (slab_remove (conns (peer_handler cop)) t)))
    else Done cop
  else if between 1024 4096 t then
    if slab_contains (conns (cli_handler cop)) t then
      Done (set_cli_handler cop (set_conns (cli_handler cop) (slab_remove (conns (cli_handler cop)) t)))
    else Done cop
  else Panic "bad token for error/hup".

Definition ready_read (t : Token) (cop : TrafficCop) (env : Env) : Outcome (TrafficCop * Env) :=
  if t =? SERVER_PEERS then
    '(_, cs, env) ← accept (peer_handler cop) env; Done (set_peer_handler cop cs, env)
  else if t =? SERVER_CLIENTS then
    '(_, cs, env) ← accept (cli_handler cop) env; Done (set_cli_handler cop cs, env)
  else if between 2 16 t then
    '(r, cs, env) ← conn_readable t (peer_handler cop) env;
    _ ← unwrap_io r;
    Done (set_peer_handler cop cs, env)
  else if between 1024 4096 t then
    '(r, cs, env) ← conn_readable t (cli_handler cop) env;
    _ ← unwrap_io r;
    Done (set_cli_handler cop cs, env)
  else Panic "unknown token".

Definition ready_write (t : Token) (cop : TrafficCop) (env : Env) : Outcome (TrafficCop * Env) :=
  if t =? SERVER_PEERS then Panic "received writable for SERVER_PEERS"
  else if t =? SERVER_CLIENTS then Panic "received writable for token SERVER_CLIENTS"
  else if (1 <? t) && (t <=? 128) then
    '(_, cs, env) ← conn_writable t (peer_handler cop) env; Done (set_peer_handler cop cs, env)
  else if (128 <? t) && (t <=? 4096) then
    '(_, cs, env) ← conn_writable t (cli_handler cop) env; Done (set_cli_handler cop cs, env)
  else Panic "received writable for out-of-range token".

Definition ready (t : Token) (events : EventSet) (cop : TrafficCop) (env : Env) : Outcome (TrafficCop * Env) :=
  cop ← (if is_hup events || is_error events then clear_conn t cop else Done cop);
  '(cop, env) ← (if is_readable events then ready_read t cop env else Done (cop, env));
  if is_writable events then ready_write t cop env else Done (cop, env).

(** The loop of [timeout] over the peers. *)
Fixpoint dial_peers (ps : list Peer) (cs : ConnSet) (env : Env) : Outcome (list Peer * ConnSet * Env) :=
  match ps with
  | [] => Done ([], cs, env)
  | p :: ps =>
      '(p, cs, env) ←
        (match peer_sock p with
         | Some _ => Done (p, cs, env)
         | None =>
             let '(r, el) := tcp_connect (peer_address p) (event_loop env) in
             k ← unwrap_io r;
             '(r, cs, env) ← register k cs (set_event_loop env el);
             Done (match r with inl t => mkPeer (peer_address p) (Some t) | inr _ => p end, cs, env)
         end);
      '(ps, cs, env) ← dial_peers ps cs env;
      Done (p :: ps, cs, env)
  end.

Definition timeout (cop : TrafficCop) (env : Env) : Outcome (TrafficCop * Env) :=
  '(ps, cs, env) ← dial_peers (cop_peers cop) (peer_handler cop) env;
  let '(ms, el) := gen_range 200 500 (event_loop env) in
  let '(r, el) := timeout_ms ms el in
  _ ← unwrap_io r;
  Done (mkTrafficCop ps (cli_handler cop) cs, set_event_loop env el).

(** The message as a frame in a buffer of its own, queued on the connection. *)
Definition queue_res (m : list Z) (sc : ServerConn) : Outcome ServerConn :=
  let len := Z.of_nat (length m) in
  size ← u64_add 4 len;
  let res := new_msg_buf size in
  let '(n, res) := write_slice res (usize_to_array len) in
  _ ← assert_true (n =? 4);
  let '(n, res) := write_slice res m in
  _ ← assert_true (n =? len);
  remaining ← u64_add (res_remaining sc) (Z.of_nat (length (MutByteBuf_bytes res)));
  Done (mkServerConn (sock sc) (req_tx sc) (res_bufs sc ++ [MutByteBuf_flip res]) remaining (req_codec sc)
    (token sc) (es_insert (interest sc) es_writable)).

(** The connection a token names ([tok_to_sc]), in its set. *)
Definition tok_to_set (t : Token) : option Sender :=
  if (1 <? t) && (t <=? 128) then Some peer_req_tx
  else if (128 <? t) && (t <=? 4096) then Some cli_req_tx
  else None.

Definition handler (tx : Sender) (cop : TrafficCop) : ConnSet :=
  match tx with peer_req_tx => peer_handler cop | cli_req_tx => cli_handler cop end.
Definition set_handler (tx : Sender) (cop : TrafficCop) (cs : ConnSet) : TrafficCop :=
  match tx with peer_req_tx => set_peer_handler cop cs | cli_req_tx => set_cli_handler cop cs end.

(** One turn of the loop of [notify]. *)
Definition notify_one (m : list Z) (t : Token) (cop : TrafficCop) (env : Env) : Outcome (TrafficCop * Env) :=
  match tok_to_set t with
  | None => Done (cop, env)
  | Some tx =>
      match slab_get (conns (handler tx cop)) t with
      | None => Done (cop, env)
      | Some sc =>
          sc ← queue_res m sc;
          let cs := set_conns (handler tx cop) (slab_set (conns (handler tx cop)) t sc) in
          let '(_, el) := reregister (sock sc) t (interest sc) (event_loop env) in
          Done (set_handler tx cop cs, set_event_loop env el)
      end
  end.

Fixpoint notify_all (m : list Z) (toks : list Token) (cop : TrafficCop) (env : Env) : Outcome (TrafficCop * Env) :=
  match toks with
  | [] => Done (cop, env)
  | t :: toks => '(cop, env) ← notify_one m t cop env; notify_all m toks cop env
  end.

Definition notify (e : Envelope) (cop : TrafficCop) (env : Env) : Outcome (TrafficCop * Env) :=
  let toks := if tok e =? PEER_BROADCAST then omap peer_sock (cop_peers cop) else [tok e] in
  notify_all (ByteBuf_bytes (msg e)) toks cop env.

(** The calls of the event loop, in any order. *)
Inductive IoEvent : Type :=
| Ready (t : Token) (events : EventSet)
| Timeout
| Notify (e : Envelope).

Definition handle_io (ev : IoEvent) (cop : TrafficCop) (env : Env) : Outcome (TrafficCop * Env) :=
  match ev with
  | Ready t events => ready t events cop env
  | Timeout => timeout cop env
  | Notify e => notify e cop env
  end.

Fixpoint run_io (evs : list IoEvent) (cop : TrafficCop) (env : Env) : Outcome (TrafficCop * Env) :=
  match evs with
  | [] => Done (cop, env)
  | ev :: evs => '(cop, env) ← handle_io ev cop env; run_io evs cop env
  end.
End Connections.
