(* ===== verification/ConnectionFacts.v ===== *)
(** * What connections promise

    The bytes of a connection: what was queued on it goes to its socket in order and
    whole, and what its socket gives is divided into requests, in order and whole,
    whatever the sizes of the reads and writes ([link_delivers]).  The invariant of
    the event loop's handler: every connection knows its token, its count of bytes to
    send covers its buffers, and the requests on the channels are those on the sockets
    ([cop_invariant]). *)

From stdpp Require Import base tactics option list numbers strings.
From Stdlib Require Import ZArith Lia.
From S2P Require Import Prelude Crates Reference Codec Mio State Connections.

(** ** Frames *)

Lemma frames_bytes l ms r : frames l ms r -> is_bytes l -> is_bytes r.
Proof.
  induction 1 as [|h m l ms r _ _ _ IH]; intros Hb; [done|].
  do 2 apply is_bytes_app in Hb as [_ Hb]. auto.
Qed.

(** The frames of a prefix of a stream are a prefix of its frames. *)
Lemma frames_prefix l ms r x ms' r' : frames l ms r -> frames (l ++ x) ms' r' -> ms `prefix_of` ms'.
Proof.
  intros Hf. revert ms' r'. induction Hf as [l Hl|h m l ms rest Hh Hm _ IH]; intros ms' r' Hf'; [apply prefix_nil|].
  rewrite <-!app_assoc in Hf'. inversion Hf' as [l' Hl|h2 m2 l2 ms2 r2 Hh2 Hm2 Hf2 E]; subst.
  { by apply incomplete_frame_inv in Hl. }
  apply app_inj_1 in E as [-> E]; [|lia]. apply app_inj_1 in E as [-> ->]; [|lia].
  apply prefix_cons. by eapply IH.
Qed.

Section ConnectionFacts.
Context `{TC : TimeCrate} `{BL : BytesLaws} {MC : MioCrate} {ML : MioLaws}.

(** ** One connection *)

(** What a connection has written and will write. *)
Definition pipe (sc : ServerConn) : list Z := sock_out (sock sc) ++ concat (map ByteBuf_bytes (res_bufs sc)).

(** How many bytes wait in its buffers. *)
Definition pending_bytes (sc : ServerConn) : Z := Z.of_nat (length (concat (map ByteBuf_bytes (res_bufs sc)))).

Lemma queue_res_spec m sc sc' :
  queue_res m sc = Done sc' -> 4 + Z.of_nat (length m) < 2 ^ 32 ->
  pipe sc' = pipe sc ++ frame m /\ sock sc' = sock sc /\ req_codec sc' = req_codec sc /\ token sc' = token sc /\
  req_tx sc' = req_tx sc /\
  pending_bytes sc' = pending_bytes sc + 4 + Z.of_nat (length m) /\
  res_remaining sc' = res_remaining sc + 4 + Z.of_nat (length m).
Proof.
  unfold queue_res. intros E Hm. apply bind_Done in E as (size & Hs & E).
  apply checked_Done in Hs as [-> _].
  pose proof (new_msg_buf_view (4 + Z.of_nat (length m)) ltac:(lia)) as Hv.
  destruct (write_slice_view _ _ _ (usize_to_array (Z.of_nat (length m))) Hv ltac:(cbn; lia)) as [Hn Hv2].
  destruct (write_slice _ (usize_to_array _)) as [n1 r1]. cbn in Hn, Hv2. subst n1.
  change (Z.of_nat 4 =? 4) with true in E. cbn in E.
  destruct (write_slice_view _ _ _ m Hv2 ltac:(cbn; lia)) as [Hn Hv3].
  destruct (write_slice r1 m) as [n2 r2]. cbn in Hn, Hv3. subst n2. rewrite Z.eqb_refl in E. cbn in E.
  destruct Hv3 as [Hb _]. apply bind_Done in E as (rem & Hr & E). apply checked_Done in Hr as [-> _].
  apply Done_inj in E as <-. unfold pipe, pending_bytes. cbn.
  rewrite map_app, concat_app. cbn. rewrite flip_bytes, Hb, app_nil_r. cbn.
  rewrite length_app. cbn. split_and!; [by rewrite app_assoc|done..|lia|lia].
Qed.

Lemma conn_reregister_Done sc env r sc' env' : conn_reregister sc env = Done (r, sc', env') ->
  sc' = sc /\ peer_reqs env' = peer_reqs env /\ cli_reqs env' = cli_reqs env.
Proof.
  unfold conn_reregister. intros E. apply bind_Done in E as (t & _ & E).
  destruct (reregister _ _ _ _) as [r1 el]. apply Done_inj in E as [= _ <- <-]. done.
Qed.

(** The channels of two environments agree. *)
Definition same_reqs (env env' : Env) : Prop := peer_reqs env' = peer_reqs env /\ cli_reqs env' = cli_reqs env.

(** What is pushed back is what was not written. *)
Lemma pushed_back b bufs :
  concat (map ByteBuf_bytes (if negb (ByteBuf_remaining b =? 0) then b :: bufs else bufs)) =
  ByteBuf_bytes b ++ concat (map ByteBuf_bytes bufs).
Proof.
  rewrite remaining_bytes. destruct (Z.eqb_spec (Z.of_nat (length (ByteBuf_bytes b))) 0) as [H0|]; [|done].
  destruct (ByteBuf_bytes b); [done|cbn in H0; lia].
Qed.

(** [writable], on each of its branches: what stays the same, what is counted, and,
    unless the write failed, that no byte is lost. *)
Lemma writable_spec sc env r sc' env' : writable sc env = Done (r, sc', env') ->
  pending_bytes sc <= res_remaining sc -> in_u64 (res_remaining sc) ->
  same_reqs env env' /\ sock_in (sock sc') = sock_in (sock sc) /\ req_codec sc' = req_codec sc /\
  token sc' = token sc /\ req_tx sc' = req_tx sc /\
  pending_bytes sc' <= res_remaining sc' /\ in_u64 (res_remaining sc') /\
  (pipe sc' = pipe sc \/ exists e b k b', r = inr e /\ sock_try_write_buf (sock sc) b = (inr e, k, b')).
Proof.
  unfold writable. intros E Hp Hu. destruct (res_bufs sc) as [|b bufs] eqn:Hb.
  { apply Done_inj in E as [= <- <- <-]. split_and!; auto. done. }
  destruct (sock_try_write_buf (sock sc) b) as [[w k] b'] eqn:Ew. destruct w as [[n|]|e].
  - apply sock_write_some in Ew as (w & Hbw & -> & Ho & Hi).
    apply bind_Done in E as ([rem intr] & Er & E). apply bind_Done in Er as (rem' & Hr & Er).
    apply checked_Done in Hr as [-> Hr].
    assert (rem = res_remaining sc - Z.of_nat (length w)) as -> by (destruct (_ =? 0); naive_solver).
    apply conn_reregister_Done in E as (-> & Hs).
    unfold pending_bytes, pipe in *. rewrite Hb in *. cbn -[Z.sub] in *. rewrite pushed_back. rewrite Hbw in *.
    rewrite !length_app in *. split_and!; [done..|lia| |].
    + unfold in_u64 in *. lia.
    + left. by rewrite Ho, <-!app_assoc.
  - apply sock_write_block in Ew as (Hbb & Ho & Hi). cbn in E.
    apply conn_reregister_Done in E as (-> & Hs).
    unfold pending_bytes, pipe in *. rewrite Hb in *. cbn in *. rewrite pushed_back, Hbb, Ho. split_and!; auto.
  - pose proof Ew as Ee. apply sock_write_err in Ew. apply Done_inj in E as [= <- <- <-].
    unfold pending_bytes in *. rewrite Hb in Hp. cbn in *. rewrite length_app in Hp. split_and!; [done..|lia|done|].
    right. by eauto 6.
Qed.

Lemma requests_send tx e env tx' :
  requests tx' (send tx e env) = requests tx' env ++ (if bool_decide (tx' = tx) then [e] else []).
Proof. destruct tx, tx'; cbn; by rewrite ?app_nil_r. Qed.

Lemma send_reqs_spec sc reqs t env env' : send_reqs sc reqs env = Done env' -> token sc = Some t ->
  exists es, map msg es = reqs /\ Forall (fun e => tok e = t) es /\
    forall tx, requests tx env' = requests tx env ++ (if bool_decide (tx = req_tx sc) then es else []).
Proof.
  intros E Ht. revert env E. induction reqs as [|req reqs IH]; intros env E; cbn in E.
  { apply Done_inj in E as <-. exists []. split_and!; [done|constructor|]. intros tx.
    case_bool_decide; by rewrite app_nil_r. }
  apply bind_Done in E as (a & _ & E). rewrite Ht in E. cbn in E.
  destruct (IH _ E) as (es & Hm & Hf & Hr). exists (mkEnvelope (Some a) t req :: es).
  split_and!; [by cbn; rewrite Hm|by constructor|]. intros tx. rewrite Hr, requests_send.
  case_bool_decide; by rewrite <-?app_assoc, ?app_nil_r.
Qed.

(** The connection has read and passed on the messages [ms]; its decoder holds the
    rest of what it has read. *)
Definition conn_in (sc : ServerConn) (ms : list (list Z)) : Prop :=
  is_bytes (sock_in (sock sc)) /\
  exists rest, frames (sock_in (sock sc)) ms rest /\ framed_rep (req_codec sc) rest.

Definition envelope_bytes (e : Envelope) : list Z := ByteBuf_bytes (msg e).

Lemma readable_spec sc env r sc' env' t ms :
  readable sc env = Done (r, sc', env') -> token sc = Some t -> conn_in sc ms ->
  (exists es, Forall (fun e => tok e = t) es /\
    (forall tx, requests tx env' = requests tx env ++ (if bool_decide (tx = req_tx sc) then es else [])) /\
    conn_in sc' (ms ++ map envelope_bytes es)) /\
  sock_out (sock sc') = sock_out (sock sc) /\ res_bufs sc' = res_bufs sc /\ res_remaining sc' = res_remaining sc /\
  token sc' = token sc /\ req_tx sc' = req_tx sc.
Proof.
  unfold readable. intros E Ht (Hby & rest & Hf & Hrep).
  destruct (sock_try_read_buf _ _) as [[rd k] req_buf] eqn:Er.
  destruct (sock_read_view _ _ _ _ _ _ _ (mut_with_capacity_view 1024 eq_refl) Er) as (b & r' & [Hv _] & Hin & Hout & Hb).
  apply bind_Done in E as (intr & _ & E). cbn in Hv.
  destruct (decode_spec (req_codec sc) (MutByteBuf_flip req_buf) rest Hrep)
    as (fr & buf & reqs & rest' & Ed & Hf' & _ & Hrep').
  { rewrite flip_bytes, Hv. apply is_bytes_app. split; [by eapply frames_bytes|done]. }
  rewrite Ed in E. cbn in E. apply bind_Done in E as (env1 & Es & E).
  apply (send_reqs_spec _ _ t) in Es as (es & <- & Ht' & Hr); [|done].
  apply conn_reregister_Done in E as (-> & Hp & Hc). rewrite flip_bytes, Hv in Hf'.
  split_and!; [|done..]. exists es. split_and!; [done| |].
  - intros tx. cbn in Hr. rewrite <-Hr. by destruct tx.
  - unfold conn_in. cbn. rewrite Hin. split; [by apply is_bytes_app|]. exists rest'. split; [|done].
    rewrite map_map in Hf'. by eapply frames_app.
Qed.

(** ** The life of a connection *)

(** A step of a connection, with the messages queued on it and those it passes on. *)
Inductive conn_step : ServerConn -> list (list Z) -> list (list Z) -> ServerConn -> Prop :=
| step_queue m sc sc' :
    queue_res m sc = Done sc' -> 4 + Z.of_nat (length m) < 2 ^ 32 -> conn_step sc [m] [] sc'
| step_write sc env sc' env' :
    writable sc env = Done (inl tt, sc', env') -> conn_step sc [] [] sc'
| step_read sc env r sc' env' es :
    readable sc env = Done (r, sc', env') ->
    requests (req_tx sc) env' = requests (req_tx sc) env ++ es ->
    conn_step sc [] (map envelope_bytes es) sc'.

Inductive conn_steps : ServerConn -> list (list Z) -> list (list Z) -> ServerConn -> Prop :=
| steps_refl sc : conn_steps sc [] [] sc
| steps_step sc q1 d1 sc1 q2 d2 sc2 :
    conn_steps sc q1 d1 sc1 -> conn_step sc1 q2 d2 sc2 -> conn_steps sc (q1 ++ q2) (d1 ++ d2) sc2.

(** A connection as [register] makes it, on a socket nothing went through. *)
Definition opened (k : TcpStream) (tx : Sender) (t : Token) : ServerConn := set_token (ServerConn_new k tx) (Some t).
Definition fresh_sock (k : TcpStream) : Prop := sock_in k = [] /\ sock_out k = [].

(** Everything about a connection that took part in its life so far. *)
Record conn_inv (t : Token) (queued delivered : list (list Z)) (sc : ServerConn) : Prop := {
  ci_token : token sc = Some t;
  ci_pending : pending_bytes sc <= res_remaining sc;
  ci_remaining : in_u64 (res_remaining sc);
  ci_in : conn_in sc delivered;
  ci_out : pipe sc = concat (map frame queued);
}.

Lemma opened_inv k tx t : fresh_sock k -> conn_inv t [] [] (opened k tx t).
Proof.
  intros [Hi Ho]. split; cbn; try done.
  - unfold conn_in. cbn. rewrite Hi. split; [constructor|]. exists []. split; [|apply Framed_new_rep].
    constructor. constructor. cbn. lia.
  - unfold pipe. cbn. by rewrite Ho.
Qed.

Lemma queue_res_remaining m sc sc' : queue_res m sc = Done sc' -> in_u64 (res_remaining sc').
Proof.
  unfold queue_res. intros E. apply bind_Done in E as (size & _ & E).
  destruct (write_slice _ _) as [n1 r1]. apply bind_Done in E as (_ & _ & E).
  destruct (write_slice _ _) as [n2 r2]. apply bind_Done in E as (_ & _ & E).
  apply bind_Done in E as (rem & Hr & E). apply checked_Done in Hr as [-> Hr]. by apply Done_inj in E as <-.
Qed.

(** What is queued can be framed. *)
Lemma conn_steps_queued sc q d sc' : conn_steps sc q d sc' -> Forall (fun m => Z.of_nat (length m) < 2 ^ 32) q.
Proof.
  induction 1 as [|sc0 q1 d1 sc1 q2 d2 sc2 _ IH Hs]; [constructor|]. apply Forall_app. split; [done|].
  destruct Hs; repeat constructor. lia.
Qed.

Lemma conn_step_inv t queued delivered sc q d sc' :
  conn_inv t queued delivered sc -> conn_step sc q d sc' -> conn_inv t (queued ++ q) (delivered ++ d) sc'.
Proof.
  intros [Ht Hp Hu Hi Ho] Hs. destruct Hs as [m sc sc' E Hm|sc env sc' env' E|sc env r sc' env' es E Hr].
  - pose proof (queue_res_remaining _ _ _ E) as Hu'.
    apply queue_res_spec in E as (Hpi & Hk & Hc & Ht' & _ & Hpb & Hre); [|done].
    rewrite app_nil_r. split; [by rewrite Ht'|lia|done| |].
    + unfold conn_in. by rewrite Hk, Hc.
    + rewrite map_app, concat_app. cbn. by rewrite app_nil_r, Hpi, Ho.
  - apply writable_spec in E as (_ & Hk & Hc & Ht' & _ & Hp' & Hu' & Hpi); [|done..].
    rewrite !app_nil_r. split; [by rewrite Ht'|done..| |].
    + unfold conn_in. by rewrite Hk, Hc.
    + by destruct Hpi as [->|(e & ? & ? & ? & ? & _)].
  - destruct (readable_spec _ _ _ _ _ t _ E Ht Hi) as ((es' & _ & Hr' & Hi') & Ho' & Hb' & Hre' & Ht' & _).
    rewrite Hr', bool_decide_eq_true_2 in Hr by done. apply app_inv_head in Hr as <-.
    rewrite !app_nil_r. split; [by rewrite Ht'| | |done|].
    + unfold pending_bytes. by rewrite Hb', Hre'.
    + by rewrite Hre'.
    + unfold pipe. by rewrite Ho', Hb'.
Qed.

Lemma conn_steps_inv t k tx queued delivered sc : fresh_sock k ->
  conn_steps (opened k tx t) queued delivered sc -> conn_inv t queued delivered sc.
Proof.
  intros Hk Hs. remember (opened k tx t) as sc0. induction Hs as [|sc0 q1 d1 sc1 q2 d2 sc2 _ IH Hs]; subst.
  - by apply opened_inv.
  - eapply conn_step_inv; [by apply IH|done].
Qed.

(** ** Sets of connections *)

(** The messages on a channel that came from a token. *)
Definition from_tok (t : Token) (l : list Envelope) : list (list Z) :=
  map envelope_bytes (filter (fun e => tok e = t) l).

Lemma from_tok_app t l es : from_tok t (l ++ es) = from_tok t l ++ from_tok t es.
Proof. unfold from_tok. by rewrite filter_app, map_app. Qed.

Lemma from_tok_same t es : Forall (fun e => tok e = t) es -> from_tok t es = map envelope_bytes es.
Proof. unfold from_tok. induction 1 as [|e es He _ IH]; [done|]. rewrite filter_cons_True by done. cbn. by rewrite IH. Qed.

Lemma from_tok_other t t' es : t' <> t -> Forall (fun e => tok e = t) es -> from_tok t' es = [].
Proof.
  unfold from_tok. intros Ht. induction 1 as [|e es He _ IH]; [done|].
  rewrite filter_cons_False by congruence. done.
Qed.

(** A connection in its set: it knows its channel and token, its count covers its
    buffers, and it has passed on what its socket gave: its messages are the last ones
    from its token on the channel (older ones are of connections that had the token
    before). *)
Record conn_ok (tx : Sender) (env : Env) (t : Token) (sc : ServerConn) : Prop := {
  ok_tx : req_tx sc = tx;
  ok_token : token sc = Some t;
  ok_pending : pending_bytes sc <= res_remaining sc;
  ok_remaining : in_u64 (res_remaining sc);
  ok_in : exists old ms, conn_in sc ms /\ from_tok t (requests tx env) = old ++ ms;
}.

Record set_inv (tx : Sender) (start capacity : Z) (cs : ConnSet) (env : Env) : Prop := {
  si_tx : set_req_tx cs = tx;
  si_start : slab_start (conns cs) = start;
  si_capacity : slab_capacity (conns cs) = capacity;
  si_conns : forall t sc, slab_get (conns cs) t = Some sc -> conn_ok tx env t sc /\ start <= t < start + capacity;
}.

(** What a set's operations do to the environment: only requests from [t] are added,
    and only to the set's channel. *)
Definition adds (tx : Sender) (t : Token) (env env' : Env) : Prop :=
  exists es, Forall (fun e => tok e = t) es /\
  forall tx', requests tx' env' = requests tx' env ++ (if bool_decide (tx' = tx) then es else []).

Lemma adds_nil tx t env env' : (forall tx', requests tx' env' = requests tx' env) -> adds tx t env env'.
Proof. intros Hs. exists []. split; [constructor|]. intros tx'. case_bool_decide; by rewrite app_nil_r. Qed.

Lemma adds_other tx t env env' tx' : adds tx t env env' -> tx' <> tx -> requests tx' env' = requests tx' env.
Proof. intros (es & _ & He) Ht. by rewrite He, bool_decide_eq_false_2, app_nil_r. Qed.

Lemma conn_ok_adds tx env env' t t' sc : conn_ok tx env t' sc -> adds tx t env env' -> t' <> t -> conn_ok tx env' t' sc.
Proof.
  intros [? ? ? ? (old & ms & Hi & Hr)] (es & Hes & He) Ht. split; [done..|]. exists old, ms. split; [done|].
  rewrite He, bool_decide_eq_true_2, from_tok_app, (from_tok_other t t' es), app_nil_r by done. done.
Qed.

Lemma set_inv_env tx s c cs env env' :
  set_inv tx s c cs env -> requests tx env' = requests tx env -> set_inv tx s c cs env'.
Proof.
  intros [? ? ? Hc] Hr. split; [done..|]. intros t sc Hg. destruct (Hc t sc Hg) as [[? ? ? ? Hi] ?].
  split; [|done]. split; [done..|]. by rewrite Hr.
Qed.

(** Two sets have connections under the same tokens. *)
Definition same_toks (cs cs' : ConnSet) : Prop :=
  forall t, is_Some (slab_get (conns cs) t) -> is_Some (slab_get (conns cs') t).

Lemma set_inv_update tx s c cs env env' t sc sc' :
  set_inv tx s c cs env -> slab_get (conns cs) t = Some sc -> conn_ok tx env' t sc' -> adds tx t env env' ->
  set_inv tx s c (set_conns cs (slab_set (conns cs) t sc')) env' /\
  same_toks cs (set_conns cs (slab_set (conns cs) t sc')).
Proof.
  intros [? Hs Hc Hi] Hg Hok Ha.
  destruct (slab_set_get _ (conns cs) t sc' ltac:(by eexists)) as [Hg1 Hg2]. split; [split|].
  - done.
  - cbn. by rewrite slab_set_start.
  - cbn. by rewrite slab_set_capacity.
  - cbn. intros t' sc1 Hg'. destruct (decide (t' = t)) as [->|Ht].
    + rewrite Hg1 in Hg'. injection Hg' as <-. split; [done|]. by destruct (Hi t sc Hg).
    + rewrite Hg2 in Hg' by done. destruct (Hi _ _ Hg') as [Hok' ?]. split; [|done]. by eapply conn_ok_adds.
  - intros t' Ht'. cbn. destruct (decide (t' = t)) as [->|Ht]; [by rewrite Hg1|by rewrite Hg2].
Qed.

(** A method of a connection that keeps it well formed. *)
Definition conn_method (f : ServerConn -> Env -> Outcome (sum unit IoError * ServerConn * Env)) : Prop :=
  forall tx t sc env r sc' env', f sc env = Done (r, sc', env') -> conn_ok tx env t sc ->
  conn_ok tx env' t sc' /\ adds tx t env env'.

Lemma readable_method : conn_method readable.
Proof.
  intros tx t sc env r sc' env' E [Htx Ht Hp Hu (old & ms & Hi & Hr)].
  destruct (readable_spec _ _ _ _ _ t _ E Ht Hi) as ((es & Hes & Hr' & Hi') & Ho & Hb & Hre & Ht' & Htx').
  rewrite Htx in Hr'. split; [|by exists es]. split; [by rewrite Htx'|by rewrite Ht'| |by rewrite Hre|].
  - unfold pending_bytes. by rewrite Hb, Hre.
  - exists old, (ms ++ map envelope_bytes es). split; [done|].
    by rewrite Hr', bool_decide_eq_true_2, from_tok_app, Hr, from_tok_same, app_assoc.
Qed.

Lemma writable_method : conn_method writable.
Proof.
  intros tx t sc env r sc' env' E [Htx Ht Hp Hu (old & ms & Hi & Hr)].
  apply writable_spec in E as ((Hs1 & Hs2) & Hk & Hc & Ht' & Htx' & Hp' & Hu' & _); [|done..].
  assert (forall tx', requests tx' env' = requests tx' env) as Hs by (by intros []).
  split; [|by apply adds_nil]. split; [by rewrite Htx'|by rewrite Ht'|done..|].
  exists old, ms. unfold conn_in. by rewrite Hk, Hc, Hs.
Qed.

Lemma on_conn_inv f tx s c t cs env r cs' env' : conn_method f ->
  on_conn f t cs env = Done (r, cs', env') -> set_inv tx s c cs env ->
  set_inv tx s c cs' env' /\ adds tx t env env' /\ same_toks cs cs'.
Proof.
  intros Hf E Hi. unfold on_conn in E. destruct (slab_get (conns cs) t) as [sc|] eqn:Hg.
  - apply bind_Done in E as ([[r1 sc'] env1] & Ef & E). apply Done_inj in E as [= <- <- <-].
    destruct (Hf tx t _ _ _ _ _ Ef) as [Hok Ha]; [by apply Hi|].
    destruct (set_inv_update tx s c cs env env1 t sc sc') as [? ?]; done.
  - apply Done_inj in E as [= <- <- <-]. split_and!; [done|by apply adds_nil|by intros ?].
Qed.

Lemma opened_ok tx env k t : fresh_sock k -> conn_ok tx env t (opened k tx t).
Proof.
  intros Hk. destruct (opened_inv k tx t Hk) as [? ? ? Hi ?]. split; [done..|].
  exists (from_tok t (requests tx env)), []. by rewrite app_nil_r.
Qed.

Lemma register_inv tx s c k cs env r cs' env' : fresh_sock k ->
  register k cs env = Done (r, cs', env') -> set_inv tx s c cs env ->
  set_inv tx s c cs' env' /\ (forall tx', requests tx' env' = requests tx' env) /\ same_toks cs cs' /\
  (forall t, r = inl t -> is_Some (slab_get (conns cs') t)).
Proof.
  intros Hk E Hi. unfold register in E. destruct (reregister_listener _ _ _ _) as [r0 el].
  destruct (slab_insert (conns cs) _) as [ri c'] eqn:Hins. destruct ri as [t|].
  - apply slab_insert_ok in Hins as (Hn & Hrange & Hg & Hg' & Hst & Hcap). rewrite Hg in E. cbn in E.
    destruct (register_opt _ _ _ _) as [r1 el1]. apply bind_Done in E as (_ & _ & E). apply Done_inj in E as [= <- <- <-].
    rewrite (si_tx _ _ _ _ _ Hi). fold (opened k tx t). cbn.
    destruct (slab_set_get _ c' t (opened k tx t) ltac:(by eexists)) as [Hs1 Hs2].
    destruct Hi as [Htx Hs Hc Hcon]. rewrite Hs, Hc in Hrange. split_and!.
    + split; cbn; [done|by rewrite slab_set_start, Hst|by rewrite slab_set_capacity, Hcap|].
      intros t' sc Hget. destruct (decide (t' = t)) as [->|Ht].
      * rewrite Hs1 in Hget. injection Hget as <-. split; [by apply opened_ok|done].
      * rewrite Hs2, Hg' in Hget by done. destruct (Hcon _ _ Hget) as [[? ? ? ? ?] ?]. split; [by split|done].
    + by intros [].
    + intros t' Ht'. cbn. destruct (decide (t' = t)) as [->|Ht]; [by rewrite Hs1|by rewrite Hs2, Hg'].
    + intros t0 [= <-]. by rewrite Hs1.
  - apply slab_insert_full in Hins as (Hg & Hst & Hcap). apply Done_inj in E as [= <- <- <-].
    destruct Hi as [Htx Hs Hc Hcon]. split_and!; [|by intros []| |done].
    + split; cbn; [done|by rewrite Hst|by rewrite Hcap|]. intros t sc Hget. rewrite Hg in Hget.
      destruct (Hcon _ _ Hget) as [[? ? ? ? ?] ?]. split; [by split|done].
    + intros t Ht. cbn. by rewrite Hg.
Qed.

Lemma same_toks_trans a b c : same_toks a b -> same_toks b c -> same_toks a c.
Proof. intros Hab Hbc t Ht. auto. Qed.

Lemma accept_inv tx s c cs env r cs' env' : accept cs env = Done (r, cs', env') -> set_inv tx s c cs env ->
  set_inv tx s c cs' env' /\ (forall tx', requests tx' env' = requests tx' env) /\ same_toks cs cs'.
Proof.
  unfold accept. intros E Hi. destruct (listener_accept (srv_sock cs)) as [ra l] eqn:El.
  set (cs1 := mkConnSet _ _ _ _) in E. assert (set_inv tx s c cs1 env) as Hi1 by (by destruct Hi).
  destruct ra as [k|e].
  - destruct k as [k|]; [|done]. cbn in E. apply bind_Done in E as ([[r1 cs2] env1] & Er & E).
    apply Done_inj in E as [= <- <- <-]. apply accept_fresh in El.
    destruct (register_inv tx s c k cs1 env _ _ _ El Er Hi1) as (? & ? & ? & _). done.
  - apply Done_inj in E as [= <- <- <-]. split_and!; [done..|by intros ?].
Qed.

Lemma set_inv_remove tx s c cs env t :
  set_inv tx s c cs env -> set_inv tx s c (set_conns cs (slab_remove (conns cs) t)) env.
Proof.
  intros [? ? ? Hc]. destruct (slab_remove_get _ (conns cs) t) as [H1 H2].
  split; cbn; [done|by rewrite slab_remove_start|by rewrite slab_remove_capacity|].
  intros t' sc Hg. destruct (decide (t' = t)) as [->|Ht]; [by rewrite H1 in Hg|]. rewrite H2 in Hg by done. auto.
Qed.

Lemma queue_res_ok tx env t m sc sc' : 4 + Z.of_nat (length m) < 2 ^ 32 ->
  queue_res m sc = Done sc' -> conn_ok tx env t sc -> conn_ok tx env t sc'.
Proof.
  intros Hm E [Htx Ht Hp Hu (old & ms & Hi & Hr)]. pose proof (queue_res_remaining _ _ _ E) as Hu'.
  apply queue_res_spec in E as (_ & Hk & Hc & Ht' & Htx' & Hpb & Hre); [|done].
  split; [by rewrite Htx'|by rewrite Ht'|lia|done|]. exists old, ms. unfold conn_in. by rewrite Hk, Hc.
Qed.

(** ** The handler of the event loop *)

(** A peer that counts as connected has a connection. *)
Definition dialled (cs : ConnSet) (p : Peer) : Prop :=
  forall t, peer_sock p = Some t -> is_Some (slab_get (conns cs) t).

Record cop_inv (cop : TrafficCop) (env : Env) : Prop := {
  cop_peer_set : set_inv peer_req_tx 2 15 (peer_handler cop) env;
  cop_cli_set : set_inv cli_req_tx 1024 4096 (cli_handler cop) env;
  cop_dialled : Forall (dialled (peer_handler cop)) (cop_peers cop);
}.

Definition set_start (tx : Sender) : Z := match tx with peer_req_tx => 2 | cli_req_tx => 1024 end.
Definition set_size (tx : Sender) : Z := match tx with peer_req_tx => 15 | cli_req_tx => 4096 end.

Lemma dialled_mono cs cs' ps : Forall (dialled cs) ps -> same_toks cs cs' -> Forall (dialled cs') ps.
Proof. intros Hp Hs. eapply Forall_impl; [done|]. intros p Hd t Ht. apply Hs, Hd, Ht. Qed.

Lemma cop_set tx cop env : cop_inv cop env -> set_inv tx (set_start tx) (set_size tx) (handler tx cop) env.
Proof. intros [? ? ?]. by destruct tx. Qed.

(** An operation on one of the two sets. *)
Lemma cop_inv_set tx t cop env cs env' : cop_inv cop env ->
  set_inv tx (set_start tx) (set_size tx) cs env' -> adds tx t env env' -> same_toks (handler tx cop) cs ->
  cop_inv (set_handler tx cop cs) env'.
Proof.
  intros [Hp Hc Hd] Hs Ha Ht. destruct tx; split; cbn in *; try done.
  - eapply set_inv_env; [exact Hc|]. by eapply adds_other.
  - by eapply dialled_mono.
  - eapply set_inv_env; [exact Hp|]. by eapply adds_other.
Qed.

Lemma clear_conn_inv t cop cop' env : clear_conn t cop = Done cop' -> cop_inv cop env -> cop_inv cop' env.
Proof.
  unfold clear_conn. intros E [Hp Hc Hd]. destruct (between 2 16 t); [|destruct (between 1024 4096 t); [|done]];
    destruct (slab_contains _ t); apply Done_inj in E as <-; try done.
  - split; cbn; [by apply set_inv_remove|done|]. apply Forall_map. eapply Forall_impl; [exact Hd|].
    intros p Hp' t' Ht'. case_bool_decide as Hb; [done|]. cbn.
    destruct (slab_remove_get _ (conns (peer_handler cop)) t) as [_ H2]. rewrite H2; [by apply Hp'|]. congruence.
  - split; cbn; [done|by apply set_inv_remove|done].
Qed.

Lemma ready_read_inv t cop env cop' env' : ready_read t cop env = Done (cop', env') -> cop_inv cop env -> cop_inv cop' env'.
Proof.
  unfold ready_read. intros E Hi.
  assert (forall tx r cs env1, accept (handler tx cop) env = Done (r, cs, env1) -> cop_inv (set_handler tx cop cs) env1) as Hacc.
  { intros tx r cs env1 Ea. destruct (accept_inv _ _ _ _ _ _ _ _ Ea (cop_set tx cop env Hi)) as (? & ? & ?).
    apply (cop_inv_set tx 0 cop env); try done. by apply adds_nil. }
  assert (forall tx r cs env1, conn_readable t (handler tx cop) env = Done (r, cs, env1) -> cop_inv (set_handler tx cop cs) env1) as Hrd.
  { intros tx r cs env1 Er. unfold conn_readable in Er.
    destruct (on_conn_inv _ _ _ _ _ _ _ _ _ _ readable_method Er (cop_set tx cop env Hi)) as (? & ? & ?).
    by apply (cop_inv_set tx t cop env). }
  destruct (t =? SERVER_PEERS); [|destruct (t =? SERVER_CLIENTS); [|destruct (between 2 16 t); [|destruct (between 1024 4096 t); [|done]]]];
    apply bind_Done in E as ([[r cs] env1] & Ea & E); try (apply bind_Done in E as (_ & _ & E)); apply Done_inj in E as [= <- <-].
  - by eapply (Hacc peer_req_tx).
  - by eapply (Hacc cli_req_tx).
  - by eapply (Hrd peer_req_tx).
  - by eapply (Hrd cli_req_tx).
Qed.

Lemma ready_write_inv t cop env cop' env' : ready_write t cop env = Done (cop', env') -> cop_inv cop env -> cop_inv cop' env'.
Proof.
  unfold ready_write. intros E Hi.
  assert (forall tx r cs env1, conn_writable t (handler tx cop) env = Done (r, cs, env1) -> cop_inv (set_handler tx cop cs) env1) as Hwr.
  { intros tx r cs env1 Er. unfold conn_writable in Er.
    destruct (on_conn_inv _ _ _ _ _ _ _ _ _ _ writable_method Er (cop_set tx cop env Hi)) as (? & ? & ?).
    by apply (cop_inv_set tx t cop env). }
  destruct (t =? SERVER_PEERS); [done|]. destruct (t =? SERVER_CLIENTS); [done|].
  destruct (_ && _); [|destruct (_ && _); [|done]];
    apply bind_Done in E as ([[r cs] env1] & Ea & E); apply Done_inj in E as [= <- <-].
  - by eapply (Hwr peer_req_tx).
  - by eapply (Hwr cli_req_tx).
Qed.

Lemma ready_inv t events cop env cop' env' : ready t events cop env = Done (cop', env') -> cop_inv cop env -> cop_inv cop' env'.
Proof.
  unfold ready. intros E Hi. apply bind_Done in E as (cop1 & E1 & E). apply bind_Done in E as ([cop2 env2] & E2 & E).
  assert (cop_inv cop1 env) as Hi1 by (destruct (_ || _); [by eapply clear_conn_inv|by apply Done_inj in E1 as <-]).
  assert (cop_inv cop2 env2) as Hi2
    by (destruct (is_readable events); [by eapply ready_read_inv|by apply Done_inj in E2 as [= <- <-]]).
  destruct (is_writable events); [by eapply ready_write_inv|by apply Done_inj in E as [= <- <-]].
Qed.

Lemma dial_peers_inv ps cs env ps' cs' env' : dial_peers ps cs env = Done (ps', cs', env') ->
  set_inv peer_req_tx 2 15 cs env -> Forall (dialled cs) ps ->
  set_inv peer_req_tx 2 15 cs' env' /\ Forall (dialled cs') ps' /\
  (forall tx, requests tx env' = requests tx env) /\ same_toks cs cs'.
Proof.
  revert cs env ps' cs' env'. induction ps as [|p ps IH]; intros cs env ps' cs' env' E Hi Hd; cbn in E.
  { apply Done_inj in E as [= <- <- <-]. split_and!; [done..|by intros ?]. }
  apply Forall_cons in Hd as [Hp Hd]. apply bind_Done in E as ([[p1 cs1] env1] & E1 & E).
  apply bind_Done in E as ([[ps2 cs2] env2] & E2 & E). apply Done_inj in E as [= <- <- <-].
  assert (set_inv peer_req_tx 2 15 cs1 env1 /\ dialled cs1 p1 /\ (forall tx, requests tx env1 = requests tx env) /\
    same_toks cs cs1) as (Hi1 & Hp1 & Hr1 & Hs1).
  { destruct (peer_sock p) as [t|] eqn:Hps; [apply Done_inj in E1 as [= <- <- <-]; split_and!; [done..|by intros ?]|].
    destruct (tcp_connect _ _) as [rc el] eqn:Ec. apply bind_Done in E1 as (k & Ek & E1). destruct rc as [k'|]; [|done].
    cbn in Ek. apply Done_inj in Ek as ->. apply connect_fresh in Ec. apply bind_Done in E1 as ([[r cs3] env3] & Er & E1).
    apply Done_inj in E1 as [= <- <- <-].
    destruct (register_inv peer_req_tx 2 15 k cs _ _ _ _ Ec Er) as (? & Hrq & ? & Hg); [by eapply set_inv_env; [exact Hi|]|].
    split_and!; [done| |by intros []; rewrite Hrq|done].
    intros t Ht. destruct r as [t'|]; cbn in Ht; [|congruence]. injection Ht as <-. by apply Hg. }
  destruct (IH _ _ _ _ _ E2 Hi1 (dialled_mono _ _ _ Hd Hs1)) as (Hi2 & Hd2 & Hr2 & Hs2). split_and!; [done| | |].
  - constructor; [|done]. intros t Ht. apply Hs2, Hp1, Ht.
  - intros tx. by rewrite Hr2, Hr1.
  - by eapply same_toks_trans.
Qed.

Lemma timeout_inv cop env cop' env' : timeout cop env = Done (cop', env') -> cop_inv cop env -> cop_inv cop' env'.
Proof.
  unfold timeout. intros E [Hp Hc Hd]. apply bind_Done in E as ([[ps cs] env1] & E1 & E).
  destruct (gen_range _ _ _) as [ms el]. destruct (timeout_ms _ _) as [r el2]. apply bind_Done in E as (_ & _ & E).
  apply Done_inj in E as [= <- <-]. destruct (dial_peers_inv _ _ _ _ _ _ E1 Hp Hd) as (Hi & Hd' & Hr & _).
  split; cbn; [by eapply set_inv_env; [exact Hi|]| |done].
  eapply set_inv_env; [exact Hc|]. apply (Hr cli_req_tx).
Qed.

Lemma notify_one_inv m t cop env cop' env' : 4 + Z.of_nat (length m) < 2 ^ 32 ->
  notify_one m t cop env = Done (cop', env') -> cop_inv cop env -> cop_inv cop' env'.
Proof.
  unfold notify_one. intros Hm E Hi. destruct (tok_to_set t) as [tx|]; [|by apply Done_inj in E as [= <- <-]].
  destruct (slab_get _ t) as [sc|] eqn:Hg; [|by apply Done_inj in E as [= <- <-]].
  apply bind_Done in E as (sc' & Eq & E). destruct (reregister _ _ _ _) as [r el]. apply Done_inj in E as [= <- <-].
  assert (adds tx t env (set_event_loop env el)) as Ha by (apply adds_nil; by intros []).
  destruct (si_conns _ _ _ _ _ (cop_set tx cop env Hi) t sc Hg) as [Hok _].
  destruct (set_inv_update tx (set_start tx) (set_size tx) (handler tx cop) env (set_event_loop env el) t sc sc')
    as [Hs Ht]; [by apply cop_set|done| |done|by eapply cop_inv_set].
  apply (queue_res_ok tx env t m sc sc' Hm Eq) in Hok as [? ? ? ? ?]. split; [done..|]. by destruct tx.
Qed.

(** What the server hands to the event loop fits a frame. *)
Definition io_ok (ev : IoEvent) : Prop :=
  match ev with Notify e => 4 + Z.of_nat (length (ByteBuf_bytes (msg e))) < 2 ^ 32 | _ => True end.

Lemma handle_io_inv ev cop env cop' env' : io_ok ev ->
  handle_io ev cop env = Done (cop', env') -> cop_inv cop env -> cop_inv cop' env'.
Proof.
  destruct ev as [t events| |e]; cbn; intros Hok E Hi; [by eapply ready_inv|by eapply timeout_inv|].
  unfold notify in E. set (toks := if tok e =? PEER_BROADCAST then omap peer_sock (cop_peers cop) else [tok e]) in E. clearbody toks. revert cop env E Hi.
  induction toks as [|t toks IH]; intros cop env E Hi; cbn in E; [by apply Done_inj in E as [= <- <-]|].
  apply bind_Done in E as ([cop1 env1] & E1 & E). eapply IH; [done|]. by eapply notify_one_inv.
Qed.

Lemma run_io_inv evs cop env cop' env' : Forall io_ok evs ->
  run_io evs cop env = Done (cop', env') -> cop_inv cop env -> cop_inv cop' env'.
Proof.
  intros Hok. revert cop env. induction Hok as [|ev evs Hev _ IH]; intros cop env E Hi; cbn in E.
  { by apply Done_inj in E as [= <- <-]. }
  apply bind_Done in E as ([cop1 env1] & E1 & E). eapply IH; [done|]. by eapply handle_io_inv.
Qed.

Lemma TrafficCop_new_inv l1 l2 addrs env : cop_inv (TrafficCop_new l1 l2 addrs) env.
Proof.
  split; [split..|]; cbn; try done; try apply slab_new_start; try apply slab_new_capacity.
  1,2: intros t sc Hg; by rewrite slab_new_get in Hg.
  apply Forall_map, Forall_true. by intros a t Ht.
Qed.

(** Whatever the event loop reports, in any order, and whatever the sizes of reads
    and writes: every connection of the two sets is under its token, in the range of its
    set, counts at least the bytes its buffers hold (so that the subtraction in
    [writable] cannot overflow), and has passed on to its set's channel, last from its
    token, exactly the complete messages its socket gave, with the rest in its decoder;
    and every peer that counts as connected has a connection. *)
Theorem cop_invariant evs l1 l2 addrs env cop env' :
  Forall io_ok evs -> run_io evs (TrafficCop_new l1 l2 addrs) env = Done (cop, env') -> cop_inv cop env'.
Proof. intros Hok E. eapply run_io_inv; [done..|apply TrafficCop_new_inv]. Qed.

(** C38: the 3074th client brings the event loop down, and with it the node: the
    slab of the clients has 4096 tokens from 1024 on, so that once those up to 4096 are
    taken a client gets a higher one, and [ready] panics on any event of a token above
    4096. *)
Theorem crowded_client_panics evs l1 l2 addrs env cop env' :
  Forall io_ok evs -> run_io evs (TrafficCop_new l1 l2 addrs) env = Done (cop, env') ->
  (forall conn t c, (forall t', 1024 <= t' <= 4096 -> is_Some (slab_get (conns (cli_handler cop)) t')) ->
    slab_insert (conns (cli_handler cop)) conn = (inl t, c) -> 4096 < t < 5120) /\
  (forall t events, 4096 < t ->
    is_readable events = true \/ is_writable events = true \/ is_hup events = true \/ is_error events = true ->
    is_panic (ready t events cop env')).
Proof.
  intros Hok E. apply run_io_inv in E as [_ [_ Hs Hc _] _]; [|done|apply TrafficCop_new_inv]. split.
  - intros conn t c Ht (Hn & Hr & _)%slab_insert_ok. rewrite Hs, Hc in Hr. split; [|lia].
    destruct (Z.lt_ge_cases 4096 t) as [|Hle]; [done|]. destruct (Ht t ltac:(lia)). congruence.
  - intros t events Ht Hev. unfold ready, clear_conn, ready_read, ready_write, between.
    rewrite !(proj2 (Z.leb_gt t _)), !andb_false_r, !(proj2 (Z.eqb_neq t _)) by (unfold SERVER_PEERS, SERVER_CLIENTS; lia).
    destruct (is_hup events), (is_error events), (is_readable events), (is_writable events); cbn; try (by eexists);
      destruct Hev as [?|[?|[?|?]]]; done.
Qed.

(** C20: a link between two nodes keeps the messages: what one end's [notify] has
    queued, its [writable] written in pieces of any size, the network carried as far
    as it did, and the other end's [readable] read in pieces of any size, is passed on
    there as the same messages in the same order, without a loss in between; and when
    all bytes have arrived, as all of them. *)
Theorem link_delivers ka txa ta qa da a kb txb tb qb db b :
  fresh_sock ka -> fresh_sock kb ->
  conn_steps (opened ka txa ta) qa da a -> conn_steps (opened kb txb tb) qb db b ->
  sock_in (sock b) `prefix_of` sock_out (sock a) ->
  db `prefix_of` qa /\ (sock_in (sock b) = pipe a -> db = qa).
Proof.
  intros Hka Hkb Ha Hb [x Hx]. pose proof (conn_steps_queued _ _ _ _ Ha) as Hq.
  apply conn_steps_inv in Ha as [_ _ _ _ Hoa]; [|done]. apply conn_steps_inv in Hb as [_ _ _ (_ & rest & Hf & _) _]; [|done].
  pose proof (frames_concat qa Hq) as Hfa. split.
  - unfold pipe in Hoa. rewrite Hx, <-app_assoc in Hoa. rewrite <-Hoa in Hfa. by eapply frames_prefix.
  - intros E. rewrite <-Hoa, <-E in Hfa. by destruct (frames_det _ _ _ _ _ Hf Hfa).
Qed.

(** ** The interest of a connection *)

(** Registered for neither reading nor writing. *)
Definition deaf (sc : ServerConn) : Prop := is_readable (interest sc) = false /\ is_writable (interest sc) = false.

Lemma readable_deaf sc env r sc' env' : readable sc env = Done (r, sc', env') -> deaf sc ->
  deaf sc' /\ res_bufs sc' = res_bufs sc.
Proof.
  unfold readable. intros E [Hr Hw]. destruct (sock_try_read_buf _ _) as [[rd k] req_buf].
  apply bind_Done in E as (intr & Hi & E). apply bind_Done in E as ([[codec buf] reqs] & _ & E).
  apply bind_Done in E as (env1 & _ & E). apply conn_reregister_Done in E as (-> & _).
  split; [|done]. destruct rd as [[n|]|e]; [|done|]; apply Done_inj in Hi as <-; [done|].
  unfold deaf. cbn. by rewrite remove_readable, remove_writable, Hr, Hw.
Qed.

(** C39: a connection on which nothing has been answered yet is registered for
    neither reading nor writing after any of its reads: [ServerConn::new] starts with
    an interest in hang-ups only, and only a finished answer adds one in reading.  A
    first request that does not come in one read (one over 1024 bytes, say) is never
    read to its end. *)
Theorem first_request_one_read k tx t d sc :
  conn_steps (opened k tx t) [] d sc -> is_readable (interest sc) = false /\ is_writable (interest sc) = false.
Proof.
  intros Hs. enough (deaf sc /\ res_bufs sc = []) as [? _] by done.
  remember (opened k tx t) as sc0 eqn:E0. remember ([] : list (list Z)) as q eqn:Eq.
  induction Hs as [sc|sc q1 d1 sc1 q2 d2 sc2 _ IH Hs]; subst.
  - split; [|done]. split; [apply hup_readable|apply hup_writable].
  - apply app_nil in Eq as [-> ->]. destruct (IH eq_refl eq_refl) as [Hd Hb].
    inversion Hs as [|sc' env sc'' env' E|sc' env r sc'' env' es E Hr]; subst.
    + unfold writable in E. rewrite Hb in E. by apply Done_inj in E as [= <- <-].
    + apply readable_deaf in E as [? ->]; done.
Qed.
End ConnectionFacts.
