(* ===== verification/ConnectionRuns.v ===== *)
(** * Connections that run

    The connection code on the reference sockets and slabs: instances of the theorems. *)

From stdpp Require Import base tactics option list numbers strings gmap.
From Stdlib Require Import ZArith Lia.
From S2P Require Import Prelude Crates Reference Codec Mio State Connections ConnectionFacts.

#[local] Existing Instance ref_TimeCrate.
#[local] Existing Instance ref_BytesCrate.
#[local] Existing Instance ref_BytesLaws.
#[local] Existing Instance ref_Mio.
#[local] Existing Instance ref_MioLaws.

(** A socket that will give the chunks [rs] and take writes of the sizes [ws]. *)
Definition script (rs : list (list Z)) (ws : list nat) : TcpStream := RefSock rs ws [] [].
Definition no_env : Env := mkEnv ([] : EventLoop) [] [].

Definition ok_or {A} (d : A) (o : Outcome A) : A := match o with Done a => a | Panic _ => d end.

Definition ends {A} (o : Outcome A) : bool := match o with Done _ => true | Panic _ => false end.

Lemma ends_ok {A} (d : A) (o : Outcome A) : ends o = true -> o = Done (ok_or d o).
Proof. by destruct o. Defined.

(** Steps of a connection, as functions. *)
Definition do_queue (m : list Z) (sc : ServerConn) : ServerConn := ok_or sc (queue_res m sc).
Definition do_write (sc : ServerConn) : ServerConn := (ok_or (inl tt, sc, no_env) (writable sc no_env)).1.2.
Definition do_read (sc : ServerConn) : (list (list Z)) * ServerConn :=
  let '(_, sc', env) := ok_or (inl tt, sc, no_env) (readable sc no_env) in
  (map envelope_bytes (requests (req_tx sc) env), sc').

Lemma do_queue_step m sc : ends (queue_res m sc) = true -> 4 + Z.of_nat (length m) < 2 ^ 32 ->
  conn_step sc [m] [] (do_queue m sc).
Proof.
  intros He Hm. unfold do_queue. destruct (queue_res m sc) as [sc'|] eqn:E; [|done]. by apply step_queue.
Defined.

Lemma do_write_step sc :
  match writable sc no_env with Done (inl tt, _, _) => true | _ => false end = true -> conn_step sc [] [] (do_write sc).
Proof.
  intros He. unfold do_write. destruct (writable sc no_env) as [[[[[]|] sc'] env']|] eqn:E; [|done..].
  by apply (step_write sc no_env sc' env').
Defined.

Lemma do_read_step sc : ends (readable sc no_env) = true -> conn_step sc [] (do_read sc).1 (do_read sc).2.
Proof.
  intros He. unfold do_read. destruct (readable sc no_env) as [[[r sc'] env']|] eqn:E; [|done].
  apply (step_read sc no_env r sc' env'); [done|]. by destruct (req_tx sc).
Defined.

(** ** A link: two messages, written in pieces of three bytes and the rest, read in
    two pieces. *)

Definition sender_sock : TcpStream := script [] [3; 50; 50]%nat.
Definition sender1 : ServerConn := do_write (do_queue [7; 8] (opened sender_sock peer_req_tx 2)).
Definition sender2 : ServerConn := do_write (do_write (do_queue [9] sender1)).

Definition receiver_sock : TcpStream := script [[0; 0; 0; 2; 7]; [8; 0; 0; 0; 1; 9]] [].
Definition receiver1 : list (list Z) * ServerConn := do_read (opened receiver_sock peer_req_tx 3).
Definition receiver2 : list (list Z) * ServerConn := do_read receiver1.2.

Lemma sender_steps : conn_steps (opened sender_sock peer_req_tx 2) [[7; 8]; [9]] [] sender2.
Proof.
  eapply (steps_step _ [[7; 8]; [9]] [] _ [] [] _); [|apply do_write_step; vm_compute; reflexivity].
  eapply (steps_step _ [[7; 8]; [9]] [] _ [] [] _); [|apply do_write_step; vm_compute; reflexivity].
  eapply (steps_step _ [[7; 8]] [] _ [[9]] [] _); [|apply do_queue_step; [vm_compute; reflexivity|cbn; lia]].
  eapply (steps_step _ [[7; 8]] [] _ [] [] _); [|apply do_write_step; vm_compute; reflexivity].
  eapply (steps_step _ [] [] _ [[7; 8]] [] _); [apply steps_refl|].
  apply do_queue_step; [vm_compute; reflexivity|cbn; lia].
Defined.

Lemma receiver_steps : conn_steps (opened receiver_sock peer_req_tx 3) [] ([] ++ receiver1.1) receiver1.2.
Proof.
  eapply (steps_step _ [] [] _ [] _ _); [apply steps_refl|]. apply do_read_step. vm_compute. reflexivity.
Defined.

Lemma link_delivers_witness :
  sock_in (sock receiver2.2) = pipe sender2 /\ ([] ++ receiver1.1) ++ receiver2.1 = [[7; 8]; [9]].
Proof.
  assert (sock_in (sock receiver2.2) = pipe sender2) as E by (vm_compute; reflexivity). split; [exact E|].
  assert (conn_steps (opened receiver_sock peer_req_tx 3) [] (([] ++ receiver1.1) ++ receiver2.1) receiver2.2) as Hr.
  { eapply (steps_step _ [] _ receiver1.2 [] _ _); [exact receiver_steps|]. apply do_read_step. vm_compute. reflexivity. }
  refine (proj2 (link_delivers sender_sock peer_req_tx 2 _ _ _ receiver_sock peer_req_tx 3 _ _ _
    (conj eq_refl eq_refl) (conj eq_refl eq_refl) sender_steps Hr _) E).
  exists []. vm_compute. reflexivity.
Defined.

(** ** A first request in two reads *)

Lemma first_request_one_read_witness : is_readable (interest receiver1.2) = false.
Proof. exact (proj1 (first_request_one_read receiver_sock peer_req_tx 3 _ receiver1.2 receiver_steps)). Defined.

(** ** The handler *)

(** A peer is dialled, a client comes, sends a request, is answered, and hangs up. *)
Definition client_visit : list IoEvent :=
  [Timeout; Ready 0 es_readable; Ready 1024 es_readable;
   Notify (mkEnvelope None 1024 (ref_buf [5; 6])); Ready 1024 es_writable;
   Notify (mkEnvelope None PEER_BROADCAST (ref_buf [4])); Ready 1024 es_hup].

Definition visited : TrafficCop * Env :=
  ok_or (TrafficCop_new [] [] [], no_env)
    (run_io client_visit (TrafficCop_new [script [[0; 0; 0; 1; 3]] [50%nat]] [] [mkAddr (10, 0, 0, 1) 1]) no_env).

Lemma visited_run :
  run_io client_visit (TrafficCop_new [script [[0; 0; 0; 1; 3]] [50%nat]] [] [mkAddr (10, 0, 0, 1) 1]) no_env =
    Done visited.
Proof. apply ends_ok. vm_compute. reflexivity. Defined.

Lemma cop_invariant_witness :
  map envelope_bytes (cli_reqs visited.2) = [[3]] /\
  Forall (dialled (peer_handler visited.1)) (cop_peers visited.1) /\ map peer_sock (cop_peers visited.1) = [Some 2].
Proof.
  split_and!; [vm_compute; reflexivity| |vm_compute; reflexivity].
  refine (cop_dialled _ _ (cop_invariant client_visit _ _ _ no_env visited.1 visited.2 _ visited_run)).
  repeat constructor.
Defined.

(** As many clients come as there are tokens up to 4096. *)
Definition crowd : list IoEvent := repeat (Ready 0 es_readable) 3073.
Definition clients : list TcpStream := repeat (script [] []) 3073.
Definition crowded : TrafficCop * Env :=
  ok_or (TrafficCop_new [] [] [], no_env) (run_io crowd (TrafficCop_new clients [] []) no_env).

Lemma crowded_run : run_io crowd (TrafficCop_new clients [] []) no_env = Done (crowded.1, crowded.2).
Proof. rewrite <-surjective_pairing. apply ends_ok. vm_compute. reflexivity. Qed.

Lemma crowded_full t : 1024 <= t <= 4096 -> is_Some (slab_get (conns (cli_handler crowded.1)) t).
Proof.
  assert (forallb (fun t => bool_decide (is_Some (slab_get (conns (cli_handler crowded.1)) t))) (seqZ 1024 3073) = true) as H
    by (vm_compute; reflexivity).
  intros Ht. apply (bool_decide_eq_true_1 _). apply (proj1 (List.forallb_forall _ _) H). apply list_elem_of_In, elem_of_seqZ. lia.
Qed.

Lemma crowded_client_panics_witness :
  (exists t c, slab_insert (conns (cli_handler crowded.1)) (ServerConn_new (script [] []) cli_req_tx) = (inl t, c) /\ 4096 < t < 5120) /\
  is_panic (ready 4097 es_readable crowded.1 crowded.2).
Proof.
  assert (Forall io_ok crowd) as Hok by (unfold crowd; apply Forall_forall; by intros ev ->%list_elem_of_In%List.repeat_spec).
  pose proof (crowded_client_panics crowd clients [] [] no_env crowded.1 crowded.2 Hok crowded_run) as [H1 H2]. split.
  - destruct (slab_insert _ _) as [[t|] c] eqn:E.
    + exists t, c. split; [reflexivity|]. exact (H1 _ t c crowded_full E).
    + exfalso. apply (f_equal (fun p => match p.1 with inl _ => true | inr _ => false end)) in E. vm_compute in E. discriminate E.
  - apply H2; [lia|by left].
Defined.
