(* ===== verification/AckedLog.v ===== *)
(** * The replication log

    acked_log.rs: the [AckedLog] trait, its laws as the server relies on them, and
    [InMemoryLog], the implementation.  Entries wait in [pending] until they are
    learned, then move to [committed].  The invariant [log_wf] is a chain: the
    pending entries link the last learned position to the last accepted one, each
    entry recording its predecessor. *)

From stdpp Require Import base tactics option list numbers strings sorting.
From Stdlib Require Import ZArith Lia.
From S2P Require Import Prelude BTreeMap Crates State.

(** ** The trait *)

Class AckedLog (L T : Type) : Type := {
  log_append : L -> Term -> TXID -> T -> Outcome L;
  log_get : L -> TXID -> option T;
  log_ack_up_to : L -> TXID -> PeerID -> Outcome (L * list (Term * TXID));
  log_commit_up_to : L -> TXID -> Outcome (L * list (Term * TXID));
  log_last_learned_term : L -> Term;
  log_last_learned_txid : L -> TXID;
  log_last_accepted_term : L -> Term;
  log_last_accepted_txid : L -> TXID;
}.

(** What the positions returned by [ack_up_to] and [commit_up_to] have to do with
    the log before and after: they ascend from the last learned position to the new
    one, and nothing that was accepted changes. *)
Record log_advances {L T : Type} `{AckedLog L T} (l l' : L) (out : list (Term * TXID)) : Prop := {
  adv_sorted : StronglySorted (fun a b => a.2 < b.2)
    ((log_last_learned_term l, log_last_learned_txid l) :: out);
  adv_last : last ((log_last_learned_term l, log_last_learned_txid l) :: out) =
    Some (log_last_learned_term l', log_last_learned_txid l');
  adv_accepted_txid : log_last_accepted_txid l' = log_last_accepted_txid l;
  adv_accepted_term : log_last_accepted_term l' = log_last_accepted_term l;
}.

(** The contract of a log. *)
Class AckedLogLaws (L T : Type) `{AckedLog L T} : Type := {
  log_inv : L -> Prop;
  log_inv_learned : forall l, log_inv l ->
    0 <= log_last_learned_txid l <= log_last_accepted_txid l;
  log_append_ok : forall l tm tx e, log_inv l -> log_last_accepted_txid l < tx ->
    exists l', log_append l tm tx e = Done l' /\ log_inv l' /\
      log_last_accepted_txid l' = tx /\ log_last_accepted_term l' = tm /\
      log_last_learned_txid l' = log_last_learned_txid l /\
      log_last_learned_term l' = log_last_learned_term l /\
      log_get l' tx = Some e /\ (forall x, x <> tx -> log_get l' x = log_get l x);
  log_append_old : forall l tm tx e, tx <= log_last_accepted_txid l ->
    is_panic (log_append l tm tx e);
  log_ack_ok : forall l tx peer, log_inv l ->
    exists l' out, log_ack_up_to l tx peer = Done (l', out) /\ log_inv l' /\
      log_advances l l' out /\ (forall x, log_get l' x = log_get l x);
  log_commit_ok : forall l tx, log_inv l ->
    exists l' out, log_commit_up_to l tx = Done (l', out) /\ log_inv l' /\
      log_advances l l' out /\ Forall (fun p => p.2 <= tx) out;
}.

(** ** [InMemoryLog] *)

Record LogEntry (T : Type) : Type := mkLogEntry {
  txid : TXID;
  term : Term;
  last_txid : TXID;
  last_term : Term;
  entry : T;
}.
Arguments mkLogEntry {T}.
Arguments txid {T}.
Arguments term {T}.
Arguments last_txid {T}.
Arguments last_term {T}.
Arguments entry {T}.

Record Acked (T : Type) : Type := mkAcked { acks : list PeerID; inner : T }.
Arguments mkAcked {T}.
Arguments acks {T}.
Arguments inner {T}.

Record InMemoryLog (T : Type) : Type := mkLog {
  pending : BTreeMap TXID (Acked (LogEntry T));
  committed : BTreeMap TXID (LogEntry T);
  quorum : Z;
  last_learned_txid : TXID;
  last_learned_term : Term;
  last_accepted_txid : TXID;
  last_accepted_term : Term;
}.
Arguments mkLog {T}.
Arguments pending {T}.
Arguments committed {T}.
Arguments quorum {T}.
Arguments last_learned_txid {T}.
Arguments last_learned_term {T}.
Arguments last_accepted_txid {T}.
Arguments last_accepted_term {T}.

Section InMemoryLog.
Context {T : Type}.
Implicit Types l : InMemoryLog T.

Definition append l (tm : Term) (tx : TXID) (e : T) : Outcome (InMemoryLog T) :=
  _ ← assert_true (last_accepted_txid l <? tx);
  Done (mkLog
    (bt_insert tx
       (mkAcked [] (mkLogEntry tx tm (last_accepted_txid l) (last_accepted_term l) e))
       (pending l))
    (committed l) (quorum l)
    (last_learned_txid l) (last_learned_term l) tx tm).

Definition get l (tx : TXID) : option T :=
  match bt_get (pending l) tx with
  | Some al => Some (entry (inner al))
  | None => entry <$> bt_get (committed l) tx
  end.

(** [ent.acks.push(peer)] unless the peer has acked already *)
Definition add_ack (peer : PeerID) (ent : Acked (LogEntry T)) : Acked (LogEntry T) :=
  if bool_decide (peer ∈ acks ent) then ent
  else mkAcked (acks ent ++ [peer]) (inner ent).

(** The [for (txid, ent) in self.pending.iter_mut()] of [ack_up_to]; the loop
    variable [txid] shadows the parameter, and the loop leaves at the first entry
    that passes the test. *)
Fixpoint append_ack (peer : PeerID) (m : BTreeMap TXID (Acked (LogEntry T)))
  : BTreeMap TXID (Acked (LogEntry T)) :=
  match m with
  | [] => []
  | (tx, ent) :: m' =>
      if txid (inner ent) <=? tx then (tx, add_ack peer ent) :: m'
      else (tx, ent) :: append_ack peer m'
  end.

Definition with_pending l (p : BTreeMap TXID (Acked (LogEntry T))) : InMemoryLog T :=
  mkLog p (committed l) (quorum l) (last_learned_txid l) (last_learned_term l)
    (last_accepted_txid l) (last_accepted_term l).

(** The body both loops share: remove the first pending entry, record it as the
    last learned one and file it under [key] in [committed]. *)
Definition learn_entry l (next_txid : TXID) (ent : Acked (LogEntry T)) (key : TXID) : InMemoryLog T :=
  mkLog (bt_remove next_txid (pending l)) (bt_insert key (inner ent) (committed l)) (quorum l)
    (txid (inner ent)) (term (inner ent)) (last_accepted_txid l) (last_accepted_term l).

(** The [loop] of [ack_up_to]. *)
Fixpoint ack_loop (fuel : nat) l (reached_quorum : list (Term * TXID))
  : Outcome (InMemoryLog T * list (Term * TXID)) :=
  match fuel with
  | O => Panic "out of fuel"
  | S fuel =>
      if (bt_len (pending l) =? 0)%nat then Done (l, reached_quorum) else
      tx ← unwrap (bt_first_key (pending l));
      ent ← unwrap (bt_get (pending l) tx);
      if Z.of_nat (length (acks ent)) <? quorum l then Done (l, reached_quorum)
      else ack_loop fuel (learn_entry l tx ent tx)
             (reached_quorum ++ [(term (inner ent), txid (inner ent))])
  end.

Definition ack_up_to l (tx : TXID) (peer : PeerID) : Outcome (InMemoryLog T * list (Term * TXID)) :=
  let l := with_pending l (append_ack peer (pending l)) in
  ack_loop (S (bt_len (pending l))) l [].

(** The [loop] of [commit_up_to]; entries are filed under the parameter. *)
Fixpoint commit_loop (fuel : nat) l (tx : TXID) (reached_quorum : list (Term * TXID))
  : Outcome (InMemoryLog T * list (Term * TXID)) :=
  match fuel with
  | O => Panic "out of fuel"
  | S fuel =>
      if (bt_len (pending l) =? 0)%nat then Done (l, reached_quorum) else
      next_txid ← unwrap (bt_first_key (pending l));
      if tx <? next_txid then Done (l, reached_quorum) else
      ent ← unwrap (bt_get (pending l) next_txid);
      commit_loop fuel (learn_entry l next_txid ent tx) tx
        (reached_quorum ++ [(term (inner ent), txid (inner ent))])
  end.

Definition commit_up_to l (tx : TXID) : Outcome (InMemoryLog T * list (Term * TXID)) :=
  commit_loop (S (bt_len (pending l))) l tx [].

#[export] Instance InMemoryLog_AckedLog : AckedLog (InMemoryLog T) T := {|
  log_append := append;
  log_get := get;
  log_ack_up_to := ack_up_to;
  log_commit_up_to := commit_up_to;
  log_last_learned_term := last_learned_term;
  log_last_learned_txid := last_learned_txid;
  log_last_accepted_term := last_accepted_term;
  log_last_accepted_txid := last_accepted_txid;
|}.

(** [ViewableLog] *)
Definition acked l : list (Term * TXID) :=
  map (fun p => (term (inner p.2), p.1)) (pending l).
Definition learned l : list (Term * TXID) :=
  map (fun p => (term p.2, p.1)) (committed l).
End InMemoryLog.

(** ** The invariant *)

Section LogInvariant.
Context {T : Type}.
Implicit Types l : InMemoryLog T.
Abbreviation binding := (TXID * Acked (LogEntry T))%type.

(** [linked p m q]: the pending entries [m] lead from position [p] to [q]. *)
Inductive linked : Term * TXID -> list binding -> Term * TXID -> Prop :=
| linked_nil p : linked p [] p
| linked_cons tm tx k a m q :
    last_term (inner a) = tm -> last_txid (inner a) = tx -> txid (inner a) = k ->
    tx < k -> NoDup (acks a) ->
    linked (term (inner a), k) m q -> linked (tm, tx) ((k, a) :: m) q.

Definition learned_pos l : Term * TXID := (last_learned_term l, last_learned_txid l).
Definition accepted_pos l : Term * TXID := (last_accepted_term l, last_accepted_txid l).
Definition entry_pos (b : binding) : Term * TXID := (term (inner b.2), txid (inner b.2)).

Definition log_wf l : Prop :=
  linked (learned_pos l) (pending l) (accepted_pos l) /\ bt_wf (committed l) /\
  0 <= last_learned_txid l.

Lemma linked_range p m q :
  linked p m q -> p.2 <= q.2 /\ Forall (fun b : binding => p.2 < b.1 <= q.2) m.
Proof.
  induction 1 as [p|tm tx k a m q Htm Htx Hk Hlt Hnd _ [IH1 IH2]]; cbn in *; [split; [lia|done]|].
  split; [lia|]. constructor; cbn; [lia|]. eapply Forall_impl; [done|]. cbn. lia.
Qed.

Lemma linked_wf p m q : linked p m q -> bt_wf m.
Proof.
  induction 1 as [p|tm tx k a m q Htm Htx Hk Hlt Hnd Hl IH]; [constructor|].
  constructor; [done|]. apply linked_range in Hl as [_ Hl]. cbn in Hl.
  eapply Forall_impl; [done|]. intros [k' a'] [? _]. by apply Z.compare_lt_iff.
Qed.

Lemma linked_snoc p m tm tx k a :
  linked p m (tm, tx) ->
  last_term (inner a) = tm -> last_txid (inner a) = tx -> txid (inner a) = k ->
  tx < k -> NoDup (acks a) -> linked p (m ++ [(k, a)]) (term (inner a), k).
Proof.
  intros Hl Htm Htx Hk Hlt Hnd. remember (tm, tx) as q eqn:Eq.
  induction Hl; subst; cbn; constructor; auto; constructor.
Qed.

(** Popping the first entry moves the learned position to it. *)
Lemma log_wf_pop l k a m key :
  log_wf l -> pending l = (k, a) :: m -> log_wf (learn_entry l k a key) /\
  pending (learn_entry l k a key) = m /\ txid (inner a) = k /\ last_learned_txid l < k /\ NoDup (acks a).
Proof.
  intros (Hl & Hc & Hz) Hp. unfold log_wf, learn_entry, learned_pos, accepted_pos in *. cbn in *.
  rewrite Hp in *. rewrite bt_remove_first.
  inversion Hl; subst. split_and!; auto with rasputin; lia.
Qed.

Lemma log_wf_append l tm tx e :
  log_wf l -> last_accepted_txid l < tx ->
  exists l', append l tm tx e = Done l' /\ log_wf l' /\
    pending l' = pending l ++ [(tx, mkAcked [] (mkLogEntry tx tm (last_accepted_txid l) (last_accepted_term l) e))] /\
    committed l' = committed l /\ accepted_pos l' = (tm, tx) /\ learned_pos l' = learned_pos l.
Proof.
  intros (Hl & Hc & Hz) Hlt. unfold append. rewrite (proj2 (Z.ltb_lt _ _) Hlt). cbn.
  eexists; split; [done|].
  assert (Forall (fun p : binding => key_lt p.1 tx) (pending l)) as Hlow.
  { apply linked_range in Hl as [_ Hr]. eapply Forall_impl; [done|].
    intros b [_ Hb]. apply Z.compare_lt_iff. cbn in *. lia. }
  rewrite bt_insert_above by done. cbn. split_and!; [|done..].
  split_and!; [|done..]. cbn. unfold accepted_pos, learned_pos in *. cbn.
  pose proof (linked_snoc _ _ _ _ tx
    (mkAcked [] (mkLogEntry tx tm (last_accepted_txid l) (last_accepted_term l) e)) Hl) as Hs.
  apply Hs; done || constructor.
Qed.

Lemma get_append l tm tx e l' :
  log_wf l -> append l tm tx e = Done l' ->
  get l' tx = Some e /\ forall x, x <> tx -> get l' x = get l x.
Proof.
  intros Hw Ha. unfold append, assert_true in Ha.
  destruct (last_accepted_txid l <? tx); cbn in Ha; [|done]. injection Ha as <-. unfold get. cbn.
  rewrite bt_get_insert. split; [done|]. intros x Hx. by rewrite bt_get_insert_ne.
Qed.

(** The acknowledgement loop changes nothing but the acks of the first entry. *)
Lemma append_ack_first peer k (a : Acked (LogEntry T)) m :
  txid (inner a) = k -> append_ack peer ((k, a) :: m) = (k, add_ack peer a) :: m.
Proof. intros <-. cbn. by rewrite Z.leb_refl. Qed.

Lemma add_ack_inner peer (a : Acked (LogEntry T)) : inner (add_ack peer a) = inner a.
Proof. unfold add_ack. by case_bool_decide. Qed.

Lemma add_ack_NoDup peer (a : Acked (LogEntry T)) : NoDup (acks a) -> NoDup (acks (add_ack peer a)).
Proof.
  unfold add_ack. case_bool_decide; [done|]. intros. by apply NoDup_snoc.
Qed.

Lemma append_ack_linked peer p m q : linked p m q -> linked p (append_ack peer m) q.
Proof.
  destruct 1 as [|tm tx k a m q]; [constructor|].
  rewrite append_ack_first by done. constructor; rewrite ?add_ack_inner; auto using add_ack_NoDup.
Qed.

Lemma append_ack_get peer p m q x :
  linked p m q -> inner <$> bt_get (append_ack peer m) x = inner <$> bt_get m x.
Proof.
  destruct 1 as [|tm tx k a m q]; [done|].
  rewrite append_ack_first by done. cbn. destruct (x ?= k); cbn; by rewrite ?add_ack_inner.
Qed.

(** Filing an entry under its own key keeps every lookup. *)
Lemma get_learn_entry l k a m x :
  log_wf l -> pending l = (k, a) :: m -> get (learn_entry l k a k) x = get l x.
Proof.
  intros [Hl Hc] Hp. unfold get. cbn. rewrite Hp. rewrite bt_remove_first.
  rewrite Hp in Hl. pose proof (linked_wf _ _ _ Hl) as Hw. apply bt_wf_cons_inv in Hw as [Hw Hlow].
  destruct (decide (x = k)) as [->|Hne].
  - rewrite (bt_get_below m k) by done. rewrite bt_get_insert. cbn. by rewrite Z.compare_refl.
  - rewrite bt_get_insert_ne by done. cbn. destruct (x ?= k) eqn:E; [| |done].
    + by apply Z.compare_eq in E.
    + assert (key_cmp x k = Lt) as E' by exact E. apply (key_lt_below x k m E') in Hlow. by rewrite bt_get_below.
Qed.

(** What a run of a loop has taken from the front of [pending]. *)
Record loop_result l (l' : InMemoryLog T) (out : list (Term * TXID)) (popped : list binding) : Prop := {
  lr_pending : pending l = popped ++ pending l';
  lr_out : out = map entry_pos popped;
  lr_wf : log_wf l';
  lr_accepted : accepted_pos l' = accepted_pos l;
  lr_quorum : quorum l' = quorum l;
  lr_learned : last (learned_pos l :: out) = Some (learned_pos l');
  lr_sorted : StronglySorted (fun a b => a.2 < b.2) (learned_pos l :: out);
}.

Lemma loop_result_nil l : log_wf l -> loop_result l l [] [].
Proof. intros Hw. split; try done. repeat constructor. Qed.

Lemma loop_result_cons l k a m key l' out popped :
  log_wf l -> pending l = (k, a) :: m ->
  loop_result (learn_entry l k a key) l' out popped ->
  loop_result l l' (entry_pos (k, a) :: out) ((k, a) :: popped).
Proof.
  intros Hw Hp [Hpend Hout Hwf Hacc Hq Hlast Hsort].
  destruct (log_wf_pop l k a m key Hw Hp) as (Hw' & Hm & Hk & Hlt & Hnd). cbn in Hpend, Hacc, Hq.
  rewrite Hp, bt_remove_first in Hpend. unfold learned_pos in *. cbn [learn_entry] in Hlast, Hsort.
  split; try done.
  - rewrite Hp, Hpend. done.
  - by rewrite Hout.
  - constructor; [done|]. apply StronglySorted_inv in Hsort as [_ Hsort].
    unfold entry_pos. cbn in *. constructor; [cbn; lia|].
    eapply Forall_impl; [done|]. intros x Hx. cbn in *. lia.
Qed.

(** A pop of the first entry, as the loops compute it. *)
Lemma pop_first l k a m :
  pending l = (k, a) :: m ->
  (bt_len (pending l) =? 0)%nat = false /\ bt_first_key (pending l) = Some k /\
  bt_get (pending l) k = Some a /\
  forall key, (bt_len (pending (learn_entry l k a key)) < bt_len (pending l))%nat.
Proof.
  intros Hp. cbn. rewrite Hp, bt_get_first, bt_remove_first. unfold bt_len. cbn.
  split_and!; [done..|]. intros. lia.
Qed.

Lemma ack_loop_spec fuel l acc :
  log_wf l -> (bt_len (pending l) < fuel)%nat ->
  exists l' out popped, ack_loop fuel l acc = Done (l', acc ++ out) /\
    loop_result l l' out popped /\
    Forall (fun b : binding => quorum l <= Z.of_nat (length (acks b.2))) popped /\
    (forall b m, pending l' = b :: m -> Z.of_nat (length (acks b.2)) < quorum l) /\
    (forall x, get l' x = get l x).
Proof.
  revert l acc. induction fuel as [|fuel IH]; intros l acc Hw Hf; [lia|]. cbn [ack_loop].
  destruct (pending l) as [|[k a] m] eqn:Hp.
  { exists l, [], []. rewrite app_nil_r. cbn. split_and!; auto using loop_result_nil.
    intros b m' Hb. by rewrite Hp in Hb. }
  destruct (pop_first l k a m Hp) as (E1 & E2 & E3 & Hlen).
  rewrite Hp in E1, E2, E3. rewrite E1, E2. cbn [unwrap mbind Outcome_bind]. rewrite E3. cbn [unwrap mbind Outcome_bind].
  destruct (Z.ltb_spec (Z.of_nat (length (acks a))) (quorum l)) as [Hq|Hq].
  { exists l, [], []. rewrite app_nil_r. split_and!; auto using loop_result_nil.
    intros b m' Hb. rewrite Hp in Hb. by injection Hb as <- _. }
  specialize (Hlen k). rewrite Hp in Hlen.
  destruct (log_wf_pop l k a m k Hw Hp) as (Hw' & _).
  destruct (IH (learn_entry l k a k) (acc ++ [(term (inner a), txid (inner a))]) Hw' ltac:(lia))
    as (l' & out & popped & -> & Hr & Hall & Hhead & Hget).
  exists l', (entry_pos (k, a) :: out), ((k, a) :: popped). rewrite <-app_assoc. split_and!; auto.
  - by eapply loop_result_cons.
  - intros x. rewrite Hget. by eapply get_learn_entry.
Qed.

Lemma commit_loop_spec fuel l tx acc :
  log_wf l -> (bt_len (pending l) < fuel)%nat ->
  exists l' out popped, commit_loop fuel l tx acc = Done (l', acc ++ out) /\
    loop_result l l' out popped /\
    Forall (fun b : binding => b.1 <= tx) popped /\
    (forall b m, pending l' = b :: m -> tx < b.1) /\
    bt_get (committed l') tx = match last popped with
                               | Some b => Some (inner b.2)
                               | None => bt_get (committed l) tx
                               end /\
    (forall x, x <> tx -> bt_get (committed l') x = bt_get (committed l) x).
Proof.
  revert l acc. induction fuel as [|fuel IH]; intros l acc Hw Hf; [lia|]. cbn [commit_loop].
  destruct (pending l) as [|[k a] m] eqn:Hp.
  { exists l, [], []. rewrite app_nil_r. cbn. split_and!; auto using loop_result_nil.
    intros b m' Hb. by rewrite Hp in Hb. }
  destruct (pop_first l k a m Hp) as (E1 & E2 & E3 & Hlen).
  rewrite Hp in E1, E2, E3. rewrite E1, E2. cbn [unwrap mbind Outcome_bind].
  destruct (Z.ltb_spec tx k) as [Hq|Hq].
  { exists l, [], []. rewrite app_nil_r. split_and!; auto using loop_result_nil.
    intros b m' Hb. rewrite Hp in Hb. by injection Hb as <- _. }
  rewrite E3. cbn [unwrap mbind Outcome_bind]. specialize (Hlen tx). rewrite Hp in Hlen.
  destruct (log_wf_pop l k a m tx Hw Hp) as (Hw' & _).
  destruct (IH (learn_entry l k a tx) (acc ++ [(term (inner a), txid (inner a))]) Hw' ltac:(lia))
    as (l' & out & popped & -> & Hr & Hall & Hhead & Hgtx & Hget).
  exists l', (entry_pos (k, a) :: out), ((k, a) :: popped). rewrite <-app_assoc. split_and!; auto.
  - by eapply loop_result_cons.
  - rewrite Hgtx. destruct popped as [|b popped]; cbn; [by rewrite bt_get_insert|].
    by destruct (last_is_Some (b :: popped)) as [_ [? ->]].
  - intros x Hx. rewrite Hget by done. cbn. by apply bt_get_insert_ne.
Qed.
End LogInvariant.

(** The empty log [Server::run] starts from. *)
Definition new_log {T : Type} (q : Z) : InMemoryLog T := mkLog [] [] q 0 0 0 0.

Section LogTheorems.
Context {T : Type}.
Implicit Types l : InMemoryLog T.

Lemma new_log_wf q : log_wf (@new_log T q).
Proof. split_and!; [constructor..|done]. Qed.

Lemma with_acks_wf l peer : log_wf l -> log_wf (with_pending l (append_ack peer (pending l))).
Proof. intros (Hl & Hc & Hz). split_and!; [|done..]. by apply append_ack_linked. Qed.

Lemma with_acks_get l peer x :
  log_wf l -> get (with_pending l (append_ack peer (pending l))) x = get l x.
Proof.
  intros [Hl Hc]. unfold get. cbn. pose proof (append_ack_get peer _ _ _ x Hl) as Hg.
  destruct (bt_get (append_ack peer (pending l)) x), (bt_get (pending l) x); naive_solver congruence.
Qed.

Lemma linked_NoDup p (m : list (TXID * Acked (LogEntry T))) q :
  linked p m q -> Forall (fun b => NoDup (acks b.2)) m.
Proof. induction 1; constructor; auto. Qed.

Lemma ack_up_to_spec l tx peer :
  log_wf l ->
  exists l' out popped, ack_up_to l tx peer = Done (l', out) /\
    loop_result (with_pending l (append_ack peer (pending l))) l' out popped /\
    Forall (fun b => quorum l <= Z.of_nat (length (acks b.2)) /\ NoDup (acks b.2)) popped /\
    (forall b m, pending l' = b :: m -> Z.of_nat (length (acks b.2)) < quorum l) /\
    (forall x, get l' x = get l x).
Proof.
  intros Hw. unfold ack_up_to. pose proof (with_acks_wf l peer Hw) as Hw'.
  destruct (ack_loop_spec _ _ [] Hw' (Nat.lt_succ_diag_r _))
    as (l' & out & popped & -> & Hr & Hall & Hhead & Hget).
  exists l', out, popped. split_and!; [done..| |done|].
  - apply Forall_and. split; [done|]. destruct Hw' as [Hl _]. apply linked_NoDup in Hl.
    cbn in Hl. destruct Hr as [Hp _ _ _ _ _ _]. cbn in Hp. rewrite Hp in Hl. by apply Forall_app in Hl as [? _].
  - intros x. rewrite Hget. by apply with_acks_get.
Qed.

Lemma commit_up_to_spec l tx :
  log_wf l ->
  exists l' out popped, commit_up_to l tx = Done (l', out) /\
    loop_result l l' out popped /\ Forall (fun b => b.1 <= tx) popped /\
    (forall b m, pending l' = b :: m -> tx < b.1) /\
    bt_get (committed l') tx = match last popped with
                               | Some b => Some (inner b.2)
                               | None => bt_get (committed l) tx
                               end /\
    (forall x, x <> tx -> bt_get (committed l') x = bt_get (committed l) x).
Proof. intros Hw. apply (commit_loop_spec _ l tx [] Hw (Nat.lt_succ_diag_r _)). Qed.

Lemma loop_result_advances l l0 l' out popped :
  loop_result l0 l' out popped -> learned_pos l0 = learned_pos l -> accepted_pos l0 = accepted_pos l ->
  log_advances l l' out.
Proof.
  intros [_ _ _ Hacc _ Hlast Hsort] El Ea. unfold learned_pos, accepted_pos in *.
  rewrite El in *. rewrite Ea in *. injection Hacc as ? ?. by split.
Qed.

Lemma loop_result_out_keys l l' out popped (P : TXID -> Prop) :
  loop_result l l' out popped -> log_wf l -> Forall (fun b => P b.1) popped -> Forall (fun p => P p.2) out.
Proof.
  intros [Hp -> _ _ _ _ _] [Hl _] Hall. rewrite Hp in Hl. apply Forall_map.
  clear Hp. revert Hall Hl. generalize (learned_pos l) as p, (accepted_pos l) as q, (pending l') as r.
  induction popped as [|[k a] popped IH]; intros p q r Hall Hl; [constructor|].
  apply Forall_cons in Hall as [Hk Hall]. inversion Hl; subst. constructor; [done|]. eauto.
Qed.

(** The implementation meets the contract. *)
#[export] Instance InMemoryLog_Laws : AckedLogLaws (InMemoryLog T) T.
Proof.
  refine (@Build_AckedLogLaws _ _ _ log_wf _ _ _ _ _); cbn.
  - intros l (Hl & _ & Hz). by apply linked_range in Hl as [? _].
  - intros l tm tx e Hw Hlt. destruct (log_wf_append l tm tx e Hw Hlt) as (l' & Ha & Hw' & _ & _ & Hacc & Hlrn).
    destruct (get_append l tm tx e l' Hw Ha). unfold accepted_pos, learned_pos in *.
    exists l'. naive_solver.
  - intros l tm tx e Hle. unfold append. rewrite (proj2 (Z.ltb_ge _ _) Hle). by eexists.
  - intros l tx peer Hw. destruct (ack_up_to_spec l tx peer Hw) as (l' & out & popped & Ha & Hr & _ & _ & Hget).
    exists l', out. split_and!; [done|by destruct Hr| |done]. by eapply loop_result_advances.
  - intros l tx Hw. destruct (commit_up_to_spec l tx Hw) as (l' & out & popped & Ha & Hr & Hle & _).
    exists l', out. split_and!; [done|by destruct Hr| |].
    + by eapply loop_result_advances.
    + by eapply (loop_result_out_keys _ _ _ _ (fun k => k <= tx)).
Defined.

(** C3: [ack_up_to] on a well-formed log terminates without a panic, keeps
    the log well formed, and learns exactly the longest prefix of the pending
    entries (after the peer's ack is added to the first) whose entries each have at
    least a quorum of distinct acks; it returns their positions in order, moves the
    learned position to the last of them, leaves the accepted position alone and
    loses no entry: every [get] answers as before. *)
Theorem ack_up_to_correct l tx peer :
  log_wf l ->
  exists l' out popped, ack_up_to l tx peer = Done (l', out) /\ log_wf l' /\
    append_ack peer (pending l) = popped ++ pending l' /\ out = map entry_pos popped /\
    Forall (fun b => quorum l <= Z.of_nat (length (acks b.2)) /\ NoDup (acks b.2)) popped /\
    (forall b m, pending l' = b :: m -> Z.of_nat (length (acks b.2)) < quorum l) /\
    last (learned_pos l :: out) = Some (learned_pos l') /\
    accepted_pos l' = accepted_pos l /\ (forall x, get l' x = get l x).
Proof.
  intros Hw. destruct (ack_up_to_spec l tx peer Hw) as (l' & out & popped & Ha & Hr & Hall & Hhead & Hget).
  destruct Hr. exists l', out, popped. split_and!; done.
Qed.

(** C25: [commit_up_to tx] on a well-formed log terminates without a panic,
    keeps the log well formed, takes exactly the pending entries with a txid up to
    [tx], returns their positions in order and moves the learned position to the
    last of them; but it files all of them under the one key [tx], so that
    [committed] gains only the last one, at [tx], and an entry with a smaller txid
    is lost to [get] unless [committed] already had that key. *)
Theorem commit_up_to_correct l tx :
  log_wf l ->
  exists l' out popped, commit_up_to l tx = Done (l', out) /\ log_wf l' /\
    pending l = popped ++ pending l' /\ out = map entry_pos popped /\
    Forall (fun b => b.1 <= tx) popped /\ (forall b m, pending l' = b :: m -> tx < b.1) /\
    last (learned_pos l :: out) = Some (learned_pos l') /\ accepted_pos l' = accepted_pos l /\
    (forall b, last popped = Some b -> get l' tx = Some (entry (inner b.2))) /\
    (forall b, b ∈ popped -> b.1 <> tx -> get l' b.1 = entry <$> bt_get (committed l) b.1).
Proof.
  intros Hw. destruct (commit_up_to_spec l tx Hw) as (l' & out & popped & Hc & Hr & Hle & Hhead & Hgtx & Hget).
  pose proof Hr as [Hp Ho Hw' Hacc _ Hlast _]. exists l', out, popped. split_and!; try done.
  - intros b Hb. unfold get. rewrite Hgtx, Hb.
    assert (bt_get (pending l') tx = None) as ->; [|done].
    destruct (pending l') as [|[k a] m] eqn:E; [done|]. specialize (Hhead _ _ eq_refl). cbn in *.
    by rewrite (proj2 (Z.compare_lt_iff tx k) Hhead).
  - intros b Hb Hne. unfold get. rewrite Hget by done.
    assert (bt_get (pending l') b.1 = None) as ->; [|done].
    destruct (pending l') as [|[k a] m] eqn:E; [done|]. specialize (Hhead _ _ eq_refl). cbn in *.
    rewrite Forall_forall in Hle. specialize (Hle b Hb).
    by rewrite (proj2 (Z.compare_lt_iff b.1 k)) by lia.
Qed.

(** C24: [append] accepts exactly the txids above the last accepted one: it
    panics on any other, and otherwise adds the entry at the end of [pending],
    linked to the previous accepted position, makes it the accepted position,
    keeps the log well formed and every other lookup as it was. *)
Theorem append_correct l tm tx e :
  log_wf l ->
  (tx <= last_accepted_txid l -> is_panic (append l tm tx e)) /\
  (last_accepted_txid l < tx ->
   exists l', append l tm tx e = Done l' /\ log_wf l' /\
     pending l' = pending l ++
       [(tx, mkAcked [] (mkLogEntry tx tm (last_accepted_txid l) (last_accepted_term l) e))] /\
     accepted_pos l' = (tm, tx) /\ learned_pos l' = learned_pos l /\
     get l' tx = Some e /\ forall x, x <> tx -> get l' x = get l x).
Proof.
  intros Hw. split.
  - intros Hle. unfold append. rewrite (proj2 (Z.ltb_ge _ _) Hle). by eexists.
  - intros Hlt. destruct (log_wf_append l tm tx e Hw Hlt) as (l' & Ha & ? & ? & ? & ? & ?).
    destruct (get_append l tm tx e l' Hw Ha). exists l'. by split_and!.
Qed.
End LogTheorems.
