(* ===== verification/Server.v ===== *)
(** * The server

    server/server.rs: one node of the cluster.  [Server] is the struct, [M] the
    state-and-panic monad its methods run in; every method is one definition, in
    the order of its statements, with every read of the clock, every early return
    and every [unwrap] of the source.  [rpc_tx] is the sequence of envelopes handed
    to the event loop (the source ignores the result of the send).  Logging is
    left out, except where the arguments of a log statement can panic: [rasputind]
    sets the maximum level to [Debug], so the arguments are evaluated. *)

From stdpp Require Import base tactics option list numbers strings.
From Stdlib Require Import ZArith Lia.
From S2P Require Import Prelude BTreeMap Crates Messages Protobuf Serialization Clock State AckedLog.

(** ** Messages on the wire

    [protobuf::parse_from_bytes] and [write_to_bytes] at the message types the
    server exchanges; [None] is an [Err], or a panic inside. *)
Section Wire.
Context `{PS : ProtobufStreams}.
Definition parse_PeerMsg : list Z -> option PeerMsg := parse_from_bytes PeerMsg_impl.
Definition parse_CliReq : list Z -> option CliReq := parse_from_bytes CliReq_impl.
Definition write_PeerMsg : PeerMsg -> option (list Z) := write_to_bytes PeerMsg_impl.
Definition write_CliRes : CliRes -> option (list Z) := write_to_bytes CliRes_impl.

(** The message can be written: it is initialised and not too long. *)
Definition writable_peer (m : PeerMsg) : Prop := is_Some (write_PeerMsg m).
Definition writable_cli (m : CliRes) : Prop := is_Some (write_CliRes m).
End Wire.

Section Server.
Context `{TC : TimeCrate} `{BC : BytesCrate} `{RDB : RocksDB} `{PS : ProtobufStreams}.
Context {C : Type} `{CK : Clock C} {L : Type} `{AL : AckedLog L Mutation}.

Record Server : Type := mkServer {
  clock : C;
  peer_port : Z;
  cli_port : Z;
  id : PeerID;
  peers : list string;
  rep_peers : BTreeMap PeerID RepPeer;
  rpc_tx : list Envelope;
  max_generated_txid : TXID;
  highest_term : Term;
  state : State;
  db : DB;
  rep_log : L;
  srv_pending : BTreeMap TXID (Envelope * Z);
}.

(** Assignments to the fields. *)
Definition set_clock (s : Server) (x : C) : Server :=
  mkServer x (peer_port s) (cli_port s) (id s) (peers s) (rep_peers s) (rpc_tx s)
    (max_generated_txid s) (highest_term s) (state s) (db s) (rep_log s) (srv_pending s).
Definition set_rep_peers (s : Server) (x : BTreeMap PeerID RepPeer) : Server :=
  mkServer (clock s) (peer_port s) (cli_port s) (id s) (peers s) x (rpc_tx s)
    (max_generated_txid s) (highest_term s) (state s) (db s) (rep_log s) (srv_pending s).
Definition set_rpc_tx (s : Server) (x : list Envelope) : Server :=
  mkServer (clock s) (peer_port s) (cli_port s) (id s) (peers s) (rep_peers s) x
    (max_generated_txid s) (highest_term s) (state s) (db s) (rep_log s) (srv_pending s).
Definition set_max_generated_txid (s : Server) (x : TXID) : Server :=
  mkServer (clock s) (peer_port s) (cli_port s) (id s) (peers s) (rep_peers s) (rpc_tx s)
    x (highest_term s) (state s) (db s) (rep_log s) (srv_pending s).
Definition set_highest_term (s : Server) (x : Term) : Server :=
  mkServer (clock s) (peer_port s) (cli_port s) (id s) (peers s) (rep_peers s) (rpc_tx s)
    (max_generated_txid s) x (state s) (db s) (rep_log s) (srv_pending s).
Definition set_state (s : Server) (x : State) : Server :=
  mkServer (clock s) (peer_port s) (cli_port s) (id s) (peers s) (rep_peers s) (rpc_tx s)
    (max_generated_txid s) (highest_term s) x (db s) (rep_log s) (srv_pending s).
Definition set_db (s : Server) (x : DB) : Server :=
  mkServer (clock s) (peer_port s) (cli_port s) (id s) (peers s) (rep_peers s) (rpc_tx s)
    (max_generated_txid s) (highest_term s) (state s) x (rep_log s) (srv_pending s).
Definition set_rep_log (s : Server) (x : L) : Server :=
  mkServer (clock s) (peer_port s) (cli_port s) (id s) (peers s) (rep_peers s) (rpc_tx s)
    (max_generated_txid s) (highest_term s) (state s) (db s) x (srv_pending s).
Definition set_pending (s : Server) (x : BTreeMap TXID (Envelope * Z)) : Server :=
  mkServer (clock s) (peer_port s) (cli_port s) (id s) (peers s) (rep_peers s) (rpc_tx s)
    (max_generated_txid s) (highest_term s) (state s) (db s) (rep_log s) x.

(** ** The monad *)

Definition M (A : Type) : Type := Server -> Outcome (A * Server).

#[export] Instance M_ret : MRet M := fun A a s => Done (a, s).
#[export] Instance M_bind : MBind M := fun A B f m s =>
  match m s with
  | Done (a, s') => f a s'
  | Panic e => Panic e
  end.

Definition self : M Server := fun s => Done (s, s).
Definition modify (f : Server -> Server) : M () := fun s => Done (tt, f s).
Definition lift {A} (o : Outcome A) : M A := fun s =>
  match o with
  | Done a => Done (a, s)
  | Panic e => Panic e
  end.

Fixpoint for_each {A} (f : A -> M ()) (l : list A) : M () :=
  match l with
  | [] => mret tt
  | a :: l => _ ← f a; for_each f l
  end.

Fixpoint traverse {A B} (f : A -> M B) (l : list A) : M (list B) :=
  match l with
  | [] => mret []
  | a :: l => b ← f a; bs ← traverse f l; mret (b :: bs)
  end.

(** [self.clock.now()] *)
Definition clock_now : M Timespec := fun s =>
  Done ((now (clock s)).1, set_clock s (now (clock s)).2).

(** ** Sending *)

Definition send_msg (e : Envelope) : M () := modify (fun s => set_rpc_tx s (rpc_tx s ++ [e])).

Definition reply (req : Envelope) (res_buf : ByteBuf) : M () :=
  send_msg (mkEnvelope (address req) (tok req) res_buf).

Definition peer_broadcast (m : ByteBuf) : M () :=
  send_msg (mkEnvelope None PEER_BROADCAST m).

(** [ByteBuf::from_slice(&*m.write_to_bytes().unwrap())] *)
Definition peer_msg_buf (m : PeerMsg) : M ByteBuf :=
  b ← lift (unwrap (write_PeerMsg m)); mret (ByteBuf_from_slice b).
Definition cli_res_buf (m : CliRes) : M ByteBuf :=
  b ← lift (unwrap (write_CliRes m)); mret (ByteBuf_from_slice b).

Definition new_txid : M TXID :=
  s ← self;
  t ← lift (u64_add (max_generated_txid s) 1);
  _ ← modify (fun s => set_max_generated_txid s t);
  mret t.

(** ** Elections *)

Definition update_rep_peers (peer_id : PeerID) (addr : option SocketAddr) (tok : Token) : M () :=
  s ← self;
  (* don't send replication traffic to self *)
  if bool_decide (id s = peer_id) then mret tt else
  let new_rep_peer := mkRepPeer (log_last_accepted_term (rep_log s))
    (log_last_accepted_txid (rep_log s)) (log_last_accepted_txid (rep_log s)) tok peer_id addr in
  let old := bt_get (rep_peers s) peer_id in
  _ ← modify (fun s => set_rep_peers s (bt_insert peer_id new_rep_peer (rep_peers s)));
  match old with
  | Some old_rep_peer =>
      (* retain previous offset information *)
      modify (fun s => set_rep_peers s (bt_insert peer_id
        (mkRepPeer (rp_last_accepted_term old_rep_peer) (rp_last_accepted_txid old_rep_peer)
           (rp_max_sent_txid old_rep_peer) tok peer_id addr) (rep_peers s)))
  | None => mret tt
  end.

Definition handle_vote_res (env : Envelope) (peer_id : PeerID) (vote_res : VoteRes) : M () :=
  _ ← lift (unwrap (address env)); (* the debug! at the top *)
  s ← self;
  (* got response for a term that is not valid *)
  if (match state_term (state s) with
      | None => true
      | Some term => negb (VoteRes_get_term vote_res =? term)
      end) then mret tt else
  n1 ← clock_now;
  if valid_candidate (state s) n1 && negb (VoteRes_get_success vote_res) then
    _ ← (if highest_term s <? VoteRes_get_term vote_res
         then modify (fun s => set_highest_term s (VoteRes_get_term vote_res))
         else mret tt);
    _ ← modify (fun s => set_state s Init);
    modify (fun s => set_rep_peers s [])
  else
  n2 ← clock_now;
  if valid_candidate (state s) n2 then
    match state s with
    | Candidate term have need until =>
        new_have ←
          (if negb (bool_decide (tok env ∈ have)) && (VoteRes_get_term vote_res =? term) then
             _ ← update_rep_peers peer_id (address env) (tok env);
             mret (have ++ [tok env])
           else mret have);
        if need <=? Z.of_nat (length new_have) then
          (* we've ascended to leader! don't extend until *)
          modify (fun s => set_state s (Leader term [] need until))
        else
          modify (fun s => set_state s (Candidate term new_have need until))
    | _ => lift (unwrap None)
    end
  else
  ld ← (if is_leader (state s) then n3 ← clock_now; mret (valid_leader (state s) n3)
        else mret false);
  if ld && VoteRes_get_success vote_res then
    match state s with
    | Leader term have need until =>
        new_have ←
          (if negb (bool_decide (tok env ∈ have)) && (VoteRes_get_term vote_res =? term) then
             _ ← update_rep_peers peer_id (address env) (tok env);
             mret (have ++ [tok env])
           else mret have);
        if need <=? Z.of_nat (length new_have) then
          n4 ← clock_now;
          new_until ← lift (Timespec_add n4 LEADER_DURATION);
          modify (fun s => set_state s (Leader term [] need new_until))
        else
          modify (fun s => set_state s (Leader term new_have need until))
    | _ => lift (unwrap None)
    end
  else if negb (VoteRes_get_success vote_res) then mret tt
  else
    (* this can happen if a vote res is received by a follower; the error!
       lines read the clock twice and unwrap the term *)
    _ ← clock_now;
    _ ← clock_now;
    _ ← lift (unwrap (state_term (state s)));
    mret tt.

Definition should_grant_vote (vote_req : VoteReq) : M bool :=
  s ← self;
  n ← clock_now;
  if valid_leader (state s) n then mret false
  else if VoteReq_get_term vote_req <? log_last_learned_term (rep_log s) then mret false
  else if log_last_learned_term (rep_log s) <? VoteReq_get_last_learned_term vote_req then mret true
  else mret ((VoteReq_get_last_learned_term vote_req =? log_last_learned_term (rep_log s)) &&
             (log_last_accepted_txid (rep_log s) <=? VoteReq_get_last_accepted_txid vote_req)).

Definition handle_vote_req (env : Envelope) (peer_id : PeerID) (vote_req : VoteReq) : M () :=
  s ← self;
  let res := PeerMsg_set_srvid PeerMsg_new (id s) in
  let vote_res := VoteRes_set_term VoteRes_new (VoteReq_get_term vote_req) in
  vote_res ←
    (if bool_decide (peer_id = id s) then
       (* if we are this node (broadcast is naive) then all is well *)
       mret (VoteRes_set_success vote_res true)
     else
     n1 ← clock_now;
     if valid_leader (state s) n1 && negb (following (state s) peer_id) then
       (* if we're already following a different node, reject *)
       term ← lift (unwrap (state_term (state s)));
       mret (VoteRes_set_success (VoteRes_set_term vote_res term) false)
     else if following (state s) peer_id then
       match state s with
       | Follower term fid ftok leader_addr _ =>
           n2 ← clock_now;
           until ← lift (Timespec_add n2 LEADER_DURATION);
           _ ← modify (fun s => set_state s (Follower term fid ftok leader_addr until));
           mret (VoteRes_set_success vote_res true)
       | _ => lift (unwrap None)
       end
     else
     grant ← should_grant_vote vote_req;
     if (grant : bool) then
       _ ← modify (fun s => set_highest_term s (VoteReq_get_term vote_req));
       leader_addr ← lift (unwrap (address env));
       n2 ← clock_now;
       until ← lift (Timespec_add n2 LEADER_DURATION);
       _ ← modify (fun s => set_state s
             (Follower (VoteReq_get_term vote_req) peer_id (tok env) leader_addr until));
       mret (VoteRes_set_success vote_res true)
     else
       let vote_res := match state_term (state s) with
                       | Some term => VoteRes_set_term vote_res term
                       | None => vote_res
                       end in
       mret (VoteRes_set_success vote_res false));
  buf ← peer_msg_buf (PeerMsg_set_vote_res res vote_res);
  reply env buf.

(** ** Learning: applying an entry to the store and answering its client *)

Definition operational_problem : string := "Operational problem encountered".

Definition db_put_M (k v : list Z) : M (unit + string) := fun s =>
  let '(r, d) := db_put (db s) k v in Done (r, set_db s d).
Definition db_delete_M (k : list Z) : M (unit + string) := fun s =>
  let '(r, d) := db_delete (db s) k in Done (r, set_db s d).

Definition learn_set (mutation : Mutation) : M CliRes :=
  r ← db_put_M (Mutation_get_key mutation) (Mutation_get_value mutation);
  let set_res :=
    match r with
    | inl _ => SetRes_set_success SetRes_new true
    | inr e => SetRes_set_err (SetRes_set_success SetRes_new false) operational_problem
    end in
  mret (CliRes_set_set CliRes_new set_res).

Definition learn_cas (mutation : Mutation) : M CliRes :=
  s ← self;
  cas_res ←
    (match db_get (db s) (Mutation_get_key mutation) with
     | DBSome old_val =>
         if Mutation_has_old_value mutation &&
            bool_decide (old_val = Mutation_get_old_value mutation) then
           r ← db_put_M (Mutation_get_key mutation) (Mutation_get_value mutation);
           mret (match r with
                 | inl _ => CASRes_set_value (CASRes_set_success CASRes_new true)
                              (Mutation_get_value mutation)
                 | inr e => CASRes_set_value (CASRes_set_err (CASRes_set_success CASRes_new false)
                              operational_problem) old_val
                 end)
         else
           mret (CASRes_set_value (CASRes_set_err (CASRes_set_success CASRes_new false)
                   "compare failure") old_val)
     | DBNone =>
         if negb (Mutation_has_old_value mutation) then
           r ← db_put_M (Mutation_get_key mutation) (Mutation_get_value mutation);
           mret (match r with
                 | inl _ => CASRes_set_value (CASRes_set_success CASRes_new true)
                              (Mutation_get_value mutation)
                 | inr e => CASRes_set_err (CASRes_set_success CASRes_new false)
                              (operational_problem +:+ ": " +:+ e)
                 end)
         else
           mret (CASRes_set_err (CASRes_set_success CASRes_new false) "compare failure")
     | DBError e =>
         mret (CASRes_set_err (CASRes_set_success CASRes_new false)
                 (operational_problem +:+ ": " +:+ e))
     end);
  let cas_res := CASRes_set_txid cas_res (log_last_learned_txid (rep_log s)) in
  mret (CliRes_set_cas CliRes_new cas_res).

Definition learn_del (mutation : Mutation) : M CliRes :=
  s ← self;
  (* If the value exists, return it. *)
  let del_res := match db_get (db s) (Mutation_get_key mutation) with
                 | DBSome old_val => DelRes_set_value DelRes_new old_val
                 | DBNone => DelRes_new
                 | DBError _ => DelRes_new
                 end in
  r ← db_delete_M (Mutation_get_key mutation);
  let del_res :=
    match r with
    | inl _ => DelRes_set_success del_res true
    | inr e => DelRes_set_err (DelRes_set_success del_res false)
                 (operational_problem +:+ ": " +:+ e)
    end in
  mret (CliRes_set_del CliRes_new del_res).

Definition learn (term : Term) (txid : TXID) : M () :=
  s ← self;
  match log_get (rep_log s) txid with
  | None => mret tt (* we don't have this tx in our log yet *)
  | Some mutation =>
      res ← (match Mutation_get_field_type mutation with
             | KVSET => learn_set mutation
             | KVCAS => learn_cas mutation
             | KVDEL => learn_del mutation
             end);
      s ← self;
      let pending := bt_get (srv_pending s) txid in
      _ ← modify (fun s => set_pending s (bt_remove txid (srv_pending s)));
      match pending with
      | Some (env, req_id) =>
          buf ← cli_res_buf (CliRes_set_req_id res req_id);
          reply env buf
      | None => mret tt
      end
  end.

Definition learn_all (accepted : list (Term * TXID)) : M () :=
  for_each (fun p => learn p.1 p.2) accepted.

(** ** Replication *)

Definition log_append_M (term : Term) (txid : TXID) (m : Mutation) : M () :=
  s ← self;
  l ← lift (log_append (rep_log s) term txid m);
  modify (fun s => set_rep_log s l).

Definition log_ack_up_to_M (txid : TXID) (peer : PeerID) : M (list (Term * TXID)) :=
  s ← self;
  r ← lift (log_ack_up_to (rep_log s) txid peer);
  _ ← modify (fun s => set_rep_log s r.1);
  mret r.2.

Definition log_commit_up_to_M (txid : TXID) : M (list (Term * TXID)) :=
  s ← self;
  r ← lift (log_commit_up_to (rep_log s) txid);
  _ ← modify (fun s => set_rep_log s r.1);
  mret r.2.

(** The batch for one peer: the entries of the log in the next 99 txids, and the
    version txid of the last one found. *)
Fixpoint collect_batch (l : L) (txids : list TXID) (batch : list Mutation) (max_sent : TXID)
  : list Mutation * TXID :=
  match txids with
  | [] => (batch, max_sent)
  | txid :: txids =>
      match log_get l txid with
      | Some mutation =>
          collect_batch l txids (batch ++ [mutation])
            (Version_get_txid (Mutation_get_version mutation))
      | None => collect_batch l txids batch max_sent
      end
  end.

(** [lo..hi] *)
Definition u64_range (lo hi : Z) : list Z := seqZ lo (hi - lo).

Definition replicate_to (kp : PeerID * RepPeer) : M (PeerID * RepPeer) :=
  let '(key, peer) := kp in
  s ← self;
  let append := Append_set_from_txid Append_new (rp_last_accepted_txid peer) in
  let append := Append_set_from_term append (rp_last_accepted_term peer) in
  let append := Append_set_last_learned_txid append (log_last_learned_txid (rep_log s)) in
  lo ← lift (u64_add (rp_max_sent_txid peer) 1);
  hi ← lift (u64_add (rp_max_sent_txid peer) 100);
  let '(batch, max_sent) :=
    collect_batch (rep_log s) (u64_range lo hi) [] (rp_max_sent_txid peer) in
  let peer := mkRepPeer (rp_last_accepted_term peer) (rp_last_accepted_txid peer) max_sent
                (rp_tok peer) (rp_id peer) (rp_addr peer) in
  let append := Append_set_batch append batch in
  let peer_msg := PeerMsg_set_append (PeerMsg_set_srvid PeerMsg_new (id s)) append in
  buf ← peer_msg_buf peer_msg;
  _ ← send_msg (mkEnvelope (rp_addr peer) (rp_tok peer) buf);
  mret (key, peer).

(** Appends one mutation to our own log and acks it ourselves. *)
Definition replicate_local (mutation : Mutation) : M () :=
  let txid := Version_get_txid (Mutation_get_version mutation) in
  _ ← log_append_M (Version_get_term (Mutation_get_version mutation)) txid mutation;
  s ← self;
  (* this should only be learned on single replica collections *)
  accepted ← log_ack_up_to_M txid (id s);
  learn_all accepted.

Definition replicate (mutations : list Mutation) : M () :=
  _ ← (if (0 <? length mutations)%nat then
         _ ← for_each replicate_local mutations;
         s ← self;
         ps ← traverse replicate_to (rep_peers s);
         modify (fun s => set_rep_peers s ps)
       else mret tt);
  (* the debug! of the unaccepted length subtracts *)
  s ← self;
  _ ← lift (u64_sub (log_last_accepted_txid (rep_log s)) (log_last_learned_txid (rep_log s)));
  mret tt.

(** The loop of [handle_append] over the batch. *)
Fixpoint append_batch (batch : list Mutation) (max_term : Term) (max_txid : TXID)
  : M (Term * TXID) :=
  match batch with
  | [] => mret (max_term, max_txid)
  | mutation :: batch =>
      let version := Mutation_get_version mutation in
      if Version_get_term version <? max_term then
        lift (Panic "replication stream has decreasing term")
      else if Version_get_txid version <=? max_txid then
        append_batch batch max_term max_txid
      else
        _ ← log_append_M (Version_get_term version) (Version_get_txid version) mutation;
        append_batch batch (Version_get_term version) (Version_get_txid version)
  end.

Definition handle_append (env : Envelope) (peer_id : PeerID) (append : Append) : M () :=
  s ← self;
  if is_leader (state s) then mret tt else
  let res := PeerMsg_set_srvid PeerMsg_new (id s) in
  append_res ←
    (if is_following (state s) peer_id then
       (* verify that it links *)
       if (Append_get_from_term append =? log_last_accepted_term (rep_log s)) &&
          (Append_get_from_txid append =? log_last_accepted_txid (rep_log s)) then
         r ← append_batch (Append_get_batch append)
               (log_last_accepted_term (rep_log s)) (log_last_accepted_txid (rep_log s));
         let append_res := AppendRes_set_accepted AppendRes_new true in
         let append_res := AppendRes_set_last_accepted_term append_res r.1 in
         let append_res := AppendRes_set_last_accepted_txid append_res r.2 in
         (* Bump up generator for future use if we transition to leader. *)
         _ ← modify (fun s => set_max_generated_txid s r.2);
         accepted ← log_commit_up_to_M (Append_get_last_learned_txid append);
         _ ← learn_all accepted;
         mret append_res
       else
         let append_res := AppendRes_set_accepted AppendRes_new false in
         let append_res := AppendRes_set_last_accepted_term append_res
                             (log_last_accepted_term (rep_log s)) in
         mret (AppendRes_set_last_accepted_txid append_res (log_last_accepted_txid (rep_log s)))
     else mret AppendRes_new);
  buf ← peer_msg_buf (PeerMsg_set_append_res res append_res);
  reply env buf.

Definition handle_append_res (env : Envelope) (peer_id : PeerID) (append_res : AppendRes) : M () :=
  s ← self;
  (* verify that we are leading *)
  if negb (is_leader (state s)) then mret tt else
  accepted ←
    (match bt_get (rep_peers s) peer_id with
     | Some rep_peer =>
         let max_sent := if negb (AppendRes_get_accepted append_res)
                         then AppendRes_get_last_accepted_txid append_res
                         else rp_max_sent_txid rep_peer in
         let rep_peer := mkRepPeer (AppendRes_get_last_accepted_term append_res)
           (AppendRes_get_last_accepted_txid append_res) max_sent
           (rp_tok rep_peer) (rp_id rep_peer) (rp_addr rep_peer) in
         _ ← modify (fun s => set_rep_peers s (bt_insert peer_id rep_peer (rep_peers s)));
         log_ack_up_to_M (AppendRes_get_last_accepted_txid append_res) peer_id
     | None => mret [] (* got AppendRes for non-existent peer! *)
     end);
  learn_all accepted.

Definition handle_peer (env : Envelope) : M () :=
  peer_msg ← lift (unwrap (parse_PeerMsg (ByteBuf_bytes (msg env))));
  let peer_id := PeerMsg_get_srvid peer_msg in
  if PeerMsg_has_vote_res peer_msg then
    handle_vote_res env peer_id (PeerMsg_get_vote_res peer_msg)
  else if PeerMsg_has_vote_req peer_msg then
    handle_vote_req env peer_id (PeerMsg_get_vote_req peer_msg)
  else if PeerMsg_has_append peer_msg then
    handle_append env peer_id (PeerMsg_get_append peer_msg)
  else if PeerMsg_has_append_res peer_msg then
    handle_append_res env peer_id (PeerMsg_get_append_res peer_msg)
  else mret tt.

(** ** Clients *)

(** A [RedirectRes] of a node that does not lead. *)
Definition redirect (st : State) : M RedirectRes :=
  if is_follower st then
    leader_address ← lift (unwrap (match st with
                                   | Follower _ _ _ leader_addr _ => Some leader_addr
                                   | _ => None
                                   end));
    mret (RedirectRes_set_address (RedirectRes_set_success RedirectRes_new true)
            (SocketAddr_debug leader_address))
  else
    mret (RedirectRes_set_err (RedirectRes_set_success RedirectRes_new false)
            "No leader has been elected yet").

Definition handle_get (get_req : GetReq) : M GetRes :=
  s ← self;
  let get_res :=
    match db_get (db s) (GetReq_get_key get_req) with
    | DBSome value => GetRes_set_value (GetRes_set_success GetRes_new true) value
    | DBNone => GetRes_set_err (GetRes_set_success GetRes_new false) "Key not found"
    | DBError _ => GetRes_set_err (GetRes_set_success GetRes_new false) operational_problem
    end in
  mret (GetRes_set_txid get_res (log_last_learned_txid (rep_log s))).

(** The version of a new mutation: a fresh txid in our current term. *)
Definition new_version : M (TXID * Version) :=
  txid ← new_txid;
  s ← self;
  let version := Version_set_txid Version_new txid in
  term ← lift (unwrap (state_term (state s)));
  mret (txid, Version_set_term version term).

(** Remember who asked, and replicate; the answer is sent when the txid is
    learned. *)
Definition propose (req : Envelope) (req_id : Z) (txid : TXID) (mutation : Mutation) : M () :=
  _ ← modify (fun s => set_pending s (bt_insert txid (req, req_id) (srv_pending s)));
  replicate [mutation].

Definition handle_cli (req : Envelope) : M () :=
  cli_req ← lift (unwrap (parse_CliReq (ByteBuf_bytes (msg req))));
  let res := CliRes_set_req_id CliRes_new (CliReq_get_req_id cli_req) in
  s ← self;
  if negb (is_leader (state s)) then
    redirect_res ← redirect (state s);
    buf ← cli_res_buf (CliRes_set_redirect res redirect_res);
    reply req buf
  else if CliReq_has_get cli_req then
    get_res ← handle_get (CliReq_get_get cli_req);
    buf ← cli_res_buf (CliRes_set_get res get_res);
    reply req buf
  else if CliReq_has_set cli_req then
    v ← new_version;
    let set_req := CliReq_get_set cli_req in
    let mutation := Mutation_set_field_type Mutation_new KVSET in
    let mutation := Mutation_set_version mutation v.2 in
    let mutation := Mutation_set_key mutation (SetReq_get_key set_req) in
    let mutation := Mutation_set_value mutation (SetReq_get_value set_req) in
    propose req (CliReq_get_req_id cli_req) v.1 mutation
  else if CliReq_has_cas cli_req then
    v ← new_version;
    let cas_req := CliReq_get_cas cli_req in
    let mutation := Mutation_set_field_type Mutation_new KVCAS in
    let mutation := Mutation_set_version mutation v.2 in
    let mutation := Mutation_set_key mutation (CASReq_get_key cas_req) in
    let mutation := Mutation_set_value mutation (CASReq_get_new_value cas_req) in
    let mutation := Mutation_set_old_value mutation (CASReq_get_old_value cas_req) in
    propose req (CliReq_get_req_id cli_req) v.1 mutation
  else if CliReq_has_del cli_req then
    v ← new_version;
    let del_req := CliReq_get_del cli_req in
    let mutation := Mutation_set_field_type Mutation_new KVDEL in
    let mutation := Mutation_set_version mutation v.2 in
    let mutation := Mutation_set_key mutation (DelReq_get_key del_req) in
    propose req (CliReq_get_req_id cli_req) v.1 mutation
  else
    buf ← cli_res_buf res;
    reply req buf.

(** ** Periodic work *)

(** Become a candidate of the next term. *)
Definition become_candidate : M () :=
  s ← self;
  t ← lift (u64_add (highest_term s) 1);
  _ ← modify (fun s => set_highest_term s t);
  n ← clock_now;
  until ← lift (Timespec_add n LEADER_DURATION);
  modify (fun s => set_state s
    (Candidate t [] (as_u8 (Z.of_nat (length (peers s)) / 2 + 1)) until)).

Definition broadcast_vote_req : M () :=
  s ← self;
  term ← lift (unwrap (state_term (state s)));
  let vote_req := VoteReq_set_term VoteReq_new term in
  let vote_req := VoteReq_set_last_accepted_term vote_req (log_last_accepted_term (rep_log s)) in
  let vote_req := VoteReq_set_last_accepted_txid vote_req (log_last_accepted_txid (rep_log s)) in
  let vote_req := VoteReq_set_last_learned_term vote_req (log_last_learned_term (rep_log s)) in
  let vote_req := VoteReq_set_last_learned_txid vote_req (log_last_learned_txid (rep_log s)) in
  buf ← peer_msg_buf (PeerMsg_set_vote_req (PeerMsg_set_srvid PeerMsg_new (id s)) vote_req);
  peer_broadcast buf.

Definition cron : M () :=
  s ← self;
  n1 ← clock_now;
  candidate ← (if negb (valid_leader (state s) n1) then
                 n2 ← clock_now; mret (negb (valid_candidate (state s) n2))
               else mret false);
  _ ← (if (candidate : bool) then become_candidate else mret tt);
  s ← self;
  n3 ← clock_now;
  extend ← lift (should_extend_leadership (state s) n3);
  ask ← (if (extend : bool) then mret true
         else n4 ← clock_now; mret (valid_candidate (state s) n4));
  if (ask : bool) then broadcast_vote_req else mret tt.

(** ** [Server::run]

    Three threads take turns on the server under its mutex: the peer request
    handler, the client request handler and the cron.  A panic poisons the mutex,
    and the next thread to lock it exits the process. *)

Inductive Event : Type :=
| PeerRequest (env : Envelope)
| CliRequest (env : Envelope)
| CronTick.

Definition handle_event (e : Event) : M () :=
  match e with
  | PeerRequest env => handle_peer env
  | CliRequest env => handle_cli env
  | CronTick => cron
  end.

Definition run_events (es : list Event) : M () := for_each handle_event es.

(** The server [run] builds: the id is a fresh UUID, the store is the one
    [rocksdb::new] opened. *)
Definition run_init (c : C) (log : Z -> L) (uuid : PeerID) (store : DB)
    (peer_port cli_port : Z) (peers : list string) : Server :=
  mkServer c peer_port cli_port uuid peers [] [] 0 0 Init store
    (log (Z.of_nat (length peers) / 2 + 1)) [].
End Server.
