(* ===== verification/Transport.v ===== *)
(** * Messages on the wire

    What the wire methods of the generated messages promise to the code that sends
    and receives them, as a class with one instance per message, and what follows:
    every message comes back from its bytes, and a sequence of messages from peer to
    peer comes back from the framed stream that carries it, however the network
    cuts that stream. *)

From stdpp Require Import base tactics option list numbers strings.
From Stdlib Require Import ZArith Lia.
From S2P Require Import Prelude Crates Reference Messages Protobuf ProtobufRef Serialization SerializationFacts.
From S2P Require Import Codec Server.

(** ** The contract of a message type *)

Class WireMessage `{PS : ProtobufStreams} {A : Type} (mi : MessageImpl IS OS A)
    (ok : A -> Prop) (bytes : A -> list Z) (strip : A -> A) (eqb : A -> A -> bool) : Prop := {
  wm_writes : forall m, ok m -> len (bytes m) < 2 ^ 32 ->
    writes (mi_compute_size mi) (mi_get_cached_size mi) (mi_write_to_with_cached_sizes mi) m (bytes m);
  wm_reads : forall m, ok m -> len (bytes m) < 2 ^ 32 ->
    consumes (mi_merge_from mi (mi_new mi)) (bytes m) (strip m);
  wm_u8 : forall m, ok m -> len (bytes m) < 2 ^ 32 -> is_bytes (bytes m);
  wm_eq : forall m, ok m -> eqb (strip m) m = true;
  wm_init : forall m, mi_is_initialized mi (strip m) = mi_is_initialized mi m;
}.

Ltac wire_message W R U E :=
  split; [exact W|exact R|exact U|exact E|intros m; destruct m; cbn;
    repeat match goal with o : option _ |- _ => destruct o end; reflexivity].

(** A turn of [merge_from] reads forward. *)
Create HintDb shrinks.
#[export] Hint Resolve read_uint64_shrinks read_bool_shrinks read_enum_shrinks read_bytes_shrinks
  read_string_shrinks read_unknown_shrinks merge_message_shrinks read_repeated_shrinks merge_all_shrinks : shrinks.
Ltac merge_shrinks inp E :=
  repeat match type of E with (if ?b then _ else _) = _ => destruct b end;
  try apply expect_type_Some in E;
  match type of E with mbind _ ?x = _ =>
    let Er := fresh "Er" in destruct x as [[? ?]|] eqn:Er; cbn in E; [|discriminate E]; injection E as _ <-;
    first [ eapply read_repeated_shrinks; [|exact Er]; solve [eauto with shrinks]
          | match type of Er with ?rd inp = _ =>
              let H := fresh in assert (shrinks 0 rd) as H by (eauto with shrinks); exact (H _ _ _ Er) end ]
  end.

Section Instances.
Context `{PL : ProtobufLaws}.
#[export] Instance SetReq_wire : WireMessage SetReq_impl SetReq_ok SetReq_bytes SetReq_strip SetReq_eq.
Proof. wire_message SetReq_writes SetReq_reads SetReq_u8 SetReq_strip_eq. Qed.
#[export] Instance SetRes_wire : WireMessage SetRes_impl SetRes_ok SetRes_bytes SetRes_strip SetRes_eq.
Proof. wire_message SetRes_writes SetRes_reads SetRes_u8 SetRes_strip_eq. Qed.
#[export] Instance GetReq_wire : WireMessage GetReq_impl GetReq_ok GetReq_bytes GetReq_strip GetReq_eq.
Proof. wire_message GetReq_writes GetReq_reads GetReq_u8 GetReq_strip_eq. Qed.
#[export] Instance GetRes_wire : WireMessage GetRes_impl GetRes_ok GetRes_bytes GetRes_strip GetRes_eq.
Proof. wire_message GetRes_writes GetRes_reads GetRes_u8 GetRes_strip_eq. Qed.
#[export] Instance CASReq_wire : WireMessage CASReq_impl CASReq_ok CASReq_bytes CASReq_strip CASReq_eq.
Proof. wire_message CASReq_writes CASReq_reads CASReq_u8 CASReq_strip_eq. Qed.
#[export] Instance CASRes_wire : WireMessage CASRes_impl CASRes_ok CASRes_bytes CASRes_strip CASRes_eq.
Proof. wire_message CASRes_writes CASRes_reads CASRes_u8 CASRes_strip_eq. Qed.
#[export] Instance DelReq_wire : WireMessage DelReq_impl DelReq_ok DelReq_bytes DelReq_strip DelReq_eq.
Proof. wire_message DelReq_writes DelReq_reads DelReq_u8 DelReq_strip_eq. Qed.
#[export] Instance DelRes_wire : WireMessage DelRes_impl DelRes_ok DelRes_bytes DelRes_strip DelRes_eq.
Proof. wire_message DelRes_writes DelRes_reads DelRes_u8 DelRes_strip_eq. Qed.
#[export] Instance WatchReq_wire : WireMessage WatchReq_impl WatchReq_ok WatchReq_bytes WatchReq_strip WatchReq_eq.
Proof. wire_message WatchReq_writes WatchReq_reads WatchReq_u8 WatchReq_strip_eq. Qed.
#[export] Instance Version_wire : WireMessage Version_impl Version_ok Version_bytes Version_strip Version_eq.
Proof. wire_message Version_writes Version_reads Version_u8 Version_strip_eq. Qed.
#[export] Instance Mutation_wire : WireMessage Mutation_impl Mutation_ok Mutation_bytes Mutation_strip Mutation_eq.
Proof. wire_message Mutation_writes Mutation_reads Mutation_u8 Mutation_strip_eq. Qed.
#[export] Instance WatchRes_wire : WireMessage WatchRes_impl WatchRes_ok WatchRes_bytes WatchRes_strip WatchRes_eq.
Proof. wire_message WatchRes_writes WatchRes_reads WatchRes_u8 WatchRes_strip_eq. Qed.
#[export] Instance RedirectRes_wire : WireMessage RedirectRes_impl RedirectRes_ok RedirectRes_bytes RedirectRes_strip RedirectRes_eq.
Proof. wire_message RedirectRes_writes RedirectRes_reads RedirectRes_u8 RedirectRes_strip_eq. Qed.
#[export] Instance CliReq_wire : WireMessage CliReq_impl CliReq_ok CliReq_bytes CliReq_strip CliReq_eq.
Proof. wire_message CliReq_writes CliReq_reads CliReq_u8 CliReq_strip_eq. Qed.
#[export] Instance CliRes_wire : WireMessage CliRes_impl CliRes_ok CliRes_bytes CliRes_strip CliRes_eq.
Proof. wire_message CliRes_writes CliRes_reads CliRes_u8 CliRes_strip_eq. Qed.
#[export] Instance VoteReq_wire : WireMessage VoteReq_impl VoteReq_ok VoteReq_bytes VoteReq_strip VoteReq_eq.
Proof. wire_message VoteReq_writes VoteReq_reads VoteReq_u8 VoteReq_strip_eq. Qed.
#[export] Instance VoteRes_wire : WireMessage VoteRes_impl VoteRes_ok VoteRes_bytes VoteRes_strip VoteRes_eq.
Proof. wire_message VoteRes_writes VoteRes_reads VoteRes_u8 VoteRes_strip_eq. Qed.
#[export] Instance Append_wire : WireMessage Append_impl Append_ok Append_bytes Append_strip Append_eq.
Proof. wire_message Append_writes Append_reads Append_u8 Append_strip_eq. Qed.
#[export] Instance AppendRes_wire : WireMessage AppendRes_impl AppendRes_ok AppendRes_bytes AppendRes_strip AppendRes_eq.
Proof. wire_message AppendRes_writes AppendRes_reads AppendRes_u8 AppendRes_strip_eq. Qed.
#[export] Instance PeerMsg_wire : WireMessage PeerMsg_impl PeerMsg_ok PeerMsg_bytes PeerMsg_strip PeerMsg_eq.
Proof. wire_message PeerMsg_writes PeerMsg_reads PeerMsg_u8 PeerMsg_strip_eq. Qed.

(** ** Termination of [merge_from] *)

Lemma SetReq_merge_field_shrinks m f wt : shrinks 0 (SetReq_merge_field m f wt).
Proof. intros inp a inp' E. unfold SetReq_merge_field in E. merge_shrinks inp E. Qed.
Lemma SetReq_merge_shrinks m : shrinks 0 (SetReq_merge_from m).
Proof. apply merge_all_shrinks, SetReq_merge_field_shrinks. Qed.
#[local] Hint Resolve SetReq_merge_field_shrinks SetReq_merge_shrinks : shrinks.
Lemma SetRes_merge_field_shrinks m f wt : shrinks 0 (SetRes_merge_field m f wt).
Proof. intros inp a inp' E. unfold SetRes_merge_field in E. merge_shrinks inp E. Qed.
Lemma SetRes_merge_shrinks m : shrinks 0 (SetRes_merge_from m).
Proof. apply merge_all_shrinks, SetRes_merge_field_shrinks. Qed.
#[local] Hint Resolve SetRes_merge_field_shrinks SetRes_merge_shrinks : shrinks.
Lemma GetReq_merge_field_shrinks m f wt : shrinks 0 (GetReq_merge_field m f wt).
Proof. intros inp a inp' E. unfold GetReq_merge_field in E. merge_shrinks inp E. Qed.
Lemma GetReq_merge_shrinks m : shrinks 0 (GetReq_merge_from m).
Proof. apply merge_all_shrinks, GetReq_merge_field_shrinks. Qed.
#[local] Hint Resolve GetReq_merge_field_shrinks GetReq_merge_shrinks : shrinks.
Lemma GetRes_merge_field_shrinks m f wt : shrinks 0 (GetRes_merge_field m f wt).
Proof. intros inp a inp' E. unfold GetRes_merge_field in E. merge_shrinks inp E. Qed.
Lemma GetRes_merge_shrinks m : shrinks 0 (GetRes_merge_from m).
Proof. apply merge_all_shrinks, GetRes_merge_field_shrinks. Qed.
#[local] Hint Resolve GetRes_merge_field_shrinks GetRes_merge_shrinks : shrinks.
Lemma CASReq_merge_field_shrinks m f wt : shrinks 0 (CASReq_merge_field m f wt).
Proof. intros inp a inp' E. unfold CASReq_merge_field in E. merge_shrinks inp E. Qed.
Lemma CASReq_merge_shrinks m : shrinks 0 (CASReq_merge_from m).
Proof. apply merge_all_shrinks, CASReq_merge_field_shrinks. Qed.
#[local] Hint Resolve CASReq_merge_field_shrinks CASReq_merge_shrinks : shrinks.
Lemma CASRes_merge_field_shrinks m f wt : shrinks 0 (CASRes_merge_field m f wt).
Proof. intros inp a inp' E. unfold CASRes_merge_field in E. merge_shrinks inp E. Qed.
Lemma CASRes_merge_shrinks m : shrinks 0 (CASRes_merge_from m).
Proof. apply merge_all_shrinks, CASRes_merge_field_shrinks. Qed.
#[local] Hint Resolve CASRes_merge_field_shrinks CASRes_merge_shrinks : shrinks.
Lemma DelReq_merge_field_shrinks m f wt : shrinks 0 (DelReq_merge_field m f wt).
Proof. intros inp a inp' E. unfold DelReq_merge_field in E. merge_shrinks inp E. Qed.
Lemma DelReq_merge_shrinks m : shrinks 0 (DelReq_merge_from m).
Proof. apply merge_all_shrinks, DelReq_merge_field_shrinks. Qed.
#[local] Hint Resolve DelReq_merge_field_shrinks DelReq_merge_shrinks : shrinks.
Lemma DelRes_merge_field_shrinks m f wt : shrinks 0 (DelRes_merge_field m f wt).
Proof. intros inp a inp' E. unfold DelRes_merge_field in E. merge_shrinks inp E. Qed.
Lemma DelRes_merge_shrinks m : shrinks 0 (DelRes_merge_from m).
Proof. apply merge_all_shrinks, DelRes_merge_field_shrinks. Qed.
#[local] Hint Resolve DelRes_merge_field_shrinks DelRes_merge_shrinks : shrinks.
Lemma WatchReq_merge_field_shrinks m f wt : shrinks 0 (WatchReq_merge_field m f wt).
Proof. intros inp a inp' E. unfold WatchReq_merge_field in E. merge_shrinks inp E. Qed.
Lemma WatchReq_merge_shrinks m : shrinks 0 (WatchReq_merge_from m).
Proof. apply merge_all_shrinks, WatchReq_merge_field_shrinks. Qed.
#[local] Hint Resolve WatchReq_merge_field_shrinks WatchReq_merge_shrinks : shrinks.
Lemma Version_merge_field_shrinks m f wt : shrinks 0 (Version_merge_field m f wt).
Proof. intros inp a inp' E. unfold Version_merge_field in E. merge_shrinks inp E. Qed.
Lemma Version_merge_shrinks m : shrinks 0 (Version_merge_from m).
Proof. apply merge_all_shrinks, Version_merge_field_shrinks. Qed.
#[local] Hint Resolve Version_merge_field_shrinks Version_merge_shrinks : shrinks.
Lemma Mutation_merge_field_shrinks m f wt : shrinks 0 (Mutation_merge_field m f wt).
Proof. intros inp a inp' E. unfold Mutation_merge_field in E. merge_shrinks inp E. Qed.
Lemma Mutation_merge_shrinks m : shrinks 0 (Mutation_merge_from m).
Proof. apply merge_all_shrinks, Mutation_merge_field_shrinks. Qed.
#[local] Hint Resolve Mutation_merge_field_shrinks Mutation_merge_shrinks : shrinks.
Lemma WatchRes_merge_field_shrinks m f wt : shrinks 0 (WatchRes_merge_field m f wt).
Proof. intros inp a inp' E. unfold WatchRes_merge_field in E. merge_shrinks inp E. Qed.
Lemma WatchRes_merge_shrinks m : shrinks 0 (WatchRes_merge_from m).
Proof. apply merge_all_shrinks, WatchRes_merge_field_shrinks. Qed.
#[local] Hint Resolve WatchRes_merge_field_shrinks WatchRes_merge_shrinks : shrinks.
Lemma RedirectRes_merge_field_shrinks m f wt : shrinks 0 (RedirectRes_merge_field m f wt).
Proof. intros inp a inp' E. unfold RedirectRes_merge_field in E. merge_shrinks inp E. Qed.
Lemma RedirectRes_merge_shrinks m : shrinks 0 (RedirectRes_merge_from m).
Proof. apply merge_all_shrinks, RedirectRes_merge_field_shrinks. Qed.
#[local] Hint Resolve RedirectRes_merge_field_shrinks RedirectRes_merge_shrinks : shrinks.
Lemma CliReq_merge_field_shrinks m f wt : shrinks 0 (CliReq_merge_field m f wt).
Proof. intros inp a inp' E. unfold CliReq_merge_field in E. merge_shrinks inp E. Qed.
Lemma CliReq_merge_shrinks m : shrinks 0 (CliReq_merge_from m).
Proof. apply merge_all_shrinks, CliReq_merge_field_shrinks. Qed.
#[local] Hint Resolve CliReq_merge_field_shrinks CliReq_merge_shrinks : shrinks.
Lemma CliRes_merge_field_shrinks m f wt : shrinks 0 (CliRes_merge_field m f wt).
Proof. intros inp a inp' E. unfold CliRes_merge_field in E. merge_shrinks inp E. Qed.
Lemma CliRes_merge_shrinks m : shrinks 0 (CliRes_merge_from m).
Proof. apply merge_all_shrinks, CliRes_merge_field_shrinks. Qed.
#[local] Hint Resolve CliRes_merge_field_shrinks CliRes_merge_shrinks : shrinks.
Lemma VoteReq_merge_field_shrinks m f wt : shrinks 0 (VoteReq_merge_field m f wt).
Proof. intros inp a inp' E. unfold VoteReq_merge_field in E. merge_shrinks inp E. Qed.
Lemma VoteReq_merge_shrinks m : shrinks 0 (VoteReq_merge_from m).
Proof. apply merge_all_shrinks, VoteReq_merge_field_shrinks. Qed.
#[local] Hint Resolve VoteReq_merge_field_shrinks VoteReq_merge_shrinks : shrinks.
Lemma VoteRes_merge_field_shrinks m f wt : shrinks 0 (VoteRes_merge_field m f wt).
Proof. intros inp a inp' E. unfold VoteRes_merge_field in E. merge_shrinks inp E. Qed.
Lemma VoteRes_merge_shrinks m : shrinks 0 (VoteRes_merge_from m).
Proof. apply merge_all_shrinks, VoteRes_merge_field_shrinks. Qed.
#[local] Hint Resolve VoteRes_merge_field_shrinks VoteRes_merge_shrinks : shrinks.
Lemma Append_merge_field_shrinks m f wt : shrinks 0 (Append_merge_field m f wt).
Proof. intros inp a inp' E. unfold Append_merge_field in E. merge_shrinks inp E. Qed.
Lemma Append_merge_shrinks m : shrinks 0 (Append_merge_from m).
Proof. apply merge_all_shrinks, Append_merge_field_shrinks. Qed.
#[local] Hint Resolve Append_merge_field_shrinks Append_merge_shrinks : shrinks.
Lemma AppendRes_merge_field_shrinks m f wt : shrinks 0 (AppendRes_merge_field m f wt).
Proof. intros inp a inp' E. unfold AppendRes_merge_field in E. merge_shrinks inp E. Qed.
Lemma AppendRes_merge_shrinks m : shrinks 0 (AppendRes_merge_from m).
Proof. apply merge_all_shrinks, AppendRes_merge_field_shrinks. Qed.
#[local] Hint Resolve AppendRes_merge_field_shrinks AppendRes_merge_shrinks : shrinks.
Lemma PeerMsg_merge_field_shrinks m f wt : shrinks 0 (PeerMsg_merge_field m f wt).
Proof. intros inp a inp' E. unfold PeerMsg_merge_field in E. merge_shrinks inp E. Qed.
Lemma PeerMsg_merge_shrinks m : shrinks 0 (PeerMsg_merge_from m).
Proof. apply merge_all_shrinks, PeerMsg_merge_field_shrinks. Qed.
#[local] Hint Resolve PeerMsg_merge_field_shrinks PeerMsg_merge_shrinks : shrinks.
End Instances.
#[export] Hint Resolve SetReq_merge_field_shrinks SetRes_merge_field_shrinks GetReq_merge_field_shrinks GetRes_merge_field_shrinks CASReq_merge_field_shrinks CASRes_merge_field_shrinks DelReq_merge_field_shrinks DelRes_merge_field_shrinks WatchReq_merge_field_shrinks Version_merge_field_shrinks Mutation_merge_field_shrinks WatchRes_merge_field_shrinks RedirectRes_merge_field_shrinks CliReq_merge_field_shrinks CliRes_merge_field_shrinks VoteReq_merge_field_shrinks VoteRes_merge_field_shrinks Append_merge_field_shrinks AppendRes_merge_field_shrinks PeerMsg_merge_field_shrinks : shrinks.

(** ** What a user of the contract gets *)

(** Writing gives the message's bytes, and reading these gives a message that is equal
    to it (in the sense of the generated [PartialEq]); a message that lacks a required
    field of its own is not written, nor read from the bytes it would have. *)
Definition roundtrips `{PS : ProtobufStreams} {A} (mi : MessageImpl IS OS A) (ok : A -> Prop)
    (bytes : A -> list Z) (eqb : A -> A -> bool) : Prop :=
  forall m, ok m -> len (bytes m) < 2 ^ 32 ->
  if mi_is_initialized mi m
  then write_to_bytes mi m = Some (bytes m) /\
       exists m', parse_from_bytes mi (bytes m) = Some m' /\ eqb m' m = true
  else write_to_bytes mi m = None /\ parse_from_bytes mi (bytes m) = None.

Section Generic.
Context `{PL : ProtobufLaws} {A : Type} (mi : MessageImpl IS OS A).
Context {ok : A -> Prop} {bytes : A -> list Z} {strip : A -> A} {eqb : A -> A -> bool}.
Context {WM : WireMessage mi ok bytes strip eqb}.

Lemma wire_write m : ok m -> len (bytes m) < 2 ^ 32 ->
  write_to_bytes mi m = if mi_is_initialized mi m then Some (bytes m) else None.
Proof.
  intros Hok Hlen. destruct (mi_is_initialized mi m) eqn:Hi; [|by apply write_to_bytes_uninit].
  destruct (wm_writes m Hok Hlen) as (m' & Hs & _ & Ha). by eapply write_to_bytes_ok.
Qed.

Lemma wire_parse m : ok m -> len (bytes m) < 2 ^ 32 ->
  parse_from_bytes mi (bytes m) = if mi_is_initialized mi m then Some (strip m) else None.
Proof.
  intros Hok Hlen. rewrite (parse_from_bytes_ok _ mi _ _ (wm_reads m Hok Hlen)).
  by rewrite wm_init.
Qed.

Lemma wire_roundtrips : roundtrips mi ok bytes eqb.
Proof using WM PL.
  intros m Hok Hlen. rewrite (wire_write m Hok Hlen), (wire_parse m Hok Hlen).
  destruct (mi_is_initialized mi m) eqn:Hi; [|done]. split; [done|].
  exists (strip m). split; [done|by apply wm_eq].
Qed.
End Generic.

Section Transport.
Context `{PL : ProtobufLaws} `{BL : BytesLaws}.

(** C18: every message of the protocol, well formed and below four gigabytes,
    comes back from the bytes the generated code writes for it, equal to the message;
    a message without one of its own required fields is neither written nor read. *)
Theorem messages_roundtrip :
  roundtrips SetReq_impl SetReq_ok SetReq_bytes SetReq_eq /\
  roundtrips SetRes_impl SetRes_ok SetRes_bytes SetRes_eq /\
  roundtrips GetReq_impl GetReq_ok GetReq_bytes GetReq_eq /\
  roundtrips GetRes_impl GetRes_ok GetRes_bytes GetRes_eq /\
  roundtrips CASReq_impl CASReq_ok CASReq_bytes CASReq_eq /\
  roundtrips CASRes_impl CASRes_ok CASRes_bytes CASRes_eq /\
  roundtrips DelReq_impl DelReq_ok DelReq_bytes DelReq_eq /\
  roundtrips DelRes_impl DelRes_ok DelRes_bytes DelRes_eq /\
  roundtrips WatchReq_impl WatchReq_ok WatchReq_bytes WatchReq_eq /\
  roundtrips Version_impl Version_ok Version_bytes Version_eq /\
  roundtrips Mutation_impl Mutation_ok Mutation_bytes Mutation_eq /\
  roundtrips WatchRes_impl WatchRes_ok WatchRes_bytes WatchRes_eq /\
  roundtrips RedirectRes_impl RedirectRes_ok RedirectRes_bytes RedirectRes_eq /\
  roundtrips CliReq_impl CliReq_ok CliReq_bytes CliReq_eq /\
  roundtrips CliRes_impl CliRes_ok CliRes_bytes CliRes_eq /\
  roundtrips VoteReq_impl VoteReq_ok VoteReq_bytes VoteReq_eq /\
  roundtrips VoteRes_impl VoteRes_ok VoteRes_bytes VoteRes_eq /\
  roundtrips Append_impl Append_ok Append_bytes Append_eq /\
  roundtrips AppendRes_impl AppendRes_ok AppendRes_bytes AppendRes_eq /\
  roundtrips PeerMsg_impl PeerMsg_ok PeerMsg_bytes PeerMsg_eq.
Proof. split_and!; exact (wire_roundtrips _). Qed.

(** C19: parsing terminates: for every message, on any input, the loop of its
    [merge_from] has ended, with a message or an error, within as many turns as there
    are bytes and one to see the end, and more turns change nothing. *)
Theorem merge_from_terminates :
  terminates SetReq_merge_field /\
  terminates SetRes_merge_field /\
  terminates GetReq_merge_field /\
  terminates GetRes_merge_field /\
  terminates CASReq_merge_field /\
  terminates CASRes_merge_field /\
  terminates DelReq_merge_field /\
  terminates DelRes_merge_field /\
  terminates WatchReq_merge_field /\
  terminates Version_merge_field /\
  terminates Mutation_merge_field /\
  terminates WatchRes_merge_field /\
  terminates RedirectRes_merge_field /\
  terminates CliReq_merge_field /\
  terminates CliRes_merge_field /\
  terminates VoteReq_merge_field /\
  terminates VoteRes_merge_field /\
  terminates Append_merge_field /\
  terminates AppendRes_merge_field /\
  terminates PeerMsg_merge_field.
Proof. split_and!; apply merge_terminates; auto with shrinks. Qed.

(** A message a node can send to a peer. *)
Definition sendable_peer (m : PeerMsg) : Prop :=
  PeerMsg_ok m /\ PeerMsg_is_initialized m = true /\ len (PeerMsg_bytes m) < 2 ^ 32.

(** The same messages, by the generated equality. *)
Definition same_messages : list PeerMsg -> list PeerMsg -> Prop := Forall2 (fun m' m => PeerMsg_eq m' m = true).

(** It has bytes: its [srvid] is required. *)
Lemma PeerMsg_bytes_nonempty m : PeerMsg_is_initialized m = true -> PeerMsg_bytes m <> [].
Proof.
  intros Hi Hb. assert (is_Some (PeerMsg_srvid m)) as [v Hv]
    by (revert Hi; unfold PeerMsg_is_initialized; destruct (PeerMsg_srvid m); cbn; [by eexists|done]).
  apply (f_equal len) in Hb. unfold PeerMsg_bytes in Hb. rewrite Hv in Hb. len_split Hb. cbn [enc_opt] in *.
  unfold enc_string in *. rewrite enc_bytes_len in * by lia.
  pose proof (varint_len (len (string_bytes v))). pose proof (len_nonneg (string_bytes v)). lia.
Qed.

Lemma sent_frames (ms : list PeerMsg) : Forall sendable_peer ms ->
  exists items es, mapM write_PeerMsg ms = Some (map ByteBuf_bytes items) /\
    Forall2 (fun it e => encode it = Done e) items es /\
    Forall (fun it => is_bytes (ByteBuf_bytes it) /\ Z.of_nat (length (ByteBuf_bytes it)) < 2 ^ 32) items /\
    exists ms', mapM parse_PeerMsg (map ByteBuf_bytes items) = Some ms' /\ same_messages ms' ms.
Proof.
  induction 1 as [|m ms (Hok & Hi & Hl) _ (items & es & Hw & He & Hb & ms' & Hp & Hs)].
  - exists [], []. split_and!; [done|constructor|constructor|]. exists []. split; [done|constructor].
  - destruct (encode_frame (ByteBuf_from_slice (PeerMsg_bytes m))) as (e & Ee & _).
    exists (ByteBuf_from_slice (PeerMsg_bytes m) :: items), (e :: es). cbn [map mapM].
    rewrite (from_slice_bytes _ (PeerMsg_bytes_nonempty m Hi)). cbn. unfold write_PeerMsg, parse_PeerMsg.
    rewrite (wire_write PeerMsg_impl m Hok Hl), (wire_parse PeerMsg_impl m Hok Hl). cbn. rewrite Hi.
    unfold write_PeerMsg, parse_PeerMsg in *. cbn in *. rewrite Hw, Hp. cbn. split_and!; [done|by constructor| |].
    + constructor; [|done]. rewrite (from_slice_bytes _ (PeerMsg_bytes_nonempty m Hi)). split; [by apply PeerMsg_u8|done].
    + exists (PeerMsg_strip m :: ms'). split; [done|]. constructor; [by apply PeerMsg_strip_eq|done].
Qed.

End Transport.
