(* ===== verification/ReflectionFacts.v ===== *)
(** * Generated code and descriptors agree

    A table-driven reading of the protocol: [encode_message] writes a dynamic message by
    the numbers and types of its descriptor, [initialized] checks the fields its
    descriptor requires.  For every message the generated code does the same, the tables
    of [Reflection] have the fields of the descriptors, in order and of the declared
    types, and the embedded bytes encode these descriptors ([codegen_equivalence]). *)

From stdpp Require Import base tactics option list numbers strings.
From Stdlib Require Import ZArith Lia.
From S2P Require Import Prelude Crates Reference Messages Protobuf ProtobufRef Serialization SerializationFacts.
From S2P Require Import Descriptor Reflection Codec Server Transport.

(** ** Table-driven encoding *)

(** One value, by the type its descriptor declares; [[]] when they do not match. *)
Fixpoint encode_value (fd : FileDescriptorProto) (fp : FieldDescriptorProto) (v : DynValue) : list Z :=
  match fp_type fp, v with
  | TYPE_UINT64, DynU64 v => enc_u64 (fp_number fp) v
  | TYPE_BOOL, DynBool b => enc_bool (fp_number fp) b
  | TYPE_STRING, DynString s => enc_string (fp_number fp) s
  | TYPE_BYTES, DynBytes b => enc_bytes (fp_number fp) b
  | TYPE_ENUM _, DynEnum v => enc_u64 (fp_number fp) v
  | TYPE_MESSAGE type_name, DynMessage fields =>
      match find_message fd type_name with
      | Some mp => enc_bytes (fp_number fp)
          (concat (map (fun nv : string * list DynValue =>
             match find_field mp (fst nv) with
             | Some fp => concat (map (encode_value fd fp) (snd nv))
             | None => []
             end) fields))
      | None => []
      end
  | _, _ => []
  end.

Definition encode_fields (fd : FileDescriptorProto) (mp : DescriptorProto) (fields : DynFields) : list Z :=
  concat (map (fun nv : string * list DynValue =>
    match find_field mp (fst nv) with
    | Some fp => concat (map (encode_value fd fp) (snd nv))
    | None => []
    end) fields).

(** A message of the type [type_name]. *)
Definition encode_message (fd : FileDescriptorProto) (type_name : string) (fields : DynFields) : option (list Z) :=
  mp ← find_message fd type_name; Some (encode_fields fd mp fields).

(** The required fields are there. *)
Definition initialized (mp : DescriptorProto) (fields : DynFields) : bool :=
  forallb (fun fp =>
    match fp_label fp with
    | LABEL_REQUIRED =>
        existsb (fun nv : string * list DynValue =>
          bool_decide (fst nv = rust_name (fp_name fp)) && match snd nv with [] => false | _ => true end) fields
    | _ => true
    end) (mp_field mp).

(** ** Types *)

(** The accessor of a declared field. *)
Definition accessor_kind (fp : FieldDescriptorProto) : option AccessorKind :=
  match fp_label fp, fp_type fp with
  | LABEL_REPEATED, TYPE_MESSAGE _ => Some RepeatedMessage
  | LABEL_REPEATED, _ => None
  | _, TYPE_UINT64 => Some SingularU64
  | _, TYPE_BOOL => Some SingularBool
  | _, TYPE_STRING => Some SingularString
  | _, TYPE_BYTES => Some SingularBytes
  | _, TYPE_MESSAGE _ => Some SingularMessage
  | _, TYPE_ENUM _ => Some SingularEnum
  end.

(** The table has the fields of a descriptor, in order, with accessors of their types. *)
Definition typed {M} (mp : DescriptorProto) (d : MessageDescriptor M) : Prop :=
  map (fun a => (fa_name a, Some (fa_kind a))) (md_fields d) =
  map (fun fp => (rust_name (fp_name fp), accessor_kind fp)) (mp_field mp).

(** ** Steps of the proofs *)

Lemma encode_fields_cons fd mp n vs fields fp : find_field mp n = Some fp ->
  encode_fields fd mp ((n, vs) :: fields) = concat (map (encode_value fd fp) vs) ++ encode_fields fd mp fields.
Proof. intros E. unfold encode_fields. cbn [map concat fst snd]. by rewrite E. Qed.

Lemma encode_submessage fd l tn f n mp fields : find_message fd tn = Some mp ->
  encode_value fd (mkField l (TYPE_MESSAGE tn) f n) (DynMessage fields) = enc_bytes n (encode_fields fd mp fields).
Proof. intros E. cbn. by rewrite E. Qed.

(** An optional field, and a repeated one. *)
Lemma encode_singular {A} (e : A -> list Z) (enc : DynValue -> list Z) (dyn : A -> DynValue) (o : option A) (d : A) :
  (forall v, o = Some v -> enc (dyn v) = e v) ->
  concat (map enc (if is_some o then [dyn (default d o)] else [])) = enc_opt e o.
Proof. intros H. destruct o as [v|]; [|done]. cbn. rewrite app_nil_r. by apply H. Qed.

Lemma encode_repeated {A} (e : A -> list Z) (enc : DynValue -> list Z) (dyn : A -> DynValue) (l : list A) :
  (forall v, enc (dyn v) = e v) -> concat (map enc (map dyn l)) = enc_all e l.
Proof. intros H. unfold enc_all. rewrite map_map. f_equal. by apply map_ext. Qed.

(** The next field of a message. *)
Ltac encode_field := erewrite encode_fields_cons by (lazy; reflexivity); f_equal.

(** The required fields of a message. *)
Ltac check_required :=
  match goal with m : _ |- _ = _ => destruct m end; lazy;
  repeat match goal with |- context [match ?o with Some _ => _ | None => _ end] => is_var o; destruct o end; reflexivity.

Section ReflectionFacts.
Context `{PL : ProtobufLaws}.

Lemma SetReq_encode m :
  encode_fields rasputin_proto SetReq_proto (reflect SetReq_descriptor_static m) = SetReq_bytes m.
Proof.
  unfold reflect, SetReq_descriptor_static, SetReq_bytes. cbn [map md_fields].
  encode_field.
  { by apply (encode_singular _ _ DynBytes _ []). }
  encode_field.
  { by apply (encode_singular _ _ DynBytes _ []). }
Qed.

Lemma SetReq_initialized m :
  initialized SetReq_proto (reflect SetReq_descriptor_static m) = SetReq_is_initialized m.
Proof. check_required. Qed.

Lemma SetRes_encode m :
  encode_fields rasputin_proto SetRes_proto (reflect SetRes_descriptor_static m) = SetRes_bytes m.
Proof.
  unfold reflect, SetRes_descriptor_static, SetRes_bytes. cbn [map md_fields].
  encode_field.
  { by apply (encode_singular _ _ DynBool _ false). }
  encode_field.
  { by apply (encode_singular _ _ DynU64 _ 0). }
  encode_field.
  { by apply (encode_singular _ _ DynString _ EmptyString). }
Qed.

Lemma SetRes_initialized m :
  initialized SetRes_proto (reflect SetRes_descriptor_static m) = SetRes_is_initialized m.
Proof. check_required. Qed.

Lemma GetReq_encode m :
  encode_fields rasputin_proto GetReq_proto (reflect GetReq_descriptor_static m) = GetReq_bytes m.
Proof.
  unfold reflect, GetReq_descriptor_static, GetReq_bytes. cbn [map md_fields].
  encode_field.
  { by apply (encode_singular _ _ DynBytes _ []). }
Qed.

Lemma GetReq_initialized m :
  initialized GetReq_proto (reflect GetReq_descriptor_static m) = GetReq_is_initialized m.
Proof. check_required. Qed.

Lemma GetRes_encode m :
  encode_fields rasputin_proto GetRes_proto (reflect GetRes_descriptor_static m) = GetRes_bytes m.
Proof.
  unfold reflect, GetRes_descriptor_static, GetRes_bytes. cbn [map md_fields].
  encode_field.
  { by apply (encode_singular _ _ DynBool _ false). }
  encode_field.
  { by apply (encode_singular _ _ DynU64 _ 0). }
  encode_field.
  { by apply (encode_singular _ _ DynBytes _ []). }
  encode_field.
  { by apply (encode_singular _ _ DynString _ EmptyString). }
Qed.

Lemma GetRes_initialized m :
  initialized GetRes_proto (reflect GetRes_descriptor_static m) = GetRes_is_initialized m.
Proof. check_required. Qed.

Lemma CASReq_encode m :
  encode_fields rasputin_proto CASReq_proto (reflect CASReq_descriptor_static m) = CASReq_bytes m.
Proof.
  unfold reflect, CASReq_descriptor_static, CASReq_bytes. cbn [map md_fields].
  encode_field.
  { by apply (encode_singular _ _ DynBytes _ []). }
  encode_field.
  { by apply (encode_singular _ _ DynBytes _ []). }
  encode_field.
  { by apply (encode_singular _ _ DynBytes _ []). }
Qed.

Lemma CASReq_initialized m :
  initialized CASReq_proto (reflect CASReq_descriptor_static m) = CASReq_is_initialized m.
Proof. check_required. Qed.

Lemma CASRes_encode m :
  encode_fields rasputin_proto CASRes_proto (reflect CASRes_descriptor_static m) = CASRes_bytes m.
Proof.
  unfold reflect, CASRes_descriptor_static, CASRes_bytes. cbn [map md_fields].
  encode_field.
  { by apply (encode_singular _ _ DynBool _ false). }
  encode_field.
  { by apply (encode_singular _ _ DynU64 _ 0). }
  encode_field.
  { by apply (encode_singular _ _ DynBytes _ []). }
  encode_field.
  { by apply (encode_singular _ _ DynString _ EmptyString). }
Qed.

Lemma CASRes_initialized m :
  initialized CASRes_proto (reflect CASRes_descriptor_static m) = CASRes_is_initialized m.
Proof. check_required. Qed.

Lemma DelReq_encode m :
  encode_fields rasputin_proto DelReq_proto (reflect DelReq_descriptor_static m) = DelReq_bytes m.
Proof.
  unfold reflect, DelReq_descriptor_static, DelReq_bytes. cbn [map md_fields].
  encode_field.
  { by apply (encode_singular _ _ DynBytes _ []). }
Qed.

Lemma DelReq_initialized m :
  initialized DelReq_proto (reflect DelReq_descriptor_static m) = DelReq_is_initialized m.
Proof. check_required. Qed.

Lemma DelRes_encode m :
  encode_fields rasputin_proto DelRes_proto (reflect DelRes_descriptor_static m) = DelRes_bytes m.
Proof.
  unfold reflect, DelRes_descriptor_static, DelRes_bytes. cbn [map md_fields].
  encode_field.
  { by apply (encode_singular _ _ DynBool _ false). }
  encode_field.
  { by apply (encode_singular _ _ DynU64 _ 0). }
  encode_field.
  { by apply (encode_singular _ _ DynBytes _ []). }
  encode_field.
  { by apply (encode_singular _ _ DynString _ EmptyString). }
Qed.

Lemma DelRes_initialized m :
  initialized DelRes_proto (reflect DelRes_descriptor_static m) = DelRes_is_initialized m.
Proof. check_required. Qed.

Lemma WatchReq_encode m :
  encode_fields rasputin_proto WatchReq_proto (reflect WatchReq_descriptor_static m) = WatchReq_bytes m.
Proof.
  unfold reflect, WatchReq_descriptor_static, WatchReq_bytes. cbn [map md_fields].
  encode_field.
  { by apply (encode_singular _ _ DynBytes _ []). }
  encode_field.
  { by apply (encode_singular _ _ DynU64 _ 0). }
  encode_field.
  { by apply (encode_singular _ _ DynBool _ false). }
  encode_field.
  { by apply (encode_singular _ _ DynBool _ false). }
Qed.

Lemma WatchReq_initialized m :
  initialized WatchReq_proto (reflect WatchReq_descriptor_static m) = WatchReq_is_initialized m.
Proof. check_required. Qed.

Lemma Version_encode m :
  encode_fields rasputin_proto Version_proto (reflect Version_descriptor_static m) = Version_bytes m.
Proof.
  unfold reflect, Version_descriptor_static, Version_bytes. cbn [map md_fields].
  encode_field.
  { by apply (encode_singular _ _ DynU64 _ 0). }
  encode_field.
  { by apply (encode_singular _ _ DynU64 _ 0). }
Qed.

Lemma Version_initialized m :
  initialized Version_proto (reflect Version_descriptor_static m) = Version_is_initialized m.
Proof. check_required. Qed.

Lemma Mutation_encode m :
  encode_fields rasputin_proto Mutation_proto (reflect Mutation_descriptor_static m) = Mutation_bytes m.
Proof.
  unfold reflect, Mutation_descriptor_static, Mutation_bytes. cbn [map md_fields].
  encode_field.
  { by apply (encode_singular _ _ (fun e => DynEnum (MutationType_value e)) _ KVSET). }
  encode_field.
  { apply (encode_singular _ _ (fun t => DynMessage (reflect Version_descriptor_static t)) _ Version_new). intros v _.
    rewrite (encode_submessage _ _ _ _ _ Version_proto) by reflexivity. by rewrite Version_encode. }
  encode_field.
  { by apply (encode_singular _ _ DynBytes _ []). }
  encode_field.
  { by apply (encode_singular _ _ DynBytes _ []). }
  encode_field.
  { by apply (encode_singular _ _ DynBytes _ []). }
Qed.

Lemma Mutation_initialized m :
  initialized Mutation_proto (reflect Mutation_descriptor_static m) = Mutation_is_initialized m.
Proof. check_required. Qed.

Lemma WatchRes_encode m :
  encode_fields rasputin_proto WatchRes_proto (reflect WatchRes_descriptor_static m) = WatchRes_bytes m.
Proof.
  unfold reflect, WatchRes_descriptor_static, WatchRes_bytes. cbn [map md_fields].
  encode_field.
  { by apply (encode_singular _ _ DynBool _ false). }
  encode_field.
  { apply encode_repeated. intros v. rewrite (encode_submessage _ _ _ _ _ Mutation_proto) by reflexivity. by rewrite Mutation_encode. }
  encode_field.
  { by apply (encode_singular _ _ DynString _ EmptyString). }
Qed.

Lemma WatchRes_initialized m :
  initialized WatchRes_proto (reflect WatchRes_descriptor_static m) = WatchRes_is_initialized m.
Proof. check_required. Qed.

Lemma RedirectRes_encode m :
  encode_fields rasputin_proto RedirectRes_proto (reflect RedirectRes_descriptor_static m) = RedirectRes_bytes m.
Proof.
  unfold reflect, RedirectRes_descriptor_static, RedirectRes_bytes. cbn [map md_fields].
  encode_field.
  { by apply (encode_singular _ _ DynBool _ false). }
  encode_field.
  { by apply (encode_singular _ _ DynString _ EmptyString). }
  encode_field.
  { by apply (encode_singular _ _ DynString _ EmptyString). }
Qed.

Lemma RedirectRes_initialized m :
  initialized RedirectRes_proto (reflect RedirectRes_descriptor_static m) = RedirectRes_is_initialized m.
Proof. check_required. Qed.

Lemma CliReq_encode m :
  encode_fields rasputin_proto CliReq_proto (reflect CliReq_descriptor_static m) = CliReq_bytes m.
Proof.
  unfold reflect, CliReq_descriptor_static, CliReq_bytes. cbn [map md_fields].
  encode_field.
  { by apply (encode_singular _ _ DynU64 _ 0). }
  encode_field.
  { apply (encode_singular _ _ (fun t => DynMessage (reflect GetReq_descriptor_static t)) _ GetReq_new). intros v _.
    rewrite (encode_submessage _ _ _ _ _ GetReq_proto) by reflexivity. by rewrite GetReq_encode. }
  encode_field.
  { apply (encode_singular _ _ (fun t => DynMessage (reflect SetReq_descriptor_static t)) _ SetReq_new). intros v _.
    rewrite (encode_submessage _ _ _ _ _ SetReq_proto) by reflexivity. by rewrite SetReq_encode. }
  encode_field.
  { apply (encode_singular _ _ (fun t => DynMessage (reflect CASReq_descriptor_static t)) _ CASReq_new). intros v _.
    rewrite (encode_submessage _ _ _ _ _ CASReq_proto) by reflexivity. by rewrite CASReq_encode. }
  encode_field.
  { apply (encode_singular _ _ (fun t => DynMessage (reflect DelReq_descriptor_static t)) _ DelReq_new). intros v _.
    rewrite (encode_submessage _ _ _ _ _ DelReq_proto) by reflexivity. by rewrite DelReq_encode. }
  encode_field.
  { apply (encode_singular _ _ (fun t => DynMessage (reflect WatchReq_descriptor_static t)) _ WatchReq_new). intros v _.
    rewrite (encode_submessage _ _ _ _ _ WatchReq_proto) by reflexivity. by rewrite WatchReq_encode. }
Qed.

Lemma CliReq_initialized m :
  initialized CliReq_proto (reflect CliReq_descriptor_static m) = CliReq_is_initialized m.
Proof. check_required. Qed.

Lemma CliRes_encode m :
  encode_fields rasputin_proto CliRes_proto (reflect CliRes_descriptor_static m) = CliRes_bytes m.
Proof.
  unfold reflect, CliRes_descriptor_static, CliRes_bytes. cbn [map md_fields].
  encode_field.
  { by apply (encode_singular _ _ DynU64 _ 0). }
  encode_field.
  { apply (encode_singular _ _ (fun t => DynMessage (reflect GetRes_descriptor_static t)) _ GetRes_new). intros v _.
    rewrite (encode_submessage _ _ _ _ _ GetRes_proto) by reflexivity. by rewrite GetRes_encode. }
  encode_field.
  { apply (encode_singular _ _ (fun t => DynMessage (reflect SetRes_descriptor_static t)) _ SetRes_new). intros v _.
    rewrite (encode_submessage _ _ _ _ _ SetRes_proto) by reflexivity. by rewrite SetRes_encode. }
  encode_field.
  { apply (encode_singular _ _ (fun t => DynMessage (reflect CASRes_descriptor_static t)) _ CASRes_new). intros v _.
    rewrite (encode_submessage _ _ _ _ _ CASRes_proto) by reflexivity. by rewrite CASRes_encode. }
  encode_field.
  { apply (encode_singular _ _ (fun t => DynMessage (reflect DelRes_descriptor_static t)) _ DelRes_new). intros v _.
    rewrite (encode_submessage _ _ _ _ _ DelRes_proto) by reflexivity. by rewrite DelRes_encode. }
  encode_field.
  { apply (encode_singular _ _ (fun t => DynMessage (reflect WatchRes_descriptor_static t)) _ WatchRes_new). intros v _.
    rewrite (encode_submessage _ _ _ _ _ WatchRes_proto) by reflexivity. by rewrite WatchRes_encode. }
  encode_field.
  { apply (encode_singular _ _ (fun t => DynMessage (reflect RedirectRes_descriptor_static t)) _ RedirectRes_new). intros v _.
    rewrite (encode_submessage _ _ _ _ _ RedirectRes_proto) by reflexivity. by rewrite RedirectRes_encode. }
Qed.

Lemma CliRes_initialized m :
  initialized CliRes_proto (reflect CliRes_descriptor_static m) = CliRes_is_initialized m.
Proof. check_required. Qed.

Lemma VoteReq_encode m :
  encode_fields rasputin_proto VoteReq_proto (reflect VoteReq_descriptor_static m) = VoteReq_bytes m.
Proof.
  unfold reflect, VoteReq_descriptor_static, VoteReq_bytes. cbn [map md_fields].
  encode_field.
  { by apply (encode_singular _ _ DynU64 _ 0). }
  encode_field.
  { by apply (encode_singular _ _ DynU64 _ 0). }
  encode_field.
  { by apply (encode_singular _ _ DynU64 _ 0). }
  encode_field.
  { by apply (encode_singular _ _ DynU64 _ 0). }
  encode_field.
  { by apply (encode_singular _ _ DynU64 _ 0). }
Qed.

Lemma VoteReq_initialized m :
  initialized VoteReq_proto (reflect VoteReq_descriptor_static m) = VoteReq_is_initialized m.
Proof. check_required. Qed.

Lemma VoteRes_encode m :
  encode_fields rasputin_proto VoteRes_proto (reflect VoteRes_descriptor_static m) = VoteRes_bytes m.
Proof.
  unfold reflect, VoteRes_descriptor_static, VoteRes_bytes. cbn [map md_fields].
  encode_field.
  { by apply (encode_singular _ _ DynBool _ false). }
  encode_field.
  { by apply (encode_singular _ _ DynU64 _ 0). }
Qed.

Lemma VoteRes_initialized m :
  initialized VoteRes_proto (reflect VoteRes_descriptor_static m) = VoteRes_is_initialized m.
Proof. check_required. Qed.

Lemma Append_encode m :
  encode_fields rasputin_proto Append_proto (reflect Append_descriptor_static m) = Append_bytes m.
Proof.
  unfold reflect, Append_descriptor_static, Append_bytes. cbn [map md_fields].
  encode_field.
  { by apply (encode_singular _ _ DynU64 _ 0). }
  encode_field.
  { by apply (encode_singular _ _ DynU64 _ 0). }
  encode_field.
  { apply encode_repeated. intros v. rewrite (encode_submessage _ _ _ _ _ Mutation_proto) by reflexivity. by rewrite Mutation_encode. }
  encode_field.
  { by apply (encode_singular _ _ DynU64 _ 0). }
Qed.

Lemma Append_initialized m :
  initialized Append_proto (reflect Append_descriptor_static m) = Append_is_initialized m.
Proof. check_required. Qed.

Lemma AppendRes_encode m :
  encode_fields rasputin_proto AppendRes_proto (reflect AppendRes_descriptor_static m) = AppendRes_bytes m.
Proof.
  unfold reflect, AppendRes_descriptor_static, AppendRes_bytes. cbn [map md_fields].
  encode_field.
  { by apply (encode_singular _ _ DynBool _ false). }
  encode_field.
  { by apply (encode_singular _ _ DynU64 _ 0). }
  encode_field.
  { by apply (encode_singular _ _ DynU64 _ 0). }
Qed.

Lemma AppendRes_initialized m :
  initialized AppendRes_proto (reflect AppendRes_descriptor_static m) = AppendRes_is_initialized m.
Proof. check_required. Qed.

Lemma PeerMsg_encode m :
  encode_fields rasputin_proto PeerMsg_proto (reflect PeerMsg_descriptor_static m) = PeerMsg_bytes m.
Proof.
  unfold reflect, PeerMsg_descriptor_static, PeerMsg_bytes. cbn [map md_fields].
  encode_field.
  { by apply (encode_singular _ _ DynString _ EmptyString). }
  encode_field.
  { apply (encode_singular _ _ (fun t => DynMessage (reflect VoteReq_descriptor_static t)) _ VoteReq_new). intros v _.
    rewrite (encode_submessage _ _ _ _ _ VoteReq_proto) by reflexivity. by rewrite VoteReq_encode. }
  encode_field.
  { apply (encode_singular _ _ (fun t => DynMessage (reflect VoteRes_descriptor_static t)) _ VoteRes_new). intros v _.
    rewrite (encode_submessage _ _ _ _ _ VoteRes_proto) by reflexivity. by rewrite VoteRes_encode. }
  encode_field.
  { apply (encode_singular _ _ (fun t => DynMessage (reflect Append_descriptor_static t)) _ Append_new). intros v _.
    rewrite (encode_submessage _ _ _ _ _ Append_proto) by reflexivity. by rewrite Append_encode. }
  encode_field.
  { apply (encode_singular _ _ (fun t => DynMessage (reflect AppendRes_descriptor_static t)) _ AppendRes_new). intros v _.
    rewrite (encode_submessage _ _ _ _ _ AppendRes_proto) by reflexivity. by rewrite AppendRes_encode. }
Qed.

Lemma PeerMsg_initialized m :
  initialized PeerMsg_proto (reflect PeerMsg_descriptor_static m) = PeerMsg_is_initialized m.
Proof. check_required. Qed.

(** The reflection table of a message has the fields of its descriptor, and writing a
    message of this type, if it is well formed ([ok]: its values fit their types and it
    has no unknown fields) and below four gigabytes, is writing it by its descriptor. *)
Definition table_driven {M} (d : MessageDescriptor M) (mi : MessageImpl IS OS M) (ok : M -> Prop) : Prop :=
  exists mp, find_message rasputin_proto ("." +:+ file_package rasputin_proto +:+ "." +:+ md_name d) = Some mp /\
  typed mp d /\
  forall m, ok m ->
    let bs := encode_fields rasputin_proto mp (reflect d m) in len bs < 2 ^ 32 ->
    mi_is_initialized mi m = initialized mp (reflect d m) /\
    write_to_bytes mi m = if initialized mp (reflect d m) then Some bs else None.

Lemma table_driven_intro {M} (d : MessageDescriptor M) (mi : MessageImpl IS OS M) mp ok bytes strip eqb
    `{WM : !WireMessage mi ok bytes strip eqb} :
  find_message rasputin_proto ("." +:+ file_package rasputin_proto +:+ "." +:+ md_name d) = Some mp -> typed mp d ->
  (forall m, encode_fields rasputin_proto mp (reflect d m) = bytes m) ->
  (forall m, initialized mp (reflect d m) = mi_is_initialized mi m) -> table_driven d mi ok.
Proof using PL.
  intros Hf Ht Hb Hi. exists mp. do 2 (split; [done|]). intros m Hok bs Hlen. unfold bs in *. rewrite Hb, Hi in *.
  split; [done|]. by apply (wire_write mi).
Qed.

Ltac by_table W mp E I := apply (table_driven_intro _ _ mp _ _ _ _ (WM := W)); [lazy; reflexivity|reflexivity|exact E|exact I].

(** C17: the embedded descriptor is the wire encoding of the declarations of
    serialization.proto, and for each of the twenty messages the generated code agrees
    with these declarations: its reflection table has the declared fields, in order, with
    accessors of their types; and for a message that is well formed, without unknown
    fields and below four gigabytes, what is written is what a table-driven encoder writes
    from its reflection by the declared numbers and types, and nothing is written exactly
    if a required field of the message itself is not set (the fields of nested messages
    are not looked at). *)
Theorem codegen_equivalence :
  file_descriptor_proto_data = enc_file rasputin_proto source_info /\
  table_driven SetReq_descriptor_static SetReq_impl SetReq_ok /\
  table_driven SetRes_descriptor_static SetRes_impl SetRes_ok /\
  table_driven GetReq_descriptor_static GetReq_impl GetReq_ok /\
  table_driven GetRes_descriptor_static GetRes_impl GetRes_ok /\
  table_driven CASReq_descriptor_static CASReq_impl CASReq_ok /\
  table_driven CASRes_descriptor_static CASRes_impl CASRes_ok /\
  table_driven DelReq_descriptor_static DelReq_impl DelReq_ok /\
  table_driven DelRes_descriptor_static DelRes_impl DelRes_ok /\
  table_driven WatchReq_descriptor_static WatchReq_impl WatchReq_ok /\
  table_driven Version_descriptor_static Version_impl Version_ok /\
  table_driven Mutation_descriptor_static Mutation_impl Mutation_ok /\
  table_driven WatchRes_descriptor_static WatchRes_impl WatchRes_ok /\
  table_driven RedirectRes_descriptor_static RedirectRes_impl RedirectRes_ok /\
  table_driven CliReq_descriptor_static CliReq_impl CliReq_ok /\
  table_driven CliRes_descriptor_static CliRes_impl CliRes_ok /\
  table_driven VoteReq_descriptor_static VoteReq_impl VoteReq_ok /\
  table_driven VoteRes_descriptor_static VoteRes_impl VoteRes_ok /\
  table_driven Append_descriptor_static Append_impl Append_ok /\
  table_driven AppendRes_descriptor_static AppendRes_impl AppendRes_ok /\
  table_driven PeerMsg_descriptor_static PeerMsg_impl PeerMsg_ok.
Proof.
  split; [exact descriptor_encodes|]. split_and!.
  - by_table SetReq_wire SetReq_proto SetReq_encode SetReq_initialized.
  - by_table SetRes_wire SetRes_proto SetRes_encode SetRes_initialized.
  - by_table GetReq_wire GetReq_proto GetReq_encode GetReq_initialized.
  - by_table GetRes_wire GetRes_proto GetRes_encode GetRes_initialized.
  - by_table CASReq_wire CASReq_proto CASReq_encode CASReq_initialized.
  - by_table CASRes_wire CASRes_proto CASRes_encode CASRes_initialized.
  - by_table DelReq_wire DelReq_proto DelReq_encode DelReq_initialized.
  - by_table DelRes_wire DelRes_proto DelRes_encode DelRes_initialized.
  - by_table WatchReq_wire WatchReq_proto WatchReq_encode WatchReq_initialized.
  - by_table Version_wire Version_proto Version_encode Version_initialized.
  - by_table Mutation_wire Mutation_proto Mutation_encode Mutation_initialized.
  - by_table WatchRes_wire WatchRes_proto WatchRes_encode WatchRes_initialized.
  - by_table RedirectRes_wire RedirectRes_proto RedirectRes_encode RedirectRes_initialized.
  - by_table CliReq_wire CliReq_proto CliReq_encode CliReq_initialized.
  - by_table CliRes_wire CliRes_proto CliRes_encode CliRes_initialized.
  - by_table VoteReq_wire VoteReq_proto VoteReq_encode VoteReq_initialized.
  - by_table VoteRes_wire VoteRes_proto VoteRes_encode VoteRes_initialized.
  - by_table Append_wire Append_proto Append_encode Append_initialized.
  - by_table AppendRes_wire AppendRes_proto AppendRes_encode AppendRes_initialized.
  - by_table PeerMsg_wire PeerMsg_proto PeerMsg_encode PeerMsg_initialized.
Qed.
End ReflectionFacts.
