(* ===== verification/ServerFacts.v ===== *)
(** * Reasoning about server methods

    Inversion of a run of the monad, the tactic [minv] that applies it through a
    whole method, and what each auxiliary method leaves alone. *)

From stdpp Require Import base tactics option list numbers strings.
From Stdlib Require Import ZArith Lia.
From S2P Require Import Prelude BTreeMap Crates Messages Protobuf Serialization Clock State AckedLog Server.

Section MonadFacts.
Context `{TC : TimeCrate} `{BC : BytesCrate} `{RDB : RocksDB} `{PS : ProtobufStreams}.
Context {C : Type} `{CK : Clock C} {L : Type} `{AL : AckedLog L Mutation}.
Implicit Types s : Server (C := C) (L := L).

Lemma M_bind_Done {A B} (f : A -> M B) (m : M A) s r :
  (mbind f m : M B) s = Done r <-> exists a s1, m s = Done (a, s1) /\ f a s1 = Done r.
Proof. unfold mbind, M_bind. destruct (m s) as [[a s1]|e]; naive_solver. Qed.

Lemma M_bind_run {A B} (f : A -> M B) (m : M A) s a s1 :
  m s = Done (a, s1) -> (mbind f m : M B) s = f a s1.
Proof. unfold mbind, M_bind. by intros ->. Qed.

Lemma lift_Done {A} (o : Outcome A) s a s1 : lift o s = Done (a, s1) <-> o = Done a /\ s1 = s.
Proof. unfold lift. destruct o; naive_solver. Qed.

Lemma ret_Done {A} (a b : A) s s1 : (mret a : M A) s = Done (b, s1) <-> b = a /\ s1 = s.
Proof. unfold mret, M_ret. naive_solver. Qed.

Lemma unwrap_Done {A} (o : option A) a : unwrap o = Done a <-> o = Some a.
Proof. destruct o; naive_solver. Qed.

Lemma for_each_app {A} (f : A -> M ()) l1 l2 s r :
  for_each f (l1 ++ l2) s = Done r <->
  exists s1, for_each f l1 s = Done (tt, s1) /\ for_each f l2 s1 = Done r.
Proof.
  revert s. induction l1 as [|a l1 IH]; intros s; cbn.
  - split; [by eauto|]. by intros (s1 & [= <-] & ?).
  - split.
    + intros (x & s1 & H1 & H2)%M_bind_Done. apply IH in H2 as (s2 & H2 & H3).
      exists s2. split; [|done]. apply M_bind_Done. eauto.
    + intros (s2 & (x & s1 & H1 & H2)%M_bind_Done & H3). apply M_bind_Done.
      exists x, s1. split; [done|]. apply IH. eauto.
Qed.
End MonadFacts.

(** One inversion step on a run that did not panic. *)
Ltac mstep :=
  match goal with
  | H : @mbind M _ _ _ _ _ _ = Done _ |- _ =>
      apply M_bind_Done in H; destruct H as (? & ? & ? & H)
  | H : (mbind _ _) _ = Done _ |- _ =>
      apply M_bind_Done in H; destruct H as (? & ? & ? & H)
  | H : lift _ _ = Done _ |- _ => apply lift_Done in H as [H ->]
  | H : unwrap _ = Done _ |- _ => apply unwrap_Done in H
  | H : self _ = Done _ |- _ => unfold self in H; injection H as <- <-
  | H : modify _ _ = Done _ |- _ => unfold modify in H; injection H as <- <-
  | H : mret _ _ = Done _ |- _ => apply ret_Done in H as [H ->];
      try match type of H with ?x = _ => is_var x; subst x end
  | H : clock_now _ = Done _ |- _ => unfold clock_now in H; injection H as <- <-
  | H : None = Some _ |- _ => discriminate H
  | H : Panic _ = Done _ |- _ => discriminate H
  | H : (if ?b then _ else _) _ = Done _ |- _ => destruct b eqn:?
  | H : (match ?x with _ => _ end) _ = Done _ |- _ => destruct x eqn:?
  | u : () |- _ => destruct u
  end.
Ltac minv := repeat (mstep; cbn [fst snd] in * ).

(** Runs a method forward through the binds whose first part is known. *)
Ltac mrun := repeat first [rewrite (M_bind_run _ _ _ _ _ eq_refl) | progress cbn [fst snd] ].
