(* ===== verification/Outbox.v ===== *)
(** * The outbox only grows

    Whatever a server handles, it adds to what it has handed to the event loop and takes
    nothing back. *)

From stdpp Require Import base tactics option list numbers strings.
From Stdlib Require Import ZArith Lia.
From S2P Require Import Prelude BTreeMap Crates Messages Protobuf Serialization Clock State AckedLog Server ServerFacts.

Section Outbox.
Context `{TC : TimeCrate} `{BC : BytesCrate} `{RDB : RocksDB} `{PS : ProtobufStreams}.
Context {C : Type} `{CK : Clock C} {L : Type} `{AL : !AckedLog L Mutation}.
Implicit Types s : Server (C := C) (L := L).

Definition keeps_sent {A} (m : M (C := C) (L := L) A) : Prop :=
  forall s a s', m s = Done (a, s') -> rpc_tx s `prefix_of` rpc_tx s'.

Lemma keeps_bind {A B} (m : M A) (f : A -> M B) :
  keeps_sent m -> (forall a, keeps_sent (f a)) -> keeps_sent (mbind f m).
Proof.
  intros Hm Hf s b s' (a & s1 & E1 & E2)%M_bind_Done. etrans; [by eapply Hm|by eapply Hf].
Qed.

Lemma keeps_ret {A} (a : A) : keeps_sent (mret a).
Proof. intros s b s' [_ ->]%ret_Done. done. Qed.

Lemma keeps_lift {A} (o : Outcome A) : keeps_sent (lift o).
Proof. intros s b s' [_ ->]%lift_Done. done. Qed.

Lemma keeps_self : keeps_sent self.
Proof. by intros s b s' [= <- <-]. Qed.

Lemma keeps_clock : keeps_sent clock_now.
Proof. by intros s b s' [= <- <-]. Qed.

Lemma keeps_modify f : (forall s, rpc_tx s `prefix_of` rpc_tx (f s)) -> keeps_sent (modify f).
Proof. intros Hf s b s' [= _ <-]. apply Hf. Qed.

Lemma keeps_db_put k v : keeps_sent (db_put_M k v).
Proof. intros s b s' E. unfold db_put_M in E. destruct (db_put _ _ _). by injection E as _ <-. Qed.

Lemma keeps_db_delete k : keeps_sent (db_delete_M k).
Proof. intros s b s' E. unfold db_delete_M in E. destruct (db_delete _ _). by injection E as _ <-. Qed.

Lemma keeps_for_each {A} (f : A -> M ()) l : (forall a, keeps_sent (f a)) -> keeps_sent (for_each f l).
Proof. intros Hf. induction l; cbn; [apply keeps_ret|]. by apply keeps_bind. Qed.

Lemma keeps_traverse {A B} (f : A -> M B) l : (forall a, keeps_sent (f a)) -> keeps_sent (traverse f l).
Proof.
  intros Hf. induction l; cbn; [apply keeps_ret|]. apply keeps_bind; [done|]. intros b.
  apply keeps_bind; [done|]. intros bs. apply keeps_ret.
Qed.

End Outbox.

Create HintDb sent.
#[export] Hint Resolve keeps_ret keeps_lift keeps_self keeps_clock keeps_db_put keeps_db_delete : sent.

(** Walks through a method. *)
Ltac keeps :=
  repeat match goal with
  | |- keeps_sent (mbind _ _) => apply keeps_bind; [|intros ?]
  | |- keeps_sent (modify _) => apply keeps_modify; intros ?; solve [done | apply prefix_app_r; done]
  | |- keeps_sent (for_each _ _) => apply keeps_for_each; intros ?
  | |- keeps_sent (traverse _ _) => apply keeps_traverse; intros ?
  | |- keeps_sent (let _ := _ in _) => cbv zeta
  | |- keeps_sent (if ?b then _ else _) => destruct b
  | |- keeps_sent (match ?x with _ => _ end) => destruct x
  | |- keeps_sent _ => solve [eauto with sent]
  end.

Section Handlers.
Context `{TC : TimeCrate} `{BC : BytesCrate} `{RDB : RocksDB} `{PS : ProtobufStreams}.
Context {C : Type} `{CK : Clock C} {L : Type} `{AL : !AckedLog L Mutation}.
Implicit Types s : Server (C := C) (L := L).
Abbreviation keeps_sent := (keeps_sent (C := C) (L := L)).

Lemma keeps_reply req buf : keeps_sent (reply req buf).
Proof. unfold reply, send_msg. keeps. Qed.
Lemma keeps_send e : keeps_sent (send_msg e).
Proof. unfold send_msg. keeps. Qed.
Lemma keeps_broadcast b : keeps_sent (peer_broadcast b).
Proof. unfold peer_broadcast, send_msg. keeps. Qed.
Lemma keeps_peer_buf m : keeps_sent (peer_msg_buf m).
Proof. unfold peer_msg_buf. keeps. Qed.
Lemma keeps_cli_buf m : keeps_sent (cli_res_buf m).
Proof. unfold cli_res_buf. keeps. Qed.
#[local] Hint Resolve keeps_reply keeps_send keeps_broadcast keeps_peer_buf keeps_cli_buf : sent.

Lemma keeps_update_rep_peers p a t : keeps_sent (update_rep_peers p a t).
Proof. unfold update_rep_peers. keeps. Qed.
#[local] Hint Resolve keeps_update_rep_peers : sent.
Lemma keeps_handle_vote_res e p v : keeps_sent (handle_vote_res e p v).
Proof. unfold handle_vote_res. keeps. Qed.
Lemma keeps_handle_vote_req e p v : keeps_sent (handle_vote_req e p v).
Proof. unfold handle_vote_req, should_grant_vote. keeps. Qed.

Lemma keeps_learn t x : keeps_sent (learn t x).
Proof. unfold learn, learn_set, learn_cas, learn_del. keeps. Qed.
Lemma keeps_learn_all l : keeps_sent (learn_all l).
Proof. unfold learn_all. keeps. apply keeps_learn. Qed.
Lemma keeps_log_append t x m : keeps_sent (log_append_M t x m).
Proof. unfold log_append_M. keeps. Qed.
Lemma keeps_log_ack x p : keeps_sent (log_ack_up_to_M x p).
Proof. unfold log_ack_up_to_M. keeps. Qed.
Lemma keeps_log_commit x : keeps_sent (log_commit_up_to_M x).
Proof. unfold log_commit_up_to_M. keeps. Qed.
#[local] Hint Resolve keeps_learn_all keeps_log_append keeps_log_ack keeps_log_commit : sent.

Lemma keeps_append_batch l t x : keeps_sent (append_batch l t x).
Proof. revert t x. induction l; intros t x; cbn; keeps. Qed.
#[local] Hint Resolve keeps_append_batch : sent.
Lemma keeps_handle_append e p a : keeps_sent (handle_append e p a).
Proof. unfold handle_append. keeps. Qed.
Lemma keeps_handle_append_res e p a : keeps_sent (handle_append_res e p a).
Proof. unfold handle_append_res. keeps. Qed.
#[local] Hint Resolve keeps_handle_vote_res keeps_handle_vote_req keeps_handle_append keeps_handle_append_res : sent.

Lemma keeps_replicate_to kp : keeps_sent (replicate_to kp).
Proof. unfold replicate_to. destruct kp. keeps. Qed.
Lemma keeps_replicate l : keeps_sent (replicate l).
Proof. unfold replicate, replicate_local. keeps. apply keeps_replicate_to. Qed.
#[local] Hint Resolve keeps_replicate : sent.

(** The outbox of a server only grows. *)
Lemma handle_event_sent ev : keeps_sent (handle_event ev).
Proof.
  destruct ev; cbn.
  - unfold handle_peer. keeps.
  - unfold handle_cli, redirect, handle_get, propose, new_version, new_txid. keeps.
  - unfold cron, become_candidate, broadcast_vote_req. keeps.
Qed.
End Handlers.
