(* ===== verification/Invariant.v ===== *)
(** * The server invariant

    [server_inv] holds of the server [run] builds and is kept by every event the
    three threads handle, whatever the messages are.  Its core is
    [max_generated_txid = last_accepted_txid]: a leader's next txid is always new to
    its own log, so the assertion in [append] cannot fail on the client path. *)

From stdpp Require Import base tactics option list numbers strings.
From Stdlib Require Import ZArith Lia.
From S2P Require Import Prelude BTreeMap Crates Messages Protobuf Serialization Clock State AckedLog Server ServerFacts.

Section Invariant.
Context `{TC : TimeCrate} `{BC : BytesCrate} `{RDB : RocksDB} `{PS : ProtobufStreams}.
Context {C : Type} `{CK : Clock C} {L : Type} `{AL : !AckedLog L Mutation} `{ALL : !AckedLogLaws L Mutation}.
Implicit Types s : Server (C := C) (L := L).

(** Votes are counted once per token, and a quorum of them is spent at once. *)
Definition votes_wf (have : list Token) (need : Z) : Prop :=
  NoDup have /\ in_u8 need /\ (have = [] \/ Z.of_nat (length have) < need).

Definition state_wf (st : State) : Prop :=
  match st with
  | Leader _ have need _ => votes_wf have need
  | Candidate _ have need _ => votes_wf have need
  | _ => True
  end.

Definition rep_peer_ok (self_id : PeerID) (kp : PeerID * RepPeer) : Prop :=
  rp_id kp.2 = kp.1 /\ kp.1 <> self_id.

Record server_inv s : Prop := {
  inv_log : log_inv (rep_log s);
  inv_rep_wf : bt_wf (rep_peers s);
  inv_rep_ids : Forall (rep_peer_ok (id s)) (rep_peers s);
  inv_pending_wf : bt_wf (srv_pending s);
  inv_pending_keys : Forall (fun kp => kp.1 <= max_generated_txid s) (srv_pending s);
  inv_txid : max_generated_txid s = log_last_accepted_txid (rep_log s);
  inv_state : state_wf (state s);
}.

(** A computation that only touches the state keeps the rest of the invariant. *)
Lemma inv_state_change s s' :
  server_inv s -> rep_log s' = rep_log s -> rep_peers s' = rep_peers s -> id s' = id s ->
  srv_pending s' = srv_pending s -> max_generated_txid s' = max_generated_txid s ->
  state_wf (state s') -> server_inv s'.
Proof.
  intros [] E1 E2 E3 E4 E5 Hst. split; rewrite ?E1, ?E2, ?E3, ?E4, ?E5; try done.
Qed.

Lemma inv_init c (log : Z -> L) uuid store pp cp peers :
  (forall q, log_inv (log q)) -> (forall q, log_last_accepted_txid (log q) = 0) ->
  server_inv (run_init c log uuid store pp cp peers).
Proof. intros Hl H0. split; cbn; auto using bt_wf_nil. Qed.

(** ** Frames *)

(** [learn] touches the store, the outbox and the pending requests only. *)
Definition learn_frame s s' : Prop :=
  exists d tx p, s' = set_pending (set_rpc_tx (set_db s d) (rpc_tx s ++ tx)) p /\
    (bt_wf (srv_pending s) -> bt_wf p) /\
    (forall P, Forall P (srv_pending s) -> Forall P p).

Lemma learn_frame_refl s : learn_frame s s.
Proof. exists (db s), [], (srv_pending s). rewrite app_nil_r. by destruct s. Qed.

Lemma learn_frame_trans s1 s2 s3 : learn_frame s1 s2 -> learn_frame s2 s3 -> learn_frame s1 s3.
Proof.
  intros (d & tx & p & -> & Hw & Hf) (d' & tx' & p' & -> & Hw' & Hf').
  exists d', (tx ++ tx'), p'. cbn in *. split_and!; [by rewrite app_assoc|auto..].
Qed.

Lemma learn_frame_db s d : learn_frame s (set_db s d).
Proof. exists d, [], (srv_pending s). rewrite app_nil_r. by destruct s. Qed.

Lemma learn_frame_send s e : learn_frame s (set_rpc_tx s (rpc_tx s ++ [e])).
Proof. exists (db s), [e], (srv_pending s). by destruct s. Qed.

Lemma learn_frame_pending s x : learn_frame s (set_pending s (bt_remove x (srv_pending s))).
Proof.
  exists (db s), [], (bt_remove x (srv_pending s)). rewrite app_nil_r.
  destruct s; cbn. split_and!; auto using bt_remove_wf, bt_remove_lb.
Qed.

Lemma db_put_frame k v s r s' : db_put_M k v s = Done (r, s') -> learn_frame s s'.
Proof. unfold db_put_M. destruct (db_put (db s) k v). intros [= <- <-]. apply learn_frame_db. Qed.

Lemma db_delete_frame k s r s' : db_delete_M k s = Done (r, s') -> learn_frame s s'.
Proof. unfold db_delete_M. destruct (db_delete (db s) k). intros [= <- <-]. apply learn_frame_db. Qed.

Lemma cli_res_buf_frame m s b s' : cli_res_buf m s = Done (b, s') -> s' = s.
Proof. unfold cli_res_buf. intros H. by minv. Qed.

Lemma peer_msg_buf_frame m s b s' : peer_msg_buf m s = Done (b, s') -> s' = s.
Proof. unfold peer_msg_buf. intros H. by minv. Qed.

Lemma reply_frame e b s u s' : reply e b s = Done (u, s') -> learn_frame s s'.
Proof. unfold reply, send_msg. intros H. minv. apply learn_frame_send. Qed.

Create HintDb frame.
#[local] Hint Resolve learn_frame_refl learn_frame_db learn_frame_send learn_frame_pending
  db_put_frame db_delete_frame reply_frame : frame.

Lemma learn_apply_frame m s r s' :
  (match Mutation_get_field_type m with
   | KVSET => learn_set m | KVCAS => learn_cas m | KVDEL => learn_del m
   end) s = Done (r, s') -> learn_frame s s'.
Proof.
  unfold learn_set, learn_cas, learn_del. intros H.
  destruct (Mutation_get_field_type m); minv; eauto with frame.
Qed.

Lemma learn_frame_learn tm tx s u s' : learn tm tx s = Done (u, s') -> learn_frame s s'.
Proof.
  unfold learn. intros H. mstep. mstep. destruct (log_get (rep_log s) tx) as [m|] eqn:Hg.
  2: { minv. apply learn_frame_refl. }
  mstep. match goal with Ha : _ s = Done (_, ?s1) |- _ => apply learn_apply_frame in Ha; rename s1 into s2 end.
  minv; eapply learn_frame_trans; try done.
  - eapply learn_frame_trans; [apply learn_frame_pending|].
    match goal with Hb : cli_res_buf _ _ = Done _ |- _ => apply cli_res_buf_frame in Hb as -> end.
    eauto with frame.
  - apply learn_frame_pending.
Qed.

Lemma learn_all_frame ps s u s' : learn_all ps s = Done (u, s') -> learn_frame s s'.
Proof.
  unfold learn_all. revert s. induction ps as [|p ps IH]; intros s H; cbn in H; minv.
  - apply learn_frame_refl.
  - eapply learn_frame_trans; [by eapply learn_frame_learn|by apply IH].
Qed.

Lemma inv_learn_frame s s' : server_inv s -> learn_frame s s' -> server_inv s'.
Proof. intros [] (d & tx & p & -> & Hw & Hf). split; cbn; auto. Qed.

(** ** Elections keep the invariant *)

Lemma update_rep_peers_spec pid a t s u s' :
  update_rep_peers pid a t s = Done (u, s') ->
  exists r, s' = set_rep_peers s r /\ (bt_wf (rep_peers s) -> bt_wf r) /\
    (Forall (rep_peer_ok (id s)) (rep_peers s) -> Forall (rep_peer_ok (id s)) r).
Proof.
  unfold update_rep_peers. intros H. minv; bool_split.
  - exists (rep_peers s). by destruct s.
  - eexists; split_and!; [done|auto with rasputin|]. intros. cbn.
    by repeat apply bt_insert_lb.
  - eexists; split_and!; [done|auto with rasputin|]. intros. cbn. by apply bt_insert_lb.
Qed.

Lemma votes_wf_nil need : in_u8 need -> votes_wf [] need.
Proof. intros. split_and!; [constructor|done|by left]. Qed.

Lemma votes_wf_push have need t :
  votes_wf have need -> t ∉ have -> Z.of_nat (length (have ++ [t])) < need -> votes_wf (have ++ [t]) need.
Proof.
  intros (Hnd & Hn & _) Ht Hlt. split_and!; [by apply NoDup_snoc|done|by right].
Qed.

Lemma votes_wf_need have need : votes_wf have need -> in_u8 need.
Proof. by intros (_ & ? & _). Qed.

(** The rest of the invariant after a vote was counted. *)
Lemma inv_vote s s' :
  server_inv s -> rep_log s' = rep_log s -> id s' = id s ->
  srv_pending s' = srv_pending s -> max_generated_txid s' = max_generated_txid s ->
  (bt_wf (rep_peers s) -> bt_wf (rep_peers s')) ->
  (Forall (rep_peer_ok (id s)) (rep_peers s) -> Forall (rep_peer_ok (id s)) (rep_peers s')) ->
  state_wf (state s') -> server_inv s'.
Proof.
  intros [] E1 E2 E3 E4 Hw Hf Hst. split; rewrite ?E1, ?E2, ?E3, ?E4; auto.
Qed.

Lemma handle_vote_res_inv env pid vr s u s' :
  server_inv s -> handle_vote_res env pid vr s = Done (u, s') -> server_inv s'.
Proof.
  intros Hi H. pose proof (inv_state s Hi) as Hst. unfold handle_vote_res in H.
  minv; bool_split; try match goal with E : state s = _ |- _ => rewrite E in Hst; cbn in Hst end;
    repeat match goal with
    | Hu : update_rep_peers _ _ _ _ = Done _ |- _ =>
        apply update_rep_peers_spec in Hu as (? & -> & ? & ?)
    end;
    (eapply inv_vote; [done|..]; cbn; try done; auto using bt_wf_nil;
     try match goal with E : state s = _ |- _ => rewrite E; cbn end;
     eauto using votes_wf_nil, votes_wf_need, votes_wf_push).
Qed.

Lemma handle_vote_req_inv env pid vr s u s' :
  server_inv s -> handle_vote_req env pid vr s = Done (u, s') -> server_inv s'.
Proof.
  intros Hi H. unfold handle_vote_req, should_grant_vote, peer_msg_buf, reply, send_msg in H.
  pose proof (inv_state s Hi) as Hst.
  minv; (eapply inv_state_change; [done|..]; cbn; try done;
    by match goal with E : state s = _ |- _ => rewrite E | _ => idtac end).
Qed.

Lemma cron_inv s u s' : server_inv s -> cron s = Done (u, s') -> server_inv s'.
Proof.
  intros Hi H. unfold cron, become_candidate, broadcast_vote_req, peer_msg_buf, peer_broadcast, send_msg in H.
  pose proof (inv_state s Hi) as Hst.
  minv; invert_done; subst; (eapply inv_state_change; [done|..]; cbn; try done;
    auto using votes_wf_nil, as_u8_range).
Qed.

(** ** Replication keeps the invariant *)

Lemma log_append_M_spec tm tx m s u s' :
  log_inv (rep_log s) -> log_append_M tm tx m s = Done (u, s') ->
  exists l, s' = set_rep_log s l /\ log_inv l /\ log_last_accepted_txid (rep_log s) < tx /\
    log_last_accepted_txid l = tx /\ log_last_accepted_term l = tm /\
    log_last_learned_txid l = log_last_learned_txid (rep_log s) /\
    log_last_learned_term l = log_last_learned_term (rep_log s) /\
    log_get l tx = Some m /\ (forall x, x <> tx -> log_get l x = log_get (rep_log s) x).
Proof.
  intros Hl H. unfold log_append_M in H. minv.
  destruct (Z_lt_le_dec (log_last_accepted_txid (rep_log s)) tx) as [Hlt|Hle].
  - destruct (log_append_ok (rep_log s) tm tx m Hl Hlt) as (l & E & ?). rewrite E in *. invert_done. subst.
    eexists; split; [done|]. naive_solver.
  - destruct (log_append_old (rep_log s) tm tx m Hle) as [e He]. congruence.
Qed.

Lemma log_ack_M_spec tx pid s out s' :
  log_inv (rep_log s) -> log_ack_up_to_M tx pid s = Done (out, s') ->
  exists l, s' = set_rep_log s l /\ log_inv l /\ log_advances (rep_log s) l out /\
    (forall x, log_get l x = log_get (rep_log s) x).
Proof.
  intros Hl H. unfold log_ack_up_to_M in H. minv.
  destruct (log_ack_ok (rep_log s) tx pid Hl) as (l & out' & E & ?). rewrite E in *. invert_done. subst. cbn.
  eexists; split; [done|]. naive_solver.
Qed.

Lemma log_commit_M_spec tx s out s' :
  log_inv (rep_log s) -> log_commit_up_to_M tx s = Done (out, s') ->
  exists l, s' = set_rep_log s l /\ log_inv l /\ log_advances (rep_log s) l out /\
    Forall (fun p => p.2 <= tx) out.
Proof.
  intros Hl H. unfold log_commit_up_to_M in H. minv.
  destruct (log_commit_ok (rep_log s) tx Hl) as (l & out' & E & ?). rewrite E in *. invert_done. subst. cbn.
  eexists; split; [done|]. naive_solver.
Qed.

(** The loop over a batch: whatever it accepts ends up as the accepted
    position, which it returns. *)
Lemma append_batch_spec batch mt mx s r s' :
  log_inv (rep_log s) -> mt = log_last_accepted_term (rep_log s) ->
  mx = log_last_accepted_txid (rep_log s) -> append_batch batch mt mx s = Done (r, s') ->
  exists l, s' = set_rep_log s l /\ log_inv l /\
    r = (log_last_accepted_term l, log_last_accepted_txid l) /\ mx <= r.2 /\ mt <= r.1 /\
    log_last_learned_txid l = log_last_learned_txid (rep_log s) /\
    log_last_learned_term l = log_last_learned_term (rep_log s).
Proof.
  revert mt mx s. induction batch as [|m batch IH]; intros mt mx s Hl Emt Emx H; cbn in H.
  - minv. exists (rep_log s). split; [by destruct s|]. naive_solver lia.
  - minv; bool_split; [by eapply IH|].
    match goal with Ha : log_append_M _ _ _ _ = Done _ |- _ =>
      apply log_append_M_spec in Ha as (l & -> & Hl' & Hlt & Etx & Etm & E1 & E2 & _); [|done] end.
    eapply IH in H as (l' & -> & Hl2 & -> & Hx & Ht & E3 & E4); [|done|done|done].
    exists l'. cbn in *. split_and!; try done; try lia; congruence.
Qed.

Lemma handle_append_inv env pid a s u s' :
  server_inv s -> handle_append env pid a s = Done (u, s') -> server_inv s'.
Proof.
  intros Hi H. unfold handle_append in H.
  minv;
    repeat match goal with
    | Hb : peer_msg_buf _ _ = Done _ |- _ => apply peer_msg_buf_frame in Hb as ->
    | Hr : reply _ _ _ = Done _ |- _ => apply reply_frame in Hr
    | Hr : learn_all _ _ = Done _ |- _ => apply learn_all_frame in Hr
    end; try done; try (by eapply inv_learn_frame).
  eapply inv_learn_frame; [|done]. eapply inv_learn_frame; [|done]. destruct Hi.
  match goal with Hb : append_batch _ _ _ _ = Done _ |- _ =>
    apply append_batch_spec in Hb as (l & -> & Hl & -> & Hx & _); [|done..] end.
  match goal with Hc : log_commit_up_to_M _ _ = Done _ |- _ =>
    apply log_commit_M_spec in Hc as (l2 & -> & Hl2 & [_ _ Etx _] & _); [|done] end.
  cbn in *. split; cbn; try done; try congruence.
  eapply Forall_impl; [done|]. cbn. lia.
Qed.

Lemma rep_peer_lookup s pid rp : server_inv s -> bt_get (rep_peers s) pid = Some rp -> rp_id rp = pid /\ pid <> id s.
Proof.
  intros [_ Hw Hf _ _ _ _] Hg. apply bt_get_elem in Hg; [|done].
  rewrite Forall_forall in Hf. apply (Hf _ Hg).
Qed.

Lemma handle_append_res_inv env pid ar s u s' :
  server_inv s -> handle_append_res env pid ar s = Done (u, s') -> server_inv s'.
Proof.
  intros Hi H. unfold handle_append_res in H. mstep. mstep. mstep; [by minv|].
  mstep. destruct (bt_get (rep_peers s) pid) as [rp|] eqn:Hg; minv.
  2: { eapply inv_learn_frame; [done|by eapply learn_all_frame]. }
  apply learn_all_frame in H. eapply inv_learn_frame; [|done].
  destruct (rep_peer_lookup s pid rp Hi Hg). destruct Hi.
  match goal with Ha : log_ack_up_to_M _ _ _ = Done _ |- _ =>
    apply log_ack_M_spec in Ha as (l & -> & Hl & [_ _ Etx _] & _); [|done] end.
  cbn in *. split; cbn; auto using bt_insert_wf, bt_insert_lb; [|congruence].
  apply bt_insert_lb; [by split|done].
Qed.

(** One mutation appended to our own log, acked by ourselves and learned as far
    as our single ack reaches. *)
Lemma replicate_local_spec m s u s' :
  log_inv (rep_log s) -> replicate_local m s = Done (u, s') ->
  exists s1, learn_frame s1 s' /\ exists l, s1 = set_rep_log s l /\ log_inv l /\
    log_last_accepted_txid (rep_log s) < Version_get_txid (Mutation_get_version m) /\
    log_last_accepted_txid l = Version_get_txid (Mutation_get_version m) /\
    log_get l (Version_get_txid (Mutation_get_version m)) = Some m.
Proof.
  intros Hl H. unfold replicate_local in H. minv. apply learn_all_frame in H.
  match goal with Ha : log_append_M _ _ _ _ = Done _ |- _ =>
    apply log_append_M_spec in Ha as (l & -> & Hl' & Hlt & Etx & _ & _ & _ & Hg & _); [|done] end.
  match goal with Ha : log_ack_up_to_M _ _ _ = Done _ |- _ =>
    apply log_ack_M_spec in Ha as (l2 & -> & Hl2 & [_ _ Etx2 _] & Hget); [|done] end.
  eexists; split; [done|]. exists l2. cbn in *. split_and!; try done; [congruence|]. by rewrite Hget.
Qed.

Lemma replicate_to_spec kp s kp' s' :
  replicate_to kp s = Done (kp', s') ->
  kp'.1 = kp.1 /\ rp_id kp'.2 = rp_id kp.2 /\ learn_frame s s'.
Proof.
  destruct kp as [k rp]. unfold replicate_to, send_msg. intros H. minv.
  match goal with Hb : peer_msg_buf _ _ = Done _ |- _ => apply peer_msg_buf_frame in Hb as -> end.
  split_and!; [done..|]. apply learn_frame_send.
Qed.

Lemma traverse_replicate_spec ps s ps' s' :
  traverse replicate_to ps s = Done (ps', s') ->
  map fst ps' = map fst ps /\ map (fun kp => rp_id kp.2) ps' = map (fun kp => rp_id kp.2) ps /\
  learn_frame s s'.
Proof.
  revert s ps'. induction ps as [|kp ps IH]; intros s ps' H; cbn in H; minv.
  - split_and!; [done..|]. apply learn_frame_refl.
  - match goal with Ha : replicate_to _ _ = Done _ |- _ => apply replicate_to_spec in Ha as (E1 & E2 & Hf) end.
    match goal with Ha : traverse _ _ _ = Done _ |- _ => apply IH in Ha as (E3 & E4 & Hf2) end.
    cbn. split_and!; [congruence..|]. by eapply learn_frame_trans.
Qed.

Lemma rep_peers_ok_keys self_id (ps ps' : BTreeMap PeerID RepPeer) :
  map fst ps' = map fst ps -> map (fun kp => rp_id kp.2) ps' = map (fun kp => rp_id kp.2) ps ->
  Forall (rep_peer_ok self_id) ps -> Forall (rep_peer_ok self_id) ps'.
Proof.
  revert ps'. induction ps as [|p ps IH]; intros [|p' ps'] E1 E2 Hf; try done.
  cbn in *. simplify_eq. apply Forall_cons in Hf as [[Hrid Hne] Hf].
  constructor; [split; congruence|by apply IH].
Qed.

(** [propose], from a server whose next txid was just generated. *)
Lemma propose_inv req rid t m s u s' :
  server_inv s -> Version_get_txid (Mutation_get_version m) = t -> max_generated_txid s < t ->
  propose req rid t m (set_max_generated_txid s t) = Done (u, s') -> server_inv s'.
Proof.
  intros [] Ev Hlt H. unfold propose, replicate in H. cbn [length Nat.ltb Nat.leb for_each] in H. minv.
  match goal with Ha : replicate_local _ _ = Done _ |- _ =>
    apply replicate_local_spec in Ha as (s1 & Hf & l & Es & Hl & _ & Etx & _); [|done] end.
  match goal with Ha : traverse _ _ _ = Done _ |- _ =>
    apply traverse_replicate_spec in Ha as (E1 & E2 & Hf2) end.
  pose proof (learn_frame_trans _ _ _ Hf Hf2) as (d & tx & p & -> & Hw & Hp).
  destruct Hf as (d1 & tx1 & p1 & -> & _). subst s1. cbn in *.
  assert (Forall (fun kp => kp.1 <= t) (bt_insert t (req, rid) (srv_pending s))) as Hkeys.
  { apply bt_insert_lb; [cbn; lia|]. eapply Forall_impl; [done|]. cbn. lia. }
  split; cbn; auto using bt_insert_wf.
  - by eapply bt_wf_keys.
  - by eapply rep_peers_ok_keys.
  - by rewrite Etx, Ev.
Qed.

Lemma redirect_frame st s r s' : redirect st s = Done (r, s') -> s' = s.
Proof. unfold redirect. intros H. by minv. Qed.

Lemma handle_cli_inv req s u s' :
  server_inv s -> handle_cli req s = Done (u, s') -> server_inv s'.
Proof.
  intros Hi H. unfold handle_cli, new_version, new_txid, handle_get, u64_add in H.
  minv; invert_done; subst;
    repeat match goal with
    | Hr : redirect _ _ = Done _ |- _ => apply redirect_frame in Hr as ->
    | Hb : cli_res_buf _ _ = Done _ |- _ => apply cli_res_buf_frame in Hb as ->
    | Hr : reply _ _ _ = Done _ |- _ => apply reply_frame in Hr
    end; try (by eapply inv_learn_frame);
    (eapply propose_inv; [done| |..|done]; [done|lia]).
Qed.

Lemma handle_peer_inv env s u s' :
  server_inv s -> handle_peer env s = Done (u, s') -> server_inv s'.
Proof.
  intros Hi H. unfold handle_peer in H. mstep. mstep.
  repeat (mstep; [by eauto using handle_vote_res_inv, handle_vote_req_inv, handle_append_inv,
    handle_append_res_inv|]).
  minv; eauto using handle_vote_res_inv, handle_vote_req_inv, handle_append_inv, handle_append_res_inv.
Qed.

Lemma handle_event_inv e s u s' :
  server_inv s -> handle_event e s = Done (u, s') -> server_inv s'.
Proof.
  destruct e; cbn; eauto using handle_peer_inv, handle_cli_inv, cron_inv.
Qed.

(** C1: whatever peer requests, client requests and cron ticks a server
    handles, in whatever order, a server started by [run] satisfies the invariant
    after each of them: its log is a chain from the learned to the accepted
    position, its next txid is always new to its log ([max_generated_txid] is the
    last accepted txid), its votes are from distinct tokens and below the quorum,
    it never replicates to itself, and its pending client requests have txids it
    generated. *)
Theorem server_invariant c (log : Z -> L) uuid store pp cp peers es u s' :
  (forall q, log_inv (log q)) -> (forall q, log_last_accepted_txid (log q) = 0) ->
  run_events es (run_init c log uuid store pp cp peers) = Done (u, s') -> server_inv s'.
Proof.
  intros Hl H0. pose proof (inv_init c log uuid store pp cp peers Hl H0) as Hi. revert Hi.
  unfold run_events. generalize (run_init c log uuid store pp cp peers) as s.
  induction es as [|e es IH]; intros s Hi H; cbn in H; minv; eauto using handle_event_inv.
Qed.
End Invariant.
