(* ===== verification/Election.v ===== *)
(** * Elections and leases

    What the vote handlers and [cron] do to a node's leadership: a lease cannot
    be pre-empted, a vote is granted only to a requestor whose log is recent
    enough, leadership needs a quorum of distinct votes, and a term can go back. *)

From stdpp Require Import base tactics option list numbers strings.
From Stdlib Require Import ZArith Lia.
From S2P Require Import Prelude BTreeMap Crates Messages Protobuf Serialization Clock State AckedLog Server ServerFacts Invariant.

Section Election.
Context `{TC : TimeCrate} `{BC : BytesCrate} `{RDB : RocksDB} `{PS : ProtobufStreams}.
Context {C : Type} `{CK : Clock C} {L : Type} `{AL : !AckedLog L Mutation} `{ALL : !AckedLogLaws L Mutation}.
Implicit Types s : Server (C := C) (L := L).

(** Whom a node takes for the leader, and in which term. *)
Definition leader_of s : option (Term * PeerID) :=
  match state s with
  | Leader t _ _ _ => Some (t, id s)
  | Follower t lid _ _ _ => Some (t, lid)
  | _ => None
  end.

(** The [n]-th reading of a clock. *)
Definition clock_after (n : nat) (c : C) : C := Nat.iter n (fun c => (now c).2) c.
Definition reading (n : nat) (c : C) : Timespec := (now (clock_after n c)).1.

(** The lease of [s] is valid at every reading an event can make of its clock (no
    method reads it more than five times). *)
Definition lease_held s : Prop :=
  forall n, (n < 5)%nat -> valid_leader (state s) (reading n (clock s)) = true.

Lemma lease_held_0 s : lease_held s -> valid_leader (state s) (now (clock s)).1 = true.
Proof. intros Hl. apply (Hl 0%nat). lia. Qed.

Lemma lease_held_candidate s t : lease_held s -> valid_candidate (state s) t = false.
Proof. intros Hl. pose proof (lease_held_0 s Hl) as H0. by destruct (state s). Qed.

(** ** The pieces of an event that cannot touch leadership *)

Definition same_lead s s' : Prop := state s' = state s /\ id s' = id s.

Lemma same_lead_leader s s' : same_lead s s' -> leader_of s' = leader_of s.
Proof. intros [Hs Hi]. unfold leader_of. by rewrite Hs, Hi. Qed.

Lemma same_lead_refl s : same_lead s s.
Proof. done. Qed.
Lemma same_lead_trans s1 s2 s3 : same_lead s1 s2 -> same_lead s2 s3 -> same_lead s1 s3.
Proof. intros [] []. split; congruence. Qed.

Lemma learn_frame_lead s s' : learn_frame s s' -> same_lead s s'.
Proof. by intros (d & tx & p & -> & _). Qed.

Lemma log_append_M_lead tm tx m s u s' : log_append_M tm tx m s = Done (u, s') -> same_lead s s'.
Proof. unfold log_append_M. intros H. by minv. Qed.
Lemma log_ack_M_lead tx pid s r s' : log_ack_up_to_M tx pid s = Done (r, s') -> same_lead s s'.
Proof. unfold log_ack_up_to_M. intros H. by minv. Qed.
Lemma log_commit_M_lead tx s r s' : log_commit_up_to_M tx s = Done (r, s') -> same_lead s s'.
Proof. unfold log_commit_up_to_M. intros H. by minv. Qed.

Lemma append_batch_lead b mt mx s r s' : append_batch b mt mx s = Done (r, s') -> same_lead s s'.
Proof.
  revert mt mx s. induction b as [|m b IH]; intros mt mx s H; cbn in H; minv; [done|by eapply IH|].
  eapply same_lead_trans; [by eapply log_append_M_lead|by eapply IH].
Qed.

Lemma learn_all_lead ps s u s' : learn_all ps s = Done (u, s') -> same_lead s s'.
Proof. intros ?%learn_all_frame. by apply learn_frame_lead. Qed.

Lemma reply_lead e b s u s' : reply e b s = Done (u, s') -> same_lead s s'.
Proof. intros ?%reply_frame. by apply learn_frame_lead. Qed.

(** Rewrites the frames of a run into [same_lead] facts. *)
Ltac lead_frames :=
  repeat match goal with
  | Hb : peer_msg_buf _ _ = Done _ |- _ => apply peer_msg_buf_frame in Hb as ->
  | Hb : cli_res_buf _ _ = Done _ |- _ => apply cli_res_buf_frame in Hb as ->
  | Hb : redirect _ _ = Done _ |- _ => apply redirect_frame in Hb as ->
  | Hr : reply _ _ _ = Done _ |- _ => apply reply_lead in Hr
  | Hr : learn_all _ _ = Done _ |- _ => apply learn_all_lead in Hr
  | Hr : append_batch _ _ _ _ = Done _ |- _ => apply append_batch_lead in Hr
  | Hr : log_commit_up_to_M _ _ = Done _ |- _ => apply log_commit_M_lead in Hr
  | Hr : log_ack_up_to_M _ _ _ = Done _ |- _ => apply log_ack_M_lead in Hr
  | Hr : log_append_M _ _ _ _ = Done _ |- _ => apply log_append_M_lead in Hr
  | H : same_lead _ _ |- _ => destruct H as [? ?]
  end.

Lemma handle_append_lead env pid a s u s' : handle_append env pid a s = Done (u, s') -> same_lead s s'.
Proof.
  unfold handle_append. intros H. minv; lead_frames; try done.
  split; cbn in *; congruence.
Qed.

Lemma handle_append_res_lead env pid a s u s' : handle_append_res env pid a s = Done (u, s') -> same_lead s s'.
Proof.
  unfold handle_append_res. intros H. minv; lead_frames; try done; split; cbn in *; congruence.
Qed.

Lemma replicate_lead ms s u s' : replicate ms s = Done (u, s') -> same_lead s s'.
Proof.
  assert (forall ms s u s', for_each replicate_local ms s = Done (u, s') -> same_lead s s') as Hloc.
  { clear. induction ms as [|m ms IH]; intros s u s' H; cbn in H; [by minv|].
    mstep. apply IH in H. eapply same_lead_trans; [|done].
    unfold replicate_local in *. minv. lead_frames. split; congruence. }
  unfold replicate. intros H. minv; [|done].
  match goal with Ha : for_each _ _ _ = Done _ |- _ => apply Hloc in Ha as [] end.
  match goal with Ha : traverse _ _ _ = Done _ |- _ =>
    apply traverse_replicate_spec in Ha as (_ & _ & []%learn_frame_lead) end.
  split; cbn; congruence.
Qed.

Lemma handle_cli_lead req s u s' : handle_cli req s = Done (u, s') -> same_lead s s'.
Proof.
  unfold handle_cli, handle_get, new_version, new_txid, propose. intros H. minv; lead_frames; try done;
    match goal with Ha : replicate _ _ = Done _ |- _ => apply replicate_lead in Ha as [] end;
    split; cbn in *; congruence.
Qed.

(** ** Leases are not pre-empted *)

Lemma handle_vote_res_lead env pid vr s u s' :
  lease_held s -> handle_vote_res env pid vr s = Done (u, s') -> leader_of s' = leader_of s.
Proof.
  intros Hl H. pose proof (lease_held_0 s Hl) as Hv. unfold handle_vote_res in H.
  minv; rewrite ?(lease_held_candidate s _ Hl) in *; try done; try discriminate Hv;
    repeat match goal with
    | Hu : update_rep_peers _ _ _ _ = Done _ |- _ =>
        apply update_rep_peers_spec in Hu as (? & -> & _)
    end; unfold leader_of; cbn; by match goal with E : state s = _ |- _ => rewrite E | _ => idtac end.
Qed.

Lemma handle_vote_req_lead env pid vr s u s' :
  lease_held s -> handle_vote_req env pid vr s = Done (u, s') -> leader_of s' = leader_of s.
Proof.
  intros Hl H. pose proof (lease_held_0 s Hl) as Hv. unfold handle_vote_req, should_grant_vote in H.
  pose proof (Hl 1%nat ltac:(lia)) as H1. cbn in H1.
  minv; lead_frames; rewrite ?Hv in *; try done; cbn in *; try congruence; try discriminate Hv;
    unfold leader_of;
    repeat match goal with
    | E : state s' = _ |- _ => rewrite E
    | E : id s' = _ |- _ => rewrite E
    end; cbn; try done; by match goal with E : state s = _ |- _ => rewrite E | _ => idtac end.
Qed.

Lemma cron_lead s u s' : lease_held s -> cron s = Done (u, s') -> leader_of s' = leader_of s.
Proof.
  intros Hl H. unfold cron, broadcast_vote_req, peer_broadcast, send_msg in H.
  pose proof (lease_held_0 s Hl) as Hv.
  minv; lead_frames; rewrite ?Hv in *; done.
Qed.

(** C2: leadership is not pre-empted: a node that leads, or follows a leader,
    under a lease that is valid at every reading of the clock keeps the same leader
    in the same term through any peer request, client request or cron tick,
    whatever term or log the messages claim. *)
Theorem lease_not_preempted e s u s' :
  lease_held s -> handle_event e s = Done (u, s') -> leader_of s' = leader_of s.
Proof.
  intros Hl H. destruct e as [env|env|]; cbn in H.
  - unfold handle_peer in H. minv; eauto using handle_vote_res_lead, handle_vote_req_lead,
      same_lead_leader, handle_append_lead, handle_append_res_lead.
  - by eapply same_lead_leader, handle_cli_lead.
  - by eapply cron_lead.
Qed.

(** ** Granting votes *)

(** The log of the requestor is recent enough for our vote, as the comments of
    [should_grant_vote] put it. *)
Definition recent_enough (vr : VoteReq) s : Prop :=
  log_last_learned_term (rep_log s) <= VoteReq_get_term vr /\
  (log_last_learned_term (rep_log s) < VoteReq_get_last_learned_term vr \/
   (VoteReq_get_last_learned_term vr = log_last_learned_term (rep_log s) /\
    log_last_accepted_txid (rep_log s) <= VoteReq_get_last_accepted_txid vr)).

Lemma should_grant_vote_true vr s s' :
  should_grant_vote vr s = Done (true, s') ->
  valid_leader (state s) (now (clock s)).1 = false /\ recent_enough vr s /\
  s' = set_clock s (now (clock s)).2.
Proof.
  unfold should_grant_vote, recent_enough. intros H. minv; try done; bool_split.
  - split_and!; auto.
  - symmetry in H. bool_split. split_and!; auto.
Qed.

Lemma should_grant_vote_frame vr s b s' :
  should_grant_vote vr s = Done (b, s') -> s' = set_clock s (now (clock s)).2.
Proof. unfold should_grant_vote. intros H. by minv. Qed.

(** C13: a vote request makes a node follow a new leader only if the requestor is
    another node, no lease is valid at that moment, and the requestor's log is
    recent enough; the node then follows it in the requested term, under a lease of
    twelve seconds from a reading of its clock. *)
Theorem vote_granted_only_if env pid vr s u s' :
  handle_vote_req env pid vr s = Done (u, s') ->
  following (state s) pid = false -> following (state s') pid = true ->
  pid <> id s /\ recent_enough vr s /\
  valid_leader (state s) (reading 0 (clock s)) = false /\
  valid_leader (state s) (reading 1 (clock s)) = false /\
  highest_term s' = VoteReq_get_term vr /\
  exists addr until, address env = Some addr /\
    Timespec_add (reading 2 (clock s)) LEADER_DURATION = Done until /\
    state s' = Follower (VoteReq_get_term vr) pid (tok env) addr until.
Proof.
  intros H Hf Hf'. unfold handle_vote_req, reply, send_msg, peer_msg_buf in H.
  minv; cbn in *; rewrite ?Hf in *; bool_split; try congruence; subst;
    match goal with Hg : should_grant_vote _ _ = Done _ |- _ =>
      pose proof (should_grant_vote_frame _ _ _ _ Hg) as -> end; cbn in *; [|congruence].
  match goal with Hg : should_grant_vote _ _ = Done _ |- _ =>
    apply should_grant_vote_true in Hg as (Hv & Hr & _) end.
  rewrite andb_true_r in *. split_and!; eauto.
Qed.

Definition vote_nack s (vr : VoteReq) (t : Term) : PeerMsg :=
  PeerMsg_set_vote_res (PeerMsg_set_srvid PeerMsg_new (id s))
    (VoteRes_set_success
       (VoteRes_set_term (VoteRes_set_term VoteRes_new (VoteReq_get_term vr)) t) false).

(** A request for the vote of a node that holds a valid lease for somebody
    else is answered, without a panic, by a nack that carries the node's own term;
    apart from the clock reading and the answer the node is unchanged. *)
Theorem vote_req_refused env pid vr s t :
  pid <> id s -> valid_leader (state s) (reading 0 (clock s)) = true ->
  following (state s) pid = false -> state_term (state s) = Some t ->
  writable_peer (vote_nack s vr t) ->
  exists b, write_PeerMsg (vote_nack s vr t) = Some b /\
    handle_vote_req env pid vr s =
      Done (tt, set_rpc_tx (set_clock s (now (clock s)).2)
        (rpc_tx s ++ [mkEnvelope (address env) (tok env) (ByteBuf_from_slice b)])).
Proof.
  intros Hne Hv Hf Et [b Hb]. exists b. split; [done|]. unfold reading in Hv. cbn in Hv.
  unfold handle_vote_req. mrun. rewrite bool_decide_eq_false_2 by done.
  unfold mbind, M_bind. cbn. rewrite Hv, Hf. cbn. rewrite Et. cbn.
  unfold peer_msg_buf, mbind, M_bind. cbn. unfold vote_nack in Hb. by rewrite Hb.
Qed.

(** ** Becoming and staying leader *)

Lemma readings_mono `{MC : !MonotoneClock C} (c : C) t0 :
  clock_from c t0 -> ts_le (now c).1 (now (now c).2).1.
Proof. intros (_ & _ & Hc)%now_from. by apply now_from in Hc as (? & _). Qed.

(** C14: with a clock that does not go back, a node becomes leader only as a
    candidate, on a successful vote of its own term, when the distinct tokens that
    voted for it reach the quorum it computed; its lease is then the one of its
    candidacy, not a longer one. *)
Theorem leader_needs_quorum `{TL : !TimeLaws} `{MC : !MonotoneClock C} env pid vr s u s' t0 :
  server_inv s -> clock_from (clock s) t0 -> handle_vote_res env pid vr s = Done (u, s') ->
  is_leader (state s) = false -> is_leader (state s') = true ->
  exists t have need until votes,
    state s = Candidate t have need until /\ state s' = Leader t [] need until /\
    VoteRes_get_success vr = true /\ VoteRes_get_term vr = t /\
    NoDup votes /\ need <= Z.of_nat (length votes) /\
    (forall x, x ∈ votes -> x ∈ have \/ x = tok env).
Proof.
  intros Hi Hc H Hl Hl'. pose proof (inv_state s Hi) as Hst.
  pose proof (valid_candidate_mono (state s) _ _ (readings_mono _ _ Hc)) as Hmono.
  unfold handle_vote_res in H.
  minv; cbn in *; bool_split; try congruence;
    repeat match goal with
    | Hu : update_rep_peers _ _ _ _ = Done _ |- _ =>
        apply update_rep_peers_spec in Hu as (? & -> & _)
    end; cbn in *; try congruence;
    (destruct Hst as (Hnd & Hn & _); rewrite Hmono, andb_true_l, negb_false_iff in * by done).
  - exists term, have, need, until, (have ++ [tok env]). split_and!; try done.
    + by apply NoDup_snoc.
    + intros y [?| ->%list_elem_of_singleton]%elem_of_app; auto.
  - exists term, have, need, until, have. split_and!; auto.
Qed.

(** What a vote response does to a leader. *)
Lemma vote_res_extension env pid vr s u s' t have need until :
  server_inv s -> handle_vote_res env pid vr s = Done (u, s') ->
  state s = Leader t have need until ->
  exists have' until', state s' = Leader t have' need until' /\ votes_wf have' need /\
    (until' = until \/
     (have' = [] /\ VoteRes_get_success vr = true /\
      (exists votes, NoDup votes /\ need <= Z.of_nat (length votes) /\
         forall x, x ∈ votes -> x ∈ have \/ x = tok env) /\
      exists n, Timespec_add (reading n (clock s)) LEADER_DURATION = Done until')).
Proof.
  intros Hi H Est. pose proof (inv_state s Hi) as Hst. unfold handle_vote_res in H.
  rewrite Est in *. cbn in Hst.
  minv; cbn in *; bool_split; try congruence;
    repeat match goal with
    | Hu : update_rep_peers _ _ _ _ = Done _ |- _ =>
        apply update_rep_peers_spec in Hu as (? & -> & _)
    end; cbn in *; rewrite ?Est in *; try done; simplify_eq;
    try (exists have, until; by split_and!; auto); pose proof Hst as (Hnd & Hn & _).
  - eexists [], _. split_and!; [done|by apply votes_wf_nil|]. right. split_and!; auto.
    2: { by exists 3%nat. }
    exists (have ++ [tok env]). split_and!; auto using NoDup_snoc.
    intros y [?| ->%list_elem_of_singleton]%elem_of_app; auto.
  - eexists [], _. split_and!; [done|by apply votes_wf_nil|]. right. split_and!; eauto.
    by exists 3%nat.
  - eexists _, until. split_and!; [done|by apply votes_wf_push|by left].
Qed.

(** No other event changes the lease of a node that stays leader. *)
Lemma vote_req_keeps_leader env pid vr s u s' :
  handle_vote_req env pid vr s = Done (u, s') -> is_leader (state s') = true -> state s' = state s.
Proof.
  unfold handle_vote_req, reply, send_msg, peer_msg_buf. intros H Hl.
  minv; cbn in *; try done;
    match goal with Hg : should_grant_vote _ _ = Done _ |- _ =>
      pose proof (should_grant_vote_frame _ _ _ _ Hg) as -> end; done.
Qed.

Lemma cron_keeps_leader s u s' :
  cron s = Done (u, s') -> is_leader (state s') = true -> state s' = state s.
Proof.
  unfold cron, become_candidate, broadcast_vote_req, peer_msg_buf, peer_broadcast, send_msg.
  intros H Hl. by minv.
Qed.

(** C15: while a node stays leader, no event changes its term or its quorum, and
    its lease is extended only by a peer message with a successful vote response,
    when a quorum of distinct tokens has answered since the last extension; it then
    ends twelve seconds after a reading of the clock. *)
Theorem leader_lease_extension e s u s' t have need until t' have' need' until' :
  server_inv s -> handle_event e s = Done (u, s') ->
  state s = Leader t have need until -> state s' = Leader t' have' need' until' ->
  t' = t /\ need' = need /\ votes_wf have' need /\
  (until' = until \/
   exists env pm, e = PeerRequest env /\ parse_PeerMsg (ByteBuf_bytes (msg env)) = Some pm /\
     VoteRes_get_success (PeerMsg_get_vote_res pm) = true /\ have' = [] /\
     (exists votes, NoDup votes /\ need <= Z.of_nat (length votes) /\
        forall x, x ∈ votes -> x ∈ have \/ x = tok env) /\
     exists n, Timespec_add (reading n (clock s)) LEADER_DURATION = Done until').
Proof.
  intros Hi H Es Es'. pose proof (inv_state s Hi) as Hw. rewrite Es in Hw.
  assert (is_leader (state s') = true) as Hl by (by rewrite Es').
  assert (state s' = state s -> t' = t /\ need' = need /\ votes_wf have' need /\ until' = until) as Hsame.
  { rewrite Es, Es'. intros [= -> -> -> ->]. by split_and!. }
  destruct e as [env|env|]; cbn in H.
  - unfold handle_peer in H. mstep. mstep. mstep. mstep.
    + eapply vote_res_extension in H as (h & un & E & Hv & Hu); [|done..].
      rewrite Es' in E. injection E as -> -> -> ->. split_and!; try done.
      destruct Hu as [->|(-> & Hs & Hq & Hn)]; [by left|]. right. eexists env, _. by split_and!.
    + destruct Hsame as (? & ? & ? & ?); [|by split_and!; auto].
      minv; [by eapply vote_req_keeps_leader|by eapply handle_append_lead|
             by eapply handle_append_res_lead|done].
  - apply handle_cli_lead in H as [E _]. destruct (Hsame E) as (? & ? & ? & ?). split_and!; auto.
  - apply cron_keeps_leader in H as E; [|done]. destruct (Hsame E) as (? & ? & ? & ?). split_and!; auto.
Qed.

(** ** The periodic task *)

Definition vote_request s (t : Term) : PeerMsg :=
  PeerMsg_set_vote_req (PeerMsg_set_srvid PeerMsg_new (id s))
    (VoteReq_set_last_learned_txid
      (VoteReq_set_last_learned_term
        (VoteReq_set_last_accepted_txid
          (VoteReq_set_last_accepted_term (VoteReq_set_term VoteReq_new t)
            (log_last_accepted_term (rep_log s)))
          (log_last_accepted_txid (rep_log s)))
        (log_last_learned_term (rep_log s)))
      (log_last_learned_txid (rep_log s))).

(** C16: when neither a lease nor a candidacy is valid, [cron] makes the node a
    candidate of the next term for twelve seconds, needing a majority of its
    configured peers (as a [u8]), and, if that candidacy is valid at the next reading of
    the clock, broadcasts a vote request with its term and log positions; at the last
    [u64] term it panics instead. *)
Theorem cron_starts_election `{TL : !TimeLaws} s :
  let c := clock s in
  valid_leader (state s) (reading 0 c) = false -> valid_candidate (state s) (reading 1 c) = false ->
  ts_ok (reading 2 c) -> ts_lt (reading 4 c) (ts_shift (reading 2 c) 12) ->
  in_u64 (highest_term s) ->
  (highest_term s = u64_max -> is_panic (cron s)) /\
  (highest_term s < u64_max -> writable_peer (vote_request s (highest_term s + 1)) ->
   exists s' b, cron s = Done (tt, s') /\ highest_term s' = highest_term s + 1 /\
     state s' = Candidate (highest_term s + 1) []
       (as_u8 (Z.of_nat (length (peers s)) / 2 + 1)) (ts_shift (reading 2 c) 12) /\
     write_PeerMsg (vote_request s (highest_term s + 1)) = Some b /\
     rpc_tx s' = rpc_tx s ++ [mkEnvelope None PEER_BROADCAST (ByteBuf_from_slice b)] /\
     rep_log s' = rep_log s).
Proof.
  intros c Hv Hc Hok Hlt [Hlo Hhi]. subst c. unfold reading in *. cbn in *.
  split; [intros Ht|intros Ht [b Hb]]; unfold cron, become_candidate, mbind, M_bind; cbn; rewrite Hv; cbn; rewrite Hc; cbn.
  - destruct (checked_overflow 0 u64_max (highest_term s + 1)) as [e He]; [lia|].
    unfold u64_add. rewrite He. by exists e.
  - unfold u64_add. rewrite checked_ok by lia. cbn. unfold LEADER_DURATION.
    rewrite Timespec_add_seconds by (done || lia). cbn.
    rewrite (proj2 (Timespec_lt_spec _ _) Hlt).
    unfold broadcast_vote_req, peer_msg_buf, peer_broadcast, send_msg, mbind, M_bind. cbn.
    unfold vote_request in Hb. rewrite Hb. cbn. eexists _, b. split_and!; try done.
Qed.
End Election.
