(* ===== verification/KV.v ===== *)
(** * The key-value store

    What a client is promised, as an abstract machine over a finite map
    ([kv_apply] and [kv_response]), and the proof that [learn] implements it: entries
    are applied in the order they are learned, and exactly the clients that wait for one
    of them are answered.  The store may report errors ([Faults]): the abstract machine
    says what is then applied and what the client is told. *)

From stdpp Require Import base tactics option list numbers strings gmap.
From Stdlib Require Import ZArith Lia.
From S2P Require Import Prelude BTreeMap Crates Messages Protobuf Serialization Clock State AckedLog Server ServerFacts Invariant.

Abbreviation KV := (gmap (list Z) (list Z)) (only parsing).

(** ** The abstract store *)

Section Spec.
Context `{PB : ProtobufRuntime} `{BC : BytesCrate}.

(** Compare-and-set: the key holds the expected old value, or is absent and was
    expected to be. *)
Definition cas_ok (m : Mutation) (kv : KV) : bool :=
  match kv !! Mutation_get_key m with
  | Some old => Mutation_has_old_value m && bool_decide (old = Mutation_get_old_value m)
  | None => negb (Mutation_has_old_value m)
  end.

(** The errors the store reports for a mutation: of the read, and of the write; a write
    that reports an error took effect ([true]) or did not. *)
Record Faults : Type := mkFaults { read_fault : option string; write_fault : option (string * bool) }.

Definition no_faults : Faults := mkFaults None None.

(** The store after a write that makes [kv] into [kv']. *)
Definition kv_write (f : Faults) (kv kv' : KV) : KV :=
  match write_fault f with Some (_, false) => kv | _ => kv' end.

Definition kv_apply (f : Faults) (m : Mutation) (kv : KV) : KV :=
  match Mutation_get_field_type m with
  | KVSET => kv_write f kv (<[Mutation_get_key m := Mutation_get_value m]> kv)
  | KVCAS =>
      if is_some (read_fault f) then kv
      else if cas_ok m kv then kv_write f kv (<[Mutation_get_key m := Mutation_get_value m]> kv) else kv
  | KVDEL => kv_write f kv (delete (Mutation_get_key m) kv)
  end.

Definition problem (e : string) : string := operational_problem +:+ ": " +:+ e.

(** The outcome of a compare-and-set: the value the key now has, if any. *)
Definition cas_response (f : Faults) (m : Mutation) (kv : KV) : CASRes :=
  let fail err := CASRes_set_err (CASRes_set_success CASRes_new false) err in
  let old res := match kv !! Mutation_get_key m with Some v => CASRes_set_value res v | None => res end in
  match read_fault f, write_fault f with
  | Some e, _ => fail (problem e)
  | None, None =>
      if cas_ok m kv then CASRes_set_value (CASRes_set_success CASRes_new true) (Mutation_get_value m)
      else old (fail "compare failure")
  | None, Some (e, _) =>
      if cas_ok m kv then
        old (fail (if is_some (kv !! Mutation_get_key m) then operational_problem else problem e))
      else old (fail "compare failure")
  end.

(** The answer to a mutation, [learned] being the last learned txid. *)
Definition kv_response (f : Faults) (learned : TXID) (m : Mutation) (kv : KV) : CliRes :=
  match Mutation_get_field_type m with
  | KVSET => CliRes_set_set CliRes_new
      (match write_fault f with
       | None => SetRes_set_success SetRes_new true
       | Some _ => SetRes_set_err (SetRes_set_success SetRes_new false) operational_problem
       end)
  | KVCAS => CliRes_set_cas CliRes_new (CASRes_set_txid (cas_response f m kv) learned)
  | KVDEL =>
      let res := match read_fault f, kv !! Mutation_get_key m with
                 | None, Some old => DelRes_set_value DelRes_new old
                 | _, _ => DelRes_new
                 end in
      CliRes_set_del CliRes_new
        (match write_fault f with
         | None => DelRes_set_success res true
         | Some (e, _) => DelRes_set_err (DelRes_set_success res false) (problem e)
         end)
  end.

(** The store, the clients that wait, and the answers owed to them. *)
Record KVState : Type := mkKVState {
  kv_store : KV;
  kv_waiting : BTreeMap TXID (Envelope * Z);
  kv_answers : list (Envelope * CliRes);
}.

Definition kv_learn (log : TXID -> option Mutation) (learned : TXID) (st : KVState) (pf : (Term * TXID) * Faults) : KVState :=
  let '(p, f) := pf in
  match log p.2 with
  | None => st
  | Some m =>
      mkKVState (kv_apply f m (kv_store st)) (bt_remove p.2 (kv_waiting st))
        (kv_answers st ++
         match bt_get (kv_waiting st) p.2 with
         | Some (env, req_id) =>
             [(env, CliRes_set_req_id (kv_response f learned m (kv_store st)) req_id)]
         | None => []
         end)
  end.

Definition kv_learn_all (log : TXID -> option Mutation) (learned : TXID) (st : KVState)
  (pfs : list ((Term * TXID) * Faults)) : KVState := foldl (kv_learn log learned) st pfs.

Lemma kv_learn_acc log learned kv wt ans pf :
  kv_learn log learned (mkKVState kv wt ans) pf =
  let st := kv_learn log learned (mkKVState kv wt []) pf in
  mkKVState (kv_store st) (kv_waiting st) (ans ++ kv_answers st).
Proof. unfold kv_learn. destruct pf as [p f]. cbn. destruct (log p.2); cbn; [done|]. by rewrite app_nil_r. Qed.

Lemma kv_answers_app log learned kv wt ans pfs :
  kv_learn_all log learned (mkKVState kv wt ans) pfs =
  let st := kv_learn_all log learned (mkKVState kv wt []) pfs in
  mkKVState (kv_store st) (kv_waiting st) (ans ++ kv_answers st).
Proof.
  unfold kv_learn_all. revert kv wt ans. induction pfs as [|pf pfs IH]; intros kv wt ans; cbn [foldl].
  { cbn. by rewrite app_nil_r. }
  rewrite kv_learn_acc. destruct (kv_learn _ _ (mkKVState kv wt []) pf) as [kv' wt' ans']. cbn.
  rewrite IH, (IH _ _ ans'). cbn. by rewrite app_assoc.
Qed.
End Spec.

(** ** The errors of a store *)

Section Store.
Context `{PB : ProtobufRuntime} `{RDB : RocksDB} `{RL : !RocksDBLaws}.

(** What a store [d] reports when it is asked to read the key of [m] and to write [m]. *)
Definition write_of (d : DB) (m : Mutation) : (unit + string) * DB :=
  match Mutation_get_field_type m with
  | KVDEL => db_delete d (Mutation_get_key m)
  | _ => db_put d (Mutation_get_key m) (Mutation_get_value m)
  end.

Definition read_fault_of (d : DB) (k : list Z) : option string :=
  match db_get d k with DBError e => Some e | _ => None end.

Definition faults_of (d : DB) (m : Mutation) : Faults :=
  mkFaults (read_fault_of d (Mutation_get_key m))
    (match write_of d m with
     | (inl _, _) => None
     | (inr e, d') => Some (e, bool_decide (db_contents d' <> db_contents d))
     end).

(** Whether [m] is written at all, and the store then. *)
Definition tries_write (d : DB) (m : Mutation) : bool :=
  match Mutation_get_field_type m with
  | KVCAS => negb (is_some (read_fault_of d (Mutation_get_key m))) && cas_ok m (db_contents d)
  | _ => true
  end.

Definition store_next (d : DB) (m : Mutation) : DB := if tries_write d m then (write_of d m).2 else d.

(** The errors in the course of learning a list of positions. *)
Fixpoint learn_faults (log : TXID -> option Mutation) (d : DB) (ps : list (Term * TXID)) : list ((Term * TXID) * Faults) :=
  match ps with
  | [] => []
  | p :: ps =>
      match log p.2 with
      | Some m => (p, faults_of d m) :: learn_faults log (store_next d m) ps
      | None => (p, no_faults) :: learn_faults log d ps
      end
  end.

Lemma db_get_lookup d k :
  db_get d k = match read_fault_of d k, db_contents d !! k with
               | Some e, _ => DBError e
               | None, Some v => DBSome v
               | None, None => DBNone
               end.
Proof.
  unfold read_fault_of. destruct (db_get d k) as [v| |e] eqn:E; [|by rewrite (db_get_none _ _ E)|done].
  by rewrite (db_get_some _ _ _ E).
Qed.

(** A write, in the words of the abstract store. *)
Definition kv_written (m : Mutation) (kv : KV) : KV :=
  match Mutation_get_field_type m with
  | KVDEL => delete (Mutation_get_key m) kv
  | _ => <[Mutation_get_key m := Mutation_get_value m]> kv
  end.

Lemma write_contents d m :
  db_contents (write_of d m).2 = kv_write (faults_of d m) (db_contents d) (kv_written m (db_contents d)).
Proof.
  unfold kv_write, faults_of. cbn. destruct (write_of d m) as [[[]|e] d'] eqn:E; cbn.
  - unfold write_of, kv_written in *. destruct (Mutation_get_field_type m); by first [eapply db_put_ok|eapply db_delete_ok].
  - assert (db_contents d' = db_contents d \/ db_contents d' = kv_written m (db_contents d)) as Hd
      by (unfold write_of, kv_written in *; destruct (Mutation_get_field_type m); by first [eapply db_put_err|eapply db_delete_err]).
    case_bool_decide; [by destruct Hd|done].
Qed.

Lemma store_next_contents d m : db_contents (store_next d m) = kv_apply (faults_of d m) m (db_contents d).
Proof.
  unfold store_next, tries_write, kv_apply. pose proof (write_contents d m) as Hw. unfold kv_written in Hw.
  destruct (Mutation_get_field_type m); [done| |done]. cbn.
  destruct (read_fault_of d _); cbn; [done|]. by destruct (cas_ok m _).
Qed.
End Store.

Section Learn.
Context `{TC : TimeCrate} `{BC : BytesCrate} `{RDB : RocksDB} `{RL : !RocksDBLaws}.
Context `{PS : ProtobufStreams}.
Context {C : Type} `{CK : Clock C} {L : Type} `{AL : !AckedLog L Mutation}.
Implicit Types s : Server (C := C) (L := L).

(** An envelope that carries the answer [res] to the sender of [env]. *)
Definition carries (p : Envelope * CliRes) (e : Envelope) : Prop :=
  exists b, write_CliRes p.2 = Some b /\
    e = mkEnvelope (address p.1) (tok p.1) (ByteBuf_from_slice b).

Definition kv_state s : KVState := mkKVState (db_contents (db s)) (srv_pending s) [].

(** Every answer can be written. *)
Definition all_writable (answers : list (Envelope * CliRes)) : Prop :=
  Forall (fun p => writable_cli p.2) answers.

Lemma cli_res_buf_run res s :
  writable_cli res ->
  exists b, write_CliRes res = Some b /\ cli_res_buf res s = Done (ByteBuf_from_slice b, s).
Proof.
  intros [b Hb]. exists b. split; [done|]. unfold cli_res_buf, mbind, M_bind. cbn. by rewrite Hb.
Qed.

(** ** Learning implements the abstract store *)

Lemma write_M_run m s :
  (match Mutation_get_field_type m with
   | KVDEL => db_delete_M (Mutation_get_key m)
   | _ => db_put_M (Mutation_get_key m) (Mutation_get_value m)
   end) s = Done ((write_of (db s) m).1, set_db s (write_of (db s) m).2).
Proof.
  unfold write_of, db_put_M, db_delete_M. destruct (Mutation_get_field_type m);
    by (destruct (db_put _ _ _) || destruct (db_delete _ _)).
Qed.

(** The outcome of the write, as the abstract store sees it. *)
Lemma write_result d m :
  (write_of d m).1 = match write_fault (faults_of d m) with None => inl tt | Some (e, _) => inr e end.
Proof. unfold faults_of. cbn. by destruct (write_of d m) as [[[]|e] d']. Qed.

Lemma learn_apply_refines m s :
  (match Mutation_get_field_type m with
   | KVSET => learn_set m | KVCAS => learn_cas m | KVDEL => learn_del m
   end) s = Done (kv_response (faults_of (db s) m) (log_last_learned_txid (rep_log s)) m (db_contents (db s)),
                  set_db s (store_next (db s) m)).
Proof.
  pose proof (write_M_run m s) as Hw. rewrite write_result in Hw.
  unfold kv_response, cas_response, store_next, tries_write.
  destruct (Mutation_get_field_type m).
  - unfold learn_set. rewrite (M_bind_run _ _ _ _ _ Hw). by destruct (write_fault _) as [[]|].
  - unfold learn_cas. mrun. rewrite db_get_lookup. cbn [read_fault faults_of]. unfold cas_ok.
    destruct (read_fault_of (db s) _) as [e|]; [by destruct s|].
    destruct (db_contents (db s) !! _) as [old|]; [destruct (_ && _)|destruct (negb _)]; cbn [negb is_some andb].
    + unfold mbind, M_bind. rewrite Hw. by destruct (write_fault _) as [[]|].
    + destruct (write_fault _) as [[]|]; by destruct s.
    + unfold mbind, M_bind. rewrite Hw. by destruct (write_fault _) as [[]|].
    + destruct (write_fault _) as [[]|]; by destruct s.
  - unfold learn_del. mrun. rewrite (M_bind_run _ _ _ _ _ Hw), db_get_lookup. cbn [read_fault faults_of].
    destruct (read_fault_of (db s) _) as [e|], (db_contents (db s) !! Mutation_get_key m), (write_fault _) as [[]|]; done.
Qed.

Lemma learn_refines tm tx s :
  let st := kv_learn_all (log_get (rep_log s)) (log_last_learned_txid (rep_log s)) (kv_state s)
    (learn_faults (log_get (rep_log s)) (db s) [(tm, tx)]) in
  let d := match log_get (rep_log s) tx with Some m => store_next (db s) m | None => db s end in
  all_writable (kv_answers st) ->
  exists out, learn tm tx s =
      Done (tt, set_pending (set_rpc_tx (set_db s d) (rpc_tx s ++ out)) (kv_waiting st)) /\
    db_contents d = kv_store st /\ Forall2 carries (kv_answers st) out.
Proof.
  unfold learn, kv_learn_all, learn_faults. mrun. cbn [foldl]. cbn -[faults_of].
  destruct (log_get (rep_log s) tx) as [m|] eqn:Hm; cbn -[faults_of]; rewrite Hm.
  2: { intros _. exists []. rewrite app_nil_r. destruct s. split_and!; [done..|constructor]. }
  pose proof (learn_apply_refines m s) as H1. rewrite (M_bind_run _ _ _ _ _ H1). mrun. cbn -[faults_of].
  pose proof (store_next_contents (db s) m) as Hd.
  destruct (bt_get (srv_pending s) tx) as [[env rid]|]; intros Hw.
  - unfold all_writable in Hw. rewrite Forall_singleton in Hw. unfold mbind at 1, M_bind at 1.
    edestruct cli_res_buf_run as (b & Hb & ->); [exact Hw|].
    exists [mkEnvelope (address env) (tok env) (ByteBuf_from_slice b)].
    split_and!; [done..|]. repeat constructor. by exists b.
  - exists []. rewrite app_nil_r. split_and!; [by destruct s|done|constructor].
Qed.

(** Learning a list of positions refines the abstract store: if the answers owed can be
    written, it does not panic, the entries the log has at these positions are applied in
    order, as far as the store does not report errors, the clients that wait for one of
    them, and only they, are each sent one answer, which is the abstract store's, in the
    same order, and nothing else of the server changes. *)
Lemma learn_all_refines ps s :
  let st := kv_learn_all (log_get (rep_log s)) (log_last_learned_txid (rep_log s)) (kv_state s)
    (learn_faults (log_get (rep_log s)) (db s) ps) in
  all_writable (kv_answers st) ->
  exists d out, learn_all ps s =
      Done (tt, set_pending (set_rpc_tx (set_db s d) (rpc_tx s ++ out)) (kv_waiting st)) /\
    db_contents d = kv_store st /\ Forall2 carries (kv_answers st) out.
Proof.
  unfold learn_all. revert s. induction ps as [|[tm tx] ps IH]; intros s; cbn [for_each].
  { intros _. exists (db s), []. rewrite app_nil_r. destruct s. split_and!; [done..|constructor]. }
  pose proof (learn_refines tm tx s) as Hl. cbn zeta in Hl.
  set (d := match log_get (rep_log s) tx with Some m => store_next (db s) m | None => db s end) in Hl.
  assert (learn_faults (log_get (rep_log s)) (db s) ((tm, tx) :: ps) =
    learn_faults (log_get (rep_log s)) (db s) [(tm, tx)] ++ learn_faults (log_get (rep_log s)) d ps) as ->.
  { subst d. cbn. by destruct (log_get (rep_log s) tx). }
  unfold kv_learn_all. rewrite foldl_app. fold (kv_learn_all (log_get (rep_log s)) (log_last_learned_txid (rep_log s))
    (kv_state s) (learn_faults (log_get (rep_log s)) (db s) [(tm, tx)])).
  destruct (kv_learn_all _ _ (kv_state s) (learn_faults _ _ [(tm, tx)])) as [kv wt ans]. cbn [kv_store kv_waiting kv_answers] in Hl.
  pose proof (kv_answers_app (log_get (rep_log s)) (log_last_learned_txid (rep_log s)) kv wt ans
    (learn_faults (log_get (rep_log s)) d ps)) as Ha.
  unfold kv_learn_all in Ha. rewrite Ha. cbn [kv_store kv_waiting kv_answers]. intros [Hw1 Hw2]%Forall_app.
  destruct (Hl Hw1) as (out & H1 & Hd & Ho).
  rewrite (M_bind_run _ _ _ _ _ H1). edestruct IH as (d' & out' & -> & Hd' & Ho');
    unfold kv_state, kv_learn_all in *; cbn [db rep_log srv_pending set_pending set_rpc_tx set_db] in *; rewrite Hd in *; [exact Hw2|].
  exists d', (out ++ out'). split_and!; [by cbn; rewrite app_assoc|exact Hd'|by apply Forall2_app].
Qed.
End Learn.
