(* ===== verification/Replication.v ===== *)
(** * Replication

    The leader's side ([replicate], [handle_append_res]) and the follower's
    ([handle_append]): what is sent, what is accepted, what is answered, and that a
    leader only ever appends to its log. *)

From stdpp Require Import base tactics option list numbers strings sorting.
From Stdlib Require Import ZArith Lia.
From S2P Require Import Prelude BTreeMap Crates Messages Protobuf Serialization Clock State AckedLog Server ServerFacts Invariant KV.

(** ** What a follower accepts of a batch *)

Section Batch.
Context `{PB : ProtobufRuntime}.

Definition pos_of (m : Mutation) : Term * TXID :=
  (Version_get_term (Mutation_get_version m), Version_get_txid (Mutation_get_version m)).

(** From position [p], the mutations of a batch that are new, and the position
    of the last one; [None] when the term decreases. *)
Fixpoint accept_batch (p : Term * TXID) (batch : list Mutation)
  : option (list Mutation * (Term * TXID)) :=
  match batch with
  | [] => Some ([], p)
  | m :: batch =>
      if (pos_of m).1 <? p.1 then None
      else if (pos_of m).2 <=? p.2 then accept_batch p batch
      else r ← accept_batch (pos_of m) batch; Some (m :: r.1, r.2)
  end.

Definition pos_lt (a b : Term * TXID) : Prop := a.1 <= b.1 /\ a.2 < b.2.

#[global] Instance pos_lt_trans : Transitive pos_lt.
Proof. intros a b c [] []. split; lia. Qed.

(** What is accepted is an ascending part of the batch that starts after [p] and
    ends at the returned position. *)
Lemma accept_batch_sound p batch ms q :
  accept_batch p batch = Some (ms, q) ->
  ms `sublist_of` batch /\ StronglySorted pos_lt (p :: map pos_of ms) /\
  last (p :: map pos_of ms) = Some q.
Proof.
  revert p ms q. induction batch as [|m batch IH]; intros p ms q H; cbn [accept_batch] in H.
  { injection H as <- <-. split_and!; repeat constructor. }
  destruct (Z.ltb_spec (pos_of m).1 p.1); [done|].
  destruct (Z.leb_spec (pos_of m).2 p.2).
  { apply IH in H as (? & ? & ?). split_and!; [by apply sublist_cons|done..]. }
  apply bind_Some in H as ([ms' q'] & H & [= <- <-]).
  apply IH in H as (Hs & Ho & Hl). cbn [map fst snd]. split_and!; [by apply sublist_skip| |done].
  assert (pos_lt p (pos_of m)) by (split; lia).
  apply StronglySorted_inv in Ho as [Ho Hf]. repeat constructor; auto.
  eapply Forall_impl; [done|]. intros x. by transitivity (pos_of m).
Qed.
End Batch.

Section Replication.
Context `{TC : TimeCrate} `{BC : BytesCrate} `{RDB : RocksDB} `{PS : ProtobufStreams}.
Context {C : Type} `{CK : Clock C} {L : Type} `{AL : !AckedLog L Mutation} `{ALL : !AckedLogLaws L Mutation}.
Implicit Types s : Server (C := C) (L := L).

Definition log_pos (l : L) : Term * TXID := (log_last_accepted_term l, log_last_accepted_txid l).

Lemma log_append_run tm tx m s :
  log_inv (rep_log s) -> log_last_accepted_txid (rep_log s) < tx ->
  exists l, log_append_M tm tx m s = Done (tt, set_rep_log s l) /\ log_inv l /\
    log_pos l = (tm, tx) /\ log_last_learned_txid l = log_last_learned_txid (rep_log s) /\
    log_get l tx = Some m /\ (forall x, x <> tx -> log_get l x = log_get (rep_log s) x).
Proof.
  intros Hl Hlt. destruct (log_append_ok (rep_log s) tm tx m Hl Hlt) as (l & E & ? & ? & ? & ? & ? & ? & ?).
  exists l. unfold log_append_M, log_pos, mbind, M_bind. cbn. rewrite E. split_and!; naive_solver congruence.
Qed.

(** The loop of [handle_append] refines [accept_batch]. *)
Lemma append_batch_refines batch p s :
  log_inv (rep_log s) -> p = log_pos (rep_log s) ->
  match accept_batch p batch with
  | None => is_panic (append_batch batch p.1 p.2 s)
  | Some (ms, q) =>
      exists l, append_batch batch p.1 p.2 s = Done (q, set_rep_log s l) /\ log_inv l /\
        log_pos l = q /\ log_last_learned_txid l = log_last_learned_txid (rep_log s) /\
        (forall m, m ∈ ms -> log_get l (pos_of m).2 = Some m) /\
        (forall x, x ∉ map (fun m => (pos_of m).2) ms -> log_get l x = log_get (rep_log s) x)
  end.
Proof.
  revert p s. induction batch as [|m batch IH]; intros p s Hl ->; cbn [accept_batch append_batch].
  { exists (rep_log s). split_and!; try done; [by destruct s|]. intros m Hm. by apply not_elem_of_nil in Hm. }
  cbn. destruct (Z.ltb_spec (Version_get_term (Mutation_get_version m)) (log_last_accepted_term (rep_log s))).
  { by eexists. }
  destruct (Z.leb_spec (Version_get_txid (Mutation_get_version m)) (log_last_accepted_txid (rep_log s))) as [Hx|Hx].
  { by apply IH. }
  destruct (log_append_run (pos_of m).1 (pos_of m).2 m s Hl Hx) as (l & E & Hl' & Hp & Hlr & Hg & Ho).
  unfold mbind at 2, M_bind at 1. unfold mbind at 2, M_bind at 1. cbn in E. rewrite E.
  specialize (IH (pos_of m) (set_rep_log s l) Hl' (eq_sym Hp)). cbn in IH.
  pose proof (accept_batch_sound (pos_of m) batch) as Hsound.
  destruct (accept_batch (pos_of m) batch) as [[ms q]|]; [|done].
  destruct IH as (l2 & E2 & Hl2 & Hp2 & Hlr2 & Hg2 & Ho2). cbn.
  exists l2. cbn in E2. split_and!; try done; [congruence| |].
  - destruct (Hsound ms q eq_refl) as (_ & Hs & _). apply StronglySorted_inv in Hs as [_ Hs].
    intros m' [->|Hm']%elem_of_cons; [|by apply Hg2]. rewrite Ho2; [done|].
    intros (m2 & Em & Hm2)%list_elem_of_fmap. rewrite Forall_map, Forall_forall in Hs.
    apply Hs in Hm2 as [_ Hlt]. cbn in *. lia.
  - intros x [Hne Hnin]%not_elem_of_cons. rewrite Ho2 by done. cbn. by apply Ho.
Qed.

(** ** The follower *)

(** The answer of a node to an append: accepted or not, and its position. *)
Definition append_answer s (ok : bool) (p : Term * TXID) : PeerMsg :=
  PeerMsg_set_append_res (PeerMsg_set_srvid PeerMsg_new (id s))
    (AppendRes_set_last_accepted_txid
       (AppendRes_set_last_accepted_term (AppendRes_set_accepted AppendRes_new ok) p.1) p.2).

Definition links s (a : Append) : Prop :=
  (Append_get_from_term a, Append_get_from_txid a) = log_pos (rep_log s).

Lemma links_test s a :
  (Append_get_from_term a =? log_last_accepted_term (rep_log s)) &&
  (Append_get_from_txid a =? log_last_accepted_txid (rep_log s)) = true <-> links s a.
Proof.
  unfold links, log_pos. rewrite andb_true_iff, !Z.eqb_eq. split; [by intros [-> ->]|by intros [= -> ->]].
Qed.

Lemma following_not_leader s pid : is_following (state s) pid = true -> is_leader (state s) = false.
Proof. by destruct (state s). Qed.

Lemma peer_msg_buf_run m s :
  writable_peer m ->
  exists b, write_PeerMsg m = Some b /\ peer_msg_buf m s = Done (ByteBuf_from_slice b, s).
Proof.
  intros [b Hb]. exists b. split; [done|]. unfold peer_msg_buf, mbind, M_bind. cbn. by rewrite Hb.
Qed.

Lemma log_commit_run tx s :
  log_inv (rep_log s) ->
  exists l out, log_commit_up_to_M tx s = Done (out, set_rep_log s l) /\ log_inv l /\
    log_commit_up_to (rep_log s) tx = Done (l, out) /\ log_pos l = log_pos (rep_log s).
Proof.
  intros Hl. destruct (log_commit_ok (rep_log s) tx Hl) as (l & out & E & Hl' & [_ _ E1 E2] & _).
  exists l, out. unfold log_commit_up_to_M, log_pos, mbind, M_bind. cbn. rewrite E. cbn.
  split_and!; try done. by rewrite E1, E2.
Qed.

(** C12: an append that links but whose batch has a mutation of a lower term than
    the one accepted before it makes the follower panic; one that does not link is
    answered by a refusal with the follower's position, from which the leader is to
    replicate, and nothing else changes. *)
Theorem handle_append_refuses env pid a s :
  server_inv s -> is_following (state s) pid = true ->
  (links s a -> accept_batch (log_pos (rep_log s)) (Append_get_batch a) = None ->
   is_panic (handle_append env pid a s)) /\
  (~ links s a -> writable_peer (append_answer s false (log_pos (rep_log s))) -> exists b,
   write_PeerMsg (append_answer s false (log_pos (rep_log s))) = Some b /\
   handle_append env pid a s = Done (tt, set_rpc_tx s
     (rpc_tx s ++ [mkEnvelope (address env) (tok env) (ByteBuf_from_slice b)]))).
Proof.
  intros Hi Hf. unfold handle_append. mrun. rewrite (following_not_leader s pid Hf), Hf. split.
  - intros Hlk Hb. rewrite (proj2 (links_test s a) Hlk).
    pose proof (append_batch_refines (Append_get_batch a) _ s (inv_log s Hi) eq_refl) as HB.
    rewrite Hb in HB. destruct HB as [e HB]. cbn in HB. exists e. unfold mbind, M_bind. by rewrite HB.
  - intros Hlk Hwr. rewrite <-links_test in Hlk. apply not_true_is_false in Hlk. rewrite Hlk. mrun.
    destruct (peer_msg_buf_run (append_answer s false (log_pos (rep_log s))) s Hwr) as (b & Hw & E).
    exists b. split; [done|]. unfold append_answer in E. cbn in E. by rewrite (M_bind_run _ _ _ _ _ E).
Qed.

(** ** The leader *)

(** The mutations of the next 99 txids that the log has. *)
Definition next_batch (l : L) (max_sent : TXID) : list Mutation :=
  omap (log_get l) (seqZ (max_sent + 1) 99).

Definition last_sent (l : L) (max_sent : TXID) : TXID :=
  default max_sent ((fun m => (pos_of m).2) <$> last (next_batch l max_sent)).

Lemma collect_batch_spec l txids batch mx :
  collect_batch l txids batch mx =
  (batch ++ omap (log_get l) txids,
   default mx ((fun m => (pos_of m).2) <$> last (omap (log_get l) txids))).
Proof.
  revert batch mx. induction txids as [|x txids IH]; intros batch mx; cbn; [by rewrite app_nil_r|].
  destruct (log_get l x) as [m|]; [|apply IH]. rewrite IH, <-app_assoc. f_equal.
  rewrite last_cons. by destruct (last (omap (log_get l) txids)).
Qed.

Lemma next_batch_length l mx : (length (next_batch l mx) <= 99)%nat.
Proof.
  unfold next_batch. transitivity (length (seqZ (mx + 1) 99)); [|by rewrite length_seqZ].
  generalize (seqZ (mx + 1) 99). intros xs. induction xs as [|x xs IH]; cbn; [done|].
  destruct (log_get l x); cbn; lia.
Qed.

(** The append for a peer: from where it was last known to be, the next entries
    after what was last sent, and our learned txid. *)
Definition append_for (sid : PeerID) (l : L) (rp : RepPeer) : PeerMsg :=
  PeerMsg_set_append (PeerMsg_set_srvid PeerMsg_new sid)
    (Append_set_batch
      (Append_set_last_learned_txid
        (Append_set_from_term (Append_set_from_txid Append_new (rp_last_accepted_txid rp))
           (rp_last_accepted_term rp))
        (log_last_learned_txid l))
      (next_batch l (rp_max_sent_txid rp))).

Definition sent_to (l : L) (kp : PeerID * RepPeer) : PeerID * RepPeer :=
  (kp.1, mkRepPeer (rp_last_accepted_term kp.2) (rp_last_accepted_txid kp.2)
    (last_sent l (rp_max_sent_txid kp.2)) (rp_tok kp.2) (rp_id kp.2) (rp_addr kp.2)).

Definition carries_append (sid : PeerID) (l : L) (kp : PeerID * RepPeer) (e : Envelope) : Prop :=
  exists b, write_PeerMsg (append_for sid l kp.2) = Some b /\
    e = mkEnvelope (rp_addr kp.2) (rp_tok kp.2) (ByteBuf_from_slice b).

(** The next append for a peer can be sent: it can be written, and no txid
    close to the end of the [u64]s was sent to the peer. *)
Definition sendable (sid : PeerID) (l : L) (rp : RepPeer) : Prop :=
  writable_peer (append_for sid l rp) /\ 0 <= rp_max_sent_txid rp <= u64_max - 100.

Lemma replicate_to_run kp s :
  sendable (id s) (rep_log s) kp.2 ->
  exists e, carries_append (id s) (rep_log s) kp e /\
    replicate_to kp s = Done (sent_to (rep_log s) kp, set_rpc_tx s (rpc_tx s ++ [e])).
Proof.
  destruct kp as [k rp]. intros [Hw Hr]. cbn in Hw, Hr.
  destruct (peer_msg_buf_run (append_for (id s) (rep_log s) rp) s Hw) as (b & Hb & E).
  exists (mkEnvelope (rp_addr rp) (rp_tok rp) (ByteBuf_from_slice b)). split; [by exists b|].
  unfold replicate_to. mrun. unfold u64_add. rewrite !checked_ok by lia. mrun.
  unfold u64_range. replace (rp_max_sent_txid rp + 100 - (rp_max_sent_txid rp + 1)) with 99 by lia.
  rewrite collect_batch_spec. cbn [app rp_addr rp_tok]. unfold append_for, next_batch in E.
  rewrite (M_bind_run _ _ _ _ _ E). by destruct s.
Qed.

(** A server with only its outbox replaced sends the same appends. *)
Lemma traverse_replicate_run ps s :
  Forall (fun kp => sendable (id s) (rep_log s) kp.2) ps ->
  exists out, Forall2 (carries_append (id s) (rep_log s)) ps out /\
    traverse replicate_to ps s = Done (map (sent_to (rep_log s)) ps, set_rpc_tx s (rpc_tx s ++ out)).
Proof.
  intros Hps. cut (forall tx, exists out, Forall2 (carries_append (id s) (rep_log s)) ps out /\
    traverse replicate_to ps (set_rpc_tx s tx) = Done (map (sent_to (rep_log s)) ps, set_rpc_tx s (tx ++ out))).
  { intros H. destruct (H (rpc_tx s)) as (out & Ho & E). exists out. split; [done|]. by destruct s. }
  induction Hps as [|kp ps Hkp Hps IH]; intros tx; cbn.
  { exists []. split; [done|]. by rewrite app_nil_r. }
  destruct (replicate_to_run kp (set_rpc_tx s tx) Hkp) as (e & He & E).
  destruct (IH (tx ++ [e])) as (out & Ho & E2).
  exists (e :: out). split; [by constructor|]. rewrite (M_bind_run _ _ _ _ _ E).
  change (set_rpc_tx (set_rpc_tx s tx) _) with (set_rpc_tx s (tx ++ [e])).
  rewrite (M_bind_run _ _ _ _ _ E2). cbn. by rewrite <-app_assoc.
Qed.

(** ** Proposals *)

Definition version_at (tm : Term) (tx : TXID) : Version :=
  Version_set_term (Version_set_txid Version_new tx) tm.

(** The mutation a client request asks for, at a position of the log. *)
Definition requested (r : CliReq) (tm : Term) (tx : TXID) : option Mutation :=
  let new k := Mutation_set_version (Mutation_set_field_type Mutation_new k) (version_at tm tx) in
  if CliReq_has_get r then None
  else if CliReq_has_set r then
    Some (Mutation_set_value (Mutation_set_key (new KVSET) (SetReq_get_key (CliReq_get_set r)))
            (SetReq_get_value (CliReq_get_set r)))
  else if CliReq_has_cas r then
    Some (Mutation_set_old_value
            (Mutation_set_value (Mutation_set_key (new KVCAS) (CASReq_get_key (CliReq_get_cas r)))
               (CASReq_get_new_value (CliReq_get_cas r)))
            (CASReq_get_old_value (CliReq_get_cas r)))
  else if CliReq_has_del r then
    Some (Mutation_set_key (new KVDEL) (DelReq_get_key (CliReq_get_del r)))
  else None.

Lemma requested_pos r tm tx m : requested r tm tx = Some m -> pos_of m = (tm, tx).
Proof. unfold requested. intros H. by repeat case_match; simplify_eq. Qed.

Lemma new_version_run s tm :
  state_term (state s) = Some tm -> 0 <= max_generated_txid s < u64_max ->
  let x := max_generated_txid s + 1 in
  new_version s = Done ((x, version_at tm x), set_max_generated_txid s x).
Proof.
  intros Ht Hx x. unfold new_version, new_txid, u64_add, mbind, M_bind. cbn.
  rewrite checked_ok by lia. cbn. by rewrite Ht.
Qed.

(** On a leader, a mutating request is a proposal at the next position. *)
Lemma handle_cli_proposes req r s tm m :
  is_leader (state s) = true -> state_term (state s) = Some tm -> 0 <= max_generated_txid s < u64_max ->
  parse_CliReq (ByteBuf_bytes (msg req)) = Some r ->
  let x := max_generated_txid s + 1 in
  requested r tm x = Some m ->
  handle_cli req s = propose req (CliReq_get_req_id r) x m (set_max_generated_txid s x).
Proof.
  intros Hl Ht Hx Hp x Hm. pose proof (new_version_run s tm Ht Hx) as Hv. cbn in Hv.
  unfold handle_cli, requested in *. rewrite Hp. mrun. rewrite Hl. cbn [negb].
  destruct (CliReq_has_get r); [done|].
  destruct (CliReq_has_set r); [|destruct (CliReq_has_cas r); [|destruct (CliReq_has_del r); [|done]]];
    rewrite (M_bind_run _ _ _ _ _ Hv); injection Hm as <-; done.
Qed.

Lemma log_ack_run tx pid s :
  log_inv (rep_log s) ->
  exists l ps, log_ack_up_to_M tx pid s = Done (ps, set_rep_log s l) /\ log_inv l /\
    log_ack_up_to (rep_log s) tx pid = Done (l, ps) /\ log_pos l = log_pos (rep_log s) /\
    (forall x, log_get l x = log_get (rep_log s) x).
Proof.
  intros Hl. destruct (log_ack_ok (rep_log s) tx pid Hl) as (l & ps & E & Hl' & [_ _ E1 E2] & Hg).
  exists l, ps. unfold log_ack_up_to_M, log_pos, mbind, M_bind. cbn. rewrite E. cbn.
  split_and!; try done. by rewrite E1, E2.
Qed.

(** The server with a request recorded as waiting for its new txid, and the log
    after the mutation was appended and acked by the leader itself. *)
Definition proposed s (req : Envelope) (rid : Z) (x : TXID) (l : L) : Server :=
  set_rep_log (set_pending (set_max_generated_txid s x) (bt_insert x (req, rid) (srv_pending s))) l.

(** A leader that gets a set, compare-and-set or delete request appends the
    requested mutation to its log at the next txid in its term, leaving every other
    entry as it was, and acks it itself; once what that completes is learned, it
    sends each of its replication peers one append that continues from what was last
    sent to it. *)
Lemma propose_spec req r s tm m :
  server_inv s -> is_leader (state s) = true -> state_term (state s) = Some tm ->
  parse_CliReq (ByteBuf_bytes (msg req)) = Some r -> max_generated_txid s < u64_max ->
  let x := max_generated_txid s + 1 in
  requested r tm x = Some m ->
  exists l1 l2 ps,
    log_append (rep_log s) tm x m = Done l1 /\ log_ack_up_to l1 x (id s) = Done (l2, ps) /\
    log_pos l2 = (tm, x) /\ log_get l2 x = Some m /\
    (forall y, y <> x -> log_get l2 y = log_get (rep_log s) y) /\
    forall s2, learn_all ps (proposed s req (CliReq_get_req_id r) x l2) = Done (tt, s2) ->
      Forall (fun kp => sendable (id s) l2 kp.2) (rep_peers s) ->
      exists out, Forall2 (carries_append (id s) l2) (rep_peers s) out /\
        handle_cli req s = Done (tt, set_rep_peers (set_rpc_tx s2 (rpc_tx s2 ++ out))
          (map (sent_to l2) (rep_peers s))).
Proof.
  intros Hi Hl Ht Hp Hx x Hm. destruct Hi as [Hlog _ _ _ _ Htx _].
  pose proof (log_inv_learned _ Hlog) as Hb. pose proof (requested_pos _ _ _ _ Hm) as Hpos.
  injection Hpos as Hmt Hmx.
  rewrite (handle_cli_proposes req r s tm m) by (done || lia). fold x.
  set (s0 := set_pending (set_max_generated_txid s x) (bt_insert x (req, CliReq_get_req_id r) (srv_pending s))).
  destruct (log_append_run tm x m s0) as (l1 & E1 & Hl1 & Hp1 & Hlr & Hg & Ho); [done|cbn; lia|].
  destruct (log_ack_run x (id s) (set_rep_log s0 l1) Hl1) as (l2 & ps & E2 & Hl2 & Ha & Hp2 & Hg2).
  cbn in Hp2. rewrite Hp1 in Hp2. exists l1, l2, ps. split_and!; try done.
  - revert E1. unfold log_append_M, mbind, M_bind. cbn. by destruct (log_append _ _ _ _); intros [= ->].
  - rewrite Hg2. exact Hg.
  - intros y Hy. rewrite Hg2. by apply Ho.
  - intros s2 E3 Hr. pose proof (learn_all_frame _ _ _ _ E3) as (d & tx & p & Es2 & _).
    assert (rep_peers s2 = rep_peers s /\ rep_log s2 = l2 /\ id s2 = id s) as (Erp & El2 & Eid) by (by rewrite Es2).
    destruct (traverse_replicate_run (rep_peers s) s2) as (out & Hout & E4); [by rewrite El2, Eid|].
    rewrite El2, Eid in Hout. rewrite El2 in E4. exists out. split; [done|].
    pose proof (log_inv_learned _ Hl2) as Hb2. injection Hp2 as _ Hx2.
    unfold propose, replicate. rewrite (M_bind_run _ _ _ tt s0 eq_refl). cbn [length Nat.ltb Nat.leb for_each].
    unfold replicate_local. rewrite Hmt, Hmx. unfold mbind, M_bind. rewrite E1. cbn.
    change (id s0) with (id s). rewrite E2. cbn.
    change (set_rep_log (set_rep_log s0 l1) l2) with (set_rep_log s0 l2).
    unfold proposed in E3. fold s0 in E3. rewrite E3. cbn. rewrite Erp, E4. cbn.
    unfold u64_sub. rewrite checked_ok; [done|]. rewrite El2, Hx2. lia.
Qed.

(** ** A leader's log only grows *)

Definition log_kept (l l' : L) : Prop :=
  log_last_accepted_txid l <= log_last_accepted_txid l' /\
  forall x, x <= log_last_accepted_txid l -> log_get l' x = log_get l x.

#[local] Instance log_kept_preorder : PreOrder log_kept.
Proof.
  split; [done|]. intros l1 l2 l3 [H1 G1] [H2 G2]. split; [lia|].
  intros x Hx. rewrite G2 by lia. by apply G1.
Qed.

Lemma learn_frame_log s s' : learn_frame s s' -> rep_log s' = rep_log s.
Proof. by intros (d & tx & p & -> & _). Qed.

Lemma handle_vote_res_log env pid vr s u s' :
  handle_vote_res env pid vr s = Done (u, s') -> rep_log s' = rep_log s.
Proof.
  unfold handle_vote_res. intros H. minv; repeat match goal with
    | Hu : update_rep_peers _ _ _ _ = Done _ |- _ =>
        apply update_rep_peers_spec in Hu as (? & -> & _)
    end; done.
Qed.

Lemma handle_vote_req_log env pid vr s u s' :
  handle_vote_req env pid vr s = Done (u, s') -> rep_log s' = rep_log s.
Proof.
  unfold handle_vote_req, should_grant_vote, peer_msg_buf, reply, send_msg. intros H. by minv.
Qed.

Lemma cron_log s u s' : cron s = Done (u, s') -> rep_log s' = rep_log s.
Proof.
  unfold cron, become_candidate, broadcast_vote_req, peer_msg_buf, peer_broadcast, send_msg.
  intros H. minv; invert_done; by subst.
Qed.

Lemma handle_append_res_log env pid ar s u s' :
  log_inv (rep_log s) -> handle_append_res env pid ar s = Done (u, s') -> log_kept (rep_log s) (rep_log s').
Proof.
  unfold handle_append_res. intros Hl H. minv; try done;
    apply learn_all_frame, learn_frame_log in H; rewrite H; [|done].
  match goal with Ha : log_ack_up_to_M _ _ _ = Done _ |- _ =>
    apply log_ack_M_spec in Ha as (l & -> & _ & [_ _ E _] & Hg); [|done] end.
  cbn in *. split; [lia|]. auto.
Qed.

Lemma replicate_local_log m s u s' :
  log_inv (rep_log s) -> replicate_local m s = Done (u, s') ->
  log_inv (rep_log s') /\ log_kept (rep_log s) (rep_log s').
Proof.
  intros Hl H. unfold replicate_local in H. minv. apply learn_all_frame, learn_frame_log in H. rewrite H.
  match goal with Ha : log_append_M _ _ _ _ = Done _ |- _ =>
    apply log_append_M_spec in Ha as (l & -> & Hl' & Hlt & E1 & _ & _ & _ & _ & Ho); [|done] end.
  match goal with Ha : log_ack_up_to_M _ _ _ = Done _ |- _ =>
    apply log_ack_M_spec in Ha as (l2 & -> & Hl2 & [_ _ E2 _] & Hg); [|done] end.
  cbn in *. split; [done|]. split; [lia|]. intros x Hx. rewrite Hg. apply Ho. lia.
Qed.

Lemma propose_log req rid t m s u s' :
  log_inv (rep_log s) -> propose req rid t m s = Done (u, s') -> log_kept (rep_log s) (rep_log s').
Proof.
  intros Hl H. unfold propose, replicate in H. cbn [length Nat.ltb Nat.leb for_each] in H. minv.
  match goal with Ha : replicate_local _ _ = Done _ |- _ => apply replicate_local_log in Ha as [_ Hk]; [|done] end.
  match goal with Ha : traverse _ _ _ = Done _ |- _ =>
    apply traverse_replicate_spec in Ha as (_ & _ & E%learn_frame_log) end. cbn. by rewrite E.
Qed.

Lemma handle_cli_log req s u s' :
  log_inv (rep_log s) -> handle_cli req s = Done (u, s') -> log_kept (rep_log s) (rep_log s').
Proof.
  unfold handle_cli, new_version, new_txid, handle_get. intros Hl H.
  minv; repeat match goal with
    | Hr : redirect _ _ = Done _ |- _ => apply redirect_frame in Hr as ->
    | Hb : cli_res_buf _ _ = Done _ |- _ => apply cli_res_buf_frame in Hb as ->
    | Hr : reply _ _ _ = Done _ |- _ => apply reply_frame, learn_frame_log in Hr; rewrite Hr
    end; try done; match goal with Hp : propose _ _ _ _ _ = Done _ |- _ => by apply propose_log in Hp end.
Qed.

(** C5: a leader never overwrites or loses an entry of its own log: through any
    event it handles while it leads, every lookup up to its last accepted txid
    answers as before and the accepted position does not go back (the simulator's
    tests call it [leader_append_only] and leave it to be written). *)
Theorem leader_append_only e s u s' :
  server_inv s -> is_leader (state s) = true -> handle_event e s = Done (u, s') ->
  log_kept (rep_log s) (rep_log s').
Proof.
  intros [Hl _ _ _ _ _ _] Hld H. destruct e as [env|env|]; cbn in H.
  - unfold handle_peer in H. minv; try done.
    + by apply handle_vote_res_log in H as ->.
    + by apply handle_vote_req_log in H as ->.
    + unfold handle_append in H. mstep. mstep. rewrite Hld in H. by minv.
    + by eapply handle_append_res_log.
  - by eapply handle_cli_log.
  - by apply cron_log in H as ->.
Qed.
End Replication.

(** ** Commitment on the leader, against the abstract store *)

Section Commit.
Context `{TC : TimeCrate} `{BC : BytesCrate} `{RDB : RocksDB} `{RL : !RocksDBLaws}.
Context `{PS : ProtobufStreams}.
Context {C : Type} `{CK : Clock C} {L : Type} `{AL : !AckedLog L Mutation} `{ALL : !AckedLogLaws L Mutation}.
Implicit Types s : Server (C := C) (L := L).

(** The abstract store after the positions [ps] of the log [l] were learned, with the
    errors the server's store reports in doing so, for a server whose waiting clients are
    [wt]. *)
Definition store_after s (l : L) (wt : BTreeMap TXID (Envelope * Z)) (ps : list (Term * TXID)) : KVState :=
  kv_learn_all (log_get l) (log_last_learned_txid l) (mkKVState (db_contents (db s)) wt [])
    (learn_faults (log_get l) (db s) ps).

(** C6: on a leader, a set, compare-and-set or delete request is appended at the
    next txid, leaving every other entry as it was, and acked by the leader itself;
    if the answers and appends it then owes can be sent, it does not panic: the
    abstract store is advanced by what the ack completed, with the request recorded
    as waiting for its txid, the clients waiting for what was learned are answered,
    and every replication peer is sent its next append.  Where the node's own store
    reports an error, the abstract store has the same fault, and the answer is that of
    the fault. *)
Theorem leader_proposes req r s tm m :
  server_inv s -> is_leader (state s) = true -> state_term (state s) = Some tm ->
  parse_CliReq (ByteBuf_bytes (msg req)) = Some r -> max_generated_txid s < u64_max ->
  let x := max_generated_txid s + 1 in
  requested r tm x = Some m ->
  exists l1 l2 ps,
    log_append (rep_log s) tm x m = Done l1 /\ log_ack_up_to l1 x (id s) = Done (l2, ps) /\
    log_get l2 x = Some m /\ (forall y, y <> x -> log_get l2 y = log_get (rep_log s) y) /\
    let st := store_after s l2 (bt_insert x (req, CliReq_get_req_id r) (srv_pending s)) ps in
    (all_writable (kv_answers st) -> Forall (fun kp => sendable (id s) l2 kp.2) (rep_peers s) ->
     exists s' answers appends, handle_cli req s = Done (tt, s') /\ rep_log s' = l2 /\
       db_contents (db s') = kv_store st /\ srv_pending s' = kv_waiting st /\
       rpc_tx s' = rpc_tx s ++ answers ++ appends /\
       Forall2 carries (kv_answers st) answers /\
       Forall2 (carries_append (id s) l2) (rep_peers s) appends).
Proof.
  intros Hi Hl Ht Hr Hx x Hm.
  destruct (propose_spec req r s tm m Hi Hl Ht Hr Hx Hm) as (l1 & l2 & ps & Ea & Ek & _ & Hg & Hgo & Hrun).
  exists l1, l2, ps. split_and!; try done. intros st Hans Hsend.
  destruct (learn_all_refines ps (proposed s req (CliReq_get_req_id r) x l2) Hans)
    as (d & out2 & El & Hd & Hc).
  destruct (Hrun _ El Hsend) as (out & Ho & E).
  eexists _, out2, out. split; [exact E|]. cbn in *. split_and!; try done. by rewrite app_assoc.
Qed.

(** The run of [handle_append] on an append that is accepted. *)
Lemma handle_append_run env pid a s ms q :
  server_inv s -> is_following (state s) pid = true -> links s a ->
  accept_batch (log_pos (rep_log s)) (Append_get_batch a) = Some (ms, q) ->
  exists l l' ps,
    append_batch (Append_get_batch a) (log_pos (rep_log s)).1 (log_pos (rep_log s)).2 s = Done (q, set_rep_log s l) /\
    log_inv l /\ log_pos l = q /\ log_last_learned_txid l = log_last_learned_txid (rep_log s) /\
    (forall m, m ∈ ms -> log_get l (pos_of m).2 = Some m) /\
    (forall x, x ∉ map (fun m => (pos_of m).2) ms -> log_get l x = log_get (rep_log s) x) /\
    log_commit_up_to l (Append_get_last_learned_txid a) = Done (l', ps) /\ log_pos l' = q /\
    let st := store_after s l' (srv_pending s) ps in
    (all_writable (kv_answers st) -> writable_peer (append_answer s true q) ->
     exists s' answers b, handle_append env pid a s = Done (tt, s') /\ rep_log s' = l' /\
       max_generated_txid s' = q.2 /\ state s' = state s /\
       db_contents (db s') = kv_store st /\ srv_pending s' = kv_waiting st /\
       Forall2 carries (kv_answers st) answers /\
       write_PeerMsg (append_answer s true q) = Some b /\
       rpc_tx s' = rpc_tx s ++ answers ++ [mkEnvelope (address env) (tok env) (ByteBuf_from_slice b)]).
Proof.
  intros Hi Hf Hlk Hb. pose proof (append_batch_refines (Append_get_batch a) _ s (inv_log s Hi) eq_refl) as HB.
  rewrite Hb in HB. destruct HB as (l & E1 & Hl & Hq & Hlr & Hg & Ho). cbn in E1.
  destruct (log_commit_run (Append_get_last_learned_txid a)
    (set_max_generated_txid (set_rep_log s l) q.2) Hl) as (l2 & ps & E2 & _ & Hc & Hp).
  exists l, l2, ps. cbn in Hp. split_and!; try done; [congruence|]. intros st Hans Hwr.
  destruct (learn_all_refines ps (set_rep_log (set_max_generated_txid (set_rep_log s l) q.2) l2) Hans)
    as (d & out & E3 & Hd & Hcar).
  destruct Hwr as [b Hw].
  eexists _, out, b. split.
  { unfold handle_append. mrun. rewrite (following_not_leader s pid Hf), Hf, (proj2 (links_test s a) Hlk).
    unfold mbind, M_bind. rewrite E1. cbn. rewrite E2. cbn. rewrite E3. cbn.
    unfold peer_msg_buf, mbind, M_bind. unfold append_answer in Hw. cbn. rewrite Hw. reflexivity. }
  cbn in *. split_and!; try done. by rewrite app_assoc.
Qed.

(** C8: a follower that gets an append from its leader that links to the end of
    its log, with terms that do not decrease, appends exactly the new mutations of
    the batch, in order, and commits up to the leader's learned txid; if the answers
    it then owes can be written, it does not panic: the abstract store is advanced by
    what was committed and is still in the log, with the faults of the node's own store,
    its txid generator is set to the new position, and it finally answers that it accepted
    up to that position. *)
Theorem handle_append_accepts env pid a s ms q :
  server_inv s -> is_following (state s) pid = true -> links s a ->
  accept_batch (log_pos (rep_log s)) (Append_get_batch a) = Some (ms, q) ->
  exists l l' ps,
    (forall m, m ∈ ms -> log_get l (pos_of m).2 = Some m) /\
    (forall x, x ∉ map (fun m => (pos_of m).2) ms -> log_get l x = log_get (rep_log s) x) /\
    log_commit_up_to l (Append_get_last_learned_txid a) = Done (l', ps) /\ log_pos l' = q /\
    let st := store_after s l' (srv_pending s) ps in
    (all_writable (kv_answers st) -> writable_peer (append_answer s true q) ->
     exists s' answers b, handle_append env pid a s = Done (tt, s') /\ rep_log s' = l' /\
       max_generated_txid s' = q.2 /\ state s' = state s /\
       db_contents (db s') = kv_store st /\ srv_pending s' = kv_waiting st /\
       Forall2 carries (kv_answers st) answers /\
       write_PeerMsg (append_answer s true q) = Some b /\
       rpc_tx s' = rpc_tx s ++ answers ++ [mkEnvelope (address env) (tok env) (ByteBuf_from_slice b)]).
Proof.
  intros Hi Hf Hlk Hb. destruct (handle_append_run env pid a s ms q Hi Hf Hlk Hb) as (l & l' & ps & _ & _ & _ & _ & Hg & Ho & Hc & Hp & Hrun).
  by exists l, l', ps.
Qed.

(** The offsets of a peer after its answer to an append. *)
Definition answered_peer (rp : RepPeer) (ar : AppendRes) : RepPeer :=
  mkRepPeer (AppendRes_get_last_accepted_term ar) (AppendRes_get_last_accepted_txid ar)
    (if AppendRes_get_accepted ar then rp_max_sent_txid rp else AppendRes_get_last_accepted_txid ar)
    (rp_tok rp) (rp_id rp) (rp_addr rp).

Lemma handle_append_res_run env pid ar s rp l ps :
  is_leader (state s) = true -> bt_get (rep_peers s) pid = Some rp ->
  log_ack_up_to (rep_log s) (AppendRes_get_last_accepted_txid ar) pid = Done (l, ps) ->
  let st := store_after s l (srv_pending s) ps in
  all_writable (kv_answers st) ->
  exists s' answers, handle_append_res env pid ar s = Done (tt, s') /\ rep_log s' = l /\
    rep_peers s' = bt_insert pid (answered_peer rp ar) (rep_peers s) /\
    db_contents (db s') = kv_store st /\ srv_pending s' = kv_waiting st /\
    rpc_tx s' = rpc_tx s ++ answers /\ Forall2 carries (kv_answers st) answers /\ state s' = state s.
Proof.
  intros Hl Hg Ek st Hans.
  destruct (learn_all_refines ps (set_rep_log (set_rep_peers s
    (bt_insert pid (answered_peer rp ar) (rep_peers s))) l) Hans) as (d & out & E & Hd & Hcar).
  eexists _, out. split.
  { unfold handle_append_res. mrun. rewrite Hl, Hg. cbn [negb]. unfold log_ack_up_to_M, mbind, M_bind. cbn.
    rewrite Ek. cbn. rewrite <-E. unfold answered_peer. by destruct (AppendRes_get_accepted ar). }
  cbn in *. by split_and!.
Qed.

(** C7: on a leader, the answer of a known replication peer to an append makes
    the peer's offsets the ones it reports (and, if it refused, the next append
    starts from there) and records its ack; if the answers then owed can be written
    there is no panic, and what has reached the quorum is learned: the abstract store
    is advanced by these entries in order, with the faults of the node's own store, and
    the waiting clients are answered. *)
Theorem append_res_commits env pid ar s rp :
  server_inv s -> is_leader (state s) = true -> bt_get (rep_peers s) pid = Some rp ->
  exists l ps,
    log_ack_up_to (rep_log s) (AppendRes_get_last_accepted_txid ar) pid = Done (l, ps) /\
    log_advances (rep_log s) l ps /\
    let st := store_after s l (srv_pending s) ps in
    (all_writable (kv_answers st) ->
     exists s' answers, handle_append_res env pid ar s = Done (tt, s') /\ rep_log s' = l /\
       rep_peers s' = bt_insert pid (answered_peer rp ar) (rep_peers s) /\
       db_contents (db s') = kv_store st /\ srv_pending s' = kv_waiting st /\
       rpc_tx s' = rpc_tx s ++ answers /\ Forall2 carries (kv_answers st) answers /\ state s' = state s).
Proof.
  intros Hi Hl Hg. destruct (log_ack_ok (rep_log s) (AppendRes_get_last_accepted_txid ar) pid (inv_log s Hi))
    as (l & ps & Ek & _ & Hadv & _).
  exists l, ps. split_and!; [done..|]. by apply handle_append_res_run.
Qed.
End Commit.
