(* ===== verification/Commitment.v ===== *)
(** * What the in-memory log commits

    Two consequences of how [InMemoryLog] counts acks and files what it commits, for any
    node and message: a leader counts every response to an append as an ack of its first
    pending entry, and a follower that learns several entries at once keeps and applies
    only the last. *)

From stdpp Require Import base tactics option list numbers strings gmap sorting.
From Stdlib Require Import ZArith Lia.
From S2P Require Import Prelude BTreeMap Crates Messages Protobuf Serialization Clock State AckedLog Server ServerFacts.
From S2P Require Import Invariant KV Replication.

Section Commitment.
Context `{TC : TimeCrate} `{BC : BytesCrate} `{RDB : RocksDB} `{RL : !RocksDBLaws}.
Context `{PS : ProtobufStreams}.
Context {C : Type} `{CK : Clock C}.
Implicit Types s : Server (C := C) (L := InMemoryLog Mutation).

(** ** The leader *)

Lemma last_above (x y : Term * TXID) xs :
  StronglySorted (fun a b => a.2 < b.2) (x :: xs) -> last (x :: xs) = Some y -> x.2 <= y.2.
Proof.
  intros [_ Hx]%StronglySorted_inv Hy. destruct xs as [|z xs]; [by injection Hy as <-|].
  rewrite last_cons_cons in Hy. apply last_Some_elem_of in Hy. rewrite Forall_forall in Hx. specialize (Hx y Hy). lia.
Qed.

(** The first pending entry gets the ack, whatever is acked. *)
Lemma ack_first (l : InMemoryLog Mutation) tx pid k a m l' ps :
  log_wf l -> pending l = (k, a) :: m -> quorum l <= Z.of_nat (length (acks (add_ack pid a))) ->
  ack_up_to l tx pid = Done (l', ps) ->
  exists ps', ps = (term (inner a), k) :: ps' /\ k <= last_learned_txid l' /\ get l' k = Some (entry (inner a)).
Proof.
  intros Hw Hp Hq E. destruct (ack_up_to_spec l tx pid Hw) as (l1 & ps1 & popped & E1 & [Hpop Hout Hw1 _ _ Hlast Hsort] & _ & Hhead & Hget).
  rewrite E in E1. injection E1 as <- <-. destruct Hw as [Hlk _]. rewrite Hp in Hlk. inversion Hlk as [|? ? ? ? ? ? ? ? Hk]; subst.
  cbn [pending with_pending] in Hpop. rewrite Hp in Hpop. cbn [append_ack] in Hpop. rewrite Z.leb_refl in Hpop.
  destruct popped as [|b popped].
  { specialize (Hhead _ _ (eq_sym Hpop)). cbn in Hhead. lia. }
  injection Hpop as <- Hpop. exists (map entry_pos popped). cbn [map] in *.
  assert (forall x, entry_pos (x, add_ack pid a) = entry_pos (x, a)) as He
    by (intros x; unfold entry_pos, add_ack; cbn; by case_bool_decide). rewrite He in *.
  split_and!; [done| |].
  - apply StronglySorted_inv in Hsort as [Hsort _]. rewrite last_cons_cons in Hlast. exact (last_above _ _ _ Hsort Hlast).
  - rewrite Hget. unfold get. rewrite Hp. cbn. by rewrite Z.compare_refl.
Qed.


(** ** The follower *)

Lemma append_batch_committed batch mt mx s r s' :
  append_batch batch mt mx s = Done (r, s') -> committed (rep_log s') = committed (rep_log s).
Proof.
  revert mt mx s. induction batch as [|b batch IH]; intros mt mx s H; cbn [append_batch] in H; [by injection H as _ <-|].
  cbn in H. minv; [by apply IH in H|]. apply IH in H. rewrite H.
  match goal with Ha : log_append_M _ _ _ _ = _ |- _ =>
    unfold log_append_M, mbind, M_bind in Ha; cbn in Ha; unfold append, assert_true in Ha; destruct (_ <? _) in Ha; [|done];
    by injection Ha as <- end.
Qed.

Lemma linked_last p m b (q : Term * TXID) : linked (T := Mutation) p (m ++ [b]) q -> entry_pos b = q /\ b.1 = q.2.
Proof.
  revert p. induction m as [|c m IH]; intros p H; inversion H as [|? ? ? ? ? ? ? ? Hk ? ? Hl]; subst; [|by eapply IH].
  by inversion Hl; subst.
Qed.

(** Positions that the log does not have are skipped. *)
Lemma learn_skips (log : TXID -> option Mutation) learned d st ps0 ps1 :
  Forall (fun p : Term * TXID => log p.2 = None) ps0 ->
  kv_learn_all log learned st (learn_faults log d (ps0 ++ ps1)) = kv_learn_all log learned st (learn_faults log d ps1).
Proof.
  induction 1 as [|p ps0 Hp _ IH]; [done|]. cbn [app learn_faults]. rewrite Hp. unfold kv_learn_all in *. cbn. by rewrite Hp.
Qed.

Lemma sorted_between p ps (q x : Term * TXID) :
  StronglySorted pos_lt (p :: ps) -> last (p :: ps) = Some q -> x ∈ ps -> x.2 <> q.2 -> p.2 < x.2 < q.2.
Proof.
  intros Hs Hl [ps1 [ps2 ->]]%list_elem_of_split Hne. rewrite app_comm_cons in Hs, Hl.
  apply StronglySorted_app in Hs as (Hs1 & _ & Hs2).
  destruct (Hs1 p x ltac:(by left) ltac:(by left)) as [_ ?]. split; [done|].
  rewrite last_app in Hl. destruct ps2 as [|y ps2]; [by injection Hl as <-|].
  apply StronglySorted_inv in Hs2 as [_ Hs2]. rewrite last_cons_cons in Hl.
  destruct (last (y :: ps2)) as [z|] eqn:Ez; [|by apply last_None in Ez]. injection Hl as <-.
  apply last_Some_elem_of in Ez. rewrite Forall_forall in Hs2. by destruct (Hs2 z Ez).
Qed.

(** Committing all that is pending: of what was not committed before, the log keeps the
    last entry only. *)
Lemma commit_keeps_last (l : InMemoryLog Mutation) l' ps :
  log_wf l -> last_learned_txid l < last_accepted_txid l ->
  (forall x, last_learned_txid l < x -> bt_get (committed l) x = None) ->
  commit_up_to l (last_accepted_txid l) = Done (l', ps) ->
  is_Some (get l' (last_accepted_txid l)) /\ get l' (last_accepted_txid l) = get l (last_accepted_txid l) /\ learned_pos l' = accepted_pos l /\
  (forall x, last_learned_txid l < x < last_accepted_txid l -> get l' x = None) /\
  exists ps0, ps = ps0 ++ [accepted_pos l] /\ Forall (fun p => get l' p.2 = None) ps0.
Proof.
  intros Hw Hlt Hcom E.
  destruct (commit_up_to_spec l (last_accepted_txid l) Hw) as (l1 & ps1 & popped & E1 & [Hpop Hout Hw1 Hacc _ Hlast Hsort] & _ & Hhead & Hc1 & Hc2).
  rewrite E in E1. injection E1 as <- <-. pose proof Hw as [Hlk _]. destruct (linked_range _ _ _ Hlk) as [_ Hall].
  assert (pending l' = []) as Hn.
  { destruct (pending l') as [|b m'] eqn:Eb; [done|]. specialize (Hhead b m' eq_refl). rewrite Hpop in Hall.
    apply Forall_app in Hall as [_ Hb%Forall_inv]. cbn in Hb. lia. }
  rewrite Hn, app_nil_r in Hpop. rewrite Hpop in *.
  destruct popped as [|b popped _] using rev_ind; [unfold learned_pos, accepted_pos in Hlk; inversion Hlk; lia|].
  destruct (linked_last _ _ _ _ Hlk) as [Hb Hk]. rewrite last_snoc in Hc1.
  assert (forall x, last_learned_txid l < x -> x <> last_accepted_txid l -> get l' x = None) as Hnone.
  { intros x Hx Hne. unfold get. rewrite Hn. cbn. by rewrite Hc2, Hcom. }
  assert (Forall (fun p => p.2 <> last_accepted_txid l /\ last_learned_txid l < p.2) (map entry_pos popped)) as Hps.
  { rewrite Hout, map_app in Hsort. cbn [map] in Hsort. rewrite Hb, app_comm_cons in Hsort.
    apply StronglySorted_app in Hsort as (Hs1 & Hs2 & _). cbn in Hk. apply StronglySorted_inv in Hs2 as [_ Hs2].
    apply Forall_and. split; [|exact Hs2]. apply Forall_forall. intros p Hp Heq.
    specialize (Hs1 p (accepted_pos l) ltac:(by right) ltac:(by left)). cbn in Hs1. lia. }
  split_and!.
  - unfold get. rewrite Hn, Hc1. by eexists.
  - unfold get. rewrite Hn, Hc1, Hpop. cbn [bt_get fmap option_fmap option_map].
    assert ((last_accepted_txid l, b.2) ∈ popped ++ [b]) as Hin by (destruct b as [kb ab]; cbn in Hk; rewrite <-Hk; set_solver).
    by apply (bt_get_elem _ _ _ (linked_wf _ _ _ Hlk)) in Hin as ->.
  - rewrite Hout, map_app in Hlast. cbn [map] in Hlast. rewrite app_comm_cons, last_snoc, Hb in Hlast. congruence.
  - intros x Hx. apply Hnone; lia.
  - exists (map entry_pos popped). rewrite Hout, map_app, <-Hb. split; [done|].
    eapply Forall_impl; [exact Hps|]. intros p [? ?]. by apply Hnone.
Qed.

(** C33: a follower that learns several entries at once keeps and applies only the last.
    When an append of the leader is accepted and the leader has learned up to its end [q],
    the follower's learned txid moves to [q] as well, and the last entry is in the log
    there; but [commit_up_to] files all the entries that are new to it under that one
    txid: every other one, those the append has just brought included, is in the log no
    more (where the committed entries were those up to the learned txid), and the store is
    changed by the last entry only. *)
Theorem follower_loses_entry env pid a s ms q :
  server_inv s -> is_following (state s) pid = true -> links s a ->
  accept_batch (log_pos (rep_log s)) (Append_get_batch a) = Some (ms, q) ->
  Append_get_last_learned_txid a = q.2 -> last_learned_txid (rep_log s) < q.2 ->
  (forall x, last_learned_txid (rep_log s) < x -> bt_get (committed (rep_log s)) x = None) ->
  exists l' m, log_get l' q.2 = Some m /\
    match last ms with Some m' => m = m' | None => log_get (rep_log s) q.2 = Some m end /\
    last_learned_txid l' = q.2 /\
    (forall x, last_learned_txid (rep_log s) < x < q.2 -> log_get l' x = None) /\
    (forall m', m' ∈ ms -> (pos_of m').2 <> q.2 -> log_get l' (pos_of m').2 = None) /\
    (all_writable (kv_answers (store_after s l' (srv_pending s) [q])) -> writable_peer (append_answer s true q) ->
     exists s', handle_append env pid a s = Done (tt, s') /\ rep_log s' = l' /\
       db_contents (db s') = kv_apply (faults_of (db s) m) m (db_contents (db s))).
Proof.
  intros Hi Hf Hlk Hb Hlt Hnew Hcom.
  destruct (handle_append_run env pid a s ms q Hi Hf Hlk Hb) as (l & l' & ps & E1 & Hl & Hq & Hlr & Hg & Ho & Hc & _ & Hrun).
  pose proof (append_batch_committed _ _ _ _ _ _ E1) as Hco. cbn in Hco, Hlr, Hc. rewrite Hlt in Hc.
  assert (last_accepted_txid l = q.2) as Hla by (by rewrite <-Hq). rewrite <-Hla in Hc.
  destruct (commit_keeps_last l l' ps Hl) as ([m Hm] & Hsame & Hln & Hlost & ps0 & -> & Hps0); [lia|by rewrite Hco, Hlr|done|].
  rewrite Hla, Hlr in *. exists l', m. split_and!; [done| |by apply (f_equal snd) in Hln; cbn in Hln; rewrite Hln, Hla|done| |].
  - destruct (accept_batch_sound _ _ _ _ Hb) as (_ & _ & Hlast). destruct ms as [|m1 ms _] using rev_ind.
    { cbn [last]. rewrite <-(Ho q.2) by (by apply not_elem_of_nil). cbn. congruence. }
    rewrite last_snoc. rewrite map_app in Hlast. cbn [map] in Hlast. rewrite app_comm_cons, last_snoc in Hlast. injection Hlast as <-.
    specialize (Hg m1 ltac:(set_solver)). cbn in *. congruence.
  - intros m' Hm' Hne. apply Hlost. destruct (accept_batch_sound _ _ _ _ Hb) as (_ & Hs & Hlast).
    destruct (sorted_between _ _ _ (pos_of m') Hs Hlast) as [Hm1 Hm2]; [by apply list_elem_of_fmap_2|done|].
    pose proof (log_inv_learned _ (inv_log s Hi)) as Hb'. unfold log_pos in Hm1. cbn in Hm1, Hm2, Hb' |- *. lia.
  - change (accepted_pos l) with (log_pos l) in Hrun. rewrite Hq in Hrun. unfold store_after in *. cbn [log_get InMemoryLog_AckedLog] in *.
    rewrite (learn_skips _ _ _ _ _ _ Hps0) in Hrun. intros Hans Hwr.
    destruct (Hrun Hans Hwr) as (s' & _ & _ & E & Hlog & _ & _ & Hdb & _). exists s'. split_and!; [done..|].
    rewrite Hdb. unfold kv_learn_all. cbn -[faults_of]. rewrite Hm. cbn -[faults_of]. by rewrite Hm.
Qed.
End Commitment.
