(* ===== verification/ClientApi.v ===== *)
(** * What clients get

    The answers of [handle_cli] on every branch, and the end-to-end refinement
    for a cluster of one node: a sequence of client requests is answered, request by
    request, as the abstract key-value store answers it. *)

From stdpp Require Import base tactics option list numbers strings gmap.
From Stdlib Require Import ZArith Lia.
From S2P Require Import Prelude BTreeMap Crates Messages Protobuf Serialization Clock State AckedLog Server ServerFacts Invariant KV Replication.

Section Answers.
Context `{TC : TimeCrate} `{BC : BytesCrate} `{RDB : RocksDB} `{RL : !RocksDBLaws}.
Context `{PS : ProtobufStreams}.
Context {C : Type} `{CK : Clock C} {L : Type} `{AL : !AckedLog L Mutation}.
Implicit Types s : Server (C := C) (L := L).

(** [s] with one more envelope in its outbox, the answer [res] to [req]. *)
Definition answered s (req : Envelope) (res : CliRes) (s' : Server) : Prop :=
  exists e, carries (req, res) e /\ s' = set_rpc_tx s (rpc_tx s ++ [e]).

Lemma answer_run req res s :
  writable_cli res ->
  exists s', answered s req res s' /\ (buf ← cli_res_buf res; reply req buf) s = Done (tt, s').
Proof.
  intros Hw. destruct (cli_res_buf_run res s Hw) as (b & Hb & E).
  eexists. split; [eexists; split; [by exists b|done]|]. by rewrite (M_bind_run _ _ _ _ _ E).
Qed.

Definition answer_to (r : CliReq) : CliRes := CliRes_set_req_id CliRes_new (CliReq_get_req_id r).

(** Where a node that does not lead sends a client: to the leader it follows, if
    any. *)
Definition redirection (st : State) : RedirectRes :=
  match st with
  | Follower _ _ _ leader_addr _ =>
      RedirectRes_set_address (RedirectRes_set_success RedirectRes_new true) (SocketAddr_debug leader_addr)
  | _ => RedirectRes_set_err (RedirectRes_set_success RedirectRes_new false) "No leader has been elected yet"
  end.

(** C27: a node that does not lead answers every client request, whatever it
    asks, with one redirection: to the address of the leader it follows, or an
    error when it follows nobody; nothing else changes. *)
Theorem client_redirected req r s :
  is_leader (state s) = false -> parse_CliReq (ByteBuf_bytes (msg req)) = Some r ->
  let res := CliRes_set_redirect (answer_to r) (redirection (state s)) in
  writable_cli res ->
  exists s', handle_cli req s = Done (tt, s') /\ answered s req res s'.
Proof.
  intros Hl Hp res Hw. destruct (answer_run req res s Hw) as (s' & Ha & E).
  exists s'. split; [|done]. rewrite <-E. unfold handle_cli. rewrite Hp. mrun. rewrite Hl. cbn [negb].
  unfold redirect, redirection in *. by destruct (state s).
Qed.

(** The value of a key in the store's words. *)
Definition get_response (r : GetReq) (d : DB) (learned : TXID) : GetRes :=
  GetRes_set_txid
    (match db_get d (GetReq_get_key r) with
     | DBSome v => GetRes_set_value (GetRes_set_success GetRes_new true) v
     | DBNone => GetRes_set_err (GetRes_set_success GetRes_new false) "Key not found"
     | DBError _ => GetRes_set_err (GetRes_set_success GetRes_new false) operational_problem
     end) learned.

Lemma handle_get_run req r s :
  is_leader (state s) = true -> parse_CliReq (ByteBuf_bytes (msg req)) = Some r ->
  CliReq_has_get r = true ->
  let res := CliRes_set_get (answer_to r)
    (get_response (CliReq_get_get r) (db s) (log_last_learned_txid (rep_log s))) in
  writable_cli res ->
  exists s', handle_cli req s = Done (tt, s') /\ answered s req res s'.
Proof.
  intros Hl Hp Hg res Hw. destruct (answer_run req res s Hw) as (s' & Ha & E).
  exists s'. split; [|exact Ha]. rewrite <-E.
  unfold handle_cli. rewrite Hp. mrun. rewrite Hl, Hg. cbn [negb]. reflexivity.
Qed.

(** C26: a node in the leader state answers a get from its own store, with the
    learned txid, and changes nothing else: it does not look at the clock, so it
    answers in the same way after its lease has expired. *)
Theorem leader_get req r s :
  is_leader (state s) = true -> parse_CliReq (ByteBuf_bytes (msg req)) = Some r ->
  CliReq_has_get r = true ->
  let res := get_response (CliReq_get_get r) (db s) (log_last_learned_txid (rep_log s)) in
  let key := GetReq_get_key (CliReq_get_get r) in
  writable_cli (CliRes_set_get (answer_to r) res) ->
  (exists s', handle_cli req s = Done (tt, s') /\
     answered s req (CliRes_set_get (answer_to r) res) s') /\
  GetRes_get_txid res = log_last_learned_txid (rep_log s) /\
  (GetRes_get_success res = true -> db_contents (db s) !! key = Some (GetRes_get_value res)) /\
  (forall v, db_get (db s) key = DBSome v -> GetRes_get_success res = true) /\
  (GetRes_get_err res = "Key not found" -> db_contents (db s) !! key = None).
Proof.
  intros Hl Hp Hg res key Hw. split; [by apply handle_get_run|]. subst res key. unfold get_response.
  destruct (db_get (db s) _) as [v| |e] eqn:Eg; split_and!; try done.
  - intros _. cbn. by apply db_get_some.
  - intros _. by apply db_get_none.
Qed.

(** A request that does not parse panics the thread that handles it, in any
    state of the server; the mutex is then poisoned and the next event ends the
    process, so one malformed message from a client stops the node. *)
Theorem unparsable_request_panics req s :
  parse_CliReq (ByteBuf_bytes (msg req)) = None -> is_panic (handle_event (CliRequest req) s).
Proof. intros Hp. cbn. unfold handle_cli. rewrite Hp. by eexists. Qed.
End Answers.

(** ** A cluster of one node *)

Section Solo.
Context `{TC : TimeCrate} `{BC : BytesCrate} `{RDB : RocksDB} `{RL : !RocksDBLaws}.
Context `{PS : ProtobufStreams}.
Context {C : Type} `{CK : Clock C}.
Implicit Types s : Server (C := C) (L := InMemoryLog Mutation).

(** A leader alone in its cluster, between two requests. *)
Record solo (tm : Term) s : Prop := {
  solo_inv : server_inv s;
  solo_leader : is_leader (state s) = true;
  solo_term : state_term (state s) = Some tm;
  solo_quorum : quorum (rep_log s) <= 1;
  solo_learned : pending (rep_log s) = [];
  solo_peers : rep_peers s = [];
  solo_waiting : srv_pending s = [];
}.

(** The abstract server: a store, the last txid, and the answer to a request, given the
    errors its store reports for it. *)
Definition get_answer (f : Faults) (k : list Z) (kv : KV) (tx : TXID) : GetRes :=
  GetRes_set_txid (match read_fault f, kv !! k with
    | Some _, _ => GetRes_set_err (GetRes_set_success GetRes_new false) operational_problem
    | None, Some v => GetRes_set_value (GetRes_set_success GetRes_new true) v
    | None, None => GetRes_set_err (GetRes_set_success GetRes_new false) "Key not found"
    end) tx.

Definition spec_step (tm : Term) (rf : CliReq * Faults) (st : KV * TXID) : (KV * TXID) * CliRes :=
  let '(r, f) := rf in
  let '(kv, tx) := st in
  let reply res := CliRes_set_req_id res (CliReq_get_req_id r) in
  if CliReq_has_get r then
    (st, reply (CliRes_set_get CliRes_new (get_answer f (GetReq_get_key (CliReq_get_get r)) kv tx)))
  else match requested r tm (tx + 1) with
       | Some m => ((kv_apply f m kv, tx + 1), reply (kv_response f (tx + 1) m kv))
       | None => (st, reply CliRes_new)
       end.

Fixpoint spec_run (tm : Term) (rs : list (CliReq * Faults)) (st : KV * TXID) : (KV * TXID) * list CliRes :=
  match rs with
  | [] => (st, [])
  | r :: rs =>
      let '(st, res) := spec_step tm r st in
      let '(st, ress) := spec_run tm rs st in (st, res :: ress)
  end.

(** The errors a store reports for a request that is given the txid [tx], and the store
    and the last txid after it. *)
Definition request_faults (tm : Term) (r : CliReq) (d : DB) (tx : TXID) : Faults * DB * TXID :=
  if CliReq_has_get r then (mkFaults (read_fault_of d (GetReq_get_key (CliReq_get_get r))) None, d, tx)
  else match requested r tm (tx + 1) with
       | Some m => (faults_of d m, store_next d m, tx + 1)
       | None => (no_faults, d, tx)
       end.

(** Requests with the errors the store reports for them in turn. *)
Fixpoint with_faults (tm : Term) (rs : list CliReq) (d : DB) (tx : TXID) : list (CliReq * Faults) :=
  match rs with
  | [] => []
  | r :: rs => let '(f, d, tx) := request_faults tm r d tx in (r, f) :: with_faults tm rs d tx
  end.

Definition spec_of s : KV * TXID := (db_contents (db s), max_generated_txid s).

Lemma add_ack_new pid (e : LogEntry Mutation) : add_ack pid (mkAcked [] e) = mkAcked [pid] e.
Proof. unfold add_ack. cbn. by rewrite bool_decide_eq_false_2 by apply not_elem_of_nil. Qed.

(** On its own log, a lone leader's entry is learned as soon as it is appended. *)
Lemma solo_log (l : InMemoryLog Mutation) tm x m pid l1 l2 ps :
  log_wf l -> pending l = [] -> quorum l <= 1 ->
  append l tm x m = Done l1 -> ack_up_to l1 x pid = Done (l2, ps) ->
  ps = [(tm, x)] /\ pending l2 = [] /\ quorum l2 = quorum l /\ last_learned_txid l2 = x /\
  last_accepted_txid l2 = x /\ log_wf l2.
Proof.
  intros Hw Hp Hq Ha Hk. pose proof Ha as Ha'. unfold append, assert_true in Ha.
  destruct (last_accepted_txid l <? x) eqn:Hlt; [|done]. cbn in Ha. rewrite Hp in Ha. injection Ha as <-.
  apply Z.ltb_lt in Hlt. destruct (log_wf_append l tm x m Hw Hlt) as (l1' & Ha2 & Hw1 & _).
  rewrite Ha' in Ha2. injection Ha2 as <-.
  destruct (ack_up_to_spec _ x pid Hw1) as (l2' & ps' & popped & Hk2 & [_ _ Hw2 _ _ _ _] & _).
  rewrite Hk in Hk2. injection Hk2 as <- <-.
  unfold ack_up_to in Hk. cbn in Hk. rewrite Z.leb_refl in Hk. cbn in Hk. rewrite Z.compare_refl in Hk. cbn in Hk.
  rewrite !add_ack_new in Hk. cbn in Hk.
  destruct (Z.ltb_spec (Z.of_nat 1) (quorum l)); [lia|]. injection Hk as <- <-.
  cbn in *. rewrite Z.compare_refl in *. by split_and!.
Qed.

Lemma solo_propose tm req r s m :
  solo tm s -> parse_CliReq (ByteBuf_bytes (msg req)) = Some r -> max_generated_txid s < u64_max ->
  requested r tm (max_generated_txid s + 1) = Some m ->
  let res := CliRes_set_req_id (kv_response (faults_of (db s) m) (max_generated_txid s + 1) m (db_contents (db s)))
    (CliReq_get_req_id r) in
  writable_cli res ->
  exists s' e, handle_cli req s = Done (tt, s') /\ solo tm s' /\
    max_generated_txid s' = max_generated_txid s + 1 /\ db s' = store_next (db s) m /\ rpc_tx s' = rpc_tx s ++ [e] /\
    carries (req, res) e.
Proof.
  intros [Hi Hl Ht Hq Hp Hrp Hwt] Hr Hx Hm res Hwr.
  destruct (propose_spec req r s tm m) as (l1 & l2 & ps & Ea & Ek & _ & Hg & _ & Hrun); try done.
  destruct (solo_log _ _ _ _ _ _ _ _ (inv_log s Hi) Hp Hq Ea Ek) as (-> & Hp2 & Hq2 & Hlr & Hla & Hw2).
  pose proof (learn_refines tm (max_generated_txid s + 1)
    (proposed s req (CliReq_get_req_id r) (max_generated_txid s + 1) l2)) as Hlearn.
  unfold kv_learn_all, learn_faults, kv_state in Hlearn. cbn -[faults_of] in Hlearn, Hg.
  rewrite Hg, Hlr, Hwt in Hlearn. cbn -[faults_of] in Hlearn. rewrite Hg, Z.compare_refl in Hlearn. cbn -[faults_of] in Hlearn.
  destruct Hlearn as (out2 & El & _ & Hans); [by apply Forall_singleton|].
  edestruct Hrun as (out & Ho & E); [unfold learn_all; cbn [for_each]; by rewrite (M_bind_run _ _ _ _ _ El)|by rewrite Hrp|].
  rewrite Hrp in Ho, E. apply Forall2_nil_inv_l in Ho as ->.
  apply Forall2_cons_inv_l in Hans as (e & out' & He & Hnil & ->). apply Forall2_nil_inv_l in Hnil as ->.
  eexists _, e. split; [exact E|]. cbn. rewrite app_nil_r. split_and!; try done.
  assert (server_inv s) as [] by done. split; cbn; try done; [|lia].
  split; cbn; try done; auto using bt_wf_nil.
Qed.

Lemma solo_send tm s tx : solo tm s -> solo tm (set_rpc_tx s tx).
Proof. intros [[] ? ? ? ? ? ?]. by split. Qed.

(** The answer to a get, in the store's words and in the abstract server's. *)
Lemma solo_get_answer tm r s :
  solo tm s ->
  let key := GetReq_get_key (CliReq_get_get r) in
  get_answer (mkFaults (read_fault_of (db s) key) None) key (db_contents (db s)) (max_generated_txid s) =
  get_response (CliReq_get_get r) (db s) (log_last_learned_txid (rep_log s)).
Proof.
  intros [[(Hlk & _) _ _ _ _ Htx _] _ _ _ Hp _ _] key. rewrite Hp in Hlk.
  inversion Hlk as [? Heq|]; subst. unfold get_response, get_answer. rewrite db_get_lookup. fold key. cbn in Htx |- *.
  unfold learned_pos, accepted_pos in *. rewrite Htx.
  replace (last_accepted_txid (rep_log s)) with (last_learned_txid (rep_log s)) by congruence.
  by destruct (read_fault_of (db s) key), (db_contents (db s) !! key).
Qed.

(** Every request is answered as the abstract server answers it. *)
Lemma solo_step tm req r s :
  solo tm s -> parse_CliReq (ByteBuf_bytes (msg req)) = Some r -> max_generated_txid s < u64_max ->
  let '(f, d, tx) := request_faults tm r (db s) (max_generated_txid s) in
  writable_cli (spec_step tm (r, f) (spec_of s)).2 ->
  exists s' e, handle_cli req s = Done (tt, s') /\ solo tm s' /\
    max_generated_txid s' <= max_generated_txid s + 1 /\ db s' = d /\ max_generated_txid s' = tx /\
    spec_of s' = (spec_step tm (r, f) (spec_of s)).1 /\ rpc_tx s' = rpc_tx s ++ [e] /\
    carries (req, (spec_step tm (r, f) (spec_of s)).2) e.
Proof.
  intros Hs Hr Hx. pose proof Hs as [Hi Hl Ht Hq Hp Hrp Hwt]. unfold request_faults, spec_step, spec_of.
  destruct (CliReq_has_get r) eqn:Hget.
  - rewrite (solo_get_answer tm r s Hs). intros Hw.
    destruct (handle_get_run req r s) as (s' & E & e & He & ->); [done..|exact Hw|].
    exists (set_rpc_tx s (rpc_tx s ++ [e])), e. split; [exact E|].
    split_and!; try done; [by apply solo_send|cbn; lia].
  - destruct (requested r tm (max_generated_txid s + 1)) as [m|] eqn:Hm; intros Hw.
    + destruct (solo_propose tm req r s m Hs Hr Hx Hm Hw) as (s' & e & E & Hs' & Ex & Ed & Eo & Hc).
      exists s', e. split_and!; try done; [lia|]. rewrite Ed, Ex. cbn [fst]. by rewrite store_next_contents.
    + destruct (answer_run req _ s Hw) as (s' & (e & Hc & ->) & E).
      exists (set_rpc_tx s (rpc_tx s ++ [e])), e. split.
      { unfold handle_cli, requested in *. rewrite Hr. mrun. rewrite Hl, Hget in *. cbn [negb].
        by destruct (CliReq_has_set r), (CliReq_has_cas r), (CliReq_has_del r). }
      split_and!; try done; [by apply solo_send|cbn; lia].
Qed.

End Solo.

(** ** Compare-and-set *)

Section Cas.
Context `{TC : TimeCrate} `{BC : BytesCrate} `{RDB : RocksDB} `{RL : !RocksDBLaws}.
Context `{PS : ProtobufStreams}.
Context {C : Type} `{CK : Clock C} {L : Type} `{AL : !AckedLog L Mutation} `{ALL : !AckedLogLaws L Mutation}.
Implicit Types s : Server (C := C) (L := L).

(** The answer to a compare-and-set that fails. *)
Definition cas_refused (err : string) (learned : TXID) : CliRes :=
  CliRes_set_cas CliRes_new (CASRes_set_txid (CASRes_set_err (CASRes_set_success CASRes_new false) err) learned).

(** A compare-and-set of [k], learned at [tx], fails: the store is left as it is, and a
    client that waits for it is told so, and why. *)
Definition cas_fails (k : list Z) (tm : Term) (tx : TXID) s : Prop :=
  exists err, (err = "compare failure" \/ exists e, db_get (db s) k = DBError e /\ err = problem e) /\
    match bt_get (srv_pending s) tx with
    | None => learn tm tx s = Done (tt, set_pending s (bt_remove tx (srv_pending s)))
    | Some (env, rid) =>
        let res := CliRes_set_req_id (cas_refused err (log_last_learned_txid (rep_log s))) rid in
        writable_cli res -> exists e, carries (env, res) e /\
          learn tm tx s = Done (tt, set_pending (set_rpc_tx s (rpc_tx s ++ [e])) (bt_remove tx (srv_pending s)))
    end.

Lemma cas_absent_fails tm tx m s :
  log_get (rep_log s) tx = Some m -> Mutation_get_field_type m = KVCAS -> Mutation_has_old_value m = true ->
  db_contents (db s) !! Mutation_get_key m = None -> cas_fails (Mutation_get_key m) tm tx s.
Proof.
  intros Hm Ht Ho Hk. set (err := match db_get (db s) (Mutation_get_key m) with DBError e => problem e | _ => "compare failure" end).
  exists err. split; [subst err; destruct (db_get (db s) _); eauto|].
  assert (learn_cas m s = Done (cas_refused err (log_last_learned_txid (rep_log s)), s)) as Hc.
  { pose proof (learn_apply_refines m s) as Ha. rewrite Ht in Ha. rewrite Ha.
    unfold kv_response, cas_response, store_next, tries_write, cas_ok. rewrite Ht, Hk, Ho, andb_false_r. cbn [negb].
    subst err. cbn [read_fault write_fault faults_of]. unfold read_fault_of, cas_refused.
    destruct (db_get (db s) _), (write_of (db s) m) as [[]]; by destruct s. }
  destruct (bt_get (srv_pending s) tx) as [[env rid]|] eqn:Hp.
  2: { unfold learn. mrun. rewrite Hm, Ht, (M_bind_run _ _ _ _ _ Hc). mrun. by rewrite Hp. }
  intros res Hw. unfold learn. mrun. rewrite Hm, Ht, (M_bind_run _ _ _ _ _ Hc). mrun. rewrite Hp.
  destruct (cli_res_buf_run res (set_pending s (bt_remove tx (srv_pending s))) Hw) as (b & Hb & E).
  exists (mkEnvelope (address env) (tok env) (ByteBuf_from_slice b)). split; [by exists b|].
  unfold mbind at 1, M_bind at 1. unfold res in E. by rewrite E.
Qed.

(** C30: compare-and-set cannot create a key.  On any leader, a compare-and-set request
    is proposed as a mutation with an old value, also when the request carries none; and
    on any node, at any time, learning such a mutation while its key is absent leaves the
    store as it is, and a client that waits for it is told that it failed: that the
    compare failed, or the error of the store's read. *)
Theorem cas_cannot_create req r s tm :
  is_leader (state s) = true -> state_term (state s) = Some tm -> 0 <= max_generated_txid s < u64_max ->
  parse_CliReq (ByteBuf_bytes (msg req)) = Some r ->
  CliReq_has_get r = false -> CliReq_has_set r = false -> CliReq_has_cas r = true ->
  let x := max_generated_txid s + 1 in
  let key := CASReq_get_key (CliReq_get_cas r) in
  exists m, Mutation_get_key m = key /\
    handle_cli req s = propose req (CliReq_get_req_id r) x m (set_max_generated_txid s x) /\
    forall s1 tm1 tx, log_get (rep_log s1) tx = Some m -> db_contents (db s1) !! key = None -> cas_fails key tm1 tx s1.
Proof.
  intros Hl Ht Hx Hr Hg Hset Hc x key. eexists. split; [|split].
  2: { apply (handle_cli_proposes req r s tm); [done..|]. unfold requested. by rewrite Hg, Hset, Hc. }
  - done.
  - intros s1 tm1 tx Hm Hk. by apply (cas_absent_fails tm1 tx _ s1 Hm).
Qed.
End Cas.
