(* ===== verification/Node.v ===== *)
(** * A node

    [Server::run] (server/server.rs): the server, the event loop with its connections,
    and the channels between them, as one system.  Four threads take turns: the event
    loop, which gets what mio reports and takes the server's messages off its queue, and
    the three that take turns on the server under its mutex.  A thread that panics while
    it holds the mutex poisons it, and the next thread to lock it exits the process; a
    panic of the event loop drops its ends of the request channels, whose readers then
    end, which the main thread takes for the signal to shut down. *)

From stdpp Require Import base tactics option list numbers strings.
From Stdlib Require Import ZArith Lia.
From S2P Require Import Prelude BTreeMap Crates Messages Protobuf Serialization Codec Mio Clock State Connections.
From S2P Require Import AckedLog Server.

(** The threads that lock the server. *)
Inductive Worker : Type := PeerWorker | CliWorker | CronWorker.
#[export] Instance Worker_eq_dec : EqDecision Worker.
Proof. solve_decision. Defined.

Section Node.
Context `{TC : TimeCrate} `{BC : BytesCrate} {MC : MioCrate} `{RDB : RocksDB} `{PS : ProtobufStreams}.
Context {C : Type} `{CK : Clock C} {L : Type} `{AL : !AckedLog L Mutation}.

Record Node : Type := mkNode {
  nd_server : Server (C := C) (L := L);
  nd_cop : TrafficCop;
  nd_env : Env;
  nd_peer_rx : nat; (** how many requests the peer thread has handled *)
  nd_cli_rx : nat; (** how many requests the client thread has handled *)
  nd_rpc_rx : nat; (** how many messages of [rpc_tx] are off the event loop's queue *)
  nd_io_alive : bool;
  nd_poisoned : option Worker; (** the thread that panicked with the mutex *)
  nd_down : bool;
}.

(** A step of one of the threads; [NodeLose] is a message the event loop's queue had no
    room for, which the server does not notice. *)
Inductive NodeAction : Type :=
| NodeIo (ev : IoEvent)
| NodeNotify
| NodeLose
| NodeWorker (w : Worker).

Definition set_down (n : Node) : Node :=
  mkNode (nd_server n) (nd_cop n) (nd_env n) (nd_peer_rx n) (nd_cli_rx n) (nd_rpc_rx n) (nd_io_alive n)
    (nd_poisoned n) true.

(** The event loop calls its handler. *)
Definition io_step (ev : IoEvent) (n : Node) : Node :=
  match handle_io ev (nd_cop n) (nd_env n) with
  | Done (cop, env) => mkNode (nd_server n) cop env (nd_peer_rx n) (nd_cli_rx n) (nd_rpc_rx n) true (nd_poisoned n) (nd_down n)
  | Panic _ => mkNode (nd_server n) (nd_cop n) (nd_env n) (nd_peer_rx n) (nd_cli_rx n) (nd_rpc_rx n) false (nd_poisoned n) (nd_down n)
  end.

Definition next_rpc (n : Node) : Node :=
  mkNode (nd_server n) (nd_cop n) (nd_env n) (nd_peer_rx n) (nd_cli_rx n) (S (nd_rpc_rx n)) (nd_io_alive n)
    (nd_poisoned n) (nd_down n).

(** A thread locks the server and handles [ev]. *)
Definition lock_and (w : Worker) (ev : Event) (n : Node) : Node :=
  match nd_poisoned n with
  | Some _ => set_down n (* process::exit(1) *)
  | None =>
      match handle_event ev (nd_server n) with
      | Done (_, s) =>
          mkNode s (nd_cop n) (nd_env n)
            (if bool_decide (w = PeerWorker) then S (nd_peer_rx n) else nd_peer_rx n)
            (if bool_decide (w = CliWorker) then S (nd_cli_rx n) else nd_cli_rx n)
            (nd_rpc_rx n) (nd_io_alive n) None (nd_down n)
      | Panic _ => mkNode (nd_server n) (nd_cop n) (nd_env n) (nd_peer_rx n) (nd_cli_rx n) (nd_rpc_rx n) (nd_io_alive n)
                     (Some w) (nd_down n)
      end
  end.

(** The next request on a thread's channel: handled, waited for while the event loop
    lives, or else the end of the thread and of the process. *)
Definition take_request (w : Worker) (ev : Envelope -> Event) (next : option Envelope) (n : Node) : Node :=
  match next with
  | Some req => lock_and w (ev req) n
  | None => if nd_io_alive n then n else set_down n
  end.

Definition worker_step (w : Worker) (n : Node) : Node :=
  if bool_decide (nd_poisoned n = Some w) then n else
  match w with
  | PeerWorker => take_request PeerWorker PeerRequest (peer_reqs (nd_env n) !! nd_peer_rx n) n
  | CliWorker => take_request CliWorker CliRequest (cli_reqs (nd_env n) !! nd_cli_rx n) n
  | CronWorker => lock_and CronWorker CronTick n
  end.

Definition node_step (a : NodeAction) (n : Node) : Node :=
  if nd_down n then n else
  match a with
  | NodeIo ev => if nd_io_alive n then match ev with Notify _ => n | _ => io_step ev n end else n
  | NodeNotify =>
      if nd_io_alive n then
        match rpc_tx (nd_server n) !! nd_rpc_rx n with
        | Some e => io_step (Notify e) (next_rpc n)
        | None => n
        end
      else n
  | NodeLose =>
      match rpc_tx (nd_server n) !! nd_rpc_rx n with Some _ => next_rpc n | None => n end
  | NodeWorker w => worker_step w n
  end.

Definition node_run (acts : list NodeAction) (n : Node) : Node := foldl (fun n a => node_step a n) n acts.

(** The node as [run] starts it. *)
Definition node_init (s : Server) (cop : TrafficCop) (el : EventLoop) : Node :=
  mkNode s cop (mkEnv el [] []) 0 0 (length (rpc_tx s)) true None false.
End Node.
