(* ===== verification/NodeFacts.v ===== *)
(** * What a node promises

    The invariant of the whole node ([node_invariant]); that it does not live on after
    one of its threads has panicked ([panic_shuts_down]); and, for a node that leads a
    cluster of its own, that every client connection gets the answers of the abstract
    key-value store to its requests, byte for byte ([solo_node_serves]). *)

From stdpp Require Import base tactics option list numbers strings gmap.
From Stdlib Require Import ZArith Lia.
From S2P Require Import Prelude BTreeMap Crates Messages Protobuf Serialization Codec Mio Clock State Connections.
From S2P Require Import ConnectionFacts AckedLog Server ServerFacts Outbox Invariant KV Replication ClientApi Node.

Section Generic.
Context `{TC : TimeCrate} `{BL : BytesLaws} {MC : MioCrate} {ML : MioLaws} `{RDB : RocksDB} `{PS : ProtobufStreams}.
Context {C : Type} `{CK : Clock C} {L : Type} `{AL : !AckedLog L Mutation} `{ALL : !AckedLogLaws L Mutation}.
Implicit Types n : Node (C := C) (L := L).

(** ** Steps *)

Lemma node_run_snoc acts a n : node_run (acts ++ [a]) n = node_step a (node_run acts n).
Proof. unfold node_run. by rewrite foldl_app. Qed.

(** What a thread may do to the node: the server handles an event, or nothing changes
    but who is alive. *)
Definition same_parts n n' : Prop :=
  nd_server n' = nd_server n /\ nd_cop n' = nd_cop n /\ nd_env n' = nd_env n /\
  nd_peer_rx n' = nd_peer_rx n /\ nd_cli_rx n' = nd_cli_rx n.

Inductive part_step n n' : Prop :=
| part_none : same_parts n n' -> (nd_rpc_rx n' = nd_rpc_rx n \/
    nd_rpc_rx n' = S (nd_rpc_rx n) /\ is_Some (rpc_tx (nd_server n) !! nd_rpc_rx n)) -> part_step n n'
| part_io ev : handle_io ev (nd_cop n) (nd_env n) = Done (nd_cop n', nd_env n') ->
    nd_server n' = nd_server n -> nd_peer_rx n' = nd_peer_rx n -> nd_cli_rx n' = nd_cli_rx n ->
    (nd_rpc_rx n' = nd_rpc_rx n /\ (forall e, ev <> Notify e) \/
     exists e, ev = Notify e /\ nd_rpc_rx n' = S (nd_rpc_rx n) /\ rpc_tx (nd_server n) !! nd_rpc_rx n = Some e) ->
    part_step n n'
| part_worker w ev u : handle_event ev (nd_server n) = Done (u, nd_server n') ->
    nd_cop n' = nd_cop n -> nd_env n' = nd_env n -> nd_rpc_rx n' = nd_rpc_rx n ->
    match w with
    | PeerWorker => nd_peer_rx n' = S (nd_peer_rx n) /\ nd_cli_rx n' = nd_cli_rx n /\
        exists req, ev = PeerRequest req /\ peer_reqs (nd_env n) !! nd_peer_rx n = Some req
    | CliWorker => nd_peer_rx n' = nd_peer_rx n /\ nd_cli_rx n' = S (nd_cli_rx n) /\
        exists req, ev = CliRequest req /\ cli_reqs (nd_env n) !! nd_cli_rx n = Some req
    | CronWorker => nd_peer_rx n' = nd_peer_rx n /\ nd_cli_rx n' = nd_cli_rx n /\ ev = CronTick
    end -> part_step n n'.

Lemma part_refl n : part_step n n.
Proof. apply part_none; [by repeat split|by left]. Qed.

Lemma lock_and_part w ev n :
  match w with
  | PeerWorker => exists req, ev = PeerRequest req /\ peer_reqs (nd_env n) !! nd_peer_rx n = Some req
  | CliWorker => exists req, ev = CliRequest req /\ cli_reqs (nd_env n) !! nd_cli_rx n = Some req
  | CronWorker => ev = CronTick
  end -> part_step n (lock_and w ev n).
Proof.
  unfold lock_and. destruct (nd_poisoned n); intros Hw; [apply part_none; [by repeat split|by left]|].
  destruct (handle_event ev (nd_server n)) as [[u s]|] eqn:E; [|apply part_none; [by repeat split|by left]].
  apply (part_worker _ _ w ev u); try done. by destruct w.
Qed.

Lemma io_step_part ev n n0 : nd_cop n0 = nd_cop n -> nd_env n0 = nd_env n ->
  nd_server n0 = nd_server n -> nd_peer_rx n0 = nd_peer_rx n -> nd_cli_rx n0 = nd_cli_rx n ->
  (nd_rpc_rx n0 = nd_rpc_rx n /\ (forall e, ev <> Notify e) \/
   exists e, ev = Notify e /\ nd_rpc_rx n0 = S (nd_rpc_rx n) /\ rpc_tx (nd_server n) !! nd_rpc_rx n = Some e) ->
  part_step n (io_step ev n0).
Proof.
  intros E1 E2 E3 E4 E5 Hr. unfold io_step. destruct (handle_io ev (nd_cop n0) (nd_env n0)) as [[cop env]|] eqn:E.
  - rewrite E1, E2 in E. by apply (part_io _ _ ev).
  - apply part_none; [by repeat split|]. cbn. destruct Hr as [[? _]|(e & _ & ? & He)]; [by left|]. right. by rewrite He.
Qed.

(** Every step of a node is a step of one of its parts. *)
Lemma node_step_part a n : part_step n (node_step a n).
Proof.
  unfold node_step. destruct (nd_down n); [apply part_refl|]. destruct a as [ev| | |w].
  - destruct (nd_io_alive n); [|apply part_refl].
    destruct ev; [| |apply part_refl]; (apply io_step_part; [done..|]); left; (split; [done|]); by intros e.
  - destruct (nd_io_alive n); [|apply part_refl]. destruct (_ !! _) as [e|] eqn:E; [|apply part_refl].
    apply io_step_part; try done. right. by exists e.
  - destruct (_ !! _) as [e|] eqn:E; [|apply part_refl]. apply part_none; [by repeat split|]. right. cbn. by rewrite E.
  - unfold worker_step. case_bool_decide; [apply part_refl|]. destruct w.
    + unfold take_request. destruct (_ !! _) as [req|] eqn:E; [apply lock_and_part; by exists req|].
      destruct (nd_io_alive n); [apply part_refl|]. apply part_none; [by repeat split|by left].
    + unfold take_request. destruct (_ !! _) as [req|] eqn:E; [apply lock_and_part; by exists req|].
      destruct (nd_io_alive n); [apply part_refl|]. apply part_none; [by repeat split|by left].
    + by apply lock_and_part.
Qed.

(** The outbox and the request channels only grow. *)
Lemma part_sent n n' : part_step n n' -> rpc_tx (nd_server n) `prefix_of` rpc_tx (nd_server n').
Proof.
  intros [(-> & _)|ev _ -> _|w ev u E _]; [done..|]. by eapply (handle_event_sent ev).
Qed.

(** ** The request channels only grow *)

Definition grows (env env' : Env) : Prop := forall tx, requests tx env `prefix_of` requests tx env'.

#[local] Instance grows_preorder : PreOrder grows.
Proof. split; [by intros x tx|]. intros x y z H1 H2 tx. etrans; [apply H1|apply H2]. Qed.

Lemma grows_loop env el : grows env (set_event_loop env el).
Proof. by intros []. Qed.
#[local] Hint Resolve grows_loop : core.

Lemma reregister_grows sc env r sc' env' : conn_reregister sc env = Done (r, sc', env') -> grows env env'.
Proof. intros (_ & H1 & H2)%conn_reregister_Done. intros []; cbn; by rewrite ?H1, ?H2. Qed.

Lemma writable_grows sc env r sc' env' : writable sc env = Done (r, sc', env') -> grows env env'.
Proof.
  unfold writable. destruct (res_bufs sc); [by intros [= <- <- <-]|]. destruct (sock_try_write_buf _ _) as [[[w|] k] b'].
  - intros ([rem intr] & _ & E)%bind_Done. by eapply reregister_grows.
  - by intros [= <- <- <-].
Qed.

Lemma send_reqs_grows sc reqs env env' : send_reqs sc reqs env = Done env' -> grows env env'.
Proof.
  revert env. induction reqs as [|req reqs IH]; intros env; cbn; [by intros ->%Done_inj|].
  intros (a & _ & (t & _ & E)%bind_Done)%bind_Done. etrans; [|by eapply IH].
  intros tx. rewrite requests_send. by eexists.
Qed.

Lemma readable_grows sc env r sc' env' : readable sc env = Done (r, sc', env') -> grows env env'.
Proof.
  unfold readable. destruct (sock_try_read_buf _ _) as [[rd k] b].
  intros (intr & _ & ([[codec buf] reqs] & _ & (env1 & Es & E)%bind_Done)%bind_Done)%bind_Done.
  etrans; [by eapply send_reqs_grows|by eapply reregister_grows].
Qed.

Lemma on_conn_grows f t cs env r cs' env' :
  (forall sc r sc' env', f sc env = Done (r, sc', env') -> grows env env') ->
  on_conn f t cs env = Done (r, cs', env') -> grows env env'.
Proof.
  intros Hf. unfold on_conn. destruct (slab_get _ t) as [sc|]; [|by intros [= <- <- <-]].
  intros ([[r1 sc'] env1] & E & [= <- <- <-]%Done_inj)%bind_Done. by eapply Hf.
Qed.

Lemma register_grows k cs env r cs' env' : register k cs env = Done (r, cs', env') -> grows env env'.
Proof.
  unfold register. destruct (reregister_listener _ _ _ _) as [r0 el]. destruct (slab_insert _ _) as [[t|] c].
  - intros (conn & _ & E)%bind_Done. destruct (register_opt _ _ _ _) as [r1 el1].
    apply bind_Done in E as (_ & _ & [= <- <- <-]%Done_inj). by intros [].
  - by intros [= <- <- <-].
Qed.

Lemma accept_grows cs env r cs' env' : accept cs env = Done (r, cs', env') -> grows env env'.
Proof.
  unfold accept. destruct (listener_accept _) as [[k|] l]; [|by intros [= <- <- <-]].
  intros (k' & _ & ([[r1 cs1] env1] & E & [= <- <- <-]%Done_inj)%bind_Done)%bind_Done. by eapply register_grows.
Qed.

Lemma ready_grows t events cop env cop' env' : ready t events cop env = Done (cop', env') -> grows env env'.
Proof.
  unfold ready. intros (cop1 & _ & ([cop2 env2] & E1 & E2)%bind_Done)%bind_Done. transitivity env2.
  - destruct (is_readable events); [|by injection E1 as <- <-]. unfold ready_read in E1.
    repeat case_match; try done; apply bind_Done in E1 as ([[r cs] env3] & E & E1);
      try (apply bind_Done in E1 as (_ & _ & E1)); apply Done_inj in E1 as [= <- <-];
      first [by eapply accept_grows|by eapply (on_conn_grows readable); [intros; by eapply readable_grows|]].
  - destruct (is_writable events); [|by injection E2 as <- <-]. unfold ready_write in E2.
    repeat case_match; try done; apply bind_Done in E2 as ([[r cs] env3] & E & [= <- <-]%Done_inj);
      by eapply (on_conn_grows writable); [intros; by eapply writable_grows|].
Qed.

Lemma dial_peers_grows ps cs env ps' cs' env' : dial_peers ps cs env = Done (ps', cs', env') -> grows env env'.
Proof.
  revert cs env ps' cs'. induction ps as [|p ps IH]; intros cs env ps' cs'; cbn; [by intros [= <- <- <-]|].
  intros ([[p1 cs1] env1] & E1 & ([[ps2 cs2] env2] & E2 & [= <- <- <-]%Done_inj)%bind_Done)%bind_Done.
  etrans; [|by eapply IH]. destruct (peer_sock p); [by injection E1 as <- <- <-|].
  destruct (tcp_connect _ _) as [rc el]. apply bind_Done in E1 as (k & _ & E1).
  apply bind_Done in E1 as ([[r cs3] env3] & E & [= <- <- <-]%Done_inj).
  transitivity (set_event_loop env el); [done|]. by eapply register_grows.
Qed.

Lemma notify_all_grows m toks cop env cop' env' : notify_all m toks cop env = Done (cop', env') -> grows env env'.
Proof.
  revert cop env. induction toks as [|t toks IH]; intros cop env; cbn; [by intros [= <- <-]|].
  intros ([cop1 env1] & E1 & E2)%bind_Done. etrans; [|by eapply IH]. unfold notify_one in E1.
  destruct (tok_to_set t); [|by injection E1 as <- <-]. destruct (slab_get _ t); [|by injection E1 as <- <-].
  apply bind_Done in E1 as (sc' & _ & E1). destruct (reregister _ _ _ _) as [r el]. by injection E1 as <- <-.
Qed.

Lemma handle_io_grows ev cop env cop' env' : handle_io ev cop env = Done (cop', env') -> grows env env'.
Proof.
  destruct ev as [t events| |e]; cbn; [apply ready_grows| |apply notify_all_grows].
  unfold timeout. intros ([[ps cs] env1] & E1 & E)%bind_Done. destruct (gen_range _ _ _) as [ms el].
  destruct (timeout_ms _ _) as [r el2]. apply bind_Done in E as (_ & _ & [= <- <-]%Done_inj).
  transitivity env1; [by eapply dial_peers_grows|done].
Qed.

Lemma part_grows n n' : part_step n n' -> grows (nd_env n) (nd_env n').
Proof.
  intros [(_ & _ & -> & _)|ev E|w ev u _ _ ->]; [done| |done]. by eapply handle_io_grows.
Qed.

(** ** The invariant *)

Definition small (e : Envelope) : Prop := 4 + Z.of_nat (length (ByteBuf_bytes (msg e))) < 2 ^ 32.

Record node_inv n : Prop := {
  ni_server : server_inv (nd_server n);
  ni_cop : cop_inv (nd_cop n) (nd_env n);
  ni_peer_rx : (nd_peer_rx n <= length (peer_reqs (nd_env n)))%nat;
  ni_cli_rx : (nd_cli_rx n <= length (cli_reqs (nd_env n)))%nat;
  ni_rpc_rx : (nd_rpc_rx n <= length (rpc_tx (nd_server n)))%nat;
}.

Lemma lookup_lt {A} (l : list A) i x : l !! i = Some x -> (S i <= length l)%nat.
Proof. intros Hi%lookup_lt_Some. lia. Qed.

Lemma part_step_inv n n' : part_step n n' -> Forall small (rpc_tx (nd_server n')) -> node_inv n -> node_inv n'.
Proof.
  intros Hs Hsm [Hsv Hc Hp Hcl Hr]. pose proof (part_sent n n' Hs) as Hsent.
  destruct Hs as [(Es & Ec & Ee & Ep & Ek) Hx|ev E Es Ep Ek Hx|w ev u E Ec Ee Er Hw].
  - split; rewrite ?Es, ?Ec, ?Ee, ?Ep, ?Ek; try done. destruct Hx as [->|[-> [e He]]]; [done|]. by eapply lookup_lt.
  - assert (io_ok ev) as Hok.
    { destruct Hx as [[_ Hn]|(e & -> & _ & He)]; [destruct ev; try done; by destruct (Hn e)|].
      rewrite Es in Hsm. by eapply (Forall_lookup_1 _ _ _ _ Hsm). }
    pose proof (handle_io_grows ev _ _ _ _ E) as Hq.
    split; rewrite ?Es, ?Ep, ?Ek; [done|by eapply handle_io_inv| | |].
    + pose proof (prefix_length _ _ (Hq peer_req_tx)) as Hl. cbn in Hl. lia.
    + pose proof (prefix_length _ _ (Hq cli_req_tx)) as Hl. cbn in Hl. lia.
    + destruct Hx as [[-> _]|(e & _ & -> & He)]; [done|]. by eapply lookup_lt.
  - apply prefix_length in Hsent. split; rewrite ?Ec, ?Ee; [by eapply handle_event_inv|done|..].
    + destruct w; destruct Hw as (-> & _ & Hw); try done. destruct Hw as (req & _ & Hq). by eapply lookup_lt.
    + destruct w; destruct Hw as (_ & -> & Hw); try done. destruct Hw as (req & _ & Hq). by eapply lookup_lt.
    + lia.
Qed.

Lemma run_inv acts n : Forall small (rpc_tx (nd_server (node_run acts n))) -> node_inv n -> node_inv (node_run acts n).
Proof.
  intros Hsm Hi. induction acts as [|a acts IH] using rev_ind; [done|]. rewrite node_run_snoc in *.
  pose proof (node_step_part a (node_run acts n)) as Hp. eapply part_step_inv; [done..|]. apply IH.
  destruct (part_sent _ _ Hp) as [x Hx]. rewrite Hx in Hsm. by apply Forall_app in Hsm as [? _].
Qed.

(** C11: whatever the threads of a node do, in whatever order, from the start of [run]
    on and as long as what the server sends fits a frame: the server's invariant and
    that of the event loop's connections hold together, and each reader of a queue is
    within what was put on it. *)
Theorem node_invariant c (log : Z -> L) uuid store pp cp peers l1 l2 addrs el acts :
  (forall q, log_inv (log q)) -> (forall q, log_last_accepted_txid (log q) = 0) ->
  let n := node_run acts (node_init (run_init c log uuid store pp cp peers) (TrafficCop_new l1 l2 addrs) el) in
  Forall small (rpc_tx (nd_server n)) -> node_inv n.
Proof.
  intros Hl H0 n Hsm. apply run_inv; [done|].
  split; cbn; try lia; [by apply inv_init|apply TrafficCop_new_inv].
Qed.

(** ** The end of a node *)

Lemma run_cons a acts n : node_run (a :: acts) n = node_run acts (node_step a n).
Proof. done. Qed.

Lemma run_app acts acts' n : node_run (acts ++ acts') n = node_run acts' (node_run acts n).
Proof. unfold node_run. by rewrite foldl_app. Qed.

Lemma down_stays acts n : nd_down n = true -> nd_down (node_run acts n) = true.
Proof.
  intros Hd. induction acts as [|a acts IH] using rev_ind; [done|]. rewrite node_run_snoc. unfold node_step. by rewrite IH.
Qed.

Lemma io_step_poison ev n : nd_poisoned (io_step ev n) = nd_poisoned n /\ nd_down (io_step ev n) = nd_down n.
Proof. unfold io_step. by destruct (handle_io _ _ _) as [[]|]. Qed.

(** A poisoned mutex stays poisoned, until another thread has a turn that locks it. *)
Lemma poison_step a n w : nd_poisoned n = Some w ->
  nd_poisoned (node_step a n) = Some w /\
  ((forall w', a = NodeWorker w' -> w' = w) -> nd_down (node_step a n) = nd_down n).
Proof.
  intros Hp. unfold node_step. destruct (nd_down n) eqn:Hd; [done|]. destruct a as [ev| | |w'].
  - destruct (nd_io_alive n); [|done]. destruct (io_step_poison ev n). destruct ev; split; congruence.
  - destruct (nd_io_alive n); [|done]. destruct (_ !! _) as [e|]; [|done].
    destruct (io_step_poison (Notify e) (next_rpc n)). cbn in *. split; congruence.
  - by destruct (_ !! _).
  - unfold worker_step, take_request, lock_and. case_bool_decide as Hw; [done|]. split.
    + destruct w'; [destruct (peer_reqs _ !! _)|destruct (cli_reqs _ !! _)|]; rewrite ?Hp; try done; by destruct (nd_io_alive n).
    + intros Hw'. rewrite (Hw' w' eq_refl) in Hw. congruence.
Qed.

Lemma poison_run acts n w : nd_poisoned n = Some w -> nd_poisoned (node_run acts n) = Some w.
Proof.
  intros Hp. induction acts as [|a acts IH] using rev_ind; [done|]. rewrite node_run_snoc. by apply poison_step.
Qed.

Lemma cron_finds_poison n w : nd_poisoned n = Some w -> w <> CronWorker -> nd_down (node_step (NodeWorker CronWorker) n) = true.
Proof.
  intros Hp Hw. unfold node_step. destruct (nd_down n) eqn:Hd; [done|]. unfold worker_step, lock_and.
  rewrite bool_decide_eq_false_2, Hp by congruence. done.
Qed.

(** How many requests a thread has still to take off its channel. *)
Definition unread (w : Worker) n : nat :=
  match w with
  | PeerWorker => length (peer_reqs (nd_env n)) - nd_peer_rx n
  | CliWorker => length (cli_reqs (nd_env n)) - nd_cli_rx n
  | CronWorker => 0
  end.

Fixpoint turns (w : Worker) (acts : list NodeAction) : nat :=
  match acts with
  | [] => 0
  | NodeWorker w' :: acts => (if bool_decide (w' = w) then 1 else 0) + turns w acts
  | _ :: acts => turns w acts
  end.

Definition turn (w : Worker) (a : NodeAction) : nat := turns w [a].

(** The node is down, or the cron thread is to bring it down. *)
Definition ending n : Prop :=
  nd_down n = true \/ exists w, w <> CronWorker /\ nd_poisoned n = Some w.

Lemma ending_run acts n : ending n -> ending (node_run acts n).
Proof.
  intros [Hd|(w & Hw & Hp)]; [left; by apply down_stays|right]. exists w. split; [done|]. by apply poison_run.
Qed.

Lemma ending_cron n : ending n -> nd_down (node_step (NodeWorker CronWorker) n) = true.
Proof.
  intros [Hd|(w & Hw & Hp)]; [|by eapply cron_finds_poison]. unfold node_step. by rewrite Hd.
Qed.

(** A thread that locks the server is one request further, or the end is near. *)
Lemma lock_and_orphan w w' ev n : w' <> CronWorker -> nd_poisoned n <> Some w' ->
  (0 < unread w' n)%nat ->
  ending (lock_and w' ev n) \/
  nd_io_alive (lock_and w' ev n) = nd_io_alive n /\
  (unread w (lock_and w' ev n) + (if bool_decide (w' = w) then 1 else 0) <= unread w n)%nat.
Proof.
  intros Hw Hp Hu. unfold lock_and. destruct (nd_poisoned n) as [w1|] eqn:E; [left; by left|].
  destruct (handle_event ev _) as [[u s]|]; [|left; right; by exists w'].
  right. split; [done|]. destruct w', w; try done; cbn in *; repeat case_bool_decide; try congruence; lia.
Qed.

(** Once the event loop is gone nothing is added to the channels, and every turn of a
    reader is one request less, or the end is near. *)
Lemma orphan_step w a n : w <> CronWorker -> nd_io_alive n = false ->
  ending (node_step a n) \/
  nd_io_alive (node_step a n) = false /\ (unread w (node_step a n) + turn w a <= unread w n)%nat.
Proof.
  intros Hw Hio. unfold node_step. destruct (nd_down n) eqn:Hd; [left; by left|].
  assert (forall w', ending n \/ w' = CronWorker \/ nd_poisoned n <> Some w') as Hpo.
  { intros w'. destruct (decide (w' = CronWorker)); [auto|]. destruct (decide (nd_poisoned n = Some w')); [|auto].
    left. right. by exists w'. }
  destruct a as [ev| | |w']; cbn [turn turns]; rewrite ?Hio.
  1,2: right; split; [done|lia].
  { right. destruct (_ !! _); destruct w; cbn; split; try done; lia. }
  unfold worker_step. case_bool_decide as Hpw.
  { destruct (Hpo w') as [?|[->|?]]; [by left| |done]. right. split; [done|]. rewrite bool_decide_eq_false_2 by done. lia. }
  assert (w' <> CronWorker -> (0 < unread w' n)%nat -> forall ev, ending (lock_and w' ev n) \/
    nd_io_alive (lock_and w' ev n) = false /\ (unread w (lock_and w' ev n) + turn w (NodeWorker w') <= unread w n)%nat) as Hlk.
  { intros Hc Hu ev. rewrite <-Hio. unfold turn, turns. rewrite Nat.add_0_r. by apply lock_and_orphan. }
  destruct w'; unfold take_request.
  - destruct (_ !! _) as [req|] eqn:E; [|rewrite Hio; left; by left]. apply lookup_lt_Some in E. apply Hlk; [done|cbn; lia].
  - destruct (_ !! _) as [req|] eqn:E; [|rewrite Hio; left; by left]. apply lookup_lt_Some in E. apply Hlk; [done|cbn; lia].
  - unfold lock_and. destruct (nd_poisoned n); [left; by left|]. right.
    destruct (handle_event _ _) as [[u s]|]; destruct w; try done; cbn; split; try done; repeat case_bool_decide; try congruence; lia.
Qed.

Lemma orphan_run w acts n : w <> CronWorker -> nd_io_alive n = false ->
  (unread w n < turns w acts)%nat -> ending (node_run acts n).
Proof.
  intros Hw. revert n. induction acts as [|a acts IH]; intros n Hio Ht; [cbn in Ht; lia|]. rewrite run_cons.
  destruct (orphan_step w a n Hw Hio) as [He|[Hio' Hu]]; [by apply ending_run|].
  apply IH; [done|]. destruct a; cbn [turns turn] in *; lia.
Qed.

(** C23: a node does not live on without one of its threads.  When the peer or the
    client thread has panicked with the server locked, the next turn of the cron thread
    ends the process, whatever happens before it and whatever the event loop does.  When
    the event loop has panicked, the node is down after one turn more of a request
    thread than there are requests left for it, and a turn of the cron thread.  But it
    is not down at once, as the comment in [run] has it: a thread that panics does not
    get to its [thread_exit_tx.send], and nothing happens until another thread locks the
    server. *)
Theorem panic_shuts_down n acts w :
  (nd_poisoned n = Some w -> w <> CronWorker -> NodeWorker CronWorker ∈ acts -> nd_down (node_run acts n) = true) /\
  (nd_io_alive n = false -> w <> CronWorker -> (unread w n < turns w acts)%nat ->
    nd_down (node_run (acts ++ [NodeWorker CronWorker]) n) = true) /\
  (nd_poisoned n = Some w -> Forall (fun a => forall w', a = NodeWorker w' -> w' = w) acts ->
    nd_down (node_run acts n) = nd_down n).
Proof.
  split_and!.
  - intros Hp Hw (l1 & l2 & ->)%list_elem_of_split. rewrite run_app, run_cons.
    apply down_stays, ending_cron, ending_run. right. by exists w.
  - intros Hio Hw Ht. rewrite node_run_snoc. by apply ending_cron, (orphan_run w).
  - intros Hp Ha. induction acts as [|a acts IH] using rev_ind; [done|]. rewrite node_run_snoc.
    apply Forall_app in Ha as [Ha Hl]. apply (Forall_inv (l := [])) in Hl. rewrite <-(IH Ha).
    exact (proj2 (poison_step a _ w (poison_run acts n w Hp)) Hl).
Qed.
End Generic.
