(* ===== verification/NodeService.v ===== *)
(** * What the clients of a lone leader get, byte for byte

    The composition of the event loop, the connections, the codec, the request thread,
    the server, its log and its store: a node that leads a cluster of its own sends each
    of its client connections the frames of the answers of the abstract key-value store
    to the requests of that connection, in order ([solo_node_serves]). *)

From stdpp Require Import base tactics option list numbers strings gmap.
From Stdlib Require Import ZArith Lia.
From S2P Require Import Prelude BTreeMap Crates Messages Protobuf Serialization Codec Mio Clock State Connections.
From S2P Require Import ConnectionFacts AckedLog Server ServerFacts Invariant KV Replication ClientApi Node NodeFacts.

Section Service.
Context `{TC : TimeCrate} `{BL : BytesLaws} {MC : MioCrate} {ML : MioLaws}.
Context `{RDB : RocksDB} `{RL : !RocksDBLaws} `{PS : ProtobufStreams}.
Context {C : Type} `{CK : Clock C}.
Implicit Types n : Node (C := C) (L := InMemoryLog Mutation).

(** ** The client connections *)

(** The client connections when the answers [Q] have been handed to them: each has
    passed on all that it has read, and got the frames of its answers; a token with no
    connection never had one. *)
Record cli_ok (Q : list Envelope) (cop : TrafficCop) (env : Env) : Prop := {
  co_inv : cop_inv cop env;
  co_toks : Forall (fun e => 1024 <= tok e <= 4096) (cli_reqs env);
  co_conns : forall t sc, slab_get (conns (cli_handler cop)) t = Some sc ->
    conn_in sc (from_tok t (cli_reqs env)) /\ pipe sc = concat (map frame (from_tok t Q));
  co_none : forall t, slab_get (conns (cli_handler cop)) t = None -> from_tok t (cli_reqs env) = [] /\ from_tok t Q = [];
}.

Lemma cli_ok_same Q cop env cop' env' : cli_ok Q cop env -> cop_inv cop' env' ->
  cli_handler cop' = cli_handler cop -> cli_reqs env' = cli_reqs env -> cli_ok Q cop' env'.
Proof. intros [_ ? ? ?] Hi Hh Hr. split; [done|..]; by rewrite ?Hh, ?Hr. Qed.

(** One client connection changes. *)
Lemma cli_ok_conn Q Q' cop env cop' env' t sc' :
  cli_ok Q cop env -> cop_inv cop' env' ->
  (forall t', t' <> t -> from_tok t' (cli_reqs env') = from_tok t' (cli_reqs env) /\ from_tok t' Q' = from_tok t' Q) ->
  Forall (fun e => 1024 <= tok e <= 4096) (cli_reqs env') ->
  slab_get (conns (cli_handler cop')) t = Some sc' ->
  (forall t', t' <> t -> slab_get (conns (cli_handler cop')) t' = slab_get (conns (cli_handler cop)) t') ->
  conn_in sc' (from_tok t (cli_reqs env')) -> pipe sc' = concat (map frame (from_tok t Q')) -> cli_ok Q' cop' env'.
Proof.
  intros [_ _ Hc Hn] Hi Hr Ht Hg Hg' Hin Hp. split; [done..| |].
  - intros t' sc1 H1. destruct (decide (t' = t)) as [->|Hne]; [by simplify_eq|].
    destruct (Hr t' Hne) as [-> ->]. apply Hc. by rewrite <-Hg'.
  - intros t' H1. destruct (decide (t' = t)) as [->|Hne]; [congruence|].
    destruct (Hr t' Hne) as [-> ->]. apply Hn. by rewrite <-Hg'.
Qed.

Lemma accept_conns cs env r cs' env' : accept cs env = Done (r, cs', env') ->
  (forall t, slab_get (conns cs') t = slab_get (conns cs) t) \/
  exists t k, fresh_sock k /\ slab_get (conns cs) t = None /\
    slab_get (conns cs') t = Some (opened k (set_req_tx cs) t) /\
    forall t', t' <> t -> slab_get (conns cs') t' = slab_get (conns cs) t'.
Proof.
  unfold accept. destruct (listener_accept _) as [[k|] l] eqn:El; [|intros [= <- <- <-]; by left].
  intros (k' & Ek & ([[r1 cs1] env1] & E & [= <- <- <-]%Done_inj)%bind_Done)%bind_Done.
  destruct k as [k|]; [|done]. apply Done_inj in Ek as <-. unfold register in E.
  destruct (reregister_listener _ _ _ _) as [r0 el]. cbn in E. destruct (slab_insert _ _) as [[t|] c] eqn:Hins.
  - apply slab_insert_ok in Hins as (Hn & _ & Hg & Hg' & _). rewrite Hg in E. cbn in E.
    destruct (register_opt _ _ _ _) as [r2 el1]. apply bind_Done in E as (_ & _ & [= <- <- <-]%Done_inj).
    destruct (slab_set_get _ c t (opened k (set_req_tx cs) t) ltac:(by eexists)) as [Hs1 Hs2].
    right. exists t, k. cbn. split_and!; [by eapply accept_fresh|done|done|].
    intros t' Ht. rewrite Hs2 by done. auto.
  - apply slab_insert_full in Hins as [Hg _]. injection E as <- <- <-. left. intros t. apply Hg.
Qed.

Lemma accept_ok Q cop env r cs env' : accept (cli_handler cop) env = Done (r, cs, env') ->
  cli_ok Q cop env -> cop_inv (set_cli_handler cop cs) env' -> cli_ok Q (set_cli_handler cop cs) env'.
Proof.
  intros E Ho Hi. pose proof (accept_inv _ _ _ _ _ _ _ _ E (cop_cli_set _ _ (co_inv _ _ _ Ho))) as (_ & Hr & _).
  specialize (Hr cli_req_tx). cbn in Hr. destruct (accept_conns _ _ _ _ _ E) as [Hs|(t & k & Hk & Hn & Hg & Hg')].
  - destruct Ho as [_ Ht Hc Hno]. split; [done|..]; cbn; rewrite ?Hr; [done|..]; intros t; rewrite Hs; [apply Hc|apply Hno].
  - destruct (co_none _ _ _ Ho t Hn) as [Hf1 Hf2]. destruct (opened_inv k (set_req_tx (cli_handler cop)) t Hk) as [_ _ _ Hin Hp].
    eapply (cli_ok_conn Q); [exact Ho|done|by rewrite Hr|by rewrite Hr; apply Ho|done|done|by rewrite Hr, Hf1|by rewrite Hf2].
Qed.

Lemma conn_readable_ok Q t cop env r cs env' : between 1024 4096 t = true ->
  conn_readable t (cli_handler cop) env = Done (r, cs, env') ->
  cli_ok Q cop env -> cop_inv (set_cli_handler cop cs) env' -> cli_ok Q (set_cli_handler cop cs) env'.
Proof.
  unfold conn_readable, on_conn, between. intros Hb E Ho Hi.
  destruct (slab_get (conns (cli_handler cop)) t) as [sc|] eqn:Hg; [|injection E as <- <- <-; by eapply cli_ok_same].
  apply bind_Done in E as ([[r1 sc'] env1] & E & [= <- <- <-]%Done_inj).
  destruct (si_conns _ _ _ _ _ (cop_cli_set _ _ (co_inv _ _ _ Ho)) t sc Hg) as [[Htx Ht _ _ _] _].
  destruct (co_conns _ _ _ Ho t sc Hg) as [Hin Hp].
  destruct (readable_spec _ _ _ _ _ t _ E Ht Hin) as ((es & Hes & Hr & Hin') & Hso & Hbu & _ & _ & _).
  specialize (Hr cli_req_tx). rewrite Htx, bool_decide_eq_true_2 in Hr by done. cbn in Hr.
  destruct (slab_set_get _ (conns (cli_handler cop)) t sc' ltac:(by eexists)) as [Hs1 Hs2].
  apply andb_true_iff in Hb as [Hb1%Z.leb_le Hb2%Z.leb_le].
  eapply (cli_ok_conn Q); [exact Ho|done| |rewrite Hr; apply Forall_app; split; [apply Ho|]|exact Hs1|exact Hs2| |].
  - intros t' Hne. by rewrite Hr, from_tok_app, (from_tok_other t t' es), app_nil_r.
  - eapply Forall_impl; [exact Hes|]. cbn. intros e ->. lia.
  - by rewrite Hr, from_tok_app, (from_tok_same t es).
  - unfold pipe in *. by rewrite Hso, Hbu.
Qed.

(** A write to the socket can fail; [ServerConn::writable] then loses what it was to
    write. *)
Definition write_fails (k : TcpStream) : Prop := exists b e k' b', sock_try_write_buf k b = (inr e, k', b').

Definition writes_well (t : Token) (cop : TrafficCop) : Prop :=
  forall sc, slab_get (conns (cli_handler cop)) t = Some sc -> ~ write_fails (sock sc).

Lemma conn_writable_ok Q t cop env r cs env' : writes_well t cop ->
  conn_writable t (cli_handler cop) env = Done (r, cs, env') ->
  cli_ok Q cop env -> cop_inv (set_cli_handler cop cs) env' -> cli_ok Q (set_cli_handler cop cs) env'.
Proof.
  unfold conn_writable, on_conn. intros Hww E Ho Hi.
  destruct (slab_get (conns (cli_handler cop)) t) as [sc|] eqn:Hg; [|injection E as <- <- <-; by eapply cli_ok_same].
  apply bind_Done in E as ([[r1 sc'] env1] & E & [= <- <- <-]%Done_inj).
  destruct (si_conns _ _ _ _ _ (cop_cli_set _ _ (co_inv _ _ _ Ho)) t sc Hg) as [[_ _ Hp Hu _] _].
  destruct (co_conns _ _ _ Ho t sc Hg) as [Hin Hpi].
  apply writable_spec in E as ((_ & Hr) & Hk & Hc & _ & _ & _ & _ & Hpi'); [|done..].
  destruct Hpi' as [Hpi'|(e & b & k & b' & _ & Hw)]; [|destruct (Hww sc Hg); by exists b, e, k, b'].
  destruct (slab_set_get _ (conns (cli_handler cop)) t sc' ltac:(by eexists)) as [Hs1 Hs2].
  eapply (cli_ok_conn Q); [exact Ho|done|by rewrite Hr|by rewrite Hr; apply Ho|exact Hs1|exact Hs2| |by rewrite Hpi'].
  unfold conn_in. by rewrite Hk, Hc, Hr.
Qed.

Lemma ready_read_ok Q t cop env cop' env' : ready_read t cop env = Done (cop', env') -> cli_ok Q cop env -> cli_ok Q cop' env'.
Proof.
  intros E Ho. pose proof (ready_read_inv _ _ _ _ _ E (co_inv _ _ _ Ho)) as Hi. unfold ready_read in E.
  destruct (t =? SERVER_PEERS); [|destruct (t =? SERVER_CLIENTS); [|destruct (between 2 16 t); [|destruct (between 1024 4096 t) eqn:Hb; [|done]]]];
    apply bind_Done in E as ([[r cs] env1] & Ea & E); try (apply bind_Done in E as (_ & _ & E)); apply Done_inj in E as [= <- <-].
  - destruct (accept_inv _ _ _ _ _ _ _ _ Ea (cop_peer_set _ _ (co_inv _ _ _ Ho))) as (_ & Hr & _).
    eapply cli_ok_same; [done..|]. exact (Hr cli_req_tx).
  - by eapply accept_ok.
  - destruct (on_conn_inv _ _ _ _ _ _ _ _ _ _ readable_method Ea (cop_peer_set _ _ (co_inv _ _ _ Ho))) as (_ & Ha & _).
    eapply cli_ok_same; [done..|]. by apply (adds_other _ _ _ _ cli_req_tx Ha).
  - by eapply conn_readable_ok.
Qed.

Lemma ready_write_ok Q t cop env cop' env' : writes_well t cop -> ready_write t cop env = Done (cop', env') -> cli_ok Q cop env -> cli_ok Q cop' env'.
Proof.
  intros Hww E Ho. pose proof (ready_write_inv _ _ _ _ _ E (co_inv _ _ _ Ho)) as Hi. unfold ready_write in E.
  destruct (t =? SERVER_PEERS); [done|]. destruct (t =? SERVER_CLIENTS); [done|].
  destruct (_ && _); [|destruct (_ && _); [|done]];
    apply bind_Done in E as ([[r cs] env1] & Ea & E); apply Done_inj in E as [= <- <-]; [|by eapply conn_writable_ok].
  destruct (on_conn_inv _ _ _ _ _ _ _ _ _ _ writable_method Ea (cop_peer_set _ _ (co_inv _ _ _ Ho))) as (_ & Ha & _).
  eapply cli_ok_same; [done..|]. by apply (adds_other _ _ _ _ cli_req_tx Ha).
Qed.

(** What mio reports is of a connection that has neither failed nor been closed, and
    writing to it, after reading if that is reported too, does not fail. *)
Definition calm (ev : IoEvent) (cop : TrafficCop) (env : Env) : Prop :=
  match ev with
  | Ready t events =>
      is_hup events || is_error events = false /\
      forall cop1 env1, (if is_readable events then ready_read t cop env else Done (cop, env)) = Done (cop1, env1) ->
        is_writable events = true -> writes_well t cop1
  | _ => True
  end.

Lemma handle_io_ok Q ev cop env cop' env' : calm ev cop env -> (forall e, ev <> Notify e) ->
  handle_io ev cop env = Done (cop', env') -> cli_ok Q cop env -> cli_ok Q cop' env'.
Proof.
  intros Hc Hn E Ho. destruct ev as [t events| |e]; [| |by destruct (Hn e)]; cbn in *.
  - destruct Hc as [Hc Hw]. unfold ready in E. rewrite Hc in E. apply bind_Done in E as (cop1 & <-%Done_inj & E).
    apply bind_Done in E as ([cop2 env2] & E2 & E).
    assert (cli_ok Q cop2 env2) as Ho2
      by (destruct (is_readable events); [by eapply ready_read_ok|by apply Done_inj in E2 as [= <- <-]]).
    specialize (Hw cop2 env2 E2). destruct (is_writable events); [eapply ready_write_ok; [by apply Hw|done..]|by apply Done_inj in E as [= <- <-]].
  - pose proof (timeout_inv _ _ _ _ E (co_inv _ _ _ Ho)) as Hi. unfold timeout in E.
    apply bind_Done in E as ([[ps cs] env1] & E1 & E). destruct (gen_range _ _ _) as [ms el].
    destruct (timeout_ms _ _) as [r el2]. apply bind_Done in E as (_ & _ & [= <- <-]%Done_inj).
    destruct (co_inv _ _ _ Ho) as [Hp _ Hd]. destruct (dial_peers_inv _ _ _ _ _ _ E1 Hp Hd) as (_ & _ & Hr & _).
    eapply cli_ok_same; [done..|]. exact (Hr cli_req_tx).
Qed.

(** What the event loop does with a message to a client. *)
Lemma notify_client e cop env : 1024 <= tok e <= 4096 ->
  notify e cop env =
    match slab_get (conns (cli_handler cop)) (tok e) with
    | None => Done (cop, env)
    | Some sc =>
        sc' ← queue_res (ByteBuf_bytes (msg e)) sc;
        let '(_, el) := reregister (sock sc') (tok e) (interest sc') (event_loop env) in
        Done (set_cli_handler cop (set_conns (cli_handler cop) (slab_set (conns (cli_handler cop)) (tok e) sc')), set_event_loop env el)
    end.
Proof.
  intros Ht. unfold notify. destruct (Z.eqb_spec (tok e) PEER_BROADCAST) as [Hb|_]; [by rewrite Hb in Ht; destruct Ht|].
  cbn. unfold notify_one, tok_to_set.
  rewrite (proj2 (Z.ltb_lt 1 (tok e))), (proj2 (Z.leb_gt (tok e) 128)), (proj2 (Z.ltb_lt 128 (tok e))),
    (proj2 (Z.leb_le (tok e) 4096)) by lia. cbn.
  destruct (slab_get _ (tok e)) as [sc|]; cbn; [|done]. destruct (queue_res _ sc) as [sc'|]; cbn; [|done].
  by destruct (reregister _ _ _ _).
Qed.

(** An answer goes to the connection its request came from. *)
Lemma notify_ok Q e cop env cop' env' : small e -> 1024 <= tok e <= 4096 -> from_tok (tok e) (cli_reqs env) <> [] ->
  notify e cop env = Done (cop', env') -> cli_ok Q cop env -> cli_ok (Q ++ [e]) cop' env'.
Proof.
  intros Hsm Ht Hne E Ho. pose proof (handle_io_inv (Notify e) cop env cop' env' Hsm E (co_inv _ _ _ Ho)) as Hi.
  rewrite notify_client in E by done.
  destruct (slab_get (conns (cli_handler cop)) (tok e)) as [sc|] eqn:Hg;
    [|by destruct (co_none _ _ _ Ho _ Hg) as [? _]].
  apply bind_Done in E as (sc' & Eq & E). destruct (reregister _ _ _ _) as [r el]. apply Done_inj in E as [= <- <-].
  apply queue_res_spec in Eq as (Hpi & Hk & Hc & _); [|done]. destruct (co_conns _ _ _ Ho _ _ Hg) as [Hin Hp].
  destruct (slab_set_get _ (conns (cli_handler cop)) (tok e) sc' ltac:(by eexists)) as [Hs1 Hs2].
  eapply (cli_ok_conn Q); [exact Ho|done| |apply Ho|exact Hs1|exact Hs2| |].
  - intros t' Hne'. split; [done|]. rewrite from_tok_app, (from_tok_other (tok e) t' [e]), app_nil_r; [done..|].
    by apply Forall_singleton.
  - unfold conn_in in *. by rewrite Hk, Hc.
  - rewrite from_tok_app, (from_tok_same (tok e) [e]) by (by apply Forall_singleton).
    rewrite map_app, concat_app, <-Hp, Hpi. cbn. by rewrite app_nil_r.
Qed.

(** ** The abstract store, a request at a time *)

Lemma spec_run_snoc tm (rs : list (CliReq * Faults)) r st :
  spec_run tm (rs ++ [r]) st =
    ((spec_step tm r (spec_run tm rs st).1).1, (spec_run tm rs st).2 ++ [(spec_step tm r (spec_run tm rs st).1).2]).
Proof.
  revert st. induction rs as [|r1 rs IH]; intros st; cbn -[spec_step]; [by destruct (spec_step tm r st)|].
  destruct (spec_step tm r1 st) as [st1 res1]. rewrite IH. by destruct (spec_run tm rs st1).
Qed.

Lemma spec_run_take tm k rs st : (spec_run tm (take k rs) st).2 = take k (spec_run tm rs st).2.
Proof.
  revert k st. induction rs as [|r rs IH]; intros [|k] st; cbn -[spec_step]; try done.
  destruct (spec_step tm r st) as [st1 res]. specialize (IH k st1).
  destruct (spec_run tm rs st1), (spec_run tm (take k rs) st1). cbn in *. by rewrite IH.
Qed.

Lemma spec_run_length tm rs st : length (spec_run tm rs st).2 = length rs.
Proof.
  revert st. induction rs as [|r rs IH]; intros st; cbn -[spec_step]; [done|].
  destruct (spec_step tm r st) as [st1 res]. specialize (IH st1). destruct (spec_run tm rs st1). cbn in *. by rewrite IH.
Qed.

Lemma with_faults_fst tm rs d tx : map fst (with_faults tm rs d tx) = rs.
Proof.
  revert d tx. induction rs as [|r rs IH]; intros d tx; cbn -[request_faults]; [done|].
  destruct (request_faults tm r d tx) as [[f d'] tx']. cbn. by rewrite IH.
Qed.

(** An answer that a connection can queue. *)
Definition frameable (res : CliRes) : Prop :=
  exists b, write_CliRes res = Some b /\ b <> [] /\ 4 + Z.of_nat (length b) < 2 ^ 32.

(** ** The node *)

Section Run.
Context (tm : Term) (d0 : DB) (tx0 : TXID) (out0 E : list Envelope) (rs : list CliReq).
Let rfs : list (CliReq * Faults) := with_faults tm rs d0 tx0.
Let st0 : KV * TXID := (db_contents d0, tx0).

(** The requests [E] of a whole run, what they ask, and their answers. *)
Record load : Prop := {
  ld_parse : Forall2 (fun e r => parse_CliReq (ByteBuf_bytes (msg e)) = Some r) E rs;
  ld_answers : Forall frameable (spec_run tm rfs st0).2;
  ld_txids : tx0 + Z.of_nat (length rs) <= u64_max;
}.

(** The node after the first requests of the run: its server is the abstract store
    after them, its outbox holds the answers of the store to them, and the client
    connections have got the ones the event loop has taken. *)
Record serves (out : list Envelope) n : Prop := {
  sv_solo : solo tm (nd_server n);
  sv_spec : spec_of (nd_server n) = (spec_run tm (take (nd_cli_rx n) rfs) st0).1;
  sv_faults : drop (nd_cli_rx n) rfs =
    with_faults tm (drop (nd_cli_rx n) rs) (db (nd_server n)) (max_generated_txid (nd_server n));
  sv_txid : max_generated_txid (nd_server n) <= tx0 + Z.of_nat (nd_cli_rx n);
  sv_sent : rpc_tx (nd_server n) = out0 ++ out;
  sv_carries : Forall2 carries (zip (take (nd_cli_rx n) E) (spec_run tm (take (nd_cli_rx n) rfs) st0).2) out;
  sv_read : (nd_cli_rx n <= length (cli_reqs (nd_env n)))%nat;
  sv_taken : (length out0 <= nd_rpc_rx n <= length out0 + length out)%nat;
  sv_healthy : nd_poisoned n = None;
  sv_conns : nd_io_alive n = true -> cli_ok (take (nd_rpc_rx n - length out0) out) (nd_cop n) (nd_env n);
}.

Lemma rfs_length : length rfs = length rs.
Proof. rewrite <-(length_map fst). unfold rfs. by rewrite with_faults_fst. Qed.

(** The next request, the errors the store reports for it, and those of the rest. *)
Lemma next_faults out n r : serves out n -> rs !! nd_cli_rx n = Some r ->
  exists f d tx, request_faults tm r (db (nd_server n)) (max_generated_txid (nd_server n)) = (f, d, tx) /\
    rfs !! nd_cli_rx n = Some (r, f) /\ drop (S (nd_cli_rx n)) rfs = with_faults tm (drop (S (nd_cli_rx n)) rs) d tx.
Proof.
  intros Hsv Hr. pose proof (sv_faults _ _ Hsv) as Hf. rewrite (drop_S _ _ _ Hr) in Hf. cbn -[request_faults drop] in Hf.
  destruct (request_faults tm r _ _) as [[f d] tx]. exists f, d, tx. split; [done|].
  assert (rfs !! nd_cli_rx n = Some (r, f)) as Hl by (rewrite <-(Nat.add_0_r (nd_cli_rx n)), <-lookup_drop, Hf; done).
  split; [done|]. rewrite (drop_S _ _ _ Hl) in Hf. by injection Hf.
Qed.

(** The client thread handles the next request. *)
Lemma serve_request out n req : load -> serves out n -> cli_reqs (nd_env n) `prefix_of` E ->
  cli_reqs (nd_env n) !! nd_cli_rx n = Some req ->
  exists e, serves (out ++ [e]) (lock_and CliWorker (CliRequest req) n).
Proof.
  intros [Hparse Hans Htx] Hsv HE Hq. pose proof Hsv as [Hs Hsp _ Hx Hsent Hc Hrd Htk Hh Hco].
  assert (E !! nd_cli_rx n = Some req) as HEq by (by eapply prefix_lookup_Some).
  destruct (Forall2_lookup_l _ _ _ _ _ Hparse HEq) as (r & Hr & Hp).
  destruct (next_faults out n r Hsv Hr) as (f & d & tx & Hrf & Hf & Hdrop).
  pose proof (lookup_lt_Some _ _ _ Hr) as Hlt. pose proof (lookup_lt_Some _ _ _ HEq) as HlE. pose proof (lookup_lt_Some _ _ _ Hq) as Hlq.
  pose proof rfs_length as Hlen.
  pose proof (take_S_r _ _ _ Hf) as Htr. pose proof (take_S_r _ _ _ HEq) as HtE.
  pose proof (spec_run_snoc tm (take (nd_cli_rx n) rfs) (r, f) st0) as Hsn. rewrite <-Htr in Hsn.
  pose proof (spec_run_take tm (S (nd_cli_rx n)) rfs st0) as Htake. rewrite Hsn in Htake. cbn [snd] in Htake.
  pose proof (solo_step tm req r (nd_server n) Hs Hp) as Hstep. rewrite Hrf in Hstep.
  assert (writable_cli (spec_step tm (r, f) (spec_of (nd_server n))).2) as Hw.
  { rewrite Hsp. apply (Forall_take _ (S (nd_cli_rx n))) in Hans. rewrite <-Htake in Hans.
    apply Forall_app in Hans as [_ Hl%Forall_inv]. destruct Hl as (b & Hb & _). by exists b. }
  destruct (Hstep ltac:(lia) Hw) as (s' & e & Er & Hs' & Hx' & Ed & Etx & Hsp' & Ho & Hca).
  exists e. unfold lock_and. rewrite Hh. cbn [handle_event]. rewrite Er. rewrite Hsp in Hsp', Hca. rewrite Hsent in Ho.
  rewrite (bool_decide_eq_false_2 (CliWorker = PeerWorker)), (bool_decide_eq_true_2 (CliWorker = CliWorker)) by done.
  split; cbn -[spec_step spec_run take drop Z.of_nat]; rewrite ?Hsn, ?Ed, ?Etx; try done; try lia.
  - by rewrite Ho, <-app_assoc.
  - rewrite HtE. cbn [snd]. rewrite zip_with_app by (rewrite spec_run_length, !length_take_le; [done|lia..]).
    apply Forall2_app; [done|]. by constructor.
  - rewrite length_app. cbn. lia.
  - intros Hal. specialize (Hco Hal). rewrite take_app_le by lia. exact Hco.
Qed.

Lemma answer_origin out n i e : load -> serves out n -> cli_reqs (nd_env n) `prefix_of` E -> out !! i = Some e ->
  small e /\ exists req, req ∈ cli_reqs (nd_env n) /\ tok e = tok req.
Proof.
  intros [Hparse Hans Htx] [_ _ _ _ _ Hc Hrd _ _ _] HE He.
  destruct (Forall2_lookup_r _ _ _ _ _ Hc He) as ([req res] & Hz & b & Hb & ->).
  apply lookup_zip_Some in Hz as [Hq Hr]. rewrite spec_run_take in Hr. apply lookup_take_Some in Hq as [Hq Hi].
  apply lookup_take_Some in Hr as [Hr _]. destruct (Forall_lookup_1 _ _ _ _ Hans Hr) as (b' & Hb' & Hne & Hl).
  cbn in Hb. rewrite Hb in Hb'. injection Hb' as <-. split; [unfold small; cbn; by rewrite from_slice_bytes|].
  exists req. split; [|done]. destruct HE as [x Hx]. rewrite Hx in Hq. rewrite lookup_app_l in Hq by lia.
  by eapply list_elem_of_lookup_2.
Qed.

(** The event loop's handler returns with client connections as they should be. *)
Lemma serves_io out n cop env rx : serves out n -> grows (nd_env n) env ->
  (length out0 <= rx <= length out0 + length out)%nat -> cli_ok (take (rx - length out0) out) cop env ->
  serves out (mkNode (nd_server n) cop env (nd_peer_rx n) (nd_cli_rx n) rx true (nd_poisoned n) (nd_down n)).
Proof.
  intros [Hs Hsp Hfa Hx Hsent Hc Hrd Htk Hh Hco] Hg Hrx Ho. pose proof (prefix_length _ _ (Hg cli_req_tx)) as Hl. cbn in Hl.
  split; cbn; try done. lia.
Qed.

(** It panics. *)
Lemma serves_io_dead out n rx : serves out n -> (length out0 <= rx <= length out0 + length out)%nat ->
  serves out (mkNode (nd_server n) (nd_cop n) (nd_env n) (nd_peer_rx n) (nd_cli_rx n) rx false (nd_poisoned n) (nd_down n)).
Proof. intros [Hs Hsp Hfa Hx Hsent Hc Hrd Htk Hh Hco] Hrx. by split. Qed.

(** The event loop takes the next answer off its queue. *)
Lemma serves_notify out n e : load -> serves out n -> cli_reqs (nd_env n) `prefix_of` E -> nd_io_alive n = true ->
  rpc_tx (nd_server n) !! nd_rpc_rx n = Some e -> serves out (io_step (Notify e) (next_rpc n)).
Proof.
  intros Hld Hsv HE Hal He. pose proof Hsv as [Hs Hsp Hfa Hx Hsent Hc Hrd Htk Hh Hco]. rewrite Hsent in He.
  rewrite lookup_app_r in He by lia. pose proof (lookup_lt_Some _ _ _ He) as Hlt.
  destruct (answer_origin _ _ _ _ Hld Hsv HE He) as (Hsm & req & Hreq & Ht).
  pose proof (Hco Hal) as Ho. unfold io_step. cbn [nd_cop nd_env next_rpc nd_server nd_peer_rx nd_cli_rx nd_rpc_rx nd_poisoned nd_down].
  destruct (handle_io (Notify e) (nd_cop n) (nd_env n)) as [[cop env]|] eqn:Eio; [|apply serves_io_dead; [done|lia]].
  apply serves_io; [done|by eapply handle_io_grows|lia|].
  replace (S (nd_rpc_rx n) - length out0)%nat with (S (nd_rpc_rx n - length out0)) by lia. rewrite (take_S_r _ _ _ He).
  eapply notify_ok; [done|rewrite Ht; by apply (proj1 (Forall_forall _ _) (co_toks _ _ _ Ho))| |exact Eio|done].
  intros Hnil. apply (f_equal length) in Hnil. unfold from_tok in Hnil. rewrite length_map in Hnil.
  apply length_zero_iff_nil in Hnil. apply (filter_nil_not_elem_of _ _ req Hnil); [done|]. done.
Qed.

(** A thread's step in a run in which nothing fails and nobody but clients comes: the
    event loop loses no message, no client hangs up; the peer thread has no request to
    take, and cron finds the lease valid and not due, so that it only looks at the
    clock. *)
Definition calm_act (a : NodeAction) n : Prop :=
  match a with
  | NodeIo ev => calm ev (nd_cop n) (nd_env n)
  | NodeNotify => True
  | NodeLose => False
  | NodeWorker PeerWorker => peer_reqs (nd_env n) !! nd_peer_rx n = None
  | NodeWorker CliWorker => True
  | NodeWorker CronWorker => exists c, cron (nd_server n) = Done (tt, set_clock (nd_server n) c)
  end.

Fixpoint calm_run (acts : list NodeAction) n : Prop :=
  match acts with
  | [] => True
  | a :: acts => calm_act a n /\ calm_run acts (node_step a n)
  end.

Lemma calm_run_snoc acts a n : calm_run (acts ++ [a]) n <-> calm_run acts n /\ calm_act a (node_run acts n).
Proof.
  revert n. induction acts as [|a' acts IH]; intros n; cbn; [by split; intros []|]. rewrite IH. unfold node_run. cbn. tauto.
Qed.

Lemma serve_cron out n c : serves out n -> cron (nd_server n) = Done (tt, set_clock (nd_server n) c) ->
  serves out (lock_and CronWorker CronTick n).
Proof.
  intros [Hs Hsp Hfa Hx Hsent Hc Hrd Htk Hh Hco] Ec. unfold lock_and. rewrite Hh. cbn [handle_event]. rewrite Ec.
  split; cbn; try done. destruct Hs as [[] ? ? ? ? ? ?]. by split.
Qed.

Lemma serve_step out n a : load -> calm_act a n -> serves out n -> cli_reqs (nd_env n) `prefix_of` E ->
  exists out', serves out' (node_step a n).
Proof.
  intros Hld Ha Hsv HE. pose proof Hsv as [Hs Hsp Hfa Hx Hsent Hc Hrd Htk Hh Hco].
  unfold node_step. destruct (nd_down n); [by exists out|]. destruct a as [ev| | |w]; [| |done|].
  - destruct (nd_io_alive n) eqn:Hal; [|by exists out]. exists out.
    assert ((forall e, ev <> Notify e) -> serves out (io_step ev n)) as Hio.
    { intros Hn. unfold io_step. destruct (handle_io ev _ _) as [[cop env]|] eqn:Eio; [|by apply serves_io_dead].
      apply serves_io; [done|by eapply handle_io_grows|done|]. eapply handle_io_ok; [exact Ha|done|exact Eio|by apply Hco]. }
    by destruct ev; try done; apply Hio.
  - destruct (nd_io_alive n) eqn:Hal; [|by exists out]. destruct (_ !! _) as [e|] eqn:He; [|by exists out].
    exists out. by apply serves_notify.
  - unfold worker_step. rewrite Hh, bool_decide_eq_false_2 by done.
    assert (serves out (if nd_io_alive n then n else set_down n)) as Hidle.
    { destruct (nd_io_alive n) eqn:Hal; [done|]. split; cbn; try done. by rewrite Hal. }
    destruct w; cbn in Ha; unfold take_request.
    + rewrite Ha. by exists out.
    + destruct (cli_reqs (nd_env n) !! nd_cli_rx n) as [req|] eqn:Hq; [|by exists out].
      destruct (serve_request out n req Hld Hsv HE Hq) as (e & He). by exists (out ++ [e]).
    + destruct Ha as [c Ec]. exists out. by eapply serve_cron.
Qed.

Lemma serve_run acts n : load -> calm_run acts n -> serves [] n -> cli_reqs (nd_env (node_run acts n)) `prefix_of` E ->
  exists out, serves out (node_run acts n).
Proof.
  intros Hld Hc Hsv HE. induction acts as [|a acts IH] using rev_ind; [by exists []|].
  apply calm_run_snoc in Hc as [Hc Ha]. rewrite node_run_snoc in *.
  assert (cli_reqs (nd_env (node_run acts n)) `prefix_of` E) as HE'.
  { etrans; [|exact HE]. apply (part_grows _ _ (node_step_part a (node_run acts n)) cli_req_tx). }
  destruct (IH Hc HE') as (out & Hout). by eapply serve_step.
Qed.
End Run.

(** A node in which a lone leader is about to serve its first client. *)
Record fresh_node (tm : Term) n : Prop := {
  fn_solo : solo tm (nd_server n);
  fn_inv : cop_inv (nd_cop n) (nd_env n);
  fn_reqs : cli_reqs (nd_env n) = [];
  fn_conns : forall t, slab_get (conns (cli_handler (nd_cop n))) t = None;
  fn_cli_rx : nd_cli_rx n = 0%nat;
  fn_rpc_rx : nd_rpc_rx n = length (rpc_tx (nd_server n));
  fn_healthy : nd_poisoned n = None;
}.

Lemma fresh_serves tm n E rs : fresh_node tm n ->
  serves tm (db (nd_server n)) (max_generated_txid (nd_server n)) (rpc_tx (nd_server n)) E rs [] n.
Proof.
  intros [Hs Hi Hr Hn Hc Hx Hh]. split; rewrite ?Hc, ?Hx; cbn; try done; try lia.
  - symmetry. apply app_nil_r.
  - intros _. rewrite Nat.sub_diag. split; rewrite ?Hr; [done|constructor| |done].
    intros t sc Hg. by rewrite Hn in Hg.
Qed.

(** C10: the clients of a lone leader are served by the abstract key-value store, over
    their sockets, as long as nothing but the store fails.  Clients come, send and read,
    in pieces of any size, while the threads take turns in any order; no client hangs up,
    no write to a socket fails, no message to the event loop is lost, no peer sends
    anything and cron finds the lease valid and not due; every request parses and every
    answer fits a frame.  Then the node is healthy, its store has the contents of the
    abstract one, with the same faults, after the requests the client thread has handled,
    the answers of the abstract store to those are in the outbox in that order, and, while
    the event loop lives, each client connection has passed on every request it has read,
    whole and in order, and has written or is about to write exactly the frames of the
    answers to its own requests, as far as the event loop has taken them, in order. *)
Theorem solo_node_serves tm acts n0 rs :
  let n := node_run acts n0 in
  let handled := take (nd_cli_rx n) (cli_reqs (nd_env n)) in
  let rfs := with_faults tm rs (db (nd_server n0)) (max_generated_txid (nd_server n0)) in
  let spec := spec_run tm (take (nd_cli_rx n) rfs) (spec_of (nd_server n0)) in
  fresh_node tm n0 -> calm_run acts n0 ->
  load tm (db (nd_server n0)) (max_generated_txid (nd_server n0)) (cli_reqs (nd_env n)) rs ->
  nd_poisoned n = None /\ spec_of (nd_server n) = spec.1 /\
  exists out, rpc_tx (nd_server n) = rpc_tx (nd_server n0) ++ out /\ Forall2 carries (zip handled spec.2) out /\
    (nd_io_alive n = true -> forall t sc, slab_get (conns (cli_handler (nd_cop n))) t = Some sc ->
      conn_in sc (from_tok t (cli_reqs (nd_env n))) /\
      pipe sc = concat (map frame (from_tok t (take (nd_rpc_rx n - length (rpc_tx (nd_server n0))) out)))).
Proof.
  intros n handled rfs spec Hf Hc Hld.
  destruct (serve_run _ _ _ _ _ _ acts n0 Hld Hc (fresh_serves tm n0 _ _ Hf)) as (out & [_ Hsp _ _ Hsent Hca _ _ Hh Hco]); [done|].
  split_and!; [done..|]. exists out. split_and!; [done..|]. intros Hal t sc Hg. by apply (co_conns _ _ _ (Hco Hal)).
Qed.
End Service.
