(* ===== verification/TokenReuse.v ===== *)
(** * Tokens are used again

    An answer is addressed by the token of the connection its request came on, and the
    slab gives a token out again as soon as its connection is closed: what that means for
    a client that hangs up before its request has been handled, and for the one after it
    ([answer_to_wrong_client]). *)

From stdpp Require Import base tactics option list numbers strings gmap.
From Stdlib Require Import ZArith Lia.
From S2P Require Import Prelude BTreeMap Crates Messages Protobuf Serialization Codec Mio Clock State Connections.
From S2P Require Import ConnectionFacts AckedLog Server ServerFacts Invariant KV Replication ClientApi Node NodeFacts NodeService.

Section TokenReuse.
Context `{TC : TimeCrate} `{BL : BytesLaws} {MC : MioCrate} {ML : MioLaws}.
Context `{RDB : RocksDB} `{RL : !RocksDBLaws} `{PS : ProtobufStreams}.
Context {C : Type} `{CK : Clock C} {L : Type} `{AL : !AckedLog L Mutation}.
Implicit Types n : Node (C := C) (L := L).

(** The connection under the token [t], if there is one, came after the requests [old]
    had been passed on: its own requests are later ones, and nothing has been sent to it. *)
Definition came_after (t : Token) (old : list (list Z)) (env : Env) (sc : ServerConn) : Prop :=
  (exists gone ms, conn_in sc ms /\ from_tok t (cli_reqs env) = old ++ gone ++ ms) /\
  sock_out (sock sc) = [] /\ res_bufs sc = [] /\ res_remaining sc = 0.

Record reused (t : Token) (old : list (list Z)) (cop : TrafficCop) (env : Env) : Prop := {
  ru_inv : cop_inv cop env;
  ru_old : old `prefix_of` from_tok t (cli_reqs env);
  ru_conn : forall sc, slab_get (conns (cli_handler cop)) t = Some sc -> came_after t old env sc;
}.

Lemma reused_same t old cop env cop' env' : reused t old cop env -> cop_inv cop' env' ->
  from_tok t (cli_reqs env') = from_tok t (cli_reqs env) ->
  (forall sc, slab_get (conns (cli_handler cop')) t = Some sc -> slab_get (conns (cli_handler cop)) t = Some sc) ->
  reused t old cop' env'.
Proof.
  intros [_ Ho Hc] Hi Hr Hs. split; [done|by rewrite Hr|]. intros sc Hg. unfold came_after. rewrite Hr. by apply Hc, Hs.
Qed.

Lemma reused_accept t old cop env r cs env' : accept (cli_handler cop) env = Done (r, cs, env') ->
  reused t old cop env -> cop_inv (set_cli_handler cop cs) env' -> reused t old (set_cli_handler cop cs) env'.
Proof.
  intros E Hu Hi. destruct (accept_inv _ _ _ _ _ _ _ _ E (cop_cli_set _ _ (ru_inv _ _ _ _ Hu))) as (_ & Hr & _).
  specialize (Hr cli_req_tx). cbn in Hr. destruct (accept_conns _ _ _ _ _ E) as [Hs|(t1 & k & Hk & _ & Hg & Hg')].
  { eapply reused_same; [done..|by rewrite Hr|]. cbn. intros sc. by rewrite Hs. }
  destruct (decide (t = t1)) as [->|Hne].
  - split; [done|by rewrite Hr; apply Hu|]. cbn. intros sc Hsc. rewrite Hg in Hsc. injection Hsc as <-.
    destruct (opened_inv k (set_req_tx (cli_handler cop)) t1 Hk) as [_ _ _ Hin _]. destruct Hk as [_ Hko].
    split; [|done]. destruct (ru_old _ _ _ _ Hu) as [gone Hgone]. exists gone, []. by rewrite Hr, app_nil_r.
  - eapply reused_same; [done..|by rewrite Hr|]. cbn. intros sc. by rewrite Hg'.
Qed.

Lemma reused_readable t old t1 cop env r cs env' : conn_readable t1 (cli_handler cop) env = Done (r, cs, env') ->
  reused t old cop env -> cop_inv (set_cli_handler cop cs) env' -> reused t old (set_cli_handler cop cs) env'.
Proof.
  unfold conn_readable, on_conn. intros E Hu Hi.
  destruct (slab_get (conns (cli_handler cop)) t1) as [sc|] eqn:Hg; [|injection E as <- <- <-; by eapply reused_same].
  apply bind_Done in E as ([[r1 sc'] env1] & E & [= <- <- <-]%Done_inj).
  destruct (si_conns _ _ _ _ _ (cop_cli_set _ _ (ru_inv _ _ _ _ Hu)) t1 sc Hg) as [[Htx Ht _ _ (o & ms & Hin & _)] _].
  destruct (slab_set_get _ (conns (cli_handler cop)) t1 sc' ltac:(by eexists)) as [Hs1 Hs2].
  destruct (decide (t = t1)) as [->|Hne].
  - destruct (ru_conn _ _ _ _ Hu sc Hg) as ((gone & ms1 & Hin1 & Hf) & Hout & Hbufs & Hrem).
    destruct (readable_spec _ _ _ _ _ t1 _ E Ht Hin1) as ((es & Hes & Hr & Hin') & Hso & Hbu & Hre & _ & _).
    specialize (Hr cli_req_tx). rewrite Htx, bool_decide_eq_true_2 in Hr by done. cbn in Hr.
    assert (from_tok t1 (cli_reqs env1) = old ++ gone ++ ms1 ++ map envelope_bytes es) as Hf'
      by (by rewrite Hr, from_tok_app, Hf, (from_tok_same t1 es), <-!app_assoc).
    split; [done|rewrite Hf'; by eexists|]. cbn. intros sc1 Hsc. rewrite Hs1 in Hsc. injection Hsc as <-.
    split; [by exists gone, (ms1 ++ map envelope_bytes es)|]. split_and!; congruence.
  - destruct (readable_spec _ _ _ _ _ t1 _ E Ht Hin) as ((es & Hes & Hr & _) & _).
    specialize (Hr cli_req_tx). rewrite Htx, bool_decide_eq_true_2 in Hr by done. cbn in Hr.
    eapply reused_same; [done..|by rewrite Hr, from_tok_app, (from_tok_other t1 t es), app_nil_r|].
    cbn. intros sc1. by rewrite Hs2.
Qed.

Lemma reused_writable t old t1 cop env r cs env' : conn_writable t1 (cli_handler cop) env = Done (r, cs, env') ->
  reused t old cop env -> cop_inv (set_cli_handler cop cs) env' -> reused t old (set_cli_handler cop cs) env'.
Proof.
  unfold conn_writable, on_conn. intros E Hu Hi.
  destruct (slab_get (conns (cli_handler cop)) t1) as [sc|] eqn:Hg; [|injection E as <- <- <-; by eapply reused_same].
  apply bind_Done in E as ([[r1 sc'] env1] & E & [= <- <- <-]%Done_inj).
  destruct (si_conns _ _ _ _ _ (cop_cli_set _ _ (ru_inv _ _ _ _ Hu)) t1 sc Hg) as [[_ _ Hp Hpu _] _].
  destruct (slab_set_get _ (conns (cli_handler cop)) t1 sc' ltac:(by eexists)) as [Hs1 Hs2].
  destruct (decide (t = t1)) as [->|Hne].
  - destruct (ru_conn _ _ _ _ Hu sc Hg) as (_ & _ & Hbufs & _). unfold writable in E. rewrite Hbufs in E.
    injection E as <- <- <-. eapply reused_same; [done..|]. cbn. intros sc1. by rewrite Hs1, Hg.
  - apply writable_spec in E as ((_ & Hr) & _); [|done..]. eapply reused_same; [done..|by rewrite Hr|].
    cbn. intros sc1. by rewrite Hs2.
Qed.

Lemma reused_clear t old t1 cop cop' env : clear_conn t1 cop = Done cop' -> reused t old cop env -> reused t old cop' env.
Proof.
  intros E Hu. pose proof (clear_conn_inv _ _ _ _ E (ru_inv _ _ _ _ Hu)) as Hi. eapply reused_same; [done..|].
  unfold clear_conn in E. destruct (between 2 16 t1); [|destruct (between 1024 4096 t1); [|done]];
    destruct (slab_contains _ t1); apply Done_inj in E as <-; try done.
  cbn. destruct (slab_remove_get _ (conns (cli_handler cop)) t1) as [H1 H2]. intros sc.
  destruct (decide (t = t1)) as [->|]; [by rewrite H1|by rewrite H2].
Qed.

Lemma reused_ready t old t1 events cop env cop' env' : ready t1 events cop env = Done (cop', env') ->
  reused t old cop env -> reused t old cop' env'.
Proof.
  unfold ready. intros E Hu. apply bind_Done in E as (cop1 & E1 & E). apply bind_Done in E as ([cop2 env2] & E2 & E).
  assert (reused t old cop1 env) as Hu1 by (destruct (_ || _); [by eapply reused_clear|by apply Done_inj in E1 as <-]).
  assert (reused t old cop2 env2) as Hu2.
  { destruct (is_readable events); [|by apply Done_inj in E2 as [= <- <-]]. clear E E1 Hu.
    pose proof (ready_read_inv _ _ _ _ _ E2 (ru_inv _ _ _ _ Hu1)) as Hi. unfold ready_read in E2.
    destruct (t1 =? SERVER_PEERS); [|destruct (t1 =? SERVER_CLIENTS); [|destruct (between 2 16 t1); [|destruct (between 1024 4096 t1); [|done]]]];
      apply bind_Done in E2 as ([[r cs] env3] & Ea & E); try (apply bind_Done in E as (_ & _ & E)); apply Done_inj in E as [= <- <-].
    - destruct (accept_inv _ _ _ _ _ _ _ _ Ea (cop_peer_set _ _ (ru_inv _ _ _ _ Hu1))) as (_ & Hr & _).
      eapply reused_same; [done..| |done]. by rewrite (Hr cli_req_tx : cli_reqs _ = _).
    - by eapply reused_accept.
    - destruct (on_conn_inv _ _ _ _ _ _ _ _ _ _ readable_method Ea (cop_peer_set _ _ (ru_inv _ _ _ _ Hu1))) as (_ & Ha & _).
      eapply reused_same; [done..| |done]. by rewrite (adds_other _ _ _ _ cli_req_tx Ha ltac:(done) : cli_reqs _ = _).
    - by eapply reused_readable. }
  destruct (is_writable events); [|by apply Done_inj in E as [= <- <-]].
  pose proof (ready_write_inv _ _ _ _ _ E (ru_inv _ _ _ _ Hu2)) as Hi. unfold ready_write in E.
  destruct (t1 =? SERVER_PEERS); [done|]. destruct (t1 =? SERVER_CLIENTS); [done|].
  destruct (_ && _); [|destruct (_ && _); [|done]];
    apply bind_Done in E as ([[r cs] env3] & Ea & E); apply Done_inj in E as [= <- <-]; [|by eapply reused_writable].
  destruct (on_conn_inv _ _ _ _ _ _ _ _ _ _ writable_method Ea (cop_peer_set _ _ (ru_inv _ _ _ _ Hu2))) as (_ & Ha & _).
  eapply reused_same; [done..| |done]. by rewrite (adds_other _ _ _ _ cli_req_tx Ha ltac:(done) : cli_reqs _ = _).
Qed.

(** What the event loop does by itself, whatever mio reports. *)
Definition is_io (a : NodeAction) : Prop := match a with NodeIo _ => True | _ => False end.

Lemma reused_io t old ev cop env cop' env' : (forall e, ev <> Notify e) -> handle_io ev cop env = Done (cop', env') ->
  reused t old cop env -> reused t old cop' env'.
Proof.
  intros Hn E Hu. destruct ev as [t1 events| |e]; [by eapply reused_ready| |by destruct (Hn e)]. cbn in E.
  pose proof (timeout_inv _ _ _ _ E (ru_inv _ _ _ _ Hu)) as Hi. unfold timeout in E.
  apply bind_Done in E as ([[ps cs] env1] & E1 & E). destruct (gen_range _ _ _) as [ms el].
  destruct (timeout_ms _ _) as [r el2]. apply bind_Done in E as (_ & _ & [= <- <-]%Done_inj).
  destruct (ru_inv _ _ _ _ Hu) as [Hp _ Hd]. destruct (dial_peers_inv _ _ _ _ _ _ E1 Hp Hd) as (_ & _ & Hr & _).
  eapply reused_same; [done..| |done]. cbn. by rewrite (Hr cli_req_tx : cli_reqs _ = _).
Qed.

(** The parts of a node that only the other threads change. *)
Definition workers_same n n' : Prop :=
  nd_server n' = nd_server n /\ nd_cli_rx n' = nd_cli_rx n /\ nd_rpc_rx n' = nd_rpc_rx n /\
  nd_poisoned n' = nd_poisoned n /\ nd_down n' = nd_down n /\ cli_reqs (nd_env n) `prefix_of` cli_reqs (nd_env n').

#[local] Instance workers_same_preorder : PreOrder workers_same.
Proof.
  split; [by intros n|]. intros n1 n2 n3 (? & ? & ? & ? & ? & ?) (? & ? & ? & ? & ? & ?). split_and!; try congruence. by etrans.
Qed.

Lemma io_run_reused t old acts n : Forall is_io acts -> reused t old (nd_cop n) (nd_env n) ->
  let n' := node_run acts n in reused t old (nd_cop n') (nd_env n') /\ workers_same n n'.
Proof.
  intros Ha. revert n. induction Ha as [|a acts Ha _ IH]; intros n Hu n'; [by split|]. change n' with (node_run acts (node_step a n)). clear n'.
  assert (reused t old (nd_cop (node_step a n)) (nd_env (node_step a n)) /\ workers_same n (node_step a n)) as [Hu1 Hw1].
  { destruct a as [ev| | |]; try done. unfold node_step. destruct (nd_down n) eqn:Hd; [done|]. destruct (nd_io_alive n); [|done].
    assert ((forall e, ev <> Notify e) -> reused t old (nd_cop (io_step ev n)) (nd_env (io_step ev n)) /\ workers_same n (io_step ev n)) as Hio.
    { intros Hn. unfold io_step. destruct (handle_io ev _ _) as [[cop env]|] eqn:E; cbn; [|done].
      split; [by eapply reused_io|]. split_and!; try done. exact (handle_io_grows _ _ _ _ _ E cli_req_tx). }
    destruct ev; [by apply Hio..|done]. }
  destruct (IH _ Hu1) as [Hu2 Hw2]. split; [done|by etrans].
Qed.

(** A message is queued on a connection that has nothing else to write. *)
Lemma queue_res_first m sc : 4 + Z.of_nat (length m) < 2 ^ 32 -> res_remaining sc = 0 -> exists sc', queue_res m sc = Done sc'.
Proof.
  intros Hm Hr. unfold queue_res, u64_add. rewrite checked_ok by (unfold u64_max; lia). cbn [mbind Outcome_bind].
  pose proof (new_msg_buf_view (4 + Z.of_nat (length m)) ltac:(lia)) as Hv.
  destruct (write_slice_view _ _ _ (usize_to_array (Z.of_nat (length m))) Hv ltac:(cbn; lia)) as [Hn Hv2].
  destruct (write_slice _ (usize_to_array _)) as [n1 r1]. cbn in Hn, Hv2. subst n1.
  change (Z.of_nat 4 =? 4) with true. cbn.
  destruct (write_slice_view _ _ _ m Hv2 ltac:(cbn; lia)) as [Hn Hv3].
  destruct (write_slice r1 m) as [n2 r2]. cbn in Hn, Hv3. subst n2. rewrite Z.eqb_refl. cbn.
  destruct Hv3 as [-> _]. rewrite Hr, checked_ok; [by eexists|]. unfold u64_max. cbn. lia.
Qed.

(** The hang-up: no connection has the token. *)
Lemma hang_up_reused t events n : cop_inv (nd_cop n) (nd_env n) -> nd_down n = false -> nd_io_alive n = true -> 1024 <= t <= 4096 ->
  is_hup events = true -> is_readable events = false -> is_writable events = false ->
  let n1 := node_step (NodeIo (Ready t events)) n in
  reused t (from_tok t (cli_reqs (nd_env n))) (nd_cop n1) (nd_env n1) /\ workers_same n n1.
Proof.
  intros Hi Hd Hal Ht Hh Hr Hw. unfold node_step. rewrite Hd, Hal. unfold io_step. cbn [handle_io]. unfold ready. rewrite Hh. cbn [orb].
  destruct (clear_conn t (nd_cop n)) as [cop|] eqn:E; unfold clear_conn, between in E;
    rewrite (proj2 (Z.leb_gt t 16)), andb_false_r, (proj2 (Z.leb_le 1024 t)), (proj2 (Z.leb_le t 4096)) in E by lia; cbn in E;
    [|by destruct (slab_contains _ t)].
  cbn. rewrite Hr. cbn. rewrite Hw. cbn. split; [|done].
  assert (slab_get (conns (cli_handler cop)) t = None) as Hn.
  { destruct (slab_contains _ t) eqn:Hc; apply Done_inj in E as <-; cbn; [apply slab_remove_get|].
    unfold slab_contains in Hc. by destruct (slab_get _ t). }
  assert (clear_conn t (nd_cop n) = Done cop) as E'
    by (unfold clear_conn, between; by rewrite (proj2 (Z.leb_gt t 16)), andb_false_r, (proj2 (Z.leb_le 1024 t)), (proj2 (Z.leb_le t 4096)) by lia).
  split; [by eapply clear_conn_inv|done|]. intros sc Hsc. congruence.
Qed.

(** C35: an answer can go to the wrong client.  Take any node whose event loop has taken
    all the server's messages, whatever request is next at its client thread, of whatever
    client, and whatever answer, if it fits a frame, handling it sends first.  When that
    client hangs up before the request is handled and then, whatever else mio reports in
    the meantime, a client that comes later gets its token, the thread handles the request
    and the first message that is queued on the later client's connection, which had got
    none, is the answer to the earlier client's request: the requests that are the later
    client's own all came after those that were there at the hang-up. *)
Theorem answer_to_wrong_client n events acts req res e rest s' sc :
  let n2 := node_run (NodeIo (Ready (tok req) events) :: acts) n in
  let n3 := node_run [NodeWorker CliWorker; NodeNotify] n2 in
  cop_inv (nd_cop n) (nd_env n) -> nd_down n = false -> nd_io_alive n = true -> nd_poisoned n = None ->
  nd_rpc_rx n = length (rpc_tx (nd_server n)) ->
  cli_reqs (nd_env n) !! nd_cli_rx n = Some req -> 1024 <= tok req <= 4096 ->
  handle_event (CliRequest req) (nd_server n) = Done (tt, s') ->
  rpc_tx s' = rpc_tx (nd_server n) ++ e :: rest -> carries (req, res) e -> frameable res ->
  is_hup events = true -> is_readable events = false -> is_writable events = false ->
  Forall is_io acts -> nd_io_alive n2 = true -> slab_get (conns (cli_handler (nd_cop n2))) (tok req) = Some sc ->
  (exists gone ms, conn_in sc ms /\
    from_tok (tok req) (cli_reqs (nd_env n2)) = from_tok (tok req) (cli_reqs (nd_env n)) ++ gone ++ ms) /\ pipe sc = [] /\
  nd_io_alive n3 = true /\
  exists sc' b, slab_get (conns (cli_handler (nd_cop n3))) (tok req) = Some sc' /\ sock sc' = sock sc /\
    write_CliRes res = Some b /\ pipe sc' = frame b.
Proof.
  intros n2 n3 Hi Hd Hal Hp Hrx Hq Ht Eh Hout (b & Hb & ->) (b' & Hb' & Hne & Hsm) Hh Hr Hw Ha Hal2 Hg.
  cbn in Hb. rewrite Hb in Hb'. injection Hb' as <-.
  destruct (hang_up_reused (tok req) events n Hi Hd Hal Ht Hh Hr Hw) as [Hu1 Hw1].
  destruct (io_run_reused _ _ acts _ Ha Hu1) as [Hu2 Hw2]. fold n2 in Hu2, Hw2.
  destruct (transitivity (R := workers_same) Hw1 Hw2) as (Hs & Hcrx & Hrrx & Hpo & Hdo & Hpre).
  change (node_run acts _) with n2 in Hs, Hcrx, Hrrx, Hpo, Hdo, Hpre.
  destruct (ru_conn _ _ _ _ Hu2 sc Hg) as (Hin & Hso & Hbu & Hre). split; [done|]. split; [unfold pipe; by rewrite Hso, Hbu|].
  destruct (queue_res_first b sc Hsm Hre) as [sc' Eq]. pose proof (queue_res_spec _ _ _ Eq Hsm) as (Hpi & Hk & _).
  assert (n3 = node_step NodeNotify (node_step (NodeWorker CliWorker) n2)) as E3 by done. clearbody n3 n2.
  pose proof (prefix_lookup_Some _ _ _ _ Hq Hpre) as Hq2. rewrite <-Hcrx in Hq2.
  unfold node_step at 2 in E3. rewrite Hdo, Hd in E3. unfold worker_step in E3. rewrite Hpo, Hp, bool_decide_eq_false_2 in E3 by done.
  unfold take_request in E3. rewrite Hq2 in E3. unfold lock_and in E3. rewrite Hpo, Hp, Hs, Eh in E3. unfold node_step in E3.
  cbn [nd_down nd_io_alive nd_server nd_rpc_rx] in E3. rewrite Hdo, Hd, Hal2, Hrrx, Hrx, Hout, list_lookup_middle in E3 by done.
  unfold io_step in E3. cbn [handle_io] in E3. rewrite notify_client in E3 by done.
  cbn [fst tok msg next_rpc nd_cop nd_env nd_server] in E3. rewrite Hg, from_slice_bytes, Eq in E3 by done.
  cbn in E3. destruct (reregister _ _ _ _) as [r el]. rewrite E3. cbn -[frame]. split; [done|]. exists sc', b.
  destruct (slab_set_get _ (conns (cli_handler (nd_cop n2))) (tok req) sc' ltac:(by eexists)) as [-> _].
  split_and!; try done. rewrite Hpi. unfold pipe. by rewrite Hso, Hbu.
Qed.
End TokenReuse.
