(* ===== verification/Cluster.v ===== *)
(** * A cluster of servers

    Nodes of server/server.rs and a network between them, after the simulated
    cluster of src/test/cluster.rs: the clocks of all nodes agree, a node is known to
    the others by its index (the token and port of its connection), a broadcast can
    reach every node, and any other envelope the node of its token.  The network may
    deliver what a node has handed to it at any time, any number of times, or not at
    all. *)

From stdpp Require Import base tactics option list numbers strings.
From Stdlib Require Import ZArith Lia.
From S2P Require Import Prelude BTreeMap Crates Messages Protobuf Serialization Clock State AckedLog Server.

(** Times of whole seconds, and the address of a node. *)
Definition at_sec (n : Z) : Timespec := {| sec := n; nsec := 0 |}.
Definition addr (n : Z) : SocketAddr := mkAddr (127, 0, 0, 1) n.

Section Cluster.
Context `{TC : TimeCrate} `{BC : BytesCrate} `{RDB : RocksDB} `{PS : ProtobufStreams}.

Record Cluster : Type := mkCluster {
  cl_time : Z; (** seconds *)
  cl_nodes : list (Server (C := TestClock) (L := InMemoryLog Mutation));
}.

(** The nodes of a cluster, as [run] builds them, with empty stores. *)
Definition start_node (d : DB) (names : list PeerID) (n : nat) (name : PeerID)
    : Server (C := TestClock) (L := InMemoryLog Mutation) :=
  run_init (mkTestClock (at_sec 0)) new_log name d (Z.of_nat n) (65535 - Z.of_nat n) names.
Definition start_cluster (d : DB) (names : list PeerID) : Cluster := mkCluster 0 (imap (start_node d names) names).

Inductive Action : Type :=
| Wait (secs : nat)
| Cron (n : nat)
| Deliver (from k to : nat) (** the [k]-th envelope [from] has sent, to [to] *).

(** An event of the node [n], at the time of the cluster. *)
Definition node_event (c : Cluster) (n : nat) (ev : Event) : option Cluster :=
  s ← cl_nodes c !! n;
  match handle_event ev (set_clock s (mkTestClock (at_sec (cl_time c)))) with
  | Done (_, s') => Some (mkCluster (cl_time c) (<[n := s']> (cl_nodes c)))
  | Panic _ => None
  end.

(** Whom an envelope can reach. *)
Definition reaches (e : Envelope) (to : nat) : bool :=
  match address e with None => true | Some _ => tok e =? Z.of_nat to end.

Definition act (c : Cluster) (a : Action) : option Cluster :=
  match a with
  | Wait secs => Some (mkCluster (cl_time c + Z.of_nat secs) (cl_nodes c))
  | Cron n => node_event c n CronTick
  | Deliver from k to =>
      s ← cl_nodes c !! from;
      e ← rpc_tx s !! k;
      if reaches e to
      then node_event c to (PeerRequest (mkEnvelope (Some (addr (Z.of_nat from))) (Z.of_nat from) (msg e)))
      else None
  end.

Fixpoint acts (c : Cluster) (l : list Action) : option Cluster :=
  match l with
  | [] => Some c
  | a :: l => c ← act c a; acts c l
  end.

(** The nodes that lead, with their terms, and those that lead under a lease that has not run
    out. *)
Definition leaders (c : Cluster) : list (PeerID * option Term) :=
  map (fun s => (id s, state_term (state s))) (filter (fun s => is_leader (state s) = true) (cl_nodes c)).
Definition valid_leaders (c : Cluster) : list (PeerID * option Term) :=
  map (fun s => (id s, state_term (state s)))
    (filter (fun s => is_leader (state s) = true /\ valid_leader (state s) (at_sec (cl_time c)) = true) (cl_nodes c)).
End Cluster.
