(* ===== verification/Scenario.v ===== *)
(** * Concrete servers

    The reference interfaces put together into servers that run: servers of a
    cluster at chosen times, the messages the witnesses and the scenarios exchange, as
    the bytes the generated code writes for them, and the messages in an outbox. *)

From stdpp Require Import base tactics option list numbers strings gmap.
From Stdlib Require Import ZArith Lia.
From S2P Require Import Prelude BTreeMap Crates Reference Messages Protobuf ProtobufRef Serialization.
From S2P Require Import Clock State AckedLog Server ServerFacts Invariant KV Replication ClientApi Cluster.

#[export] Existing Instance ref_TimeCrate.
#[export] Existing Instance ref_TimeLaws.
#[export] Existing Instance ref_BytesCrate.
#[export] Existing Instance ref_BytesLaws.
#[export] Existing Instance ref_RocksDB.
#[export] Existing Instance ref_RocksDBLaws.
#[export] Existing Instance ref_ProtobufRuntime.
#[export] Existing Instance ref_ProtobufStreams.
#[export] Existing Instance ref_ProtobufLaws.

(** ** Servers *)

(** A three-node cluster's node in a given state, at a time the simulator's clock
    stands still at. *)
Definition node (t : Z) (st : State) (rp : BTreeMap PeerID RepPeer) (mx ht : Z)
    (l : InMemoryLog Mutation) : Server (C := TestClock) (L := InMemoryLog Mutation) :=
  mkServer (mkTestClock (at_sec t)) 7777 8888 "a" ["a"; "b"; "c"] rp [] mx ht st ∅ l [].

Definition peer (pid : PeerID) (n : Z) : PeerID * RepPeer :=
  (pid, mkRepPeer 0 0 0 n pid (Some (addr n))).

(** An envelope from the connection [n] with the bytes of a message. *)
Definition peer_env (n : Z) (m : PeerMsg) : Envelope :=
  mkEnvelope (Some (addr n)) n (ref_buf (default [] (write_PeerMsg m))).
Definition cli_env (n : Z) (r : CliReq) : Envelope :=
  mkEnvelope (Some (addr n)) n (ref_buf (default [] (write_to_bytes CliReq_impl r))).

(** The messages in the outbox of a server, to peers and to clients. *)
Definition sent_peer (s : Server (C := TestClock) (L := InMemoryLog Mutation)) : list PeerMsg :=
  omap (fun e => parse_PeerMsg (ByteBuf_bytes (msg e))) (rpc_tx s).
Definition sent_cli (s : Server (C := TestClock) (L := InMemoryLog Mutation)) : list CliRes :=
  omap (fun e => parse_from_bytes CliRes_impl (ByteBuf_bytes (msg e))) (rpc_tx s).

(** ** Running a method *)

Definition ran {A} (o : Outcome A) : bool := match o with Done _ => true | Panic _ => false end.

Definition after (m : M (C := TestClock) (L := InMemoryLog Mutation) ()) (s : Server) : Server :=
  match m s with Done (_, s') => s' | Panic _ => s end.

Lemma after_Done (m : M (C := TestClock) (L := InMemoryLog Mutation) ()) (s : Server) :
  ran (m s) = true -> m s = Done (tt, after m s).
Proof. unfold after. by destruct (m s) as [[[] s']|]. Defined.

(** ** Messages *)

Definition vote_req (from : PeerID) (t llt lax : Z) : PeerMsg :=
  PeerMsg_set_vote_req (PeerMsg_set_srvid PeerMsg_new from)
    (VoteReq_set_last_accepted_txid (VoteReq_set_last_learned_term
       (VoteReq_set_term VoteReq_new t) llt) lax).

Definition vote_res (from : PeerID) (t : Z) (ok : bool) : PeerMsg :=
  PeerMsg_set_vote_res (PeerMsg_set_srvid PeerMsg_new from)
    (VoteRes_set_success (VoteRes_set_term VoteRes_new t) ok).

Definition append_msg (from : PeerID) (ft fx learned : Z) (batch : list Mutation) : PeerMsg :=
  PeerMsg_set_append (PeerMsg_set_srvid PeerMsg_new from)
    (Append_set_batch (Append_set_last_learned_txid
       (Append_set_from_txid (Append_set_from_term Append_new ft) fx) learned) batch).

Definition append_res (from : PeerID) (ok : bool) (t x : Z) : PeerMsg :=
  PeerMsg_set_append_res (PeerMsg_set_srvid PeerMsg_new from)
    (AppendRes_set_last_accepted_txid (AppendRes_set_last_accepted_term
       (AppendRes_set_accepted AppendRes_new ok) t) x).

Definition kv_set (t x : Z) (k v : list Z) : Mutation :=
  Mutation_set_value (Mutation_set_key (Mutation_set_version
    (Mutation_set_field_type Mutation_new KVSET)
    (Version_set_term (Version_set_txid Version_new x) t)) k) v.

Definition cli_set (r : Z) (k v : list Z) : CliReq :=
  CliReq_set_set (CliReq_set_req_id CliReq_new r) (SetReq_set_value (SetReq_set_key SetReq_new k) v).
Definition cli_get (r : Z) (k : list Z) : CliReq :=
  CliReq_set_get (CliReq_set_req_id CliReq_new r) (GetReq_set_key GetReq_new k).
Definition cli_cas (r : Z) (k v : list Z) : CliReq :=
  CliReq_set_cas (CliReq_set_req_id CliReq_new r) (CASReq_set_new_value (CASReq_set_key CASReq_new k) v).

(** A log with two accepted entries, the first one acked by its leader. *)
Definition two_entries : InMemoryLog Mutation :=
  mkLog [(1, mkAcked ["a"] (mkLogEntry 1 1 0 0 (kv_set 1 1 [1] [10])));
         (2, mkAcked [] (mkLogEntry 2 1 1 1 (kv_set 1 2 [2] [20])))] [] 2 0 0 2 1.

Lemma two_entries_wf : log_wf two_entries.
Proof.
  split_and!; [|constructor|done].
  repeat first [apply NoDup_singleton | apply NoDup_nil_2 | done | constructor].
Defined.

(** A leader of term 1 whose lease ends at second 12, and a follower of "b". *)
Definition leader_a (t : Z) : Server :=
  node t (Leader 1 [] 2 (at_sec 12)) [peer "b" 11; peer "c" 12] 2 1 two_entries.
Definition follower_a (t : Z) : Server :=
  node t (Follower 1 "b" 11 (addr 11) (at_sec 12)) [] 0 1 (new_log 2).
Definition candidate_a (t : Z) (have : list Token) : Server :=
  node t (Candidate 1 have 2 (at_sec 12)) [] 0 1 (new_log 2).

Lemma leader_a_inv t : server_inv (leader_a t).
Proof.
  split; cbn; auto using two_entries_wf.
  - repeat constructor.
  - repeat constructor; done.
  - constructor.
  - split_and!; [constructor|done|by left].
Defined.

Lemma candidate_a_inv t : server_inv (candidate_a t [10]).
Proof.
  split; cbn; auto using new_log_wf; try constructor.
  - apply NoDup_singleton.
  - split; [done|]. right. done.
Defined.

Lemma follower_a_inv t : server_inv (follower_a t).
Proof. split; cbn; auto using new_log_wf; constructor. Defined.

(** A leader alone in its cluster, with a given store. *)
Definition solo_a (d : gmap (list Z) (list Z)) : Server (C := TestClock) (L := InMemoryLog Mutation) :=
  mkServer (mkTestClock (at_sec 0)) 7777 8888 "a" ["a"] [] [] 0 1 (Leader 1 [] 1 (at_sec 12)) d (new_log 1) [].

Lemma solo_a_solo d : solo 1 (solo_a d).
Proof.
  split; try done. split; cbn; auto using new_log_wf, bt_wf_nil.
  split_and!; [constructor|done|by left].
Defined.
