(* ===== verification/NodeRuns.v ===== *)
(** * Nodes that run

    A lone leader with its event loop on the reference sockets: instances of the
    theorems about nodes. *)

From stdpp Require Import base tactics option list numbers strings gmap.
From Stdlib Require Import ZArith Lia.
From S2P Require Import Prelude BTreeMap Crates Reference Messages Protobuf ProtobufRef Serialization Codec Mio.
From S2P Require Import Clock State Connections ConnectionFacts ConnectionRuns AckedLog Server ServerFacts Invariant.
From S2P Require Import KV Replication ClientApi Node NodeFacts NodeService TokenReuse Scenario.

#[local] Existing Instance ref_Mio.
#[local] Existing Instance ref_MioLaws.

Abbreviation TestNode := (Node (C := TestClock) (L := InMemoryLog Mutation)).

(** The bytes of a request on its socket. *)
Definition cli_bytes (r : CliReq) : list Z := frame (default [] (write_to_bytes CliReq_impl r)).

(** A lone leader whose clients will come with the given sockets. *)
Definition solo_node (clients : list TcpStream) : TestNode :=
  node_init (solo_a ∅) (TrafficCop_new clients [] []) ([] : EventLoop).

Lemma solo_node_fresh clients : fresh_node 1 (solo_node clients).
Proof. split; [apply solo_a_solo|apply TrafficCop_new_inv|done..]. Defined.

(** Two clients.  The first sends a set, in two pieces, the second a get, which is
    handled last. *)
Definition two_clients : list TcpStream :=
  [script [take 5 (cli_bytes (cli_set 7 [1] [2])); drop 5 (cli_bytes (cli_set 7 [1] [2]))] [4; 100]%nat;
   script [cli_bytes (cli_get 8 [1])] [100]%nat].

Definition visit : list NodeAction :=
  [NodeIo (Ready 0 es_readable); NodeIo (Ready 0 es_readable);
   NodeIo (Ready 1024 es_readable); NodeIo (Ready 1024 es_readable); NodeIo (Ready 1025 es_readable);
   NodeWorker CliWorker; NodeNotify; NodeIo (Ready 1024 es_writable); NodeWorker CliWorker; NodeNotify;
   NodeIo (Ready 1024 es_writable); NodeWorker PeerWorker; NodeWorker CronWorker].

(** Writing to a reference socket does not fail, so that a run is calm as far as its
    reports are of no error. *)
Lemma ref_writes t cop : writes_well t cop.
Proof. intros sc _ (b & e & k' & b' & Hw). cbn in Hw. unfold ref_sock_write in Hw. by destruct (rk_writes (sock sc)). Defined.

Lemma ref_calm t events cop env : is_hup events || is_error events = false -> calm (Ready t events) cop env.
Proof. intros He. split; [exact He|]. intros cop1 env1 _ _. apply ref_writes. Defined.

Lemma visit_calm : calm_run visit (solo_node two_clients).
Proof.
  unfold visit. repeat (split; [first [exact I|apply ref_calm; reflexivity|vm_compute; reflexivity|eexists; vm_compute; reflexivity]|]). exact I.
Defined.

(** The answers a connection has got, written or not. *)
Definition answers_of (n : TestNode) (t : Token) : list Z :=
  match slab_get (conns (cli_handler (nd_cop n))) t with Some sc => pipe sc | None => [] end.

(** Sizes, as functions. *)
Lemma small_all (l : list Envelope) :
  forallb (fun e => 4 + Z.of_nat (length (ByteBuf_bytes (msg e))) <? 2 ^ 32) l = true -> Forall small l.
Proof.
  induction l as [|e l IH]; cbn; [constructor|]. intros [He%Z.ltb_lt Hl]%andb_true_iff. constructor; [exact He|by apply IH].
Defined.

Lemma frameable_all (l : list CliRes) :
  forallb (fun res => match write_CliRes res with
    | Some b => negb (bool_decide (b = [])) && (4 + Z.of_nat (length b) <? 2 ^ 32) | None => false end) l = true ->
  Forall frameable l.
Proof.
  induction l as [|res l IH]; cbn [forallb]; [constructor|]. intros [Hr Hl]%andb_true_iff. constructor; [|by apply IH].
  destruct (write_CliRes res) as [b|] eqn:E; [|done]. apply andb_true_iff in Hr as [Hb Hs%Z.ltb_lt].
  apply negb_true_iff, bool_decide_eq_false in Hb. exists b. split_and!; [exact E|exact Hb|exact Hs].
Defined.

Lemma visit_load :
  let n := node_run visit (solo_node two_clients) in
  load 1 ∅ 0 (cli_reqs (nd_env n)) [cli_set 7 [1] [2]; cli_get 8 [1]].
Proof.
  split; [|apply frameable_all; vm_compute; reflexivity|done].
  apply (mapM_Some_1 (fun e => parse_CliReq (ByteBuf_bytes (msg e)))). vm_compute. reflexivity.
Defined.

Lemma solo_node_serves_witness :
  let n := node_run visit (solo_node two_clients) in
  nd_poisoned n = None /\ (spec_of (nd_server n)).1 = {[ [1] := [2] ]} /\
  answers_of n 1024 <> [] /\ answers_of n 1025 <> [].
Proof.
  intros n. destruct (solo_node_serves 1 visit (solo_node two_clients) [cli_set 7 [1] [2]; cli_get 8 [1]]
    (solo_node_fresh two_clients) visit_calm visit_load) as (Hp & Hs & _).
  split_and!; [exact Hp|refine (eq_trans (f_equal fst Hs) _); vm_compute; reflexivity|by vm_compute..].
Defined.

(** ** The invariant, and the end of a node *)

(** The same clients, at a node that has just been started. *)
Definition started : TestNode :=
  node_init (run_init TestClock_new new_log "a" (∅ : DB) 7777 8888 ["a"; "b"; "c"])
    (TrafficCop_new two_clients [] []) ([] : EventLoop).

Lemma node_invariant_witness :
  let n := node_run (visit ++ [NodeWorker CronWorker; NodeNotify]) started in
  node_inv n /\ nd_cli_rx n = 2%nat /\ nd_rpc_rx n = 3%nat /\ length (peer_reqs (nd_env n)) = 0%nat.
Proof.
  intros n. split; [|split_and!; vm_compute; reflexivity].
  refine (node_invariant TestClock_new new_log "a" (∅ : DB) 7777 8888 ["a"; "b"; "c"] two_clients [] [] ([] : EventLoop)
    (visit ++ [NodeWorker CronWorker; NodeNotify]) new_log_wf (fun q => eq_refl) _).
  apply small_all. vm_compute. reflexivity.
Defined.

(** A client sends what is not a request. *)
Definition garbage : list NodeAction :=
  [NodeIo (Ready 0 es_readable); NodeIo (Ready 1024 es_readable); NodeWorker CliWorker].
Definition poisoned_node : TestNode := node_run garbage (solo_node [script [frame [255]] []]).

Lemma panic_shuts_down_witness :
  nd_poisoned poisoned_node = Some CliWorker /\
  nd_down (node_run [NodeIo (Ready 0 es_writable); NodeWorker CliWorker; NodeWorker CronWorker] poisoned_node) = true /\
  nd_down (node_run [NodeWorker CliWorker] poisoned_node) = false.
Proof.
  assert (nd_poisoned poisoned_node = Some CliWorker) as Hp by (vm_compute; reflexivity). split_and!; [exact Hp|..].
  - refine (proj1 (panic_shuts_down poisoned_node _ CliWorker) Hp _ _); [done|]. repeat constructor.
  - refine (proj2 (proj2 (panic_shuts_down poisoned_node [NodeWorker CliWorker] CliWorker)) Hp _).
    repeat constructor. by intros w' [= <-].
Defined.

(** ** The wrong client *)

(** A client sends a get; the client thread has not come to it yet. *)
Definition one_waits : TestNode :=
  node_run [NodeIo (Ready 0 es_readable); NodeIo (Ready 1024 es_readable)]
    (solo_node [script [cli_bytes (cli_get 7 [1])] []; script [cli_bytes (cli_get 8 [1])] [100]%nat]).

Definition next_comes : list NodeAction := [NodeIo (Ready 0 es_readable); NodeIo (Ready 1024 es_readable)].

Lemma one_waits_inv : cop_inv (nd_cop one_waits) (nd_env one_waits).
Proof.
  refine (ni_cop _ (run_inv _ _ _ _)).
  - apply small_all. vm_compute. reflexivity.
  - split; [exact (solo_inv _ _ (solo_a_solo _))|apply TrafficCop_new_inv|exact (le_n 0)..].
Defined.

(** It hangs up; another one comes, gets its token and sends a get of its own, and is sent
    the answer to the first. *)
Lemma answer_to_wrong_client_witness :
  let n := node_run [NodeIo (Ready 1024 es_hup); NodeIo (Ready 0 es_readable); NodeIo (Ready 1024 es_readable);
                     NodeWorker CliWorker; NodeNotify] one_waits in
  exists sc b res, slab_get (conns (cli_handler (nd_cop n))) 1024 = Some sc /\
    sock_in (sock sc) = cli_bytes (cli_get 8 [1]) /\ pipe sc = frame b /\ parse_from_bytes CliRes_impl b = Some res /\
    CliRes_get_req_id res = 7.
Proof.
  intros n. set (req := default (mkEnvelope None 0 (ref_buf [])) (cli_reqs (nd_env one_waits) !! 0%nat)).
  set (s' := after (handle_event (CliRequest req)) (nd_server one_waits)).
  set (res := CliRes_set_get (answer_to (cli_get 7 [1])) (get_response (GetReq_set_key GetReq_new [1]) ∅ 0)).
  set (e := default req (head (rpc_tx s'))).
  set (b := default [] (write_CliRes res)).
  assert (exists sc, slab_get (conns (cli_handler (nd_cop (node_run (NodeIo (Ready (tok req) es_hup) :: next_comes) one_waits)))) (tok req) = Some sc)
    as [sc Hsc] by (eexists; vm_compute; reflexivity).
  assert ((fun sc => sock_in (sock sc)) <$>
    slab_get (conns (cli_handler (nd_cop (node_run (NodeIo (Ready (tok req) es_hup) :: next_comes) one_waits)))) (tok req) =
    Some (cli_bytes (cli_get 8 [1]))) as Hin by (vm_compute; reflexivity).
  rewrite Hsc in Hin.
  destruct (answer_to_wrong_client one_waits es_hup next_comes req res e [] s' sc) as (_ & _ & _ & sc' & b' & Hg & Hk & Hb & Hp).
  - exact one_waits_inv.
  - vm_compute. reflexivity.
  - vm_compute. reflexivity.
  - vm_compute. reflexivity.
  - vm_compute. reflexivity.
  - vm_compute. reflexivity.
  - vm_compute. split; discriminate.
  - apply after_Done. vm_compute. reflexivity.
  - vm_compute. reflexivity.
  - exists b. split; vm_compute; reflexivity.
  - exists b. split_and!; [vm_compute; reflexivity|vm_compute; discriminate|vm_compute; reflexivity].
  - reflexivity.
  - reflexivity.
  - reflexivity.
  - repeat constructor.
  - vm_compute. reflexivity.
  - exact Hsc.
  - exists sc', b', res. split_and!; [exact Hg| |exact Hp| |reflexivity].
    + rewrite Hk. exact (f_equal (default []) Hin).
    + vm_compute in Hb. injection Hb as <-. vm_compute. reflexivity.
Defined.
