(* ===== verification/Client.v ===== *)
(** * The client library

    client/mod.rs: requests of the four kinds, sent to one server after the other until
    one gives an answer that is not a redirection.  [send_to] and [recv_into] loop on
    the stream without a bound; [None] is a loop that has used up its fuel.  [inr] is an
    [Err]. *)

From stdpp Require Import base tactics option list numbers strings.
From Stdlib Require Import ZArith Lia.
From S2P Require Import Prelude BTreeMap Crates Messages Protobuf Serialization Codec Mio RangeBounds State Connections.

Abbreviation IoResult A := (sum A IoError).

(** What the client calls of mio's [TcpStream] to connect, and of the threadpool crate.
    [Net] is the rest of the world. *)
Class ClientCrates `{MC : MioCrate} : Type := {
  Net : Type;
  stream_connect : SocketAddr -> Net -> (TcpStream + IoError) * Net;
  ThreadPool : Type;
  ThreadPool_new : Z -> ThreadPool;
}.

(** A new stream, and nothing went through it. *)
Class ClientLaws `{CC : ClientCrates} : Prop :=
  stream_connect_fresh : forall a net k net', stream_connect a net = (inl k, net') -> sock_in k = [] /\ sock_out k = [].

Section Client.
Context `{BC : BytesCrate} {MC : MioCrate} {CC : ClientCrates} `{PS : ProtobufStreams}.

Record Client : Type := mkClient {
  servers : list SocketAddr;
  ranges : BTreeMap RangeBounds SocketAddr;
  pool : ThreadPool;
  req_counter : Z;
}.

Definition Client_new (servers : list SocketAddr) (nthreads : Z) : Client :=
  mkClient servers [] (ThreadPool_new nthreads) 0.

Definition get_id (c : Client) : Outcome (Z * Client) :=
  n ← u64_add (req_counter c) 1;
  Done (n, mkClient (servers c) (ranges c) (pool c) n).

Fixpoint send_to (fuel : nat) (stream : TcpStream) (buf : ByteBuf) : option (IoResult unit * TcpStream * ByteBuf) :=
  match fuel with
  | O => None
  | S fuel =>
      let '(r, stream, buf) := sock_try_write_buf stream buf in
      match r with
      | inl None => send_to fuel stream buf
      | inl (Some _) => if ByteBuf_remaining buf =? 0 then Some (inl tt, stream, buf) else send_to fuel stream buf
      | inr e => Some (inr e, stream, buf)
      end
  end.

(** What a read returns is not looked at. *)
Fixpoint recv_into {S T : Type} `{Codec S ByteBuf T} (fuel : nat) (stream : TcpStream) (codec : S)
    : option (Outcome (IoResult T * TcpStream * S)) :=
  match fuel with
  | O => None
  | Datatypes.S fuel =>
      let '(_, stream, res_buf) := sock_try_read_buf stream (mut_with_capacity 1024) in
      match codec_decode codec (MutByteBuf_flip res_buf) with
      | Panic e => Some (Panic e)
      | Done (codec, _, [t]) => Some (Done (inl t, stream, codec))
      | Done (codec, _, _) => recv_into fuel stream codec
      end
  end.

(** The body of the loop of [req] for a server that was connected to; [inr] is a
    [continue], with the stream that is dropped. *)
Definition exchange (fuel : nat) (stream : TcpStream) (req : CliReq) : option (Outcome (CliRes + TcpStream)) :=
  let codec := Framed_new in
  match (b ← unwrap (write_to_bytes CliReq_impl req); codec_encode codec (ByteBuf_from_slice b)) with
  | Panic e => Some (Panic e)
  | Done msg =>
      '(r, stream, _) ← send_to fuel stream msg;
      match r with
      | inr _ => Some (Done (inr stream))
      | inl _ =>
          r ← recv_into fuel stream codec;
          Some ('(r, stream, _) ← r;
            match r with
            | inr _ => Done (inr stream)
            | inl res_buf =>
                cli_res ← unwrap (parse_from_bytes CliRes_impl (ByteBuf_bytes res_buf));
                if CliRes_has_redirect cli_res then Done (inr stream) else Done (inl cli_res)
            end)
      end
  end.

(** The loop of [req] over the servers. *)
Fixpoint req (fuel : nat) (peers : list SocketAddr) (r : CliReq) (net : Net) : option (Outcome (IoResult CliRes * Net)) :=
  match peers with
  | [] => Some (Done (inr (OtherError "unable to reach any servers!"), net))
  | peer :: peers =>
      match stream_connect peer net with
      | (inr _, net) => req fuel peers r net
      | (inl stream, net) =>
          match exchange fuel stream r with
          | None => None
          | Some (Panic e) => Some (Panic e)
          | Some (Done (inl res)) => Some (Done (inl res, net))
          | Some (Done (inr _)) => req fuel peers r net
          end
      end
  end.

(** A request with the next id, and [map] on its result. *)
Definition request {A} (fuel : nat) (r : CliReq) (f : CliRes -> A) (c : Client) (net : Net)
    : option (Outcome (IoResult A * Client * Net)) :=
  match get_id c with
  | Panic e => Some (Panic e)
  | Done (i, c) =>
      o ← req fuel (servers c) (CliReq_set_req_id r i) net;
      Some ('(res, net) ← o; Done (match res with inl res => inl (f res) | inr e => inr e end, c, net))
  end.

Definition Client_set (fuel : nat) (key value : list Z) : Client -> Net -> option (Outcome (IoResult SetRes * Client * Net)) :=
  let set := SetReq_set_value (SetReq_set_key SetReq_new key) value in
  request fuel (CliReq_set_set CliReq_new set) CliRes_get_set.

Definition Client_get (fuel : nat) (key : list Z) : Client -> Net -> option (Outcome (IoResult GetRes * Client * Net)) :=
  request fuel (CliReq_set_get CliReq_new (GetReq_set_key GetReq_new key)) CliRes_get_get.

Definition Client_cas (fuel : nat) (key old_value new_value : list Z)
    : Client -> Net -> option (Outcome (IoResult CASRes * Client * Net)) :=
  let cas := CASReq_set_new_value (CASReq_set_old_value (CASReq_set_key CASReq_new key) old_value) new_value in
  request fuel (CliReq_set_cas CliReq_new cas) CliRes_get_cas.

Definition Client_del (fuel : nat) (key : list Z) : Client -> Net -> option (Outcome (IoResult DelRes * Client * Net)) :=
  request fuel (CliReq_set_del CliReq_new (DelReq_set_key DelReq_new key)) CliRes_get_del.
End Client.
