(* ===== verification/ClientFacts.v ===== *)
(** * What the client library promises

    A request goes to the servers in order, past those that cannot be reached or send a
    redirection, and returns the first other answer ([client_answered]); a server that
    takes the request and then gives no answer of its own is waited for without end
    ([client_waits_forever]). *)

From stdpp Require Import base tactics option list numbers strings.
From Stdlib Require Import ZArith Lia.
From S2P Require Import Prelude BTreeMap Crates Messages Protobuf Serialization Codec Mio RangeBounds State ConnectionFacts Client.

Section ClientFacts.
Context `{BL : BytesLaws} {MC : MioCrate} {ML : MioLaws} {CC : ClientCrates} {CL : ClientLaws} `{PS : ProtobufStreams}.

(** ** Streams *)

(** The writes of [send_to]: the stream takes the whole buffer, or fails. *)
Inductive takes : TcpStream -> ByteBuf -> IoResult unit -> TcpStream -> Prop :=
| takes_last k b n k' b' :
    sock_try_write_buf k b = (inl (Some n), k', b') -> ByteBuf_bytes b' = [] -> takes k b (inl tt) k'
| takes_error k b e k' b' : sock_try_write_buf k b = (inr e, k', b') -> takes k b (inr e) k'
| takes_part k b n k1 b1 r k' :
    sock_try_write_buf k b = (inl (Some n), k1, b1) -> ByteBuf_bytes b1 <> [] -> takes k1 b1 r k' -> takes k b r k'
| takes_blocked k b k1 b1 r k' : sock_try_write_buf k b = (inl None, k1, b1) -> takes k1 b1 r k' -> takes k b r k'.

Lemma remaining_zero b : (ByteBuf_remaining b =? 0) = bool_decide (ByteBuf_bytes b = []).
Proof. rewrite remaining_bytes. by destruct (ByteBuf_bytes b). Qed.

(** A loop that needs [f0] turns. *)
Definition after_turns {A} (f : nat -> option A) (a : A) : Prop :=
  exists f0, forall fuel, f fuel = if (fuel <? f0)%nat then None else Some a.

Lemma turns_now {A} (f : nat -> option A) a : f 0%nat = None -> (forall fuel, f (S fuel) = Some a) -> after_turns f a.
Proof. intros H0 Hs. exists 1%nat. by intros [|fuel]. Qed.

Lemma turns_later {A} (f g : nat -> option A) a :
  f 0%nat = None -> (forall fuel, f (S fuel) = g fuel) -> after_turns g a -> after_turns f a.
Proof. intros H0 Hs [f0 Hg]. exists (S f0). intros [|fuel]; [done|]. by rewrite Hs, Hg. Qed.

Lemma takes_send k b r k' : takes k b r k' -> exists b', after_turns (fun fuel => send_to fuel k b) (r, k', b').
Proof.
  induction 1 as [k b n k' b' E Hb|k b e k' b' E|k b n k1 b1 r k' E Hb _ (b' & Hs)|k b k1 b1 r k' E _ (b' & Hs)]; exists b'.
  - apply turns_now; [done|]. intros fuel. cbn. by rewrite E, remaining_zero, bool_decide_eq_true_2.
  - apply turns_now; [done|]. intros fuel. cbn. by rewrite E.
  - eapply turns_later; [done| |done]. intros fuel. cbn. by rewrite E, remaining_zero, bool_decide_eq_false_2.
  - eapply turns_later; [done| |done]. intros fuel. cbn. by rewrite E.
Qed.

Lemma takes_out k b k' : takes k b (inl tt) k' -> sock_out k' = sock_out k ++ ByteBuf_bytes b.
Proof.
  intros Ht. remember (inl tt) as r eqn:Er. induction Ht as [k b n k' b' E Hb| |k b n k1 b1 r k' E Hb _ IH|k b k1 b1 r k' E _ IH]; [|done|..].
  - apply sock_write_some in E as (w & -> & _ & -> & _). by rewrite Hb, app_nil_r.
  - apply sock_write_some in E as (w & -> & _ & Hw & _). by rewrite IH, Hw, app_assoc.
  - apply sock_write_block in E as (Hb & Hw & _). by rewrite IH, Hw, Hb.
Qed.

(** The reads of [recv_into]: the stream gives the bytes [l], the last of them with the
    last read. *)
Inductive gives : TcpStream -> list Z -> TcpStream -> Prop :=
| gives_last k r k' m l :
    sock_try_read_buf k (mut_with_capacity 1024) = (r, k', m) -> MutByteBuf_bytes m = l -> l <> [] -> gives k l k'
| gives_more k r k1 m l l' k' :
    sock_try_read_buf k (mut_with_capacity 1024) = (r, k1, m) -> MutByteBuf_bytes m = l -> gives k1 l' k' ->
    gives k (l ++ l') k'.

Lemma read_spec k r k' m : sock_try_read_buf k (mut_with_capacity 1024) = (r, k', m) ->
  sock_out k' = sock_out k /\ is_bytes (MutByteBuf_bytes m).
Proof.
  intros E. destruct (sock_read_view _ _ _ _ _ _ _ (mut_with_capacity_view 1024 eq_refl) E) as (b & r' & [Hv _] & _ & Ho & Hb).
  cbn in Hv. by rewrite Hv.
Qed.

Lemma gives_out k l k' : gives k l k' -> sock_out k' = sock_out k /\ l <> [].
Proof.
  induction 1 as [k r k' m l E _ Hl|k r k1 m l l' k' E _ _ (Ho & Hl)]; destruct (read_spec _ _ _ _ E) as [Ho' _]; [done|].
  split; [by rewrite Ho, Ho'|]. by intros [_ ?]%app_nil.
Qed.

(** One turn of [recv_into]. *)
Lemma recv_turn k codec acc : framed_rep codec acc -> is_bytes acc ->
  exists r k' m codec' out rest, sock_try_read_buf k (mut_with_capacity 1024) = (r, k', m) /\
    frames (acc ++ MutByteBuf_bytes m) (map ByteBuf_bytes out) rest /\ framed_rep codec' rest /\ is_bytes rest /\
    forall fuel, recv_into (S fuel) k codec =
      match out with [t] => Some (Done (inl t, k', codec')) | _ => recv_into fuel k' codec' end.
Proof.
  intros Hr Hb. destruct (sock_try_read_buf k (mut_with_capacity 1024)) as [[r k'] m] eqn:E.
  destruct (read_spec _ _ _ _ E) as [_ Hm].
  assert (is_bytes (acc ++ MutByteBuf_bytes m)) as Hbm by (by apply is_bytes_app).
  destruct (decode_spec codec (MutByteBuf_flip m) acc Hr) as (codec' & buf & out & rest & Ed & Hf & _ & Hr'); [by rewrite flip_bytes|].
  rewrite flip_bytes in Hf. exists r, k', m, codec', out, rest. split_and!; [done..|by eapply frames_bytes|].
  intros fuel. cbn. rewrite E, Ed. by destruct out as [|t [|t' out]].
Qed.

Lemma frame_frames m : 4 + Z.of_nat (length m) < 2 ^ 32 -> frames (frame m) [m] [].
Proof. intros Hm. rewrite <-(app_nil_r (frame m)). apply (frames_concat [m]). constructor; [lia|constructor]. Qed.

(** Bytes that stop short of the end of a frame hold no message. *)
Lemma short_frame m acc b l : 4 + Z.of_nat (length m) < 2 ^ 32 -> frame m = acc ++ b ++ l -> l <> [] ->
  forall ms rest, frames (acc ++ b) ms rest -> ms = [] /\ rest = acc ++ b.
Proof.
  intros Hm E Hl ms rest Hf. pose proof (frame_frames m Hm) as Hfm.
  rewrite E, app_assoc in Hfm. pose proof (frames_prefix _ _ _ _ _ _ Hf Hfm) as Hp.
  destruct ms as [|m1 ms]; [split; [done|by inversion Hf]|]. apply prefix_cons_inv_1 in Hp as Heq.
  apply prefix_cons_inv_2, prefix_nil_inv in Hp as ->. subst m1. exfalso.
  inversion Hf as [|h m' l' ms' r' Hh Hlen Hf' Eq]; subst. rewrite app_assoc in E. rewrite <-Eq in E. unfold frame in E.
  apply (f_equal length) in E. rewrite !length_app in E. cbn in E. destruct l; [done|cbn in E; lia].
Qed.

(** An answer that comes on its own is returned. *)
Lemma gives_recv m l acc k k' codec : gives k l k' -> frame m = acc ++ l -> 4 + Z.of_nat (length m) < 2 ^ 32 ->
  framed_rep codec acc -> is_bytes acc ->
  exists b codec', ByteBuf_bytes b = m /\ after_turns (fun fuel => recv_into fuel k codec) (Done (inl b, k', codec')).
Proof.
  intros Hg. revert acc codec. induction Hg as [k r k' b l E Eb Hl|k r k1 b l l' k' E Eb Hg IH]; intros acc codec Ef Hm Hr Hba;
    destruct (recv_turn k codec acc Hr Hba) as (r' & k2 & b' & codec' & out & rest & E' & Hf & Hr' & Hbr & Ht);
    rewrite E in E'; injection E' as <- <- <-; rewrite Eb in Hf.
  - rewrite <-Ef in Hf. destruct (frames_det _ _ _ _ _ Hf (frame_frames m Hm)) as [Ho _]. destruct out as [|t [|t' out]]; try done. injection Ho as Ho.
    exists t, codec'. split; [done|]. by apply turns_now.
  - apply gives_out in Hg as (_ & Hne). destruct (short_frame m acc l l' Hm Ef Hne _ _ Hf) as [Ho ->].
    destruct out; [|done]. rewrite app_assoc in Ef.
    destruct (IH _ codec' Ef Hm Hr' Hbr) as (t & codec2 & Hb & Hrec). exists t, codec2. split; [done|].
    eapply turns_later; [done|exact Ht|exact Hrec].
Qed.

(** ** Requests *)

(** The server at [p] is connected to, takes the request [r] and sends [res]. *)
Record answers (r : CliReq) (net : Net) (p : SocketAddr) (res : CliRes) (k' : TcpStream) (net' : Net) : Prop := {
  an_answer : exists k b msg k1 m, stream_connect p net = (inl k, net') /\ write_to_bytes CliReq_impl r = Some b /\
    encode (ByteBuf_from_slice b) = Done msg /\ takes k msg (inl tt) k1 /\ gives k1 (frame m) k' /\
    4 + Z.of_nat (length m) < 2 ^ 32 /\ parse_from_bytes CliRes_impl m = Some res;
}.

(** Servers that cannot be reached, or sent to, or that redirect the client. *)
Inductive passes (r : CliReq) : Net -> list SocketAddr -> Net -> Prop :=
| passes_nil net : passes r net [] net
| passes_unreachable p e net net1 ps net' :
    stream_connect p net = (inr e, net1) -> passes r net1 ps net' -> passes r net (p :: ps) net'
| passes_broken p net k b msg e k1 net1 ps net' :
    stream_connect p net = (inl k, net1) -> write_to_bytes CliReq_impl r = Some b ->
    encode (ByteBuf_from_slice b) = Done msg -> takes k msg (inr e) k1 -> passes r net1 ps net' -> passes r net (p :: ps) net'
| passes_redirect p res net k net1 ps net' :
    answers r net p res k net1 -> CliRes_has_redirect res = true -> passes r net1 ps net' -> passes r net (p :: ps) net'.

Lemma turns_bind {A B} (f : nat -> option A) (g : nat -> A -> option B) a b :
  after_turns f a -> after_turns (fun fuel => g fuel a) b -> after_turns (fun fuel => f fuel ≫= g fuel) b.
Proof.
  intros [f0 Hf] [g0 Hg]. exists (Nat.max f0 g0). intros fuel. rewrite Hf.
  destruct (Nat.ltb_spec fuel f0), (Nat.ltb_spec fuel (Nat.max f0 g0)); cbn; try lia; try done; rewrite Hg;
    destruct (Nat.ltb_spec fuel g0); try lia; done.
Qed.

Lemma turns_const {A} (a : A) : after_turns (fun _ => Some a) a.
Proof. by exists 0%nat. Qed.

Lemma turns_ext {A} (f g : nat -> option A) a : (forall fuel, f fuel = g fuel) -> after_turns g a -> after_turns f a.
Proof. intros Hfg [f0 Hg]. exists f0. intros fuel. by rewrite Hfg. Qed.

Lemma answers_exchange r net p res k' net' : answers r net p res k' net' ->
  exists k, stream_connect p net = (inl k, net') /\
    after_turns (fun fuel => exchange fuel k r) (Done (if CliRes_has_redirect res then inr k' else inl res)).
Proof.
  intros [(k & b & msg & k1 & m & Hc & Hw & He & Ht & Hg & Hm & Hp)]. exists k. split; [done|].
  destruct (takes_send _ _ _ _ Ht) as (b1 & Hs).
  destruct (gives_recv m (frame m) [] k1 k' Framed_new Hg eq_refl Hm Framed_new_rep ltac:(constructor)) as (b2 & codec & Hb & Hr).
  eapply turns_ext; [intros fuel; unfold exchange; rewrite Hw; cbn; rewrite He; reflexivity|].
  eapply turns_bind; [exact Hs|]. eapply turns_bind; [exact Hr|]. cbn. rewrite Hb, Hp. cbn.
  destruct (CliRes_has_redirect res); apply turns_const.
Qed.

(** A server that was connected to and skipped. *)
Lemma skip_req r net p k k' net1 ps (o : Outcome (IoResult CliRes * Net)) :
  stream_connect p net = (inl k, net1) -> after_turns (fun fuel => exchange fuel k r) (Done (inr k')) ->
  after_turns (fun fuel => req fuel ps r net1) o -> after_turns (fun fuel => req fuel (p :: ps) r net) o.
Proof.
  intros Hc [f0 Hx] [f1 Hf]. exists (Nat.max f0 f1). intros fuel. cbn [req]. rewrite Hc, Hx.
  destruct (Nat.ltb_spec fuel f0), (Nat.ltb_spec fuel (Nat.max f0 f1)); cbn; try lia; try done; rewrite Hf;
    destruct (Nat.ltb_spec fuel f1); try lia; done.
Qed.

Lemma broken_exchange r k b msg e k1 : write_to_bytes CliReq_impl r = Some b ->
  encode (ByteBuf_from_slice b) = Done msg -> takes k msg (inr e) k1 ->
  after_turns (fun fuel => exchange fuel k r) (Done (inr k1)).
Proof.
  intros Hw He Ht. destruct (takes_send _ _ _ _ Ht) as (b1 & Hs).
  eapply turns_ext; [intros fuel; unfold exchange; rewrite Hw; cbn; rewrite He; reflexivity|].
  eapply turns_bind; [exact Hs|]. apply turns_const.
Qed.

Lemma passes_req r net ps net' : passes r net ps net' -> forall rest (o : Outcome (IoResult CliRes * Net)),
  after_turns (fun fuel => req fuel rest r net') o -> after_turns (fun fuel => req fuel (ps ++ rest) r net) o.
Proof.
  induction 1 as [net|p e net net1 ps net' Hc _ IH|p net k b msg e k1 net1 ps net' Hc Hw He Ht _ IH|p res net k net1 ps net' Ha Hr _ IH];
    intros rest o Ho; [done|cbn; rewrite Hc; by apply IH|..].
  - eapply skip_req; [exact Hc|by eapply broken_exchange|by apply IH].
  - destruct (answers_exchange _ _ _ _ _ _ Ha) as (k0 & Hc & Hx). rewrite Hr in Hx.
    eapply skip_req; [exact Hc|exact Hx|by apply IH].
Qed.

Lemma answers_req r net p res k net' rest : answers r net p res k net' -> CliRes_has_redirect res = false ->
  after_turns (fun fuel => req fuel (p :: rest) r net) (Done (inl res, net')).
Proof.
  intros Ha Hr. destruct (answers_exchange _ _ _ _ _ _ Ha) as (k0 & Hc & [f0 Hx]). rewrite Hr in Hx. exists f0.
  intros fuel. cbn [req]. rewrite Hc, Hx. by destruct (fuel <? f0)%nat.
Qed.

Definition with_id (body : CliReq) (c : Client) : CliReq := CliReq_set_req_id body (req_counter c + 1).
Definition next_client (c : Client) : Client := mkClient (servers c) (ranges c) (pool c) (req_counter c + 1).

Lemma get_id_run c : 0 <= req_counter c < u64_max -> get_id c = Done (req_counter c + 1, next_client c).
Proof. intros Hc. unfold get_id, u64_add, checked.
  rewrite (proj2 (Z.leb_le 0 _)), (proj2 (Z.leb_le _ u64_max)) by lia. done. Qed.

Lemma request_run {A} body (f : CliRes -> A) c net res net' : 0 <= req_counter c < u64_max ->
  after_turns (fun fuel => req fuel (servers c) (with_id body c) net) (Done (res, net')) ->
  after_turns (fun fuel => request fuel body f c net)
    (Done (match res with inl res => inl (f res) | inr e => inr e end, next_client c, net')).
Proof.
  intros Hc Hr. eapply turns_ext; [intros fuel; unfold request; rewrite get_id_run by done; reflexivity|].
  eapply turns_bind; [exact Hr|]. apply turns_const.
Qed.

(** The body of a request of each kind. *)
Definition set_body (k v : list Z) : CliReq := CliReq_set_set CliReq_new (SetReq_set_value (SetReq_set_key SetReq_new k) v).
Definition get_body (k : list Z) : CliReq := CliReq_set_get CliReq_new (GetReq_set_key GetReq_new k).
Definition cas_body (k o n : list Z) : CliReq :=
  CliReq_set_cas CliReq_new (CASReq_set_new_value (CASReq_set_old_value (CASReq_set_key CASReq_new k) o) n).
Definition del_body (k : list Z) : CliReq := CliReq_set_del CliReq_new (DelReq_set_key DelReq_new k).

(** An operation of the client that sends [body] returns. *)
Definition returns (body : CliReq) (c : Client) (net : Net) (res : IoResult CliRes) (net' : Net) : Prop :=
  let out {A} (f : CliRes -> A) := Done (match res with inl res => inl (f res) | inr e => inr e end, next_client c, net') in
  (forall k v, body = set_body k v -> after_turns (fun fuel => Client_set fuel k v c net) (out CliRes_get_set)) /\
  (forall k, body = get_body k -> after_turns (fun fuel => Client_get fuel k c net) (out CliRes_get_get)) /\
  (forall k o n, body = cas_body k o n -> after_turns (fun fuel => Client_cas fuel k o n c net) (out CliRes_get_cas)) /\
  (forall k, body = del_body k -> after_turns (fun fuel => Client_del fuel k c net) (out CliRes_get_del)).

Lemma req_returns body c net res net' : 0 <= req_counter c < u64_max ->
  after_turns (fun fuel => req fuel (servers c) (with_id body c) net) (Done (res, net')) -> returns body c net res net'.
Proof. intros Hc Hr. split_and!; intros; subst body; by apply request_run. Qed.

(** C22: a client's request, of any kind, is given the next id and goes to the servers in
    order.  Past servers that cannot be connected to, fail to be sent to, or answer with
    a redirection, the first one that is sent the request and gives an answer, in pieces
    of any size, makes the operation return that answer, whatever [req_id] it bears; the
    later servers are not asked.  What that server was sent is the frame of the request.
    When all servers are passed over, the operation returns the error that none could be
    reached.  The turns of the two loops are finitely many. *)
Theorem client_answered body c net ps net1 :
  0 <= req_counter c < u64_max -> passes (with_id body c) net ps net1 ->
  (forall p rest res k net2, servers c = ps ++ p :: rest -> answers (with_id body c) net1 p res k net2 ->
    CliRes_has_redirect res = false ->
    returns body c net (inl res) net2 /\
    (forall b, write_to_bytes CliReq_impl (with_id body c) = Some b -> b <> [] -> sock_out k = frame b)) /\
  (servers c = ps -> returns body c net (inr (OtherError "unable to reach any servers!")) net1).
Proof.
  intros Hc Hp. split.
  - intros p rest res k net2 Hs Ha Hr. split.
    + apply req_returns; [done|]. rewrite Hs. eapply passes_req; [done|]. by eapply answers_req.
    + intros b Hw Hb. destruct Ha as [(k0 & b' & msg & k1 & m & Hco & Hw' & He & Ht & Hg & _)].
      rewrite Hw in Hw'. injection Hw' as <-. apply takes_out in Ht. apply gives_out in Hg as [-> _].
      destruct (stream_connect_fresh _ _ _ _ Hco) as [_ Ho]. destruct (encode_frame (ByteBuf_from_slice b)) as (x & Hx & Hf).
      rewrite He in Hx. injection Hx as <-. by rewrite Ht, Ho, Hf, from_slice_bytes.
  - intros Hs. apply req_returns; [done|]. rewrite Hs, <-(app_nil_r ps). eapply passes_req; [done|]. apply turns_const.
Qed.

(** ** Waiting *)

(** No read of the stream completes exactly one message: it gives nothing, or a part of
    one, or several at once. *)
Fixpoint no_single (j : nat) (acc : list Z) (k : TcpStream) : Prop :=
  match j with
  | O => True
  | S j =>
      let '(_, k', m) := sock_try_read_buf k (mut_with_capacity 1024) in
      exists ms rest, frames (acc ++ MutByteBuf_bytes m) ms rest /\ length ms <> 1%nat /\ no_single j rest k'
  end.

Lemma no_single_recv fuel acc k codec : no_single fuel acc k -> framed_rep codec acc -> is_bytes acc ->
  recv_into fuel k codec = None.
Proof.
  revert acc k codec. induction fuel as [|fuel IH]; intros acc k codec Hn Hr Hb; [done|].
  destruct (recv_turn k codec acc Hr Hb) as (r & k' & m & codec' & out & rest & E & Hf & Hr' & Hb' & Ht). rewrite Ht.
  cbn in Hn. rewrite E in Hn. destruct Hn as (ms & rest' & Hf' & Hl & Hn). destruct (frames_det _ _ _ _ _ Hf' Hf) as [-> ->].
  rewrite length_map in Hl. destruct out as [|t [|t' out]]; [|done|]; by eapply IH.
Qed.

Lemma silent_exchange r k b msg k1 : write_to_bytes CliReq_impl r = Some b -> encode (ByteBuf_from_slice b) = Done msg ->
  takes k msg (inl tt) k1 -> (forall j, no_single j [] k1) -> forall fuel, exchange fuel k r = None.
Proof.
  intros Hw He Ht Hn fuel. unfold exchange. rewrite Hw. cbn. rewrite He.
  destruct (takes_send _ _ _ _ Ht) as (b1 & f0 & Hs). rewrite Hs. destruct (fuel <? f0)%nat; [done|]. cbn.
  by rewrite (no_single_recv fuel [] k1 Framed_new (Hn fuel) Framed_new_rep ltac:(constructor)).
Qed.

Lemma passes_never r net ps net' rest : passes r net ps net' -> (forall fuel, req fuel rest r net' = None) ->
  forall fuel, req fuel (ps ++ rest) r net = None.
Proof.
  intros Hp Hn fuel. induction Hp as [net|p e net net1 ps net' Hc _ IH|p net k b msg e k1 net1 ps net' Hc Hw He Ht _ IH|p res net k net1 ps net' Ha Hr _ IH];
    cbn [app req]; [done|rewrite Hc; by apply IH|..].
  - destruct (broken_exchange r k b msg e k1 Hw He Ht) as [f0 Hx]. rewrite Hc, Hx. destruct (fuel <? f0)%nat; [done|by apply IH].
  - destruct (answers_exchange _ _ _ _ _ _ Ha) as (k0 & Hc & f0 & Hx). rewrite Hr in Hx.
    rewrite Hc, Hx. destruct (fuel <? f0)%nat; [done|by apply IH].
Qed.

(** C36: a client waits without end for a server that takes its request and then closes
    the connection, fails, or sends several messages that one read completes: [recv_into]
    does not look at what its reads return, and returns only when a read completes
    exactly one message.  The later servers are never asked. *)
Theorem client_waits_forever body c net ps net1 p rest k net2 b msg k1 :
  0 <= req_counter c < u64_max -> passes (with_id body c) net ps net1 -> servers c = ps ++ p :: rest ->
  stream_connect p net1 = (inl k, net2) -> write_to_bytes CliReq_impl (with_id body c) = Some b ->
  encode (ByteBuf_from_slice b) = Done msg -> takes k msg (inl tt) k1 -> (forall j, no_single j [] k1) ->
  forall fuel,
    (forall key v, body = set_body key v -> Client_set fuel key v c net = None) /\
    (forall key, body = get_body key -> Client_get fuel key c net = None) /\
    (forall key o n, body = cas_body key o n -> Client_cas fuel key o n c net = None) /\
    (forall key, body = del_body key -> Client_del fuel key c net = None).
Proof.
  intros Hc Hp Hs Hco Hw He Ht Hn fuel.
  assert (req fuel (servers c) (with_id body c) net = None) as Hr.
  { rewrite Hs. eapply passes_never; [done|]. intros f. cbn [req]. by rewrite Hco, (silent_exchange _ _ _ _ _ Hw He Ht Hn). }
  assert (forall A (f : CliRes -> A), request fuel body f c net = None) as Hq.
  { intros A f. unfold request. rewrite get_id_run by done. unfold with_id in Hr. cbn [servers next_client]. by rewrite Hr. }
  split_and!; intros; subst body; apply Hq.
Qed.
End ClientFacts.
