(* ===== verification/ClientRuns.v ===== *)
(** * Clients that run

    The client library on reference streams: instances of its theorems. *)

From stdpp Require Import base tactics option list numbers strings gmap.
From Stdlib Require Import ZArith Lia.
From S2P Require Import Prelude BTreeMap Crates Reference Messages Protobuf ProtobufRef Serialization Codec Mio.
From S2P Require Import RangeBounds State ConnectionRuns Server KV ClientApi Client ClientFacts Cluster Scenario.

#[local] Existing Instance ref_Mio.
#[local] Existing Instance ref_MioLaws.

(** The world: what the connections of the client will meet, in order. *)
#[local] Instance ref_ClientCrates : ClientCrates := {|
  Net := list (ref_sock + IoError);
  stream_connect _ net :=
    match net with
    | [] => (inr (OsError 111), [])
    | inr e :: net => (inr e, net)
    | inl k :: net => (inl (RefSock (rk_reads k) (rk_writes k) [] []), net)
    end;
  ThreadPool := Z;
  ThreadPool_new n := n;
|}.

#[local] Instance ref_ClientLaws : ClientLaws.
Proof. intros a [|[k|e] net] k' net'; cbn; [done| |done]. by intros [= <- <-]. Defined.

(** A client of three servers, and its first request. *)
Definition client : Client := Client_new [addr 1; addr 2; addr 3] 4.
Definition body : CliReq := set_body [1] [2].
Definition req_bytes : list Z := default [] (write_to_bytes CliReq_impl (with_id body client)).
Definition req_buf : ByteBuf := ok_or (ref_buf []) (encode (ref_buf req_bytes)).

Definition res_bytes (res : CliRes) : list Z := default [] (write_CliRes res).
Definition redirected : CliRes := CliRes_set_redirect (CliRes_set_req_id CliRes_new 1) (redirection Init).
Definition done_res : CliRes :=
  CliRes_set_set (CliRes_set_req_id CliRes_new 99) (SetRes_set_success SetRes_new true).

(** A stream that takes the request in two writes and gives [l] in two reads. *)
Definition stream (l : list Z) : ref_sock := script [take 3 l; drop 3 l] [7; 100]%nat.

Definition sent_on (l : list Z) : ref_sock := RefSock [take 3 l; drop 3 l] [] [] (frame req_bytes).

Lemma stream_takes l : takes (stream l) req_buf (inl tt) (sent_on l).
Proof.
  eapply takes_part; [cbn; reflexivity|vm_compute; congruence|].
  eapply takes_last; [cbn; reflexivity|vm_compute; reflexivity].
Defined.

Lemma req_written : write_to_bytes CliReq_impl (with_id body client) = Some req_bytes.
Proof. vm_compute. reflexivity. Defined.

Lemma req_encoded : encode (ref_buf req_bytes) = Done req_buf.
Proof. apply ends_ok. vm_compute. reflexivity. Defined.

Definition answered_on (m : list Z) : ref_sock := RefSock [] [] (frame m) (frame req_bytes).

Ltac in_two_reads m :=
  rewrite <-(take_drop 3 (frame m)) at 2; eapply gives_more; [vm_compute; reflexivity|vm_compute; reflexivity|];
  eapply gives_last; [vm_compute; reflexivity|vm_compute; reflexivity|vm_compute; congruence].

Lemma redirected_gives :
  gives (sent_on (frame (res_bytes redirected))) (frame (res_bytes redirected)) (answered_on (res_bytes redirected)).
Proof. in_two_reads (res_bytes redirected). Defined.

Lemma done_gives : gives (sent_on (frame (res_bytes done_res))) (frame (res_bytes done_res)) (answered_on (res_bytes done_res)).
Proof. in_two_reads (res_bytes done_res). Defined.

(** The first server cannot be reached, the second redirects, the third answers. *)
Definition last_server : Net := [inl (stream (frame (res_bytes done_res)))].
Definition world : Net := inr (OsError 111) :: inl (stream (frame (res_bytes redirected))) :: last_server.

Lemma two_passes : passes (with_id body client) world [addr 1; addr 2] last_server.
Proof.
  eapply passes_unreachable; [reflexivity|]. eapply (passes_redirect _ _ redirected); [|vm_compute; reflexivity|constructor].
  split. eexists _, _, _, _, (res_bytes redirected). split_and!; [reflexivity|exact req_written|exact req_encoded|exact (stream_takes _)|
    exact redirected_gives|vm_compute; reflexivity|vm_compute; reflexivity].
Defined.

Lemma client_answered_witness :
  passes (with_id body client) world [addr 1; addr 2] last_server /\
  exists fuel, Client_set fuel [1] [2] client world = Some (Done (inl (SetRes_set_success SetRes_new true), next_client client, [])).
Proof.
  split; [exact two_passes|].
  destruct (proj1 (client_answered body client world _ _ ltac:(vm_compute; split; congruence) two_passes)
    (addr 3) [] done_res (answered_on (res_bytes done_res)) [] eq_refl) as [(Hset & _) _].
  - split. eexists _, _, _, _, (res_bytes done_res). split_and!; [reflexivity|exact req_written|exact req_encoded|exact (stream_takes _)|
      exact done_gives|vm_compute; reflexivity|vm_compute; reflexivity].
  - reflexivity.
  - destruct (Hset [1] [2] eq_refl) as [f0 Hf]. exists f0. rewrite Hf, Nat.ltb_irrefl. reflexivity.
Defined.

(** A server that takes the request and says no more. *)
Definition mute : ref_sock := script [] [100]%nat.

Lemma mute_silent out j : no_single j [] (RefSock [] [] [] out).
Proof.
  induction j as [|j IH]; [done|]. cbn. exists [], []. split_and!; [|done|exact IH]. constructor. constructor. cbn. lia.
Defined.

Definition mute_world : Net := [inl mute; inl (stream (frame (res_bytes done_res)))].

Lemma client_waits_forever_witness :
  servers client = [addr 1; addr 2; addr 3] /\ forall fuel, Client_set fuel [1] [2] client mute_world = None.
Proof.
  split; [reflexivity|]. intros fuel. refine (proj1 (client_waits_forever body client mute_world [] mute_world (addr 1) [addr 2; addr 3] mute _ req_bytes req_buf
    (RefSock [] [] [] (frame req_bytes)) _ (passes_nil _ _) eq_refl eq_refl req_written req_encoded _ (mute_silent _) fuel) [1] [2] eq_refl).
  - vm_compute. split; congruence.
  - eapply takes_last; vm_compute; reflexivity.
Defined.
