(* ===== verification/Address.v ===== *)
(** * Addresses as text

    [SocketAddr]'s [FromStr], by which peers are read from the command line and the
    addresses of redirections can be read back, and the parts of [str] the programs
    use. *)

From stdpp Require Import base tactics option list numbers strings pretty.
From Stdlib Require Import ZArith Lia Ascii.
From S2P Require Import Prelude Crates.

(** [str::split] on a character. *)
Fixpoint split_on (c : ascii) (s : string) : list string :=
  match s with
  | EmptyString => [EmptyString]
  | String x s =>
      match split_on c s with
      | [] => []
      | p :: ps => if Ascii.eqb x c then EmptyString :: p :: ps else String x p :: ps
      end
  end.

(** [s.splitn(2, c)] *)
Fixpoint splitn2 (c : ascii) (s : string) : list string :=
  match s with
  | EmptyString => [EmptyString]
  | String x s =>
      if Ascii.eqb x c then [EmptyString; s]
      else match splitn2 c s with
           | p :: ps => String x p :: ps
           | [] => []
           end
  end.

(** [str::trim_left], of blanks. *)
Fixpoint trim_left (s : string) : string :=
  match s with
  | String x s' => if existsb (Ascii.eqb x) [" "%char; "009"%char; "010"%char; "011"%char; "012"%char; "013"%char]
                   then trim_left s' else s
  | EmptyString => EmptyString
  end.

Definition digit (x : ascii) : option Z :=
  let n := Z.of_N (N_of_ascii x) in if (48 <=? n) && (n <=? 57) then Some (n - 48) else None.

(** [read_number(10, max_digits, upto)] of the standard library's address parser. *)
Fixpoint read_number (max_digits upto : Z) (s : string) (r count : Z) : option (Z * string) :=
  let stop := if count =? 0 then None else Some (r, s) in
  match s with
  | EmptyString => stop
  | String x s' =>
      match digit x with
      | Some d =>
          let r := r * 10 + d in
          if (max_digits <? count + 1) || (upto <=? r) then None else read_number max_digits upto s' r (count + 1)
      | None => stop
      end
  end.

Definition read_char (c : ascii) (s : string) : option string :=
  match s with String x s => if Ascii.eqb x c then Some s else None | EmptyString => None end.

(** [SocketAddr::from_str], of an IPv4 address with its port; the addresses of the model
    are of this kind.  The text of an IPv6 address starts with a bracket. *)
Definition parse_SocketAddr (s : string) : option SocketAddr :=
  '(o1, s) ← read_number 3 256 s 0 0; s ← read_char "." s;
  '(o2, s) ← read_number 3 256 s 0 0; s ← read_char "." s;
  '(o3, s) ← read_number 3 256 s 0 0; s ← read_char "." s;
  '(o4, s) ← read_number 3 256 s 0 0; s ← read_char ":" s;
  '(p, s) ← read_number 5 65536 s 0 0;
  match s with EmptyString => Some (mkAddr (o1, o2, o3, o4) p) | _ => None end.

(** ** Printed addresses are read back *)

Definition no_digit (s : string) : Prop := match s with String x _ => digit x = None | EmptyString => True end.

Lemma append_nil rest : EmptyString +:+ rest = rest.
Proof. done. Qed.
Lemma append_cons x s rest : String x s +:+ rest = String x (s +:+ rest).
Proof. done. Qed.

Lemma append_nil_r s : s +:+ EmptyString = s.
Proof. induction s as [|x s IH]; [done|]. by rewrite append_cons, IH. Qed.

Lemma read_number_app m u s rest z r n : no_digit rest ->
  read_number m u s r n = Some (z, EmptyString) -> read_number m u (s +:+ rest) r n = Some (z, rest).
Proof.
  intros Hr. revert r n. induction s as [|x s IH]; intros r n; rewrite ?append_nil, ?append_cons; cbn.
  - destruct (n =? 0) eqn:En; [done|]. intros [= <-]. destruct rest as [|y rest]; cbn in *; rewrite ?Hr; by rewrite En.
  - destruct (digit x) as [d|]; [|by destruct (n =? 0)]. destruct (_ || _); [done|]. apply IH.
Qed.

Lemma digit_printed d : (d < 10)%N -> digit (pretty_N_char d) = Some (Z.of_N d).
Proof.
  intros Hd. assert (d = 0 \/ d = 1 \/ d = 2 \/ d = 3 \/ d = 4 \/ d = 5 \/ d = 6 \/ d = 7 \/ d = 8 \/ d = 9)%N as Hc by lia.
  destruct Hc as [->|[->|[->|[->|[->|[->|[->|[->|[->| ->]]]]]]]]]; reflexivity.
Qed.

(** The digits of a number are read as the number. *)
Lemma read_digits (k : nat) m u x s : (0 < x < 10 ^ N.of_nat k)%N -> Z.of_nat k <= m -> Z.of_N x < u ->
  exists n, 0 < n <= Z.of_nat k /\ read_number m u (pretty_N_go x s) 0 0 = read_number m u s (Z.of_N x) n.
Proof.
  revert x s. induction k as [|k IH]; intros x s Hx Hk Hu; [cbn in Hx; lia|]. rewrite pretty_N_go_step by lia.
  assert (x = 10 * (x / 10) + x mod 10)%N as Hdm by (apply N.div_mod; lia). assert (x mod 10 < 10)%N as Hm by (by apply N.mod_lt).
  set (q := (x / 10)%N) in *. set (d := (x mod 10)%N) in *.
  assert (exists n, 0 <= n <= Z.of_nat k /\
    read_number m u (pretty_N_go q (String (pretty_N_char d) s)) 0 0 = read_number m u (String (pretty_N_char d) s) (Z.of_N q) n)
    as (n & Hn & ->).
  { destruct (decide (q = 0%N)) as [Hq|Hq]; [exists 0; rewrite Hq, pretty_N_go_0; split; [lia|done]|].
    destruct (IH q (String (pretty_N_char d) s)) as (n & Hn & E); [|lia|lia|exists n; split; [lia|done]].
    rewrite Nat2N.inj_succ, N.pow_succ_r' in Hx. lia. }
  exists (n + 1). split; [lia|]. cbn [read_number]. rewrite digit_printed by done.
  replace (Z.of_N q * 10 + Z.of_N d) with (Z.of_N x) by lia.
  rewrite (proj2 (Z.ltb_ge _ _)), (proj2 (Z.leb_gt _ _)) by lia. done.
Qed.

Lemma read_printed (k : nat) u z rest : (0 < k)%nat -> 0 <= z < u -> u <= 10 ^ Z.of_nat k -> no_digit rest ->
  read_number (Z.of_nat k) u (pretty z +:+ rest) 0 0 = Some (z, rest).
Proof.
  intros Hk Hz Hu Hr. apply read_number_app; [done|]. destruct z as [|p|p]; [|clear Hr|lia].
  - change (pretty 0) with "0". cbn [read_number]. change (digit "0") with (Some 0). cbv beta iota zeta.
    rewrite (proj2 (Z.ltb_ge (Z.of_nat k) _)), (proj2 (Z.leb_gt u _)) by lia. done.
  - change (pretty (Z.pos p)) with (pretty_N_go (N.pos p) "").
    destruct (read_digits k (Z.of_nat k) u (N.pos p) "") as (n & Hn & ->); [|lia|lia|].
    + split; [lia|]. apply N2Z.inj_lt. rewrite N2Z.inj_pow, nat_N_Z. cbn in *. lia.
    + cbn. destruct (Z.eqb_spec n 0); [lia|done].
Qed.

(** An address as there is one. *)
Definition addr_ok (a : SocketAddr) : Prop :=
  let '(o1, o2, o3, o4) := octets a in in_u8 o1 /\ in_u8 o2 /\ in_u8 o3 /\ in_u8 o4 /\ 0 <= port a < 65536.

Lemma debug_parses a : addr_ok a -> parse_SocketAddr (SocketAddr_debug a) = Some a.
Proof.
  destruct a as [[[[o1 o2] o3] o4] p]. unfold addr_ok, SocketAddr_debug, parse_SocketAddr, in_u8, u8_max. cbn [octets port].
  intros (H1 & H2 & H3 & H4 & Hp). pose proof (fun z rest Hz => read_printed 3 256 z rest ltac:(lia) Hz ltac:(lia)) as Ho.
  pose proof (read_printed 5 65536 p EmptyString ltac:(lia) Hp ltac:(lia) I) as Hport. rewrite append_nil_r in Hport.
  change (Z.of_nat 5) with 5 in Hport. change (Z.of_nat 3) with 3 in Ho.
  rewrite (Ho o1) by (done || lia). rewrite append_cons, append_nil. cbn -[read_number].
  rewrite (Ho o2) by (done || lia). rewrite append_cons, append_nil. cbn -[read_number].
  rewrite (Ho o3) by (done || lia). rewrite append_cons, append_nil. cbn -[read_number].
  rewrite (Ho o4) by (done || lia). rewrite append_cons, append_nil. cbn -[read_number].
  by rewrite Hport.
Qed.

(** ** Lists of addresses *)

Definition has_char (c : ascii) (s : string) : bool := existsb (Ascii.eqb c) (String.list_ascii_of_string s).

(** [ss.join(c)] *)
Fixpoint join (c : ascii) (ss : list string) : string :=
  match ss with
  | [] => EmptyString
  | [s] => s
  | s :: ss => s +:+ String c (join c ss)
  end.

Lemma has_char_app c s s' : has_char c (s +:+ s') = has_char c s || has_char c s'.
Proof.
  unfold has_char. induction s as [|x s IH]; [done|]. rewrite append_cons. cbn. by rewrite IH, orb_assoc.
Qed.

Lemma split_on_cons c s : exists p ps, split_on c s = p :: ps.
Proof.
  induction s as [|x s (p & ps & IH)]; cbn; [by eexists _, _|]. rewrite IH. destruct (Ascii.eqb x c); by eexists _, _.
Qed.

Lemma split_on_none c s : has_char c s = false -> split_on c s = [s].
Proof.
  unfold has_char. induction s as [|x s IH]; [done|]. cbn. intros [Hx Hs]%orb_false_iff. rewrite IH by done.
  by rewrite Ascii.eqb_sym, Hx.
Qed.

Lemma split_on_app c s s' : has_char c s = false -> split_on c (s +:+ String c s') = s :: split_on c s'.
Proof.
  unfold has_char. induction s as [|x s IH]; rewrite ?append_nil, ?append_cons; cbn.
  - intros _. destruct (split_on_cons c s') as (p & ps & ->). by rewrite Ascii.eqb_refl.
  - intros [Hx Hs]%orb_false_iff. rewrite IH by done. by rewrite Ascii.eqb_sym, Hx.
Qed.

Lemma split_join c ss : ss <> [] -> Forall (fun s => has_char c s = false) ss -> split_on c (join c ss) = ss.
Proof.
  intros Hne Hss. induction Hss as [|s ss Hs Hss IH]; [done|]. destruct ss as [|s' ss]; [by apply split_on_none|].
  change (join c (s :: s' :: ss)) with (s +:+ String c (join c (s' :: ss))). rewrite split_on_app by done. by rewrite IH.
Qed.

(** A number is printed in digits. *)
Lemma printed_N_clean c x s : digit c = None -> has_char c (pretty_N_go x s) = has_char c s.
Proof.
  intros Hc. revert s. induction x as [x IH] using (well_founded_induction N.lt_wf_0). intros s.
  destruct (decide (x = 0%N)) as [->|Hx]; [by rewrite pretty_N_go_0|]. rewrite pretty_N_go_step by lia.
  rewrite IH by (apply N.div_lt; lia). unfold has_char. cbn. destruct (Ascii.eqb_spec c (pretty_N_char (x mod 10))) as [E|]; [|done].
  rewrite E, digit_printed in Hc by (by apply N.mod_lt). done.
Qed.

Lemma printed_clean c z : digit c = None -> 0 <= z -> has_char c (pretty z) = false.
Proof.
  intros Hc Hz. destruct z as [|p|p]; [|by apply (printed_N_clean c (N.pos p) "")|lia].
  unfold has_char. cbn. destruct (Ascii.eqb_spec c "0") as [->|]; done.
Qed.

Lemma debug_clean c a : addr_ok a -> digit c = None -> c <> "."%char -> c <> ":"%char -> has_char c (SocketAddr_debug a) = false.
Proof.
  destruct a as [[[[o1 o2] o3] o4] p]. unfold addr_ok, SocketAddr_debug, in_u8. cbn [octets port].
  intros (H1 & H2 & H3 & H4 & Hp) Hc Hd Hn. apply Ascii.eqb_neq in Hd, Hn. rewrite !has_char_app.
  rewrite !(printed_clean c) by (done || lia). unfold has_char. cbn. by rewrite Hd, Hn.
Qed.

Lemma debug_nonempty a : SocketAddr_debug a <> EmptyString.
Proof.
  destruct a as [[[[o1 o2] o3] o4] p]. unfold SocketAddr_debug. cbn [octets port]. destruct (pretty o1); by rewrite ?append_nil, ?append_cons.
Qed.
