(* ===== verification/Programs.v ===== *)
(** * The programs

    bin/rasputind.rs, which starts a server, with the parts of [Server::run],
    [TrafficCop::new] and server/rocksdb.rs that make a node out of its arguments; and
    bin/rasputinc.rs, the command-line client.  The arguments are as docopt decodes
    them. *)

From stdpp Require Import base tactics option list numbers strings pretty.
From Stdlib Require Import ZArith Lia Ascii.
From S2P Require Import Prelude BTreeMap Crates Messages Protobuf Serialization Codec Mio RangeBounds Clock State Connections.
From S2P Require Import AckedLog Server Node Client Address.

(** ** rasputind *)

(** What starting a node calls of mio and of rocksdb.  [Disk] is the file system. *)
Class StartCrates `{MC : MioCrate} `{RDB : RocksDB} : Type := {
  tcp_bind : SocketAddr -> EventLoop -> (TcpListener + IoError) * EventLoop;
  register_listener : TcpListener -> Token -> EventSet -> EventLoop -> (unit + IoError) * EventLoop;
  Disk : Type;
  DBOptions : Type;
  DBOptions_new : DBOptions;
  optimize_level_style_compaction : DBOptions -> Z -> DBOptions;
  create_if_missing : DBOptions -> bool -> DBOptions;
  DB_open : DBOptions -> string -> Disk -> (DB + string) * Disk;
  DB_open_cf : DBOptions -> string -> list string -> Disk -> (DB + string) * Disk;
  DB_create_cf : DB -> string -> DBOptions -> Disk -> (unit + string) * DB * Disk;
}.

Record ServerArgs : Type := mkServerArgs {
  srv_flag_help : bool;
  flag_cli_port : option Z;
  flag_peer_port : option Z;
  flag_seed_peers : string;
  flag_logfile : option string;
  flag_storage_dir : option string;
}.

(** The [u16]s, the directory and the peers [main] passes to [Server::run]. *)
Definition rasputind_main (args : ServerArgs) : Z * Z * string * list string :=
  let peer_port := match flag_peer_port args with Some p => p | None => 7770 end in
  let cli_port := match flag_cli_port args with Some p => p | None => 8880 end in
  let storage_dir := match flag_storage_dir args with Some d => d | None => "/var/lib/rasputin" end in
  let seed_peers := filter (fun s => s <> "") (split_on ","%char (flag_seed_peers args)) in
  (peer_port, cli_port, storage_dir, seed_peers).

Section Start.
Context `{TC : TimeCrate} `{BC : BytesCrate} {MC : MioCrate} `{RDB : RocksDB} {SC : StartCrates} `{PS : ProtobufStreams}.
Context {C : Type} `{CK : Clock C}.

(** [unwrap] of a [Result<_, String>]. *)
Definition unwrap_str {A} (r : A + string) : Outcome A :=
  match r with inl a => Done a | inr e => Panic e end.

(** server/rocksdb.rs *)
Definition rocksdb_new (storage_dir : string) (disk : Disk) : Outcome (DB * Disk) :=
  let opts := create_if_missing (optimize_level_style_compaction DBOptions_new 1024) true in
  let '(r, disk) := DB_open_cf opts storage_dir ["storage"; "local_meta"] disk in
  match r with
  | inl db => Done (db, disk)
  | inr _ =>
      let '(r, disk) := DB_open opts storage_dir disk in
      match r with
      | inl db =>
          let '(r, db, disk) := DB_create_cf db "storage" DBOptions_new disk in
          _ ← unwrap_str r;
          let '(r, db, disk) := DB_create_cf db "local_meta" DBOptions_new disk in
          _ ← unwrap_str r;
          Done (db, disk)
      | inr e => Panic e
      end
  end.

(** [peer.parse().unwrap()] for each peer. *)
Fixpoint parse_peers (ps : list string) : Outcome (list SocketAddr) :=
  match ps with
  | [] => Done []
  | p :: ps => a ← unwrap (parse_SocketAddr p); addrs ← parse_peers ps; Done (a :: addrs)
  end.

(** [TrafficCop::new]: the listeners are bound, then the peers are parsed. *)
Definition TrafficCop_start (peer_port cli_port : Z) (peer_addrs : list string) (el : EventLoop)
    : Outcome (sum TrafficCop IoError * EventLoop) :=
  cli_addr ← unwrap (parse_SocketAddr ("0.0.0.0:" +:+ pretty cli_port));
  let '(r, el) := tcp_bind cli_addr el in
  match r with
  | inr e => Done (inr e, el)
  | inl cli_srv_sock =>
      peer_addr ← unwrap (parse_SocketAddr ("0.0.0.0:" +:+ pretty peer_port));
      let '(r, el) := tcp_bind peer_addr el in
      match r with
      | inr e => Done (inr e, el)
      | inl peer_srv_sock =>
          addrs ← parse_peers peer_addrs;
          Done (inl (TrafficCop_new cli_srv_sock peer_srv_sock addrs), el)
      end
  end.

(** [run_event_loop], up to [event_loop.run]. *)
Definition run_event_loop (cop : TrafficCop) (el : EventLoop) : Outcome EventLoop :=
  let '(r, el) := register_listener (srv_sock (cli_handler cop)) SERVER_CLIENTS es_readable el in
  _ ← unwrap_io r;
  let '(r, el) := register_listener (srv_sock (peer_handler cop)) SERVER_PEERS es_readable el in
  _ ← unwrap_io r;
  Done el.

(** [Server::run], up to the threads: a node that waits for its first event, whose event
    loop has died if its sockets could not be registered.  [el] is the operating system's
    side of the sockets and the event loop that [EventLoop::new] returned; [uuid] is
    what [Uuid::new_v4] drew. *)
Definition run (c : C) (uuid : PeerID) (peer_port cli_port : Z) (storage_dir : string) (peers : list string)
    (el : EventLoop) (disk : Disk) : Outcome (Node (C := C) (L := InMemoryLog Mutation) * Disk) :=
  '(store, disk) ← rocksdb_new storage_dir disk;
  '(r, el) ← TrafficCop_start peer_port cli_port peers el;
  tc ← unwrap_io r;
  let '(ms, el) := gen_range 200 500 el in
  let '(r, el) := timeout_ms ms el in
  _ ← unwrap_io r;
  let server := run_init c new_log uuid store peer_port cli_port peers in
  Done (match run_event_loop tc el with
        | Done el => node_init server tc el
        | Panic _ => mkNode server tc (mkEnv el [] []) 0 0 (length (rpc_tx server)) false None false
        end, disk).

(** ** What starting a node needs *)

Lemma listen_address p : 0 <= p < 65536 -> parse_SocketAddr ("0.0.0.0:" +:+ pretty p) = Some (mkAddr (0, 0, 0, 0) p).
Proof. intros Hp. apply (debug_parses (mkAddr (0, 0, 0, 0) p)). unfold addr_ok, in_u8, u8_max. cbn. lia. Qed.

Lemma bind_panic {A B} (o : Outcome A) (f : A -> Outcome B) : (forall a, o = Done a -> is_panic (f a)) -> is_panic (o ≫= f).
Proof. destruct o as [a|e]; cbn; [|by eexists]. auto. Qed.

Lemma parse_peers_panic ps : Exists (fun p => parse_SocketAddr p = None) ps -> is_panic (parse_peers ps).
Proof.
  induction 1 as [p ps Hp|p ps _ IH]; cbn; [rewrite Hp; by eexists|].
  destruct (parse_SocketAddr p); cbn; [|by eexists]. destruct IH as [e ->]. by eexists.
Qed.

(** A peer that is no address of any kind: not an IPv4 one, and not bracketed as an IPv6
    one is. *)
Definition no_address (p : string) : Prop := parse_SocketAddr p = None /\ read_char "[" p = None.

(** C37: a server does not start with a peer that is not an IP address and a port, whatever
    the state of the disk and of the network: [run] panics.  Host names, as in the
    example of rasputind's usage, are such peers. *)
Theorem host_names_panic c uuid peer_port cli_port storage_dir peers el disk :
  0 <= peer_port < 65536 -> 0 <= cli_port < 65536 -> Exists no_address peers ->
  is_panic (run c uuid peer_port cli_port storage_dir peers el disk).
Proof.
  intros Hpp Hcp Hps. unfold run. apply bind_panic. intros [store disk'] _. cbn. apply bind_panic. intros [r el'] E. cbn.
  unfold TrafficCop_start in E. rewrite !listen_address in E by done. cbn in E.
  destruct (tcp_bind _ el) as [[l1|e] el1]; [|injection E as <- <-; by eexists].
  destruct (tcp_bind _ el1) as [[l2|e] el2]; [|injection E as <- <-; by eexists].
  destruct (parse_peers_panic peers) as [e He]; [eapply Exists_impl; [exact Hps|by intros ? []]|]. by rewrite He in E.
Qed.

Lemma usage_example :
  let peers := (rasputind_main (mkServerArgs false None None "foo.baz.com:7777,bar.baz.com:7777" None None)).2 in
  peers = ["foo.baz.com:7777"; "bar.baz.com:7777"] /\ Forall no_address peers.
Proof. split; [reflexivity|repeat constructor]. Qed.

Lemma parse_peers_debug addrs : Forall addr_ok addrs -> parse_peers (map SocketAddr_debug addrs) = Done addrs.
Proof. induction 1 as [|a addrs Ha _ IH]; cbn; [done|]. rewrite debug_parses by done. cbn. by rewrite IH. Qed.

Lemma split_addresses addrs : addrs <> [] -> Forall addr_ok addrs ->
  split_on ","%char (join ","%char (map SocketAddr_debug addrs)) = map SocketAddr_debug addrs.
Proof.
  intros Hne Ha. apply split_join; [by destruct addrs|]. apply Forall_map. eapply Forall_impl; [exact Ha|]. intros a Hok.
  by apply debug_clean.
Qed.

Lemma filter_nonempty ss : Forall (fun s => s <> "") ss -> filter (fun s => s <> "") ss = ss.
Proof. induction 1 as [|s ss Hs _ IH]; [done|]. by rewrite filter_cons_True, IH. Qed.

(** The ports and peers of rasputind's arguments make a traffic cop, if the sockets can be
    bound, that is to dial the addresses of [--seed-peers]. *)
Definition dials (args : ServerArgs) (addrs : list SocketAddr) : Prop :=
  forall el, let '(peer_port, cli_port, _, seed_peers) := rasputind_main args in
    exists r el', TrafficCop_start peer_port cli_port seed_peers el = Done (r, el') /\
      (forall cop, r = inl cop -> cop_peers cop = map (fun a => mkPeer a None) addrs).

Definition u16_opt (p : option Z) : Prop := forall z, p = Some z -> 0 <= z < 65536.

Lemma seed_peers_dialled addrs args : Forall addr_ok addrs -> u16_opt (flag_peer_port args) -> u16_opt (flag_cli_port args) ->
  flag_seed_peers args = join ","%char (map SocketAddr_debug addrs) -> dials args addrs.
Proof.
  intros Ha Hpp Hcp Hf el. unfold rasputind_main, TrafficCop_start. rewrite Hf, !listen_address.
  - assert (parse_peers (filter (fun s => s <> "") (split_on ","%char (join ","%char (map SocketAddr_debug addrs)))) = Done addrs) as ->.
    { destruct addrs as [|a addrs]; [done|]. rewrite split_addresses by done. rewrite filter_nonempty; [by apply parse_peers_debug|].
      apply Forall_map, Forall_forall. intros. apply debug_nonempty. }
    cbn. destruct (tcp_bind _ el) as [[l1|e] el1]; [|by eexists _, _].
    destruct (tcp_bind _ el1) as [[l2|e] el2]; [|by eexists _, _]. eexists _, _. split; [done|]. by intros cop [= <-].
  - destruct (flag_cli_port args); [by apply Hcp|lia].
  - destruct (flag_peer_port args); [by apply Hpp|lia].
Qed.
End Start.

(** ** rasputinc *)

Record ClientArgs : Type := mkClientArgs {
  cli_flag_help : bool;
  flag_peers : option string;
  flag_set : option string;
  flag_get : option string;
  flag_cas : option string;
  flag_del : option string;
}.

(** How the program ends: it returns, or exits with a code. *)
Inductive ProgramEnd : Type := Returned | Exited (code : Z).

Section Rasputinc.
Context `{BC : BytesCrate} {MC : MioCrate} `{RDB : RocksDB} {SC : StartCrates} {CC : ClientCrates} `{PS : ProtobufStreams}.

Definition rasputinc_main (fuel : nat) (args : ClientArgs) (net : Net) : option (Outcome (ProgramEnd * Net)) :=
  match parse_peers (split_on ","%char (default "127.0.0.1:8888" (flag_peers args))) with
  | Panic e => Some (Panic e)
  | Done peers =>
      let cli := Client_new peers 1 in
      match flag_set args with
      | None => Some (Done (Returned, net))
      | Some kv =>
          match splitn2 ","%char kv with
          | [k; v] =>
              o ← Client_set fuel (string_bytes k) (string_bytes v) cli net;
              Some ('(r, _, net) ← o; _ ← unwrap_io r; Done (Returned, net))
          | _ => Some (Done (Exited 1, net))
          end
      end
  end.

(** [--get], [--cas] and [--del] are accepted and do nothing. *)
Lemma rasputinc_ignores fuel ps get cas del net :
  rasputinc_main fuel (mkClientArgs false ps None get cas del) net =
    Some (_ ← parse_peers (split_on ","%char (default "127.0.0.1:8888" ps)); Done (Returned, net)).
Proof. unfold rasputinc_main. cbn. by destruct (parse_peers _). Qed.

(** C29: addresses, printed as redirections print them and joined by commas, are given back
    by both programs: rasputind's [--seed-peers] makes a traffic cop, once its sockets are
    bound, that has exactly these peers in order, all to be dialled, and rasputinc's
    [--peers] makes a client of exactly these servers, which sends the [--set] to them. *)
Theorem peers_roundtrip addrs : Forall addr_ok addrs ->
  let text := join ","%char (map SocketAddr_debug addrs) in
  (forall h cp pp lf sd, u16_opt pp -> u16_opt cp -> dials (mkServerArgs h cp pp text lf sd) addrs) /\
  (forall fuel h k v kv get cas del net, addrs <> [] -> splitn2 ","%char kv = [k; v] ->
    rasputinc_main fuel (mkClientArgs h (Some text) (Some kv) get cas del) net =
      (o ← Client_set fuel (string_bytes k) (string_bytes v) (Client_new addrs 1) net;
       Some ('(r, _, net) ← o; _ ← unwrap_io r; Done (Returned, net)))).
Proof.
  intros Ha text. split; [intros; by apply seed_peers_dialled|]. intros fuel h k v kv get cas del net Hne Hkv. subst text.
  unfold rasputinc_main, default. cbn -[split_on parse_peers join]. rewrite split_addresses, parse_peers_debug by done. by rewrite Hkv.
Qed.
End Rasputinc.
