(* ===== verification/Logging.v ===== *)
(** * Logging

    logging/mod.rs: the loggers for the standard output and for a file, and
    [init_logger].  A line has the level, the second, the last part of the source path
    with the line, and the message. *)

From stdpp Require Import base tactics option list numbers strings pretty.
From Stdlib Require Import ZArith Lia Ascii.
From S2P Require Import Prelude Crates Protobuf Mio Address.

(** The log crate's levels and records. *)
Inductive LogLevel : Type := LogError | LogWarn | LogInfo | LogDebug | LogTrace.

Definition level_rank (l : LogLevel) : Z :=
  match l with LogError => 1 | LogWarn => 2 | LogInfo => 3 | LogDebug => 4 | LogTrace => 5 end.
Definition level_name (l : LogLevel) : string :=
  match l with LogError => "ERROR" | LogWarn => "WARN" | LogInfo => "INFO" | LogDebug => "DEBUG" | LogTrace => "TRACE" end.

Record LogRecord : Type := mkRecord { rec_level : LogLevel; rec_file : string; rec_line : Z; rec_args : string }.

(** [split("/").last().unwrap()] *)
Definition file_name (path : string) : string := default "" (last (split_on "/"%char path)).

(** [format!("{} {} {}:{}] {}", ..)] at a second. *)
Definition log_line (sec : Z) (r : LogRecord) : string :=
  level_name (rec_level r) +:+ " " +:+ pretty sec +:+ " " +:+ file_name (rec_file r) +:+ ":" +:+ pretty (rec_line r) +:+
  "] " +:+ rec_args r.

Definition newline : string := String "010"%char EmptyString.

(** The file system, as far as a log file needs it. *)
Class LogFiles : Type := {
  FS : Type;
  path_parent : string -> option string;
  create_dir_all : string -> FS -> (unit + IoError) * FS;
  (** [OpenOptions] with [create], [write] and [append] *)
  File : Type;
  open_append : string -> FS -> (File + IoError) * FS;
  write_all : File -> string -> FS -> (unit + IoError) * FS;
  io_error_string : IoError -> string;
}.

(** [write_all] on a file open for appending puts the bytes at its end. *)
Class LogFilesLaws `{LF : LogFiles} : Type := {
  file_contents : File -> FS -> string;
  write_all_ok : forall f s fs fs', write_all f s fs = (inl tt, fs') -> file_contents f fs' = file_contents f fs +:+ s;
}.

Section Loggers.
Context `{LF : LogFiles}.

Definition enabled (level : LogLevel) (r : LogRecord) : bool := level_rank (rec_level r) <=? level_rank level.

(** [StdoutLogger::log]: the lines printed so far get one more. *)
Definition StdoutLogger_log (level : LogLevel) (sec : Z) (r : LogRecord) (out : string) : string :=
  if enabled level r then out +:+ log_line sec r +:+ newline else out.

Record FileLogger : Type := mkFileLogger { fl_file : File; fl_level : LogLevel }.

Definition FileLogger_new (path : string) (level : LogLevel) (fs : FS) : (FileLogger + IoError) * FS :=
  match path_parent path with
  | None => (inr (OtherError ("Failed to use log directory: " +:+ path)), fs)
  | Some dir =>
      let '(r, fs) := create_dir_all dir fs in
      match r with
      | inr e => (inr (OtherError ("Failed to create log directory: " +:+ io_error_string e)), fs)
      | inl _ =>
          let '(r, fs) := open_append path fs in
          (match r with inl f => inl (mkFileLogger f level) | inr e => inr e end, fs)
      end
  end.

(** [FileLogger::log]; the result of the write is dropped. *)
Definition FileLogger_log (l : FileLogger) (sec : Z) (r : LogRecord) (fs : FS) : FS :=
  if enabled (fl_level l) r then (write_all (fl_file l) (log_line sec r +:+ newline) fs).2 else fs.

(** The logger [init_logger] sets, with the filter [Debug] in front of it. *)
Definition init_logger (path : option string) (level : LogLevel) (fs : FS) : Outcome ((FileLogger + LogLevel) * LogLevel * FS) :=
  match path with
  | Some p =>
      let '(r, fs) := FileLogger_new (trim_left p) level fs in
      match r with
      | inl l => Done (inl l, LogDebug, fs)
      | inr _ => Panic "called `Result::unwrap()` on an `Err` value"
      end
  | None => Done (inr level, LogDebug, fs)
  end.

(** A record above the logger's level leaves no trace; one up to it is a line more, as
    long as the write succeeds. *)
Lemma FileLogger_log_spec `{LL : !LogFilesLaws} l sec r fs :
  (level_rank (fl_level l) < level_rank (rec_level r) -> FileLogger_log l sec r fs = fs) /\
  (level_rank (rec_level r) <= level_rank (fl_level l) -> forall fs', write_all (fl_file l) (log_line sec r +:+ newline) fs = (inl tt, fs') ->
    file_contents (fl_file l) (FileLogger_log l sec r fs) = file_contents (fl_file l) fs +:+ log_line sec r +:+ newline).
Proof.
  unfold FileLogger_log, enabled. split; intros Hl.
  - by rewrite (proj2 (Z.leb_gt _ _)).
  - intros fs' Hw. rewrite (proj2 (Z.leb_le _ _)), Hw by done. cbn. by apply write_all_ok.
Qed.

Example log_line_example :
  log_line 12 (mkRecord LogInfo "src/server/server.rs" 7 "hi") = "INFO 12 server.rs:7] hi".
Proof. vm_compute. reflexivity. Qed.
End Loggers.
