(* ===== verification/Voting.v ===== *)
(** * What a vote handler does, at one moment

    The vote handlers and [cron] on a clock that stands still while they run, as the
    simulated cluster has it: every way they can change a node's role and every message
    they can send ([vote_effect]), and what a peer makes of the bytes of such a
    message. *)

From stdpp Require Import base tactics option list numbers strings.
From Stdlib Require Import ZArith Lia.
From S2P Require Import Prelude BTreeMap Crates Messages Protobuf Serialization SerializationFacts Clock State AckedLog Server.
From S2P Require Import Transport ServerFacts Invariant Election Cluster.

Section Wire.
Context `{BL : BytesLaws} `{PL : ProtobufLaws}.

(** A name a node can have in its messages. *)
Definition wire_name (name : PeerID) : Prop := utf8 name = true /\ len (string_bytes name) < 2 ^ 16.

Definition vote_answer (name : PeerID) (t : Term) (ok : bool) : PeerMsg :=
  PeerMsg_set_vote_res (PeerMsg_set_srvid PeerMsg_new name) (VoteRes_set_success (VoteRes_set_term VoteRes_new t) ok).

(** The bytes of a message come back as the message. *)
Lemma sent_parse m b pm : PeerMsg_ok m -> len (PeerMsg_bytes m) < 2 ^ 32 -> write_PeerMsg m = Some b ->
  parse_PeerMsg (ByteBuf_bytes (ByteBuf_from_slice b)) = Some pm -> pm = PeerMsg_strip m.
Proof.
  intros Hok Hl Hw Hp. unfold write_PeerMsg, parse_PeerMsg in *. rewrite (wire_write PeerMsg_impl m Hok Hl) in Hw.
  destruct (mi_is_initialized PeerMsg_impl m) eqn:Hi; [|done]. injection Hw as <-.
  rewrite from_slice_bytes in Hp by (by apply PeerMsg_bytes_nonempty).
  rewrite (wire_parse PeerMsg_impl m Hok Hl), Hi in Hp. by injection Hp.
Qed.

(** Votes are short. *)
Lemma enc_opt_len {A} (e : A -> list Z) o n : (forall v, o = Some v -> len (e v) <= n) -> 0 <= n -> len (enc_opt e o) <= n.
Proof. destruct o as [v|]; cbn; intros Hv Hn; [by apply Hv|]. done. Qed.

Lemma enc_u64_len f v : 0 < f < 16 -> len (enc_u64 f v) <= 11.
Proof. intros Hf. unfold enc_u64. rewrite len_app, tag_len by done. pose proof (varint_len v). lia. Qed.

Lemma enc_u64_opt_len f o : 0 < f < 16 -> len (enc_opt (enc_u64 f) o) <= 11.
Proof. intros Hf. apply enc_opt_len; [|lia]. intros v _. by apply enc_u64_len. Qed.

Lemma enc_bytes_bound f bs n : 0 < f < 16 -> len bs <= n -> len (enc_bytes f bs) <= 11 + n.
Proof. intros Hf Hn. rewrite enc_bytes_len by done. pose proof (varint_len (len bs)). lia. Qed.

Lemma VoteReq_bytes_len m : len (VoteReq_bytes m) <= 55.
Proof.
  unfold VoteReq_bytes. rewrite !len_app. change (len []) with 0.
  pose proof (enc_u64_opt_len 1 (VoteReq_term m)). pose proof (enc_u64_opt_len 2 (VoteReq_last_learned_term m)).
  pose proof (enc_u64_opt_len 3 (VoteReq_last_learned_txid m)). pose proof (enc_u64_opt_len 4 (VoteReq_last_accepted_term m)).
  pose proof (enc_u64_opt_len 5 (VoteReq_last_accepted_txid m)). lia.
Qed.

Lemma VoteRes_bytes_len m : len (VoteRes_bytes m) <= 13.
Proof.
  unfold VoteRes_bytes. rewrite !len_app. change (len []) with 0. pose proof (enc_u64_opt_len 2 (VoteRes_term m)).
  assert (len (enc_opt (enc_bool 1) (VoteRes_success m)) <= 2) by (apply enc_opt_len; [intros v _; by rewrite enc_bool_len|lia]). lia.
Qed.

Lemma vote_len m name : wire_name name -> PeerMsg_srvid m = Some name -> PeerMsg_append m = None -> PeerMsg_append_res m = None ->
  len (PeerMsg_bytes m) < 2 ^ 32.
Proof.
  intros [_ Hl] Hs Ha Hr. unfold PeerMsg_bytes. rewrite Hs, Ha, Hr, !len_app. cbn [enc_opt]. change (len []) with 0.
  pose proof (enc_bytes_bound 1 (string_bytes name) (2 ^ 16) ltac:(lia) ltac:(lia)) as H1. fold (enc_string 1 name) in H1.
  assert (len (enc_opt (fun v => enc_bytes 2 (VoteReq_bytes v)) (PeerMsg_vote_req m)) <= 66) as H2.
  { apply enc_opt_len; [|lia]. intros v _. apply (enc_bytes_bound 2 _ 55); [lia|]. apply VoteReq_bytes_len. }
  assert (len (enc_opt (fun v => enc_bytes 3 (VoteRes_bytes v)) (PeerMsg_vote_res m)) <= 24) as H3.
  { apply enc_opt_len; [|lia]. intros v _. apply (enc_bytes_bound 3 _ 13); [lia|]. apply VoteRes_bytes_len. }
  lia.
Qed.

Lemma vote_answer_parse name t ok b pm : wire_name name -> in_u64 t -> write_PeerMsg (vote_answer name t ok) = Some b ->
  parse_PeerMsg (ByteBuf_bytes (ByteBuf_from_slice b)) = Some pm ->
  PeerMsg_get_srvid pm = name /\ PeerMsg_has_vote_res pm = true /\
  VoteRes_get_term (PeerMsg_get_vote_res pm) = t /\ VoteRes_get_success (PeerMsg_get_vote_res pm) = ok.
Proof.
  intros Hn Ht Hw Hp. apply (sent_parse (vote_answer name t ok)) in Hp as ->; [done|..|done].
  - destruct Hn as [Hn _]. split_and!; [done|by intros v [= <-]|done| |done..]. intros v [= <-]. split; [done|]. by intros v [= <-].
  - by eapply vote_len.
Qed.

Lemma vote_request_parse {C} `{CK : Clock C} {L} `{AL : !AckedLog L Mutation} `{TC : TimeCrate} `{RDB : RocksDB}
    (s : Server (C := C) (L := L)) t b pm :
  wire_name (id s) -> in_u64 t -> in_u64 (log_last_accepted_term (rep_log s)) -> in_u64 (log_last_accepted_txid (rep_log s)) ->
  in_u64 (log_last_learned_term (rep_log s)) -> in_u64 (log_last_learned_txid (rep_log s)) ->
  write_PeerMsg (vote_request s t) = Some b -> parse_PeerMsg (ByteBuf_bytes (ByteBuf_from_slice b)) = Some pm ->
  PeerMsg_get_srvid pm = id s /\ PeerMsg_has_vote_res pm = false /\ PeerMsg_has_vote_req pm = true /\
  VoteReq_get_term (PeerMsg_get_vote_req pm) = t.
Proof.
  intros Hn Ht H1 H2 H3 H4 Hw Hp. apply (sent_parse (vote_request s t)) in Hp as ->; [done|..|done].
  - destruct Hn as [Hn _]. split_and!; [done|by intros v [= <-]| |done..]. intros v [= <-]. split_and!; [done|by intros v [= <-]..].
  - by eapply vote_len.
Qed.
End Wire.

Section Effects.
Context `{TC : TimeCrate} {TL : TimeLaws} `{BC : BytesCrate} `{RDB : RocksDB} `{PS : ProtobufStreams}.
Context {L : Type} `{AL : !AckedLog L Mutation}.
Implicit Types s : Server (C := TestClock) (L := L).

(** The time of [s], in seconds. *)
Definition time_is (t : Z) s : Prop := clock s = mkTestClock (at_sec t) /\ 0 <= t <= 2 ^ 62.

Lemma lease_end t : 0 <= t <= 2 ^ 62 -> Timespec_add (at_sec t) LEADER_DURATION = Done (at_sec (t + 12)).
Proof. intros Ht. unfold LEADER_DURATION. rewrite Timespec_add_seconds; [done|split; cbn; lia|lia]. Qed.

Lemma at_sec_lt a b : Timespec_lt (at_sec a) (at_sec b) = (a <? b).
Proof. apply eq_bool_prop_intro. rewrite !Is_true_true, Timespec_lt_spec, Z.ltb_lt. unfold ts_lt. cbn. lia. Qed.

(** A candidate or leader of a term, until a time. *)
Definition standing (st : State) (t : Term) (u : Timespec) : Prop :=
  match st with Candidate t' _ _ u' | Leader t' _ _ u' => t' = t /\ u' = u | _ => False end.

(** What does not change in an election. *)
Definition same_config s s' : Prop := id s' = id s /\ peers s' = peers s /\ rep_log s' = rep_log s.

(** The outbox grows by a request for votes, or not at all. *)
Definition asks s s' : Prop :=
  rpc_tx s' = rpc_tx s \/
  exists t u b, standing (state s') t u /\ write_PeerMsg (vote_request s' t) = Some b /\
    rpc_tx s' = rpc_tx s ++ [mkEnvelope None PEER_BROADCAST (ByteBuf_from_slice b)].

Lemma asking_stands st t n : state_term st = Some t ->
  should_extend_leadership st n = Done true \/ valid_candidate st n = true -> exists u, standing st t u.
Proof. destruct st; cbn; intros [= ->] [H|H]; try done; by eexists. Qed.

Lemma cron_effect t s u s' : time_is t s -> cron s = Done (u, s') ->
  same_config s s' /\ asks s s' /\
  (state s' = state s /\ highest_term s' = highest_term s \/
   valid_leader (state s) (at_sec t) = false /\ highest_term s' = highest_term s + 1 /\ highest_term s' <= u64_max /\
   state s' = Candidate (highest_term s') [] (as_u8 (Z.of_nat (length (peers s)) / 2 + 1)) (at_sec (t + 12))).
Proof.
  intros [Hc Ht] H. unfold cron, become_candidate, broadcast_vote_req, peer_msg_buf, peer_broadcast, send_msg in H.
  minv; cbn in *; rewrite ?Hc in *; cbn in *; unfold TestClock_now in *; cbn in *; rewrite ?lease_end in * by done; simplify_eq;
    (split_and!; [done|first [by left|right]|]).
  all: try match goal with Hu : u64_add _ _ = Done _ |- _ => apply checked_Done in Hu as [-> ?] end.
  all: try (left; done).
  all: try (right; bool_split; split_and!; [done..|cbn; lia|done]).
  all: first [match goal with Hs : state_term ?st = Some ?x, Hw : write_PeerMsg _ = Some ?b |- _ =>
      destruct (asking_stands st x (at_sec t) Hs) as [u Hu]; [by auto|]; by exists x, u, b end
    |match goal with Hw : write_PeerMsg _ = Some ?b |- _ => eexists _, _, b; by split_and! end].
Qed.

(** How a vote request leaves the role of a node: as it was, or following the sender
    for twelve seconds. *)
Definition follows (t : Z) (pid : PeerID) (term : Term) s s' : Prop :=
  exists ft tk ad, state s' = Follower ft pid tk ad (at_sec (t + 12)) /\
    (following (state s) pid = true /\ highest_term s' = highest_term s /\ state_term (state s) = Some ft \/
     valid_leader (state s) (at_sec t) = false /\ highest_term s' = term /\ ft = term).

Lemma vote_req_effect t env pid vr s u s' : time_is t s -> handle_vote_req env pid vr s = Done (u, s') ->
  same_config s s' /\
  exists tm ok b, write_PeerMsg (vote_answer (id s) tm ok) = Some b /\
    rpc_tx s' = rpc_tx s ++ [mkEnvelope (address env) (tok env) (ByteBuf_from_slice b)] /\
    (ok = false /\ (tm = VoteReq_get_term vr \/ state_term (state s) = Some tm) /\
       state s' = state s /\ highest_term s' = highest_term s \/
     ok = true /\ tm = VoteReq_get_term vr /\
       (pid = id s /\ state s' = state s /\ highest_term s' = highest_term s \/ follows t pid (VoteReq_get_term vr) s s')).
Proof.
  intros [Hc Ht] H. unfold handle_vote_req, reply, send_msg, peer_msg_buf in H.
  minv; try match goal with Hg : should_grant_vote _ _ = Done _ |- _ => pose proof (should_grant_vote_frame _ _ _ _ Hg) as -> end;
    cbn in *; rewrite ?Hc in *; cbn in *; unfold TestClock_now in *; cbn in *; rewrite ?lease_end in * by done; simplify_eq;
    (split; [done|]); bool_split.
  all: try match goal with Hw : context [match state_term ?st with _ => _ end] |- _ => destruct (state_term st) eqn:Etm end.
  all: lazymatch goal with Hw : write_PeerMsg ?m = Some ?b |- _ =>
    exists (VoteRes_get_term (PeerMsg_get_vote_res m)), (VoteRes_get_success (PeerMsg_get_vote_res m)), b; (split; [exact Hw|]); (split; [done|]) end.
  - right. split_and!; [done..|]. by left.
  - left. split_and!; auto.
  - right. split_and!; [done..|]. subst pid. right. eexists _, _, _. split; [done|]. left.
    match goal with Hs : state s = _ |- _ => rewrite Hs end. split_and!; [|done..]. cbn. by rewrite bool_decide_eq_true_2.
  - right. split_and!; [done..|]. right. eexists _, _, _. split; [done|]. right.
    match goal with Hg : should_grant_vote _ _ = Done _ |- _ => apply should_grant_vote_true in Hg as (Hv & _ & _) end.
    cbn in Hv. rewrite ?Hc in Hv. done.
  - left. split_and!; auto.
  - left. split_and!; auto.
Qed.

(** How a vote response leaves it. *)
Inductive counted (t : Z) (env : Envelope) (vr : VoteRes) (st st' : State) : Prop :=
| counted_not : st' = st -> counted t env vr st st'
| counted_nack : is_candidate st = true -> st' = Init -> counted t env vr st st'
| counted_vote tm have need w new : st = Candidate tm have need w ->
    VoteRes_get_success vr = true -> VoteRes_get_term vr = tm -> new = have \/ new = have ++ [tok env] /\ tok env ∉ have ->
    st' = Candidate tm new need w \/ need <= Z.of_nat (length new) /\ st' = Leader tm [] need w -> counted t env vr st st'
| counted_ack tm have need w have' w' : st = Leader tm have need w -> st' = Leader tm have' need w' ->
    w' = w \/ w' = at_sec (t + 12) -> counted t env vr st st'.

Lemma valid_is_candidate st n : valid_candidate st n = true -> is_candidate st = true.
Proof. by destruct st. Qed.

Lemma own_term st t : match st with None => true | Some t' => negb (t =? t') end = false -> st = Some t.
Proof. destruct st as [t'|]; [|done]. by intros ->%negb_false_iff%Z.eqb_eq. Qed.

Lemma vote_res_effect t env pid vr s u s' : time_is t s -> handle_vote_res env pid vr s = Done (u, s') ->
  same_config s s' /\ rpc_tx s' = rpc_tx s /\
  (highest_term s' = highest_term s \/ state_term (state s) = Some (highest_term s')) /\ counted t env vr (state s) (state s').
Proof.
  intros [Hc Ht] H. unfold handle_vote_res in H.
  minv; try match goal with Hu : update_rep_peers _ _ _ _ = Done _ |- _ => apply update_rep_peers_spec in Hu as (? & -> & _) end;
    cbn in *; rewrite ?Hc in *; cbn in *; unfold TestClock_now in *; cbn in *; rewrite ?lease_end in * by done; simplify_eq;
    (split; [done|]); (split; [done|]); bool_split; (split; [first [by left|right; by eapply own_term]|]);
    cbn; try (by apply counted_not); try match goal with Hs : state s = _ |- _ => rewrite Hs in * end; cbn in *; try congruence.
  all: rewrite ?andb_true_l, ?negb_false_iff in *.
  all: first [apply counted_nack; [by eapply valid_is_candidate|done]
    | by eapply counted_ack; auto
    | match goal with |- counted _ _ _ (Candidate _ ?have _ _) _ =>
        eapply (counted_vote _ _ _ _ _ _ have _ _ (have ++ [tok env])); by auto end
    | match goal with |- counted _ _ _ (Candidate _ ?have _ _) _ => eapply (counted_vote _ _ _ _ _ _ have _ _ have); by auto end].
Qed.
End Effects.
