(* ===== verification/Lease.v ===== *)
(** * One leader at a time

    In a cluster of up to 509 nodes that holds elections, on a common clock of whole
    seconds, whatever the network does: as long as no leader has its lease extended and no
    node's highest term goes back, no two nodes lead under leases that have not run out
    ([one_valid_leader]).  From 510 nodes on a majority does not fit the [u8] that
    [become_candidate] keeps it in.  A node that has voted for a leader
    follows it at least until the end of the leader's candidacy, and two quorums have a
    node in common.  Without either condition it fails ([two_valid_leaders] in
    Deviations, and the terms that go back there). *)

From stdpp Require Import base tactics option list numbers strings.
From Stdlib Require Import ZArith Lia.
From S2P Require Import Prelude BTreeMap Crates Messages Protobuf Serialization SerializationFacts Clock State AckedLog Server.
From S2P Require Import Transport ServerFacts Invariant Election Cluster Voting.

Section Runs.
Context `{TC : TimeCrate} `{BC : BytesCrate} `{RDB : RocksDB} `{PS : ProtobufStreams}.

(** No node's highest term goes back, and no lease of a leader changes. *)
Definition steady (c c' : Cluster) : Prop :=
  forall i s s', cl_nodes c !! i = Some s -> cl_nodes c' !! i = Some s' ->
    highest_term s <= highest_term s' /\
    (is_leader (state s) = true -> is_leader (state s') = true -> state_until (state s') = state_until (state s)).

Inductive steady_run (c0 : Cluster) : Cluster -> Prop :=
| steady_refl : steady_run c0 c0
| steady_step c a c' : steady_run c0 c -> act c a = Some c' -> steady c c' -> steady_run c0 c'.

(** A node leads under a lease that has not run out. *)
Definition leads (c : Cluster) (i : nat) : Prop :=
  exists s, cl_nodes c !! i = Some s /\ is_leader (state s) = true /\ valid_leader (state s) (at_sec (cl_time c)) = true.
End Runs.

Section Lease.
Context `{TC : TimeCrate} {TL : TimeLaws} `{BL : BytesLaws} `{RDB : RocksDB} `{PL : ProtobufLaws}.
Context (names : list PeerID).
Local Abbreviation size := (length names).
Local Abbreviation Node := (Server (C := TestClock) (L := InMemoryLog Mutation)).
Implicit Types (c : Cluster) (s : Node).

(** ** The invariant *)

(** Node [q] cannot vote for anybody but [a] before the time [w]. *)
Definition bound c (q a : nat) (w : Z) : Prop :=
  w <= cl_time c \/ q = a \/
  exists s ft nm tk ad w', cl_nodes c !! q = Some s /\ names !! a = Some nm /\
    state s = Follower ft nm tk ad (at_sec w') /\ w <= w'.

(** Votes of distinct nodes, all bound to [a]. *)
Definition voters c (a : nat) (w : Z) (votes : list Token) : Prop :=
  NoDup votes /\ Forall (fun x => exists q, x = Z.of_nat q /\ (q < size)%nat /\ bound c q a w) votes.

Definition quorum_of : Z := Z.of_nat size / 2 + 1.

Definition role_ok c (a : nat) (st : State) : Prop :=
  match st with
  | Candidate _ have need u => need = quorum_of /\ exists w, u = at_sec w /\ w <= cl_time c + 12 /\ voters c a w have
  | Leader _ _ need u => need = quorum_of /\ exists w votes, u = at_sec w /\ w <= cl_time c + 12 /\
      voters c a w votes /\ quorum_of <= Z.of_nat (length votes)
  | Follower _ _ _ _ u => exists w, u = at_sec w /\ w <= cl_time c + 12
  | Init => True
  end.

Record node_ok c (a : nat) s : Prop := {
  no_name : names !! a = Some (id s);
  no_peers : length (peers s) = size;
  no_log : in_u64 (last_accepted_term (rep_log s)) /\ in_u64 (last_accepted_txid (rep_log s)) /\
    in_u64 (last_learned_term (rep_log s)) /\ in_u64 (last_learned_txid (rep_log s));
  no_high : in_u64 (highest_term s);
  no_term : forall t, state_term (state s) = Some t -> in_u64 t;
  no_stand : forall t u, standing (state s) t u -> t <= highest_term s;
  no_role : role_ok c a (state s);
}.

(** What a node has sent: requests for terms it has reached, and votes it is bound by. *)
Definition vote_ok c (q a : nat) (t : Term) : Prop :=
  forall s, cl_nodes c !! a = Some s -> t <= highest_term s /\ forall w, standing (state s) t (at_sec w) -> bound c q a w.

Definition sent_ok c (q : nat) (e : Envelope) : Prop :=
  forall pm, parse_PeerMsg (ByteBuf_bytes (msg e)) = Some pm ->
  names !! q = Some (PeerMsg_get_srvid pm) /\
  if PeerMsg_has_vote_res pm then
    is_Some (address e) /\ (VoteRes_get_success (PeerMsg_get_vote_res pm) = true ->
      exists a, tok e = Z.of_nat a /\ vote_ok c q a (VoteRes_get_term (PeerMsg_get_vote_res pm)))
  else PeerMsg_has_vote_req pm = true /\ in_u64 (VoteReq_get_term (PeerMsg_get_vote_req pm)) /\
    forall s, cl_nodes c !! q = Some s -> VoteReq_get_term (PeerMsg_get_vote_req pm) <= highest_term s.

Record cluster_inv c : Prop := {
  cl_size : length (cl_nodes c) = size;
  cl_start : 0 <= cl_time c;
  cl_node : forall a s, cl_nodes c !! a = Some s -> node_ok c a s;
  cl_sent : forall q s, cl_nodes c !! q = Some s -> Forall (sent_ok c q) (rpc_tx s);
}.

(** ** Time *)

Definition later c (k : nat) : Cluster := mkCluster (cl_time c + Z.of_nat k) (cl_nodes c).

Lemma bound_later c k q a w : bound c q a w -> bound (later c k) q a w.
Proof. intros [Hw|Hw]; [left; cbn; lia|by right]. Qed.

Lemma voters_mono c c' a w votes : (forall q, bound c q a w -> bound c' q a w) -> voters c a w votes -> voters c' a w votes.
Proof. intros Hb [Hn Hf]. split; [done|]. eapply Forall_impl; [exact Hf|]. intros x (q & -> & Hq & Hx). eauto. Qed.

Lemma role_mono c c' a st : cl_time c <= cl_time c' -> (forall q w, bound c q a w -> bound c' q a w) -> role_ok c a st -> role_ok c' a st.
Proof.
  intros Ht Hb. destruct st as [t have need u|t have need u|t i tk ad u|]; cbn; [| | |done].
  - intros (-> & w & votes & -> & Hw & Hv & Hq). split; [done|]. exists w, votes. split_and!; [done|lia|eapply voters_mono; [intros q; apply Hb|done]|done].
  - intros (-> & w & -> & Hw & Hv). split; [done|]. exists w. split_and!; [done|lia|eapply voters_mono; [intros q; apply Hb|done]].
  - intros (w & -> & Hw). exists w. split; [done|lia].
Qed.

Lemma vote_ok_mono c c' q a t : (forall q w, bound c q a w -> bound c' q a w) -> cl_nodes c' !! a = cl_nodes c !! a ->
  vote_ok c q a t -> vote_ok c' q a t.
Proof. intros Hb Ha Hv s Hs. rewrite Ha in Hs. destruct (Hv s Hs) as [? ?]. eauto. Qed.

Lemma later_inv c k : cluster_inv c -> cluster_inv (later c k).
Proof.
  intros [Hs H0 Hn Hm]. split; [done|cbn; lia| |].
  - intros a s Ha. destruct (Hn a s Ha) as [? ? ? ? ? ? Hr]. split; [done..|].
    eapply role_mono; [|by intros; apply bound_later|exact Hr]. cbn. lia.
  - intros q s Hq. eapply Forall_impl; [exact (Hm q s Hq)|]. intros e He pm Hp. destruct (He pm Hp) as [? Hx]. split; [done|].
    destruct (PeerMsg_has_vote_res pm); [|exact Hx]. destruct Hx as [? Hx]. split; [done|].
    intros Hok. destruct (Hx Hok) as (a & Ha & Hv). exists a. split; [done|].
    apply (vote_ok_mono c); [intros; by apply bound_later|done|exact Hv].
Qed.

(** ** A step of one node *)

(** What a node's events may do, besides sending: a lease it has given is kept, and it
    stands only in a term that is new. *)
Record fair_step (t : Z) s s' : Prop := {
  fs_config : same_config s s';
  fs_high : highest_term s <= highest_term s' <= u64_max;
  fs_lease : forall ft nm tk ad w, state s = Follower ft nm tk ad (at_sec w) -> t < w -> w <= t + 12 ->
    exists ft' tk' ad' w', state s' = Follower ft' nm tk' ad' (at_sec w') /\ w <= w';
  fs_stand : forall tm w, standing (state s') tm (at_sec w) -> standing (state s) tm (at_sec w) \/ highest_term s < tm;
  fs_term : forall tm, state_term (state s') = Some tm -> in_u64 tm;
  fs_reached : forall tm u, standing (state s') tm u -> tm <= highest_term s';
}.

Definition step_to c (i : nat) s' : Cluster := mkCluster (cl_time c) (<[i := s']> (cl_nodes c)).

Section Step.
Context c (i : nat) s s' (Hc : cluster_inv c) (Hi : cl_nodes c !! i = Some s) (Hf : fair_step (cl_time c) s s').

Lemma step_lookup a : cl_nodes (step_to c i s') !! a = if decide (a = i) then Some s' else cl_nodes c !! a.
Proof.
  cbn. destruct (decide (a = i)) as [->|]; [|by rewrite list_lookup_insert_ne].
  by rewrite list_lookup_insert_eq by (by eapply lookup_lt_Some).
Qed.

Lemma bound_step q a w : bound c q a w -> bound (step_to c i s') q a w.
Proof.
  intros [Hw|[->|(s0 & ft & nm & tk & ad & w' & Hq & Ha & Hst & Hw)]]; [by left|right; by left|].
  destruct (Z.le_gt_cases w (cl_time c)) as [|Hlt]; [by left|]. right; right.
  destruct (decide (q = i)) as [->|Hne].
  - rewrite Hi in Hq. injection Hq as <-. pose proof (no_role _ _ _ (cl_node _ Hc i s Hi)) as Hr. rewrite Hst in Hr.
    destruct Hr as (w0 & [= <-] & Hle). destruct (fs_lease _ _ _ Hf ft nm tk ad w' Hst ltac:(lia) Hle) as (ft' & tk' & ad' & w1 & Hs' & Hw1).
    exists s', ft', nm, tk', ad', w1. rewrite step_lookup, decide_True by done. split_and!; [done..|lia].
  - exists s0, ft, nm, tk, ad, w'. rewrite step_lookup, decide_False by done. done.
Qed.

Lemma vote_ok_step q a t : vote_ok c q a t -> vote_ok (step_to c i s') q a t.
Proof.
  intros Hv s0. rewrite step_lookup. destruct (decide (a = i)) as [->|Hne].
  - intros [= <-]. destruct (Hv s Hi) as [Ht Hb]. pose proof (fs_high _ _ _ Hf). split; [lia|]. intros w Hs.
    destruct (fs_stand _ _ _ Hf t w Hs) as [Hs0|]; [|lia]. by apply bound_step, Hb.
  - intros Hs. destruct (Hv s0 Hs) as [Ht Hb]. split; [done|]. intros w Hw. by apply bound_step, Hb.
Qed.

Lemma sent_ok_step q e : sent_ok c q e -> sent_ok (step_to c i s') q e.
Proof.
  intros He pm Hp. destruct (He pm Hp) as [Hn Hx]. split; [done|]. destruct (PeerMsg_has_vote_res pm).
  - destruct Hx as [? Hx]. split; [done|]. intros Hok. destruct (Hx Hok) as (a & Ha & Hv). exists a. split; [done|]. by apply vote_ok_step.
  - destruct Hx as (? & ? & Hh). split_and!; [done..|]. intros s0. rewrite step_lookup. destruct (decide (q = i)) as [->|]; [|apply Hh].
    intros [= <-]. pose proof (Hh s Hi). pose proof (fs_high _ _ _ Hf). lia.
Qed.

Lemma step_inv out : role_ok (step_to c i s') i (state s') -> rpc_tx s' = rpc_tx s ++ out ->
  Forall (sent_ok (step_to c i s') i) out -> cluster_inv (step_to c i s').
Proof.
  intros Hr Ho Hout. destruct Hc as [Hsz H0 Hn Hm]. split.
  - cbn. by rewrite length_insert.
  - done.
  - intros a s0. rewrite step_lookup. destruct (decide (a = i)) as [->|Hne].
    + intros [= <-]. destruct (Hn i s Hi) as [? Hp Hl Hh ? ? ?]. destruct Hf as [(Eid & Epe & Elo) Hhi _ _ Ht Hre].
      split; rewrite ?Eid, ?Epe, ?Elo; try done. unfold in_u64 in *. lia.
    + intros Ha. destruct (Hn a s0 Ha) as [? ? ? ? ? ? Hro]. split; [done..|]. apply (role_mono c); [done|intros q w; apply bound_step|done].
  - intros q s0. rewrite step_lookup. destruct (decide (q = i)) as [->|Hne].
    + intros [= <-]. rewrite Ho. apply Forall_app. split; [|done]. eapply Forall_impl; [exact (Hm i s Hi)|]. intros e. apply sent_ok_step.
    + intros Hq. eapply Forall_impl; [exact (Hm q s0 Hq)|]. intros e. apply sent_ok_step.
Qed.

(** The role did not change. *)
Lemma role_step : state s' = state s -> role_ok (step_to c i s') i (state s').
Proof.
  intros ->. apply (role_mono c); [done|intros q w; apply bound_step|]. apply (cl_node _ Hc i s Hi).
Qed.
End Step.

(** ** Events *)

Context (Hnames : NoDup names) (Hwire : Forall wire_name names) (Hsize : Z.of_nat size <= 509).

Lemma name_eq a b nm : names !! a = Some nm -> names !! b = Some nm -> a = b.
Proof. intros Ha Hb. by eapply NoDup_lookup. Qed.

Lemma wire_name_at a nm : names !! a = Some nm -> wire_name nm.
Proof. intros Ha. by eapply (Forall_lookup_1 _ _ _ _ Hwire). Qed.

Lemma need_quorum s : length (peers s) = size -> as_u8 (Z.of_nat (length (peers s)) / 2 + 1) = quorum_of.
Proof.
  intros ->. unfold quorum_of, as_u8. apply Z.mod_small.
  Z.to_euclidean_division_equations. lia.
Qed.

Lemma no_lease st w t ft nm tk ad : valid_leader st (at_sec t) = false -> st = Follower ft nm tk ad (at_sec w) -> t < w -> False.
Proof. intros Hv -> Hw. cbn in Hv. rewrite at_sec_lt in Hv. apply Z.ltb_ge in Hv. lia. Qed.

(** The node of an event at the time of the cluster. *)
Definition timed c s : Node := set_clock s (mkTestClock (at_sec (cl_time c))).

Lemma timed_time c s : cluster_inv c -> cl_time c <= 2 ^ 62 -> time_is (cl_time c) (timed c s).
Proof. intros [_ H0 _ _] Ht. split; [done|lia]. Qed.

(** A step that leaves the role alone. *)
Lemma same_fair c i s s' : cluster_inv c -> cl_nodes c !! i = Some s -> same_config s s' -> state s' = state s ->
  highest_term s' = highest_term s -> fair_step (cl_time c) s s'.
Proof.
  intros Hc Hi Hsc Hst Hh. destruct (cl_node _ Hc i s Hi) as [_ _ _ [? ?] Ht Hs _]. split; rewrite ?Hst, ?Hh; try done.
  - intros ft nm tk ad w -> _ _. by eexists _, _, _, w.
  - by left.
Qed.

Lemma cluster_cron_inv c i s s' u : cluster_inv c -> cl_time c <= 2 ^ 62 -> cl_nodes c !! i = Some s ->
  cron (timed c s) = Done (u, s') -> cluster_inv (step_to c i s').
Proof.
  intros Hc Ht Hi E. destruct (cron_effect _ _ _ _ (timed_time c s Hc Ht) E) as (Hsc & Hask & Hst).
  pose proof (cl_node _ Hc i s Hi) as [Hname Hp Hl Hh Htm Hre Hro]. change (same_config s s') in Hsc. cbn [timed set_clock] in *.
  assert (fair_step (cl_time c) s s') as Hf.
  { destruct Hst as [[Hst Hhi]|(Hv & Hhi & Hmax & Hst)]; [by eapply same_fair|]. cbn in Hv, Hhi.
    split; rewrite ?Hst; cbn -[u64_max]; try done; try lia.
    - intros ft nm tk ad w Hs Hw _. by destruct (no_lease _ _ _ _ _ _ _ Hv Hs Hw).
    - intros tm [= <-]. unfold in_u64 in *. lia. }
  assert (role_ok (step_to c i s') i (state s')) as Hrole.
  { destruct Hst as [[Hst _]|(_ & _ & _ & Hst)]; [by eapply role_step|]. rewrite Hst. cbn. split; [by apply (need_quorum s)|].
    eexists. split_and!; [done|lia|]. split; constructor. }
  destruct Hask as [Ho|(t & w & b & Hs & Hw & Ho)]; [eapply (step_inv c i s s' Hc Hi Hf []); [done|by rewrite app_nil_r|constructor]|].
  eapply (step_inv c i s s' Hc Hi Hf); [done|exact Ho|]. apply Forall_singleton. intros pm Hpm. cbn in Hpm.
  destruct Hsc as (Eid & _ & Elo). destruct Hl as (? & ? & ? & ?). assert (in_u64 t) as Hu.
  { apply (fs_term _ _ _ Hf). destruct (state s'); try done; cbn; destruct Hs; by subst. }
  destruct (vote_request_parse s' t b pm) as (Hsrv & Hvr & Hvq & Hterm); [by rewrite Eid; eapply wire_name_at|done|by rewrite Elo..|done|done|].
  rewrite Hvr, Hvq, Hterm, Hsrv, Eid. split; [done|]. split; [done|]. split; [exact Hu|].
  intros s1. rewrite (step_lookup c i s s' Hi), decide_True by done.
  intros [= <-]. by eapply (fs_reached _ _ _ Hf).
Qed.

(** A leader or candidate stands for at most twelve seconds more. *)
Lemma standing_until c a s t w : node_ok c a s -> standing (state s) t (at_sec w) -> w <= cl_time c + 12.
Proof.
  intros [_ _ _ _ _ _ Hr] Hs. destruct (state s); cbn in *; try done; destruct Hs as [_ ->].
  - destruct Hr as (_ & w' & votes & [= <-] & Hw & _). done.
  - destruct Hr as (_ & w' & [= <-] & Hw & _). done.
Qed.

(** Following the sender of a vote request is fair. *)
Lemma follow_fair c i s s' pid term : cluster_inv c -> cl_nodes c !! i = Some s -> same_config s s' ->
  highest_term s <= highest_term s' -> in_u64 term -> follows (cl_time c) pid term s s' -> fair_step (cl_time c) s s'.
Proof.
  intros Hc Hi Hsc Hle Hu (ft & tk & ad & Hst & Hhow). destruct (cl_node _ Hc i s Hi) as [_ _ _ [? ?] Ht _ _].
  split; rewrite ?Hst; cbn -[u64_max]; try done.
  - destruct Hhow as [(_ & Hh & _)|(_ & Hh & _)]; unfold in_u64 in *; lia.
  - intros ft0 nm tk0 ad0 w Hs Hw Hw12. destruct Hhow as [(Hfo & _)|(Hv & _)].
    + rewrite Hs in Hfo. cbn in Hfo. apply bool_decide_eq_true in Hfo as ->. by eexists _, _, _, (cl_time c + 12).
    + by destruct (no_lease _ _ _ _ _ _ _ Hv Hs Hw).
  - intros tm [= <-]. destruct Hhow as [(_ & _ & Hft)|(_ & _ & ->)]; [by apply Ht|done].
Qed.

Lemma vote_req_inv c i s s' u from sf k ad pm : cluster_inv c -> cl_time c <= 2 ^ 62 -> cl_nodes c !! i = Some s ->
  cl_nodes c !! from = Some sf -> highest_term s <= highest_term s' ->
  names !! from = Some (PeerMsg_get_srvid pm) -> in_u64 (VoteReq_get_term (PeerMsg_get_vote_req pm)) ->
  VoteReq_get_term (PeerMsg_get_vote_req pm) <= highest_term sf ->
  handle_vote_req (mkEnvelope (Some ad) (Z.of_nat from) k) (PeerMsg_get_srvid pm) (PeerMsg_get_vote_req pm) (timed c s) = Done (u, s') ->
  cluster_inv (step_to c i s').
Proof.
  intros Hc Ht Hi Hfr Hle Hfn Hu Hth E.
  destruct (vote_req_effect _ _ _ _ _ _ _ (timed_time c s Hc Ht) E) as (Hsc & tm & ok & b & Hw & Ho & Hst).
  change (same_config s s') in Hsc. cbn [timed set_clock address tok] in *.
  pose proof (cl_node _ Hc i s Hi) as [Hname Hp Hl Hh Htm Hre Hro].
  assert (fair_step (cl_time c) s s') as Hf.
  { destruct Hst as [(_ & _ & Hst & Hhi)|(_ & _ & [(_ & Hst & Hhi)|Hfo])]; [by eapply same_fair..|].
    eapply follow_fair; [done..|exact Hu|exact Hfo]. }
  eapply (step_inv c i s s' Hc Hi Hf); [|exact Ho|].
  - destruct Hst as [(_ & _ & Hst & _)|(_ & _ & [(_ & Hst & _)|(ft & tk & ad' & Hst & _)])]; [by eapply role_step..|].
    rewrite Hst. cbn. by eexists.
  - apply Forall_singleton. intros pm' Hpm. cbn in Hpm. assert (in_u64 tm) as Hut
      by (destruct Hst as [(_ & [->|Htm'] & _)|(_ & -> & _)]; [done|by apply Htm|done]).
    destruct (vote_answer_parse (id s) tm ok b pm') as (Hsrv & Hvr & Hterm & Hok); [by eapply wire_name_at|done..|].
    rewrite Hvr, Hterm, Hok, Hsrv. split; [done|]. split; [by eexists|]. intros ->. exists from. split; [done|].
    destruct Hst as [(? & _)|(_ & -> & Hst)]; [done|]. intros sa. rewrite (step_lookup c i s s' Hi). destruct (decide (from = i)) as [->|Hne].
    + intros [= <-]. rewrite Hi in Hfr. injection Hfr as <-. split; [lia|]. intros w _. right. by left.
    + intros Hsa. rewrite Hfr in Hsa. injection Hsa as <-. split; [done|]. intros w Hs.
      destruct Hst as [(Hpid & _)|(ft & tk & ad' & Hst & _)].
      * destruct Hne. eapply name_eq; [done|]. by rewrite Hpid.
      * right; right. exists s', ft, (PeerMsg_get_srvid pm), tk, ad', (cl_time c + 12). rewrite (step_lookup c i s s' Hi), decide_True by done.
        split_and!; [done..|]. by eapply standing_until; [apply (cl_node _ Hc)|].
Qed.

Lemma counted_fair c i s s' env vr : cluster_inv c -> cl_nodes c !! i = Some s -> same_config s s' ->
  highest_term s <= highest_term s' <= u64_max ->
  (is_leader (state s) = true -> is_leader (state s') = true -> state_until (state s') = state_until (state s)) ->
  counted (cl_time c) env vr (state s) (state s') -> fair_step (cl_time c) s s'.
Proof.
  intros Hc Hi Hsc Hle Hld Hco. destruct (cl_node _ Hc i s Hi) as [_ _ _ [? ?] Ht Hre _].
  split; try done; destruct Hco as [Hst|Hcd Hst|tm have need w new Hs Hok Htm Hnew Hst|tm have need w have' w' Hs Hst Hw].
  - intros ft nm tk ad w Hs _ _. rewrite Hst. by eexists _, _, _, w.
  - intros ft nm tk ad w Hs _ _. by rewrite Hs in Hcd.
  - intros ft nm tk ad w0 Hs0 _ _. by rewrite Hs in Hs0.
  - intros ft nm tk ad w0 Hs0 _ _. by rewrite Hs in Hs0.
  - rewrite Hst. by left.
  - by rewrite Hst.
  - intros tm' w0. rewrite Hs. left. by destruct Hst as [Hst|[_ Hst]]; rewrite Hst in *.
  - intros tm' w0. rewrite Hs, Hst in *. cbn in *. specialize (Hld eq_refl eq_refl). injection Hld as ->. by left.
  - rewrite Hst. apply Ht.
  - by rewrite Hst.
  - intros tm' Htm'. apply Ht. rewrite Hs. by destruct Hst as [Hst|[_ Hst]]; rewrite Hst in *.
  - intros tm' Htm'. apply Ht. rewrite Hs. by rewrite Hst in *.
  - intros tm' w0. rewrite Hst. intros Hs0. pose proof (Hre _ _ Hs0). lia.
  - by rewrite Hst.
  - intros tm' w0 Hs0. assert (standing (state s) tm' w0) as Hs1 by (rewrite Hs; by destruct Hst as [Hst|[_ Hst]]; rewrite Hst in *).
    pose proof (Hre _ _ Hs1). lia.
  - intros tm' w0 Hs0. assert (standing (state s) tm' w) as Hs1 by (rewrite Hs; rewrite Hst in Hs0; by destruct Hs0).
    pose proof (Hre _ _ Hs1). lia.
Qed.

(** A vote more, or not, for a candidate. *)
Lemma voters_push c i have w from : voters c i w have -> (from < size)%nat -> bound c from i w -> Z.of_nat from ∉ have ->
  voters c i w (have ++ [Z.of_nat from]).
Proof.
  intros [Hn Hv] Hf Hb Hne. split; [by apply NoDup_snoc|]. apply Forall_app. split; [done|]. apply Forall_singleton. by exists from.
Qed.

Lemma vote_res_inv c i s s' u from k ad pid vr : cluster_inv c -> cl_time c <= 2 ^ 62 -> cl_nodes c !! i = Some s ->
  (from < size)%nat -> (VoteRes_get_success vr = true -> vote_ok c from i (VoteRes_get_term vr)) ->
  highest_term s <= highest_term s' ->
  (is_leader (state s) = true -> is_leader (state s') = true -> state_until (state s') = state_until (state s)) ->
  handle_vote_res (mkEnvelope (Some ad) (Z.of_nat from) k) pid vr (timed c s) = Done (u, s') ->
  cluster_inv (step_to c i s').
Proof.
  intros Hc Ht Hi Hfrom Hvote Hle Hld E.
  destruct (vote_res_effect _ _ _ _ _ _ _ (timed_time c s Hc Ht) E) as (Hsc & Ho & Hhi & Hco).
  change (same_config s s') in Hsc. change (state (timed c s)) with (state s) in Hco. cbn [timed set_clock address tok] in *.
  pose proof (cl_node _ Hc i s Hi) as [Hname Hp Hl Hh Htm Hre Hro].
  assert (fair_step (cl_time c) s s') as Hf.
  { eapply counted_fair; [done..| |done|exact Hco]. split; [done|].
    destruct Hhi as [->|Hhi]; [apply Hh|]. by apply Htm in Hhi as [_ ?]. }
  eapply (step_inv c i s s' Hc Hi Hf []); [|by rewrite app_nil_r|constructor].
  pose proof (fun q w => bound_step c i s s' Hc Hi Hf q i w) as Hbs.
  destruct Hco as [Hst|_ ->|tm have need w new Hs Hok Heq Hnew Hst|tm have need w have' w' Hs Hst Hw]; [by eapply role_step|done|..].
  - rewrite Hs in Hro. destruct Hro as (-> & w0 & -> & Hw0 & Hv).
    assert (voters (step_to c i s') i w0 new) as Hv'.
    { eapply voters_mono; [intros q; apply Hbs|]. destruct Hnew as [->|[-> Hnt]]; [done|]. apply voters_push; try done.
      subst tm. apply (proj2 (Hvote Hok s Hi)). by rewrite Hs. }
    destruct Hst as [->|[Hq ->]]; cbn; (split; [done|]); [by exists w0|]. by exists w0, new.
  - rewrite Hs, Hst in *. specialize (Hld eq_refl eq_refl). injection Hld as ->.
    eapply role_mono; [|intros q w0; apply Hbs|]; [done|]. exact Hro.
Qed.

Lemma act_inv c a c' : cluster_inv c -> act c a = Some c' -> steady c c' -> cl_time c' <= 2 ^ 62 -> cluster_inv c'.
Proof.
  intros Hc E Hsd Ht.
  assert (forall i ev, node_event c i ev = Some c' -> exists s s' u, cl_nodes c !! i = Some s /\
    handle_event ev (timed c s) = Done (u, s') /\ c' = step_to c i s' /\ highest_term s <= highest_term s' /\
    (is_leader (state s) = true -> is_leader (state s') = true -> state_until (state s') = state_until (state s))) as Hev.
  { intros i ev En. unfold node_event in En. destruct (cl_nodes c !! i) as [s|] eqn:Hi; [|done]. cbn in En.
    destruct (handle_event ev _) as [[u s']|] eqn:Eh; [|done]. injection En as <-. exists s, s', u. split_and!; [done..| |];
      apply (Hsd i s s' Hi); by rewrite (step_lookup c i s s' Hi), decide_True. }
  destruct a as [secs|n|from k to]; cbn in E.
  - injection E as <-. by apply (later_inv c secs).
  - apply Hev in E as (s & s' & u & Hi & Eh & -> & _ & _). by eapply cluster_cron_inv.
  - destruct (cl_nodes c !! from) as [sf|] eqn:Hfr; [|done]. cbn in E. destruct (rpc_tx sf !! k) as [e|] eqn:Hk; [|done]. cbn in E.
    destruct (reaches e to) eqn:Hre; [|done]. apply Hev in E as (s & s' & u & Hi & Eh & -> & Hle & Hld). cbn in Eh. unfold handle_peer in Eh.
    apply M_bind_Done in Eh as (pm & s0 & (Hp & ->)%lift_Done & Eh). apply unwrap_Done in Hp.
    destruct (Forall_lookup_1 _ _ _ _ (cl_sent _ Hc from sf Hfr) Hk pm Hp) as [Hfn Hx].
    destruct (PeerMsg_has_vote_res pm).
    + eapply (vote_res_inv c to s s' u from); [done|done|done|by eapply lookup_lt_Some| |done|done|exact Eh]. intros Hok. destruct Hx as [[ad Had] Hx].
      destruct (Hx Hok) as (a & Ha & Hv). unfold reaches in Hre. rewrite Had, Ha in Hre. apply Z.eqb_eq, Nat2Z.inj in Hre as ->. done.
    + destruct Hx as (Hq & Hu & Hh). rewrite Hq in Eh. eapply (vote_req_inv c to s s' u from sf); [done|done|done|done|done|done|exact Hu|by apply Hh|exact Eh].
Qed.

Lemma start_inv d : cluster_inv (start_cluster d names).
Proof.
  split; cbn; [by rewrite length_imap|done|..].
  - intros a s. rewrite list_lookup_imap. destruct (names !! a) as [nm|] eqn:Ha; [|done]. intros [= <-]. by split.
  - intros a s. rewrite list_lookup_imap. destruct (names !! a) as [nm|] eqn:Ha; [|done]. intros [= <-]. constructor.
Qed.

Lemma node_event_time c i ev c' : node_event c i ev = Some c' -> cl_time c' = cl_time c.
Proof.
  unfold node_event. destruct (cl_nodes c !! i); [|done]. cbn -[handle_event].
  destruct (handle_event ev _) as [[u s']|]; [|done]. by intros [= <-].
Qed.

Lemma act_time c a c' : act c a = Some c' -> cl_time c <= cl_time c'.
Proof.
  destruct a; cbn -[node_event]; intros E.
  - injection E as <-. cbn. lia.
  - by apply node_event_time in E as ->.
  - destruct (_ !! _); [|done]. cbn -[node_event] in E. destruct (_ !! _); [|done]. cbn -[node_event] in E.
    destruct (reaches _ _); [|done]. by apply node_event_time in E as ->.
Qed.

Lemma cluster_run_inv d c : steady_run (start_cluster d names) c -> cl_time c <= 2 ^ 62 -> cluster_inv c.
Proof.
  induction 1 as [|c a c' _ IH E Hsd]; intros Ht; [apply start_inv|]. eapply act_inv; [|done..]. apply IH.
  etrans; [by eapply act_time|exact Ht].
Qed.

(** ** Quorums *)

Lemma quorums_meet c a b w w' va vb : voters c a w va -> voters c b w' vb ->
  quorum_of <= Z.of_nat (length va) -> quorum_of <= Z.of_nat (length vb) -> exists x, x ∈ va /\ x ∈ vb.
Proof.
  intros [Hna Ha] [Hnb Hb] Hla Hlb. destruct (decide (Exists (fun x => x ∈ vb) va)) as [(x & ? & ?)%Exists_exists|Hno]; [by exists x|].
  exfalso. assert (NoDup (va ++ vb)) as Hn.
  { apply NoDup_app. split_and!; [done| |done]. intros x Hx Hx'. apply Hno, Exists_exists. by exists x. }
  assert (va ++ vb ⊆ seqZ 0 (Z.of_nat size)) as Hs.
  { intros x [Hx|Hx]%elem_of_app; rewrite Forall_forall in Ha, Hb; [destruct (Ha x Hx) as (q & -> & ? & _)|destruct (Hb x Hx) as (q & -> & ? & _)];
      apply elem_of_seqZ; lia. }
  pose proof (submseteq_length _ _ (NoDup_submseteq _ _ Hn Hs)) as Hlen. rewrite length_app, length_seqZ in Hlen.
  unfold quorum_of in *. Z.to_euclidean_division_equations. lia.
Qed.

Lemma leads_voters c a : cluster_inv c -> leads c a ->
  exists s w votes, cl_nodes c !! a = Some s /\ is_leader (state s) = true /\ cl_time c < w /\
    voters c a w votes /\ quorum_of <= Z.of_nat (length votes).
Proof.
  intros Hc (s & Hs & Hl & Hv). pose proof (no_role _ _ _ (cl_node _ Hc a s Hs)) as Hr. destruct (state s) as [t have need u| | |] eqn:Est; try done.
  destruct Hr as (_ & w & votes & -> & _ & Hvo & Hq). cbn in Hv. rewrite at_sec_lt in Hv. apply Z.ltb_lt in Hv.
  exists s, w, votes. by rewrite Est.
Qed.

(** A leader is not bound to another node. *)
Lemma leader_free c q a w s : cluster_inv c -> bound c q a w -> cl_time c < w -> cl_nodes c !! q = Some s -> is_leader (state s) = true -> q = a.
Proof.
  intros Hc [Hb|[->|(s' & ft & nm & tk & ad & w' & Hq & _ & Hst & _)]] Hw Hs Hl; [lia|done|].
  rewrite Hs in Hq. injection Hq as <-. by rewrite Hst in Hl.
Qed.

(** C9: in a cluster of at most 509 nodes (a majority of them fits the [u8] of [need]),
    with different names of less than 2^16 bytes, started as [run] starts them and running
    on a common clock that shows whole seconds up to 2^62, at most one node leads under a
    lease that has not run out: whatever is broadcast, delivered in any order, late, more
    than once or not at all, and whenever the crons run, as long as no client comes, no
    node's highest term goes back and no leader's lease changes. *)
Theorem one_valid_leader d c a b :
  steady_run (start_cluster d names) c -> cl_time c <= 2 ^ 62 -> leads c a -> leads c b -> a = b.
Proof.
  intros Hrun Ht Ha Hb. pose proof (cluster_run_inv d c Hrun Ht) as Hc.
  destruct (leads_voters c a Hc Ha) as (sa & wa & va & Hsa & Hla & Hwa & Hva & Hqa).
  destruct (leads_voters c b Hc Hb) as (sb & wb & vb & Hsb & Hlb & Hwb & Hvb & Hqb).
  destruct (quorums_meet c a b wa wb va vb Hva Hvb Hqa Hqb) as (x & Hxa & Hxb).
  destruct Hva as [_ Hva], Hvb as [_ Hvb]. rewrite Forall_forall in Hva, Hvb.
  destruct (Hva x Hxa) as (q & -> & _ & Hba). destruct (Hvb _ Hxb) as (q' & <-%Nat2Z.inj & _ & Hbb).
  destruct (decide (q = a)) as [->|Hqa']; [by eapply leader_free|]. destruct (decide (q = b)) as [->|Hqb']; [by symmetry; eapply leader_free|].
  destruct Hba as [?|[?|(s & ft & nm & tk & ad & w & Hq & Hn & Hst & _)]]; [lia|done|].
  destruct Hbb as [?|[?|(s' & ft' & nm' & tk' & ad' & w' & Hq' & Hn' & Hst' & _)]]; [lia|done|].
  rewrite Hq in Hq'. injection Hq' as <-. rewrite Hst in Hst'. injection Hst' as _ -> _ _ _. by eapply name_eq.
Qed.
End Lease.
