(* ===== verification/Deviations.v ===== *)
(** * Runs that deviate from the intent

    Concrete runs of the handlers, evaluated from the bytes on the wire to the
    bytes of the answers, in which a node does something the comments, the README or
    the tests of the repository exclude. *)

From stdpp Require Import base tactics option list numbers strings gmap.
From Stdlib Require Import ZArith Lia.
From S2P Require Import Prelude BTreeMap Crates Reference Messages Protobuf ProtobufRef Serialization.
From S2P Require Import Clock State AckedLog Server ServerFacts Invariant Election Cluster Scenario.

(** A cluster of three nodes, as it starts. *)
Definition fresh_cluster : Cluster := start_cluster (∅ : gmap (list Z) (list Z)) ["a"; "b"; "c"].

(** A node votes for two different leaders in the same term, and its highest
    term goes back: it grants "b" term 5, once that lease has run out grants "c"
    term 5, and later "d" term 3, as its three answers on the wire say; the test
    [election_safety] counts on at most one leader per term. *)
Theorem votes_twice_in_a_term :
  let vote i p t := handle_event (PeerRequest (peer_env i (vote_req p t 0 0))) in
  let wait n s := set_clock s (mkTestClock (at_sec n)) in
  let s1 := after (vote 11 "b" 5) (node 0 Init [] 0 0 (new_log 2)) in
  let s2 := after (vote 12 "c" 5) (wait 20 s1) in
  let s3 := after (vote 13 "d" 3) (wait 40 s2) in
  leader_of s1 = Some (5, "b") /\ leader_of s2 = Some (5, "c") /\ leader_of s3 = Some (3, "d") /\
  highest_term s2 = 5 /\ highest_term s3 = 3 /\
  map (fun m => (VoteRes_get_term (PeerMsg_get_vote_res m), VoteRes_get_success (PeerMsg_get_vote_res m)))
    (sent_peer s3) = [(5, true); (5, true); (3, true)].
Proof. split_and!; vm_compute; reflexivity. Qed.

(** C31: two nodes lead at the same time under leases that have not run out, on a
    network that delivers at once what it delivers.  "a" is elected by its own vote and
    that of "b", and keeps the vote of "c" that comes in after it; seven seconds
    later that vote and its own extend its lease to second nineteen, although no other
    node has extended its lease for it beyond second twelve, and "c" is free to elect
    "b" in second thirteen. *)
Theorem two_valid_leaders :
  let run := [Cron 0; Deliver 0 0 0; Deliver 0 0 1; Deliver 0 0 2; Deliver 0 1 0; Deliver 1 0 0; Deliver 2 0 0;
              Wait 7; Cron 0; Deliver 0 2 0; Deliver 0 3 0;
              Wait 6; Cron 1; Deliver 1 1 1; Deliver 1 2 1; Deliver 1 1 2; Deliver 2 1 1]%nat in
  exists c, acts fresh_cluster run = Some c /\ cl_time c = 13 /\
    valid_leaders c = [("a", Some 1); ("b", Some 2)].
Proof.
  intros run. assert ((fun c => (cl_time c, valid_leaders c)) <$> acts fresh_cluster run =
    Some (13, [("a", Some 1); ("b", Some 2)])) as Hc by (vm_compute; reflexivity).
  destruct (acts fresh_cluster run) as [c|]; [|done]. injection Hc as Ht Hl. by exists c.
Qed.

(** C32: two nodes lead the same term at the same time under leases that have not run
    out, and no lease was ever extended.  "a" stands in term 2 and "b" votes for it, but
    that vote is late; before it comes in, "a" grants "c" term 1, which sets its highest
    term back to 1.  Twelve seconds later "a" stands in term 2 again and the late vote of
    "b", which is bound no more, makes it leader, while "b" and "c" elect "c". *)
Theorem two_leaders_of_a_term :
  let run := [Cron 0; Wait 12; Cron 0; Deliver 0 1 1; Cron 2; Deliver 2 0 0; Wait 12;
              Cron 0; Deliver 0 3 0; Deliver 0 4 0; Deliver 1 0 0;
              Cron 2; Deliver 2 1 1; Deliver 2 1 2; Deliver 2 2 2; Deliver 1 1 2]%nat in
  exists c, acts fresh_cluster run = Some c /\ cl_time c = 24 /\ valid_leaders c = [("a", Some 2); ("c", Some 2)].
Proof.
  intros run. assert ((fun c => (cl_time c, valid_leaders c)) <$> acts fresh_cluster run =
    Some (24, [("a", Some 2); ("c", Some 2)])) as Hc by (vm_compute; reflexivity).
  destruct (acts fresh_cluster run) as [c|]; [|done]. injection Hc as Ht Hl. by exists c.
Qed.

(** A leader whose lease has run out, so that the other nodes are free to elect
    somebody else, still accepts a client's write, replicates it to its two peers,
    and answers a read from its own store: neither path looks at the lease. *)
Theorem expired_leader_serves :
  let m := run_events [CliRequest (cli_env 20 (cli_set 1 [3] [30])); CliRequest (cli_env 20 (cli_get 2 [1]))] in
  let s' := after m (leader_a 50) in
  valid_leader (state (leader_a 50)) (at_sec 50) = false /\
  m (leader_a 50) = Done (tt, s') /\ last_accepted_txid (rep_log s') = 3 /\
  map (fun m => length (Append_get_batch (PeerMsg_get_append m))) (take 2 (sent_peer s')) = [3%nat; 3%nat] /\
  (fun r => GetRes_get_err (CliRes_get_get r)) <$> last (sent_cli s') = Some "Key not found".
Proof.
  intros m s'. split; [reflexivity|]. split; [apply after_Done; vm_compute; reflexivity|].
  split_and!; vm_compute; reflexivity.
Qed.

(** The answer to a client's write is sent without the transaction id the
    protocol declares required ([SetRes.txid]): [learn] never sets it, and the check
    before sending looks at the outer message only. *)
Theorem set_answer_lacks_txid :
  let m := handle_event (CliRequest (cli_env 20 (cli_set 7 [1] [10]))) in
  let s' := after m (solo_a ∅) in
  m (solo_a ∅) = Done (tt, s') /\ last_learned_txid (rep_log s') = 1 /\
  map (fun r => (CliRes_get_req_id r, SetRes_get_success (CliRes_get_set r), SetRes_has_txid (CliRes_get_set r),
                 SetRes_is_initialized (CliRes_get_set r))) (sent_cli s') = [(7, true, false, false)].
Proof.
  intros m s'. split; [apply after_Done; vm_compute; reflexivity|].
  split_and!; vm_compute; reflexivity.
Qed.
