(* ===== verification/Witnesses.v ===== *)
(** * Instances of the theorems

    Each theorem about the log, the server invariant, elections, replication and
    clients, at a concrete input that meets its hypotheses. *)

From stdpp Require Import base tactics option list numbers strings gmap.
From Stdlib Require Import ZArith Lia Ascii.
From S2P Require Import Prelude BTreeMap Crates Reference Messages Protobuf ProtobufRef Serialization.
From S2P Require Import SerializationFacts Descriptor Reflection ReflectionFacts.
From S2P Require Import Clock Codec State AckedLog Server Transport ServerFacts Invariant Election.
From S2P Require Import KV Replication Commitment ClientApi Mio Connections Node Client Address Programs Cluster Voting Lease Scenario ClientRuns.

(** ** The log *)

Lemma append_correct_witness :
  exists l', append two_entries 1 3 (kv_set 1 3 [3] [30]) = Done l' /\
    get l' 3 = Some (kv_set 1 3 [3] [30]) /\ get l' 1 = Some (kv_set 1 1 [1] [10]).
Proof.
  destruct (proj2 (append_correct two_entries 1 3 (kv_set 1 3 [3] [30]) two_entries_wf) eq_refl)
    as (l' & Ha & _ & _ & _ & _ & Hg & Ho).
  exists l'. split_and!; [done..|]. rewrite Ho by lia. reflexivity.
Defined.

Lemma ack_up_to_correct_witness :
  exists l' out, ack_up_to two_entries 1 "b" = Done (l', out) /\
    get l' 1 = Some (kv_set 1 1 [1] [10]) /\ accepted_pos l' = (1, 2).
Proof.
  destruct (ack_up_to_correct two_entries 1 "b" two_entries_wf)
    as (l' & out & popped & Ha & _ & _ & _ & _ & _ & _ & Hp & Hg).
  exists l', out. split_and!; [done| |done]. rewrite Hg. reflexivity.
Defined.

Lemma commit_up_to_correct_witness :
  exists l' out, commit_up_to two_entries 1 = Done (l', out) /\
    accepted_pos l' = (1, 2) /\ Forall (fun p => p.2 <= 1) out.
Proof.
  destruct (commit_up_to_correct two_entries 1 two_entries_wf)
    as (l' & out & popped & Hc & _ & Hp & Ho & Hle & _ & _ & Ha & _).
  exists l', out. split_and!; [done..|]. vm_compute in Hc. injection Hc as <- <-.
  repeat constructor; vm_compute; congruence.
Defined.

(** ** The server *)

(** The next append for a peer can be sent. *)
Ltac writable := eexists; vm_compute; reflexivity.

(** A node elects itself with the votes of itself and "b", and serves a client. *)
Lemma server_invariant_witness :
  let es := [CronTick; PeerRequest (peer_env 10 (vote_res "a" 1 true));
    PeerRequest (peer_env 11 (vote_res "b" 1 true)); CliRequest (cli_env 20 (cli_set 7 [1] [2]))] in
  let s := run_init TestClock_new new_log "a" (∅ : DB) 7777 8888 ["a"; "b"; "c"] in
  run_events es s = Done (tt, after (run_events es) s) /\
  is_leader (state (after (run_events es) s)) = true /\ server_inv (after (run_events es) s).
Proof.
  intros es s. assert (H : run_events es s = Done (tt, after (run_events es) s)).
  { apply after_Done. vm_compute. reflexivity. }
  split_and!; [exact H|vm_compute; reflexivity|].
  refine (server_invariant TestClock_new new_log "a" (∅ : DB) 7777 8888 ["a"; "b"; "c"] es tt _
    _ (fun q => eq_refl) H).
  intros q. apply new_log_wf.
Defined.

Lemma lease_held_at (s : Server (C := TestClock) (L := InMemoryLog Mutation)) :
  valid_leader (state s) (TestClock_now (clock s)) = true -> lease_held s.
Proof. intros Hv n Hn. do 5 (destruct n as [|n]; [done|]). lia. Defined.

Lemma lease_not_preempted_witness :
  let e := PeerRequest (peer_env 12 (vote_req "c" 9 9 9)) in
  let s' := after (handle_event e) (leader_a 5) in
  handle_event e (leader_a 5) = Done (tt, s') /\ leader_of s' = leader_of (leader_a 5).
Proof.
  intros e s'. assert (H : handle_event e (leader_a 5) = Done (tt, s')).
  { apply after_Done. vm_compute. reflexivity. }
  split; [exact H|]. refine (lease_not_preempted e (leader_a 5) tt _ _ H).
  apply lease_held_at. reflexivity.
Defined.

Lemma vote_granted_only_if_witness :
  let vr := PeerMsg_get_vote_req (vote_req "c" 2 0 0) in
  let env := peer_env 12 (vote_req "c" 2 0 0) in
  let m := handle_vote_req env "c" vr in
  let s := follower_a 20 in
  m s = Done (tt, after m s) /\ highest_term (after m s) = 2 /\
  valid_leader (state s) (at_sec 20) = false.
Proof.
  intros vr env m s. assert (H : m s = Done (tt, after m s)).
  { apply after_Done. vm_compute. reflexivity. }
  destruct (vote_granted_only_if env "c" vr s tt (after m s) H) as (_ & _ & Hv & _ & Hh & _);
    [reflexivity|vm_compute; reflexivity|].
  split_and!; [exact H|exact Hh|exact Hv].
Defined.

Lemma vote_req_refused_witness :
  let vr := PeerMsg_get_vote_req (vote_req "c" 2 0 0) in
  let env := peer_env 12 (vote_req "c" 2 0 0) in
  exists b, handle_vote_req env "c" vr (follower_a 5) =
    Done (tt, set_rpc_tx (follower_a 5) [mkEnvelope (Some (addr 12)) 12 (ref_buf b)]).
Proof.
  intros vr env. destruct (vote_req_refused env "c" vr (follower_a 5) 1) as (b & _ & H);
    [done|reflexivity|reflexivity|reflexivity|writable|]. exists b. exact H.
Defined.

Lemma leader_needs_quorum_witness :
  let vr := PeerMsg_get_vote_res (vote_res "b" 1 true) in
  let env := peer_env 11 (vote_res "b" 1 true) in
  let m := handle_vote_res env "b" vr in
  let s := candidate_a 5 [10] in
  m s = Done (tt, after m s) /\
  exists votes : list Token, NoDup votes /\ 2 <= Z.of_nat (length votes) /\
    (forall x, x ∈ votes -> x ∈ [10] \/ x = 11).
Proof.
  intros vr env m s. assert (H : m s = Done (tt, after m s)).
  { apply after_Done. vm_compute. reflexivity. }
  split; [exact H|].
  destruct (leader_needs_quorum env "b" vr s tt (after m s) (at_sec 5) (candidate_a_inv 5))
    as (t & have & need & until & votes & Es & _ & _ & _ & Hnd & Hlen & Hv);
    [vm_compute; intuition congruence|exact H|reflexivity|vm_compute; reflexivity|].
  injection Es as <- <- <- <-. exists votes. auto.
Defined.

(** The second of two peers extends the lease in second seven. *)
Lemma leader_lease_extension_witness :
  let env := peer_env 12 (vote_res "c" 1 true) in
  let s := set_state (leader_a 7) (Leader 1 [11] 2 (at_sec 12)) in
  let s' := after (handle_event (PeerRequest env)) s in
  handle_event (PeerRequest env) s = Done (tt, s') /\ state s' = Leader 1 [] 2 (at_sec 19) /\
  exists votes, NoDup votes /\ 2 <= Z.of_nat (length votes) /\ forall x, x ∈ votes -> x ∈ [11] \/ x = 12.
Proof.
  intros env s s'. assert (H : handle_event (PeerRequest env) s = Done (tt, s')).
  { apply after_Done. vm_compute. reflexivity. }
  assert (state s' = Leader 1 [] 2 (at_sec 19)) as Hs by (vm_compute; reflexivity). split_and!; [exact H|exact Hs|].
  assert (server_inv s) as Hi.
  { destruct (leader_a_inv 7) as [? ? ? ? ? ? ?]. split; try assumption. split_and!; [apply NoDup_singleton|done|right; done]. }
  destruct (leader_lease_extension (PeerRequest env) s tt s' 1 [11] 2 (at_sec 12)
    1 [] 2 (at_sec 19) Hi H eq_refl Hs) as (_ & _ & _ & [Hu|(env' & pm & He & _ & _ & _ & Hv & _)]); [discriminate Hu|].
  injection He as <-. exact Hv.
Defined.

Lemma cron_starts_election_witness :
  exists s', cron (follower_a 20) = Done (tt, s') /\ state s' = Candidate 2 [] 2 (at_sec 32).
Proof.
  destruct (cron_starts_election (follower_a 20)) as [_ H];
    [reflexivity|reflexivity|vm_compute; intuition congruence|vm_compute; auto|
     vm_compute; intuition congruence|].
  destruct H as (s' & b & Hc & _ & Hs & _); [reflexivity|writable|]. exists s'. split; [exact Hc|exact Hs].
Defined.

(** ** Replication *)

Definition two_sets : PeerMsg := append_msg "b" 0 0 0 [kv_set 1 1 [1] [10]; kv_set 1 2 [2] [20]].

(** A store with no client waiting answers nobody. *)
Lemma nobody_answered (log : TXID -> option Mutation) learned kv ps :
  all_writable (kv_answers (kv_learn_all log learned (mkKVState kv [] []) ps)).
Proof.
  unfold kv_learn_all. revert kv. induction ps as [|[p f] ps IH]; intros kv; [constructor|]. cbn.
  destruct (log p.2); apply IH.
Defined.

Lemma handle_append_accepts_witness :
  exists l', log_pos l' = (1, 2) /\
    exists s', handle_append (peer_env 11 two_sets) "b" (PeerMsg_get_append two_sets) (follower_a 5) =
      Done (tt, s') /\ rep_log s' = l' /\ max_generated_txid s' = 2.
Proof.
  destruct (handle_append_accepts (peer_env 11 two_sets) "b" (PeerMsg_get_append two_sets) (follower_a 5)
    [kv_set 1 1 [1] [10]; kv_set 1 2 [2] [20]] (1, 2) (follower_a_inv 5))
    as (l & l' & ps & _ & _ & _ & Hq & Hrun); [reflexivity..|].
  exists l'. split; [exact Hq|].
  destruct Hrun as (s' & answers & b & E & El & Hm & _).
  - apply nobody_answered.
  - writable.
  - exists s'. split_and!; [exact E|exact El|exact Hm].
Defined.

Lemma handle_append_refuses_witness :
  let bad := append_msg "b" 0 0 0 [kv_set 2 1 [1] [10]; kv_set 1 2 [2] [20]] in
  let far := append_msg "b" 1 7 0 [] in
  is_panic (handle_append (peer_env 11 bad) "b" (PeerMsg_get_append bad) (follower_a 5)) /\
  exists b, handle_append (peer_env 11 far) "b" (PeerMsg_get_append far) (follower_a 5) =
    Done (tt, set_rpc_tx (follower_a 5) [mkEnvelope (Some (addr 11)) 11 (ref_buf b)]).
Proof.
  intros bad far. split.
  - apply (handle_append_refuses (peer_env 11 bad) "b" _ (follower_a 5) (follower_a_inv 5) eq_refl); reflexivity.
  - destruct (handle_append_refuses (peer_env 11 far) "b" (PeerMsg_get_append far)
      (follower_a 5) (follower_a_inv 5) eq_refl) as [_ (b & _ & E)]; [by intros [=]|writable|].
    exists b. exact E.
Defined.

Lemma leader_append_only_witness :
  let e := PeerRequest (peer_env 11 (append_res "b" true 1 1)) in
  let s' := after (handle_event e) (leader_a 5) in
  handle_event e (leader_a 5) = Done (tt, s') /\ log_kept (rep_log (leader_a 5)) (rep_log s').
Proof.
  intros e s'. assert (H : handle_event e (leader_a 5) = Done (tt, s')).
  { apply after_Done. vm_compute. reflexivity. }
  split; [exact H|]. exact (leader_append_only e (leader_a 5) tt _ (leader_a_inv 5) eq_refl H).
Defined.

Lemma leader_proposes_witness :
  let req := cli_env 20 (cli_set 7 [3] [30]) in
  exists s', handle_cli req (leader_a 5) = Done (tt, s') /\
    get (rep_log s') 3 = Some (kv_set 1 3 [3] [30]) /\ get (rep_log s') 1 = Some (kv_set 1 1 [1] [10]).
Proof.
  intros req.
  destruct (leader_proposes req (cli_set 7 [3] [30]) (leader_a 5) 1 (kv_set 1 3 [3] [30])
    (leader_a_inv 5)) as (l1 & l2 & ps & Ea & Ek & Hg & Ho & Hrun); [reflexivity..|].
  vm_compute in Ea. injection Ea as <-. vm_compute in Ek. injection Ek as <- <-.
  destruct Hrun as (s' & answers & appends & E & El & _).
  - constructor.
  - repeat constructor; try writable; vm_compute; congruence.
  - exists s'. split; [exact E|]. rewrite El. split; reflexivity.
Defined.

Lemma append_res_commits_witness :
  let m := append_res "b" true 1 1 in
  exists s', handle_append_res (peer_env 11 m) "b" (PeerMsg_get_append_res m) (leader_a 5) = Done (tt, s') /\
    db_contents (db s') = {[ [1] := [10] ]}.
Proof.
  intros m. destruct (append_res_commits (peer_env 11 m) "b" (PeerMsg_get_append_res m) (leader_a 5)
    (peer "b" 11).2 (leader_a_inv 5)) as (l & ps & Ek & _ & Hrun); [reflexivity..|].
  vm_compute in Ek. injection Ek as <- <-.
  destruct Hrun as (s' & answers & E & _ & _ & Hd & _); [constructor|].
  exists s'. split; [exact E|]. rewrite Hd. reflexivity.
Defined.

(** ** Commitment *)

(** A follower accepts two entries and learns up to the second in one append. *)
Definition two_learned : PeerMsg := append_msg "b" 0 0 2 [kv_set 1 1 [1] [10]; kv_set 1 2 [2] [20]].

Lemma follower_loses_entry_witness :
  let s := follower_a 5 in
  exists s', handle_append (peer_env 11 two_learned) "b" (PeerMsg_get_append two_learned) s = Done (tt, s') /\
    last_learned_txid (rep_log s') = 2 /\ get (rep_log s') 1 = None /\ get (rep_log s') 2 = Some (kv_set 1 2 [2] [20]) /\
    db_contents (db s') = {[ [2] := [20] ]}.
Proof.
  intros s. destruct (follower_loses_entry (peer_env 11 two_learned) "b" (PeerMsg_get_append two_learned) s
    [kv_set 1 1 [1] [10]; kv_set 1 2 [2] [20]] (1, 2) (follower_a_inv 5)) as (l' & m & Hm & Hl & Hx & Hlost & _ & Hrun);
    [reflexivity..|intros x _; reflexivity|].
  cbn in Hl. subst m. destruct Hrun as (s' & E & El & Hd); [apply nobody_answered|writable|].
  exists s'. rewrite El. split_and!; [exact E|exact Hx|apply (Hlost 1); vm_compute; auto|exact Hm|rewrite Hd; vm_compute; reflexivity].
Defined.


(** ** Clients *)

Lemma client_redirected_witness :
  let req := cli_env 20 (cli_get 7 [1]) in
  exists s', handle_cli req (follower_a 5) = Done (tt, s') /\
    answered (follower_a 5) req
      (CliRes_set_redirect (answer_to (cli_get 7 [1])) (redirection (state (follower_a 5)))) s' /\
    RedirectRes_get_address (redirection (state (follower_a 5))) = "127.0.0.1:11".
Proof.
  intros req. destruct (client_redirected req (cli_get 7 [1]) (follower_a 5)) as (s' & E & Ha);
    [reflexivity|vm_compute; reflexivity|writable|].
  exists s'. split_and!; [exact E|exact Ha|vm_compute; reflexivity].
Defined.

Lemma leader_get_witness :
  let req := cli_env 20 (cli_get 7 [1]) in
  let s := solo_a {[ [1] := [10] ]} in
  let res := get_response (GetReq_set_key GetReq_new [1]) (db s) 0 in
  (exists s', handle_cli req s = Done (tt, s') /\
    answered s req (CliRes_set_get (answer_to (cli_get 7 [1])) res) s') /\
  GetRes_get_success res = true.
Proof.
  intros req s res. destruct (leader_get req (cli_get 7 [1]) s) as (Hrun & _ & _ & Hv & _);
    [reflexivity|vm_compute; reflexivity|reflexivity|writable|].
  split; [exact Hrun|exact (Hv [10] eq_refl)].
Defined.

Lemma unparsable_request_panics_witness :
  is_panic (handle_event (CliRequest (mkEnvelope (Some (addr 20)) 20 (ref_buf [255]))) (leader_a 5)).
Proof.
  apply (unparsable_request_panics (mkEnvelope (Some (addr 20)) 20 (ref_buf [255])) (leader_a 5)).
  reflexivity.
Defined.


Lemma cas_cannot_create_witness :
  let req := cli_env 20 (cli_cas 7 [9] [2]) in
  exists m, Mutation_get_key m = [9] /\
    handle_cli req (leader_a 5) = propose req 7 3 m (set_max_generated_txid (leader_a 5) 3) /\
    cas_fails [9] 1 3 (node 5 Init [] 3 1 (mkLog [(3, mkAcked [] (mkLogEntry 3 1 0 0 m))] [] 2 0 0 3 1)).
Proof.
  intros req. destruct (cas_cannot_create req (cli_cas 7 [9] [2]) (leader_a 5) 1) as (m & Hk & Hp & Hf);
    [reflexivity|reflexivity|vm_compute; intuition congruence|vm_compute; reflexivity|reflexivity..|].
  exists m. split_and!; [exact Hk|exact Hp|by apply Hf].
Defined.

(** ** The wire *)

Lemma vote_req_ok : PeerMsg_ok (vote_req "b" 5 3 2).
Proof.
  repeat first
    [ reflexivity | intros v Hv; first [discriminate Hv|injection Hv as <-] | split | by vm_compute ].
Defined.

Lemma vote_req_sendable : sendable_peer (vote_req "b" 5 3 2).
Proof. split_and!; [exact vote_req_ok|reflexivity..]. Defined.

(** A vote request on the wire. *)
Lemma messages_roundtrip_witness :
  let m := vote_req "b" 5 3 2 in
  write_to_bytes PeerMsg_impl m = Some [10; 1; 98; 18; 6; 8; 5; 16; 3; 40; 2] /\
  exists m', parse_from_bytes PeerMsg_impl [10; 1; 98; 18; 6; 8; 5; 16; 3; 40; 2] = Some m' /\ PeerMsg_eq m' m = true.
Proof.
  intros m. destruct messages_roundtrip as
    (_ & _ & _ & _ & _ & _ & _ & _ & _ & _ & _ & _ & _ & _ & _ & _ & _ & _ & _ & H).
  exact (H m vote_req_ok eq_refl).
Defined.


(** A key of one byte and a value of two, which take three turns, and truncated input: a
    tag announces five bytes and two follow. *)
Lemma merge_from_terminates_witness :
  (exists r, merge_loop SetReq_merge_field 9 SetReq_new [10; 1; 1; 18; 2; 2; 3] = Ended (Some r) /\
     SetReq_get_key r.1 = [1] /\ SetReq_get_value r.1 = [2; 3]) /\
  merge_loop SetReq_merge_field 2 SetReq_new [10; 1; 1; 18; 2; 2; 3] = OutOfTurns /\
  merge_loop SetReq_merge_field 9 SetReq_new [10; 5; 1; 2] = Ended None.
Proof.
  destruct merge_from_terminates as [H _].
  destruct (H 9%nat SetReq_new [10; 1; 1; 18; 2; 2; 3]) as (r1 & -> & H1); [cbn; lia|].
  destruct (H 9%nat SetReq_new [10; 5; 1; 2]) as (r2 & -> & H2); [cbn; lia|].
  vm_compute in H1, H2. subst r1 r2. split_and!; [eexists; split_and!; reflexivity|vm_compute; reflexivity|reflexivity].
Defined.

(** ** One leader at a time *)

Definition same_untilb (o o' : option Timespec) : bool :=
  match o, o' with
  | Some u, Some u' => (sec u =? sec u') && (nsec u =? nsec u')
  | None, None => true
  | _, _ => false
  end.

Definition steadyb (c c' : Cluster) : bool :=
  forallb (fun p => (highest_term p.1 <=? highest_term p.2) &&
    (negb (is_leader (state p.1) && is_leader (state p.2)) || same_untilb (state_until (state p.2)) (state_until (state p.1))))
    (zip (cl_nodes c) (cl_nodes c')).

Lemma same_untilb_ok o o' : same_untilb o o' = true -> o = o'.
Proof.
  destruct o as [[a b]|], o' as [[a' b']|]; cbn; try done. by intros [->%Z.eqb_eq ->%Z.eqb_eq]%andb_true_iff.
Defined.

Lemma steadyb_ok (c c' : Cluster) : steadyb c c' = true -> steady c c'.
Proof.
  unfold steadyb. intros Hb i s s' Hs Hs'.
  assert (zip (cl_nodes c) (cl_nodes c') !! i = Some (s, s')) as Hz by (by apply lookup_zip_Some).
  apply list_elem_of_lookup_2, list_elem_of_In in Hz. apply (proj1 (List.forallb_forall _ _) Hb) in Hz. cbn in Hz.
  apply andb_true_iff in Hz as [Hh%Z.leb_le Hu]. split; [exact Hh|]. intros Hl Hl'. rewrite Hl, Hl' in Hu. by apply same_untilb_ok.
Defined.

(** A run that is checked as it goes. *)
Fixpoint steady_acts (c : Cluster) (l : list Action) : option Cluster :=
  match l with
  | [] => Some c
  | a :: l => c' ← act c a; if steadyb c c' then steady_acts c' l else None
  end.

Lemma steady_acts_run (c0 c c' : Cluster) l : steady_run c0 c -> steady_acts c l = Some c' -> steady_run c0 c'.
Proof.
  revert c. induction l as [|a l IH]; intros c Hr; cbn -[act]; [by intros [= <-]|].
  destruct (act c a) as [c1|] eqn:E; [|done]. cbn -[act]. destruct (steadyb c c1) eqn:Hb; [|done].
  apply IH. eapply steady_step; [exact Hr|exact E|by apply steadyb_ok].
Defined.

(** "a" is elected by itself and "b", and keeps asking "c". *)
Definition elect_a : list Action :=
  [Cron 0; Deliver 0 0 0; Deliver 0 0 1; Deliver 0 1 0; Deliver 1 0 0; Wait 5; Deliver 0 0 2; Deliver 2 0 0]%nat.
Definition no_store : DB := (∅ : gmap (list Z) (list Z)).
Definition abc : Cluster := start_cluster no_store ["a"; "b"; "c"].
Definition elected : option Cluster := steady_acts abc elect_a.

Definition leadsb (c : Cluster) (i : nat) : bool :=
  match cl_nodes c !! i with
  | Some s => is_leader (state s) && valid_leader (state s) (at_sec (cl_time c))
  | None => false
  end.

Lemma leadsb_ok (c : Cluster) i : leadsb c i = true -> leads c i.
Proof.
  unfold leadsb, leads. destruct (cl_nodes c !! i) as [s|]; [|done]. intros [? ?]%andb_true_iff. by exists s.
Defined.

Lemma elected_run c : elected = Some c -> steady_run abc c.
Proof. apply steady_acts_run, steady_refl. Defined.

Lemma names_differ : NoDup ["a"; "b"; "c"].
Proof. repeat (constructor; [set_solver|]). constructor. Defined.

Lemma one_valid_leader_witness :
  exists c, elected = Some c /\ leads c 0%nat /\ forall b, leads c b -> b = 0%nat.
Proof.
  assert ((fun c => (leadsb c 0, cl_time c)) <$> elected = Some (true, 5)) as Hc by (vm_compute; reflexivity).
  pose proof elected_run as Hrun. destruct elected as [c|]; [|discriminate Hc]. injection Hc as Hl Ht.
  exists c. split; [reflexivity|]. split; [apply leadsb_ok, Hl|]. intros b Hb. symmetry.
  refine (one_valid_leader ["a"; "b"; "c"] names_differ _ _ no_store c 0%nat b (Hrun c eq_refl) _ (leadsb_ok c _ Hl) Hb).
  - repeat constructor.
  - vm_compute. congruence.
  - rewrite Ht. vm_compute. congruence.
Defined.

(** ** The descriptor *)

Lemma codegen_equivalence_witness :
  let m := SetReq_set_value (SetReq_set_key SetReq_new [1]) [2; 3] in
  write_to_bytes SetReq_impl m = Some (encode_fields rasputin_proto SetReq_proto (reflect SetReq_descriptor_static m)) /\
  encode_fields rasputin_proto SetReq_proto (reflect SetReq_descriptor_static m) = [10; 1; 1; 18; 2; 2; 3].
Proof.
  intros m. destruct (proj1 (proj2 codegen_equivalence)) as (mp & Hf & _ & Hm). lazy in Hf. injection Hf as <-.
  split; [|vm_compute; reflexivity]. refine (proj2 (Hm m _ _)); [|vm_compute; reflexivity]. repeat split; intros v [= <-]; repeat constructor; vm_compute; congruence.
Defined.

(** ** Starting *)

#[local] Existing Instance ref_Mio.

(** Every port can be bound, and every directory opened. *)
#[local] Instance ref_StartCrates : StartCrates := {|
  tcp_bind _ el := (inl [], el);
  register_listener _ t e el := (inl tt, (t, e) :: el);
  Disk := list string;
  DBOptions := unit;
  DBOptions_new := tt;
  optimize_level_style_compaction o _ := o;
  create_if_missing o _ := o;
  DB_open _ dir disk := (inl no_store, dir :: disk);
  DB_open_cf _ dir _ disk := if bool_decide (dir ∈ disk) then (inl no_store, disk) else (inr "not found", disk);
  DB_create_cf db _ _ disk := (inl tt, db, disk);
|}.

Lemma host_names_panic_witness :
  is_panic (run TestClock_new "a" 7770 8880 "/var/lib/rasputin" ["foo.baz.com:7777"] ([] : EventLoop) ([] : Disk)) /\
  match run TestClock_new "a" 7770 8880 "/var/lib/rasputin" ["10.0.0.1:7770"] ([] : EventLoop) ([] : Disk) with
  | Done (n, disk) => (map peer_address (cop_peers (nd_cop n)), disk)
  | Panic _ => ([], [])
  end = ([mkAddr (10, 0, 0, 1) 7770], ["/var/lib/rasputin"]).
Proof.
  split; [|vm_compute; reflexivity].
  refine (host_names_panic TestClock_new "a" 7770 8880 "/var/lib/rasputin" ["foo.baz.com:7777"] ([] : EventLoop) ([] : Disk) _ _ _);
    [lia|lia|]. by repeat constructor.
Defined.

#[local] Existing Instance ref_ClientCrates.

(** Addresses for both programs. *)
Definition two_servers : list SocketAddr := [addr 7770; addr 7771].

Lemma peers_roundtrip_witness :
  join ","%char (map SocketAddr_debug two_servers) = "127.0.0.1:7770,127.0.0.1:7771" /\
  dials (mkServerArgs false None None "127.0.0.1:7770,127.0.0.1:7771" None None) two_servers /\
  rasputinc_main 9 (mkClientArgs false (Some "127.0.0.1:7770,127.0.0.1:7771") (Some "k,v,w") None None None) [] =
    (o ← Client_set 9 (string_bytes "k") (string_bytes "v,w") (Client_new two_servers 1) [];
     Some ('(r, _, net) ← o; _ ← unwrap_io r; Done (Returned, net))).
Proof.
  assert (Forall addr_ok two_servers) as Ha by (repeat constructor; vm_compute; congruence).
  split; [reflexivity|]. destruct (peers_roundtrip two_servers Ha) as [Hd Hc]. split.
  - by apply (Hd false None None None None).
  - by apply (Hc 9%nat false "k" "v,w" "k,v,w" None None None []).
Defined.
